(* ===== verification/_CoqProject ===== *)
-Q . S2P
Prelude.v
GoStd.v
Config.v
Cipher.v
Packet.v
PacketFacts.v
Stun.v
Util.v
Noise.v
NoiseFacts.v
Hub.v
HubWs.v
HubUdp.v
HubFrame.v
Lease.v
Interleave.v
Ledger.v
HubBuffers.v
HubLoops.v
P2PFacts.v
ServerRun.v
RelayFacts.v
Client.v
ClientUdp.v
Tun.v
TunFacts.v
ClientFacts.v
Link.v
ControlPath.v
P2PPath.v
DnsPath.v
FirstContact.v
Board.v
Session.v
ClientRun.v
