(* ===== verification/Prelude.v ===== *)
(** * A verification library for easytun

    easytun is a layer-3 tunnel: clients own a TUN device each, a server hands
    out virtual addresses in 10.0.6.0/24 over WebSocket control connections and
    relays sealed datagrams over UDP; two clients may also talk directly after
    NAT hole punching.  Payloads are sealed end to end with keys of a Noise IK
    handshake.  The library models the Go code under [src/internal], [src/cmd]
    and [src/assets] as functions over explicit state and proves what makes it
    correct.

    ** Parts of the program and where they are modelled

    - [Prelude.v] (this file): bytes and machine words with their wrap-around,
      big-endian encodings, Go slices with backing array, capacity and aliasing
      ([gslice]), addresses of both IP versions ([addrPort]) and those whose IP
      is a part of some array ([UDPAddr]), [sync.Pool] ([pool]), the ownership
      discipline of pooled buffers ([owned]), errors ([errorcode]), tactics and the hint database
      [go].
    - [GoStd.v]: what the code uses of Go's library beyond that: [float64]
      arithmetic ([SpecFloat] with 53 bits), [%.2f] and [time.ParseDuration].
    - [Config.v]: [config/config.go], [util/initial.go], the [init] functions of
      [assets] and both [main] programs, over a file system with permissions;
      TOML decoding is the class [Toml].
    - [Cipher.v]: [protocol/cipher.go].  ChaCha20-Poly1305 is the class [AEAD]
      with laws [AEADLaws]; nonces are pairwise distinct.
    - [Packet.v]: [protocol/packet.go] and [compress.go], one definition per
      function; LZ4 is the class [LZ4].  [PacketFacts.v]: round trips in every
      mode, canonical parsing, size bounds, what is authenticated and what is
      not, and that no buffer is ever in two hands.
    - [Noise.v]: [protocol/noise.go]; the handshake library is the class
      [Noise] with laws [NoiseLaws] (documented behaviour of the two-message IK
      pattern).  [NoiseFacts.v]: session invariant over all operations, no nil
      dereference, key agreement, collisions, expiry; the panic of a packet that
      is queued while the handshake ends.
    - [Stun.v]: [internal/stun], tunnel table, peer status, NAT types.
    - [Util.v]: [internal/util], endpoint encodings, the IPv4/UDP packet around
      a DNS answer with its checksums, host names, byte units.
    - [Hub.v], [HubWs.v], [HubUdp.v]: the server.  [Hub] is the state of
      [server.go] and [server_hub.go] (routing snapshot, free addresses,
      retention, DNS table, queues), with client objects kept by reference;
      [HubWs] has the handlers and pumps of [server_ws.go] and the scheduler of
      [server_p2p.go]; [HubUdp] has [transfer], [server_udp.go] and the
      responder of [server_dns.go].  [HubFrame.v] says which operations leave
      the address book alone.  [HubLoops.v] has the loops: [readPump] and
      [writePump] of a connection taking turns, [serverWS] from upgrade to
      disconnection, [listenUdp], [listenCheck].  [ServerRun.v] has [Run]: the
      services it starts, and then the whole server as a step relation in which
      all connections and services interleave, and a handshake or disconnection
      is taken apart at its locks.
    - [Client.v], [ClientUdp.v]: the client.  [ClientTransport] is the state of
      [client.go]; [Client] has [client_control.go] and [client_p2p.go],
      [ClientUdp] has [packetSend], [packetRecv], one iteration of the loops of
      the Linux TUN device and the back-off of the reconnection loop.
      [ClientRun.v] has the whole client as a step relation over the iterations
      of all its goroutines, and the ways in which it ends by a panic.
    - [Tun.v]: [internal/tun], set-up, packet loops and closing of the Linux and
      the Windows device as sequences of calls to the operating system.  The
      class [Device] is the interface of [interface.go]; [TunFacts.v] has what
      the client relies on ([TunDevice], [DeviceLaws]), with both platforms as
      instances.
    - [Board.v]: [ui/performance.go] and [client_ui.go], the status board and its
      loop; drawing is the class [Pterm].
    - [Session.v]: [ListenAndServe] of [client.go] as a whole (sockets, devices,
      board), the broadcast test, the goroutines of one session as a step
      relation, and the signal handling of [cmd/client].

    ** How state and effects are modelled

    A method that runs under one mutex, or one iteration of a goroutine's loop
    (one message, one datagram, one tick, one batch), is one definition.  Atomic
    snapshots are the current value of the field.  Channels are lists with
    their capacity; [select] with [default] tests for room, and a boolean
    argument [done] says that the [ctx.Done()] case was taken.  Clocks, sockets
    and random sources are arguments.  A panic is [None] or [Panics].

    ** What the theorems show

    - [Interleave.v]: the server split at its lock boundaries ([sec_step]),
      whatever its clients do.  No schedule makes two live connections share an
      address; two schedules are exhibited under which a route or an address is
      lost.
    - [Ledger.v]: an abstract account of every address ([ledger_step]: free,
      held, kept or lost) and the refinement that every run of the sections
      follows it.  A second handshake on a connection loses its first address
      for good; an expired place is freed by the next clean-up.
    - [ServerRun.v]: the whole server follows the ledger, in every interleaving
      and whatever its clients send; exactly when one of its conversions of an
      endpoint can panic; two handshakes at once can get the same name.
    - [Lease.v]: orderly runs ([orderly_step]), in which clients shake hands once
      per connection, with an identity that is offline, and handshakes and
      disconnections do not overlap.  The server does not enforce this; where it
      holds, a stronger specification ([lease_step]) is refined: addresses are
      partitioned, routes and names are exact, and a reconnecting client gets
      its place back.
    - [HubLoops.v]: a whole connection that shakes hands at most once is an
      orderly run and leaves no route; one that shakes hands 253 times takes all
      addresses; one whose writer dies may never end.
    - [HubBuffers.v]: in every reachable state the buffers in the server's queues
      and the free ones of its pool are pairwise different arrays.
    - [P2PFacts.v]: at most six attempts per pair as long as [ifEstablish] runs
      one at a time, and two at once when it does not; exactly which commands a
      P2P task sends; exactly when it panics, and a three-message run in which
      one packet stops the server.
    - [RelayFacts.v]: [transfer] against a reference definition of delivery, a
      datagram relayed unchanged, DNS answers.
    - [ClientFacts.v]: a packet from one TUN device to the other through both
      clients and the server; peer upkeep; the back-off schedule and its
      overflow; the first packet of a session crossing in the clear and its
      copy kept in the read buffer; the buffer shared by the DNS path.
    - [ControlPath.v]: a client joins the network, and both sides agree on its
      address, name, identity, NAT type and key.
    - [FirstContact.v]: from the first packet for an unknown peer, through the
      key question, the answer and two relayed handshake messages, to a finished
      session on both sides.
    - [Link.v]: whichever datagrams arrive, in any order and number, are opened
      and delivered: loss and reordering do no harm, and replays are accepted.
    - [P2PPath.v]: from a scheduled P2P task to a direct path between two
      clients; anyone can divert it with a forged ping, and the next command
      changes the endpoint the last one brought; a bare header keeps a session
      alive.
    - [ClientRun.v]: over all interleavings and sessions, an invariant that
      excludes accesses through nil or out of range, and where a packet for a
      peer can go: sealed to the socket, nowhere yet, or unsealed into the
      question for the peer's key.
    - [DnsPath.v]: a name looked up from a TUN device, through the server and
      back into the device.
    - [Config.v]: a configuration that loads is well formed; a client's identity
      survives restarts.
    - [TunFacts.v]: both platforms hand on the same packets; interface names fit;
      a replaced device still takes packets; a started device ends with the
      program.
    - [Board.v]: the charts show the last five differences, drawing stays within
      its histories, the loop ends with the closing status.
    - [Session.v]: exactly how many connections stay open over any number of
      rounds; a cancelled session ends, except for one way in which it hangs;
      the first signal cancels the program and later ones do nothing.

    ** Fuel and bounds

    Four loops are not structural.  [checksum] folds carries at most three times
    ([fold_carry_done]: more rounds change nothing).  [UniqueHostName] tries one
    more candidate than there are names, which always suffices
    ([UniqueHostName_fresh]).  [FormatBytes_unit] divides at most seven times
    ([format_loop_spec]).  [ParseDuration] takes one number with its unit per
    round and gets as many rounds as the text has bytes
    ([durationParts_fuel]: more change nothing).  All other recursion is on
    lists; a loop over a socket or a ticker is a function of the list of what it
    delivers.

    ** What is not modelled, and what is assumed

    Libraries (AEAD, LZ4, Noise, DNS messages, TOML, terminal drawing, ICMP
    echo) are classes; each that a theorem relies on has a concrete instance on
    which the examples run.  The outcome of NAT probing and the bytes of the
    test's IP header are arguments.  The operating system's calls are recorded
    with an oracle that says which succeed.  Not modelled, because they only
    call library code: the content the profiling server serves (it is a port in
    use), deadlines and socket options, log messages, the HTTP upgrade.
    [sync.Pool.Get] takes the most recently returned buffer; statements
    quantify over every pool.  The drain of queued packets into [FromTun]
    assumes room in that channel; what happens without room is in [Session],
    where every packet of the drain is a step of its own.  Handshakes and
    disconnections interleave at lock boundaries in [Interleave], [Ledger] and
    [ServerRun]; otherwise one iteration of a goroutine's loop is one step in
    [ServerRun] and [ClientRun], except that a worker of the client can be
    interrupted between the test and the send of [AddPendingData].  The endpoint
    of a P2P command shares the read buffer of the control connection, and later
    messages change it ([overwritePeers]); the packet that comes back with a key
    answer shares it too, and its later overwriting is not modelled.  The pauses
    between the datagrams of hole punching are not modelled; the clock is read
    anew for every peer.

    ** Plan

    Next: the direct path between a cone and a symmetric NAT (prediction through
    the check port), and two clients and the server as one system. *)

From stdpp Require Import base numbers list gmap strings option tactics sorting.

Local Open Scope Z_scope.

(** ** Bytes and machine words

    A Go [byte] and the wider unsigned integers are kept as [Z]; every place
    where the source converts to a width applies the corresponding wrap. *)

Abbreviation bytes := (list Z) (only parsing).

(** [[4]byte] arrays are comparable values in Go and are used as map keys. *)
Abbreviation ip4 := (Z * Z * Z * Z)%type (only parsing).

Definition u8 (z : Z) : Z := z mod 2 ^ 8.
Definition u16 (z : Z) : Z := z mod 2 ^ 16.
Definition u32 (z : Z) : Z := z mod 2 ^ 32.
Definition u64 (z : Z) : Z := z mod 2 ^ 64.

(** A list all of whose elements are bytes. *)
Definition is_byte (b : Z) : Prop := 0 <= b < 256.
Definition bytes_ok (l : bytes) : Prop := Forall is_byte l.

(** Go's [len], an [int]. *)
Definition len {A} (l : list A) : Z := Z.of_nat (length l).

(** [x &^ y] (bit clear). *)
Definition bitclear (x y : Z) : Z := Z.ldiff x y.

(** ** encoding/binary, big endian *)

Definition PutUint16 (v : Z) : bytes := [u8 (Z.shiftr v 8); u8 v].

Definition Uint16 (b : bytes) : Z :=
  match b with
  | b0 :: b1 :: _ => Z.lor b1 (Z.shiftl b0 8)
  | _ => 0
  end.

Definition PutUint64 (v : Z) : bytes :=
  [u8 (Z.shiftr v 56); u8 (Z.shiftr v 48); u8 (Z.shiftr v 40); u8 (Z.shiftr v 32);
   u8 (Z.shiftr v 24); u8 (Z.shiftr v 16); u8 (Z.shiftr v 8); u8 v].

(** ** Arrays and slices of bytes *)

Definition ip4_zero : ip4 := (0, 0, 0, 0).

Definition ip4_bytes (a : ip4) : bytes :=
  let '(a0, a1, a2, a3) := a in [a0; a1; a2; a3].

(** Conversion [[4]byte(l)]: Go panics when [l] is shorter than four bytes;
    every use in the source is guarded by a length check. *)
Definition to_ip4 (l : bytes) : ip4 :=
  match l with
  | a0 :: a1 :: a2 :: a3 :: _ => (a0, a1, a2, a3)
  | _ => ip4_zero
  end.

(** [l[i:j]] *)
Definition sub {A} (l : list A) (i j : nat) : list A := take (j - i) (drop i l).

(** [bytes.Compare] on equal-length arrays is lexicographic comparison. *)
Fixpoint bytes_compare (a b : bytes) : comparison :=
  match a, b with
  | [], [] => Eq
  | [], _ :: _ => Lt
  | _ :: _, [] => Gt
  | x :: a', y :: b' =>
      match Z.compare x y with Eq => bytes_compare a' b' | c => c end
  end.

(** ** Results of fallible code *)

(** The sentinel errors of [internal/errorcode], and the errors that library
    calls return to the code, by the place that produced them. *)
Inductive error : Type :=
  | InvalidMagic
  | PayloadMismatch
  | PacketTooShort
  | MissingPublicKey
  | ParseDNSError
  | ErrDecrypt              (** [aead.Open] failed *)
  | ErrLz4                  (** [lz4.UncompressBlock] failed *)
  | ErrLz4Length            (** decompressed length out of range *)
  | ErrNoise                (** a Noise library call failed *)
  | ErrNoiseCollision       (** "noise: collision, wait for peer response" *)
  | ErrNoiseState           (** "noise: invalid state" *)
  | ErrNoVirtualIp          (** no address left to assign *)
  | ErrRawTooShort          (** "raw response too short" *)
  | ErrDns                  (** a DNS library call failed *)
  | ErrNatType              (** NAT probing failed or gave an unknown type *)
  | ErrIO.                  (** a socket or device call failed *)

#[export] Instance error_eq_dec : EqDecision error.
Proof. solve_decision. Defined.

Inductive res (A : Type) : Type :=
  | Ok (a : A)
  | Err (e : error).
Arguments Ok {A} a.
Arguments Err {A} e.

(** ** Go byte slices with their backing array

    [sdata] is what [len] and indexing see, [stail] is the rest of the
    backing array up to the capacity, and [sid] names the backing array, so
    that two slices with the same [sid] alias.  [sid = 0] is the nil slice. *)

Record gslice := Slice { sid : nat; sdata : bytes; stail : bytes }.

Definition nil_slice : gslice := Slice 0 [] [].

Definition slen (s : gslice) : Z := len (sdata s).
Definition scap (s : gslice) : Z := len (sdata s) + len (stail s).

(** [s[:n]], for [n] up to the capacity. *)
Definition reslice (n : nat) (s : gslice) : gslice :=
  let whole := sdata s ++ stail s in Slice (sid s) (take n whole) (drop n whole).

(** [s[i:]] *)
Definition slice_from (i : nat) (s : gslice) : gslice :=
  Slice (sid s) (drop i (sdata s)) (stail s).

(** [copy(s, src)] *)
Definition slice_copy (s : gslice) (src : bytes) : gslice :=
  Slice (sid s) (take (length (sdata s)) src ++ drop (length src) (sdata s)) (stail s).

(** [copy(s[i:], src)], seen from [s]. *)
Definition slice_copy_at (i : nat) (s : gslice) (src : bytes) : gslice :=
  let tl := drop i (sdata s) in
  Slice (sid s) (take i (sdata s) ++ take (length tl) src ++ drop (length src) tl) (stail s).

(** ** UDP endpoints

    The sockets are dual-stack: a peer has an IPv4 address or an IPv6 address.
    A [net.UDPAddr] holds its IP as a slice; [ua_array] is the array of that
    slice when somebody else writes to it, and [None] when it is its own. *)
Inductive host : Type := V4 (a : ip4) | V6 (a : bytes).

#[export] Instance host_eq_dec : EqDecision host.
Proof. solve_decision. Defined.

Abbreviation addrPort := (host * Z)%type (only parsing).

Record UDPAddr := mkUDPAddr { ua_addr : addrPort; ua_array : option nat }.

(** An address the socket reported. *)
Definition fresh_addr (a : addrPort) : UDPAddr := mkUDPAddr a None.

(** ** sync.Pool of byte slices

    [pfree] are the slices put back and not yet taken, [pfresh] the next
    unused backing-array name, [pnew] the length the pool's [New] allocates.
    [sync.Pool.Get] may return any pooled slice or a new one; statements
    quantify over every pool, so taking the head loses no behaviour. *)

Record pool := Pool { pfree : list gslice; pfresh : nat; pnew : nat }.

(** [make([]byte, n)] *)
Definition make (n : nat) (p : pool) : gslice * pool :=
  (Slice (pfresh p) (replicate n 0) [], Pool (pfree p) (S (pfresh p)) (pnew p)).

Definition Get (p : pool) : gslice * pool :=
  match pfree p with
  | s :: r => (s, Pool r (pfresh p) (pnew p))
  | [] => make (pnew p) p
  end.

Definition Put (s : gslice) (p : pool) : pool :=
  Pool (s :: pfree p) (pfresh p) (pnew p).

(** ** Buffer ownership

    [owned held p]: no backing array is at once in two of the slices held by
    the code and the slices free in the pool.  It is what makes a pooled
    buffer safe to write: nobody else can see it. *)

Definition ids (l : list gslice) : list nat := filter (λ i, i ≠ 0%nat) (sid <$> l).

Definition owned (held : list gslice) (p : pool) : Prop :=
  NoDup (ids (held ++ pfree p)) ∧
  Forall (λ i, i < pfresh p)%nat (ids (held ++ pfree p)) ∧
  (0 < pfresh p)%nat.

(** * Automation *)

(** Hints that settle lengths, word widths and ownership side conditions. *)
Create HintDb go.

(** Push [len] through list operations and finish with [lia]. *)
Ltac len_lia :=
  unfold slen, scap, len in *;
  rewrite ?length_app, ?length_take, ?length_drop, ?length_replicate in *;
  simpl in *; lia.

(** Split a boolean guard of the source into its arithmetic meaning. *)
Ltac bool_cases :=
  repeat match goal with
  | H : (_ && _)%bool = true |- _ => apply andb_true_iff in H as [? ?]
  | H : (_ || _)%bool = false |- _ => apply orb_false_iff in H as [? ?]
  | H : (_ <? _) = true |- _ => apply Z.ltb_lt in H
  | H : (_ <? _) = false |- _ => apply Z.ltb_ge in H
  | H : (_ <=? _) = true |- _ => apply Z.leb_le in H
  | H : (_ <=? _) = false |- _ => apply Z.leb_gt in H
  | H : (_ =? _) = true |- _ => apply Z.eqb_eq in H
  | H : (_ =? _) = false |- _ => apply Z.eqb_neq in H
  | H : negb _ = true |- _ => apply negb_true_iff in H
  | H : negb _ = false |- _ => apply negb_false_iff in H
  | H : bool_decide _ = true |- _ => apply bool_decide_eq_true in H
  | H : bool_decide _ = false |- _ => apply bool_decide_eq_false in H
  end.

(** * Words *)

Lemma u8_range z : 0 <= u8 z < 256.
Proof. unfold u8. apply Z.mod_pos_bound. lia. Qed.

Lemma u16_range z : 0 <= u16 z < 65536.
Proof. unfold u16. apply Z.mod_pos_bound. lia. Qed.

Lemma u64_range z : 0 <= u64 z < 2 ^ 64.
Proof. unfold u64. apply Z.mod_pos_bound. lia. Qed.

Lemma u8_small z : is_byte z → u8 z = z.
Proof. unfold is_byte, u8. intros. apply Z.mod_small. lia. Qed.

Lemma u16_small z : 0 <= z < 65536 → u16 z = z.
Proof. unfold u16. intros. apply Z.mod_small. lia. Qed.

Lemma u64_small z : 0 <= z < 2 ^ 64 → u64 z = z.
Proof. unfold u64. intros. by apply Z.mod_small. Qed.

Lemma u8_is_byte z : is_byte (u8 z).
Proof. apply u8_range. Qed.
#[export] Hint Resolve u8_range u16_range u64_range u8_is_byte : go.

Lemma land_low_shiftl k a b : 0 <= k → 0 <= a < 2 ^ k → Z.land a (Z.shiftl b k) = 0.
Proof.
  intros Hk Ha. apply Z.bits_inj'. intros n Hn. rewrite Z.land_spec, Z.bits_0.
  destruct (decide (n < k)).
  - rewrite Z.shiftl_spec_low by lia. apply andb_false_r.
  - rewrite <- (Z.mod_small a (2 ^ k)), Z.mod_pow2_bits_high by lia. done.
Qed.

(** Joining a low byte with a shifted high part is addition. *)
Lemma lor_shiftl_8 a b : 0 <= a < 256 → Z.lor a (Z.shiftl b 8) = a + 256 * b.
Proof.
  intros Ha. assert (Z.land a (Z.shiftl b 8) = 0) as HL by (apply land_low_shiftl; lia).
  rewrite <- Z.lxor_lor by done. rewrite <- Z.add_nocarry_lxor by done.
  rewrite Z.shiftl_mul_pow2; lia.
Qed.

Lemma Uint16_PutUint16 v l : Uint16 (PutUint16 v ++ l) = u16 v.
Proof.
  simpl. rewrite lor_shiftl_8 by apply u8_range.
  unfold u8, u16. rewrite Z.shiftr_div_pow2 by lia.
  change (2 ^ 8) with 256. change (2 ^ 16) with (256 * 256).
  rewrite Z.rem_mul_r by lia. lia.
Qed.

Lemma PutUint16_Uint16 b0 b1 l :
  is_byte b0 → is_byte b1 → PutUint16 (Uint16 (b0 :: b1 :: l)) = [b0; b1].
Proof.
  unfold is_byte. intros. simpl. rewrite lor_shiftl_8 by lia.
  unfold PutUint16, u8. rewrite Z.shiftr_div_pow2 by lia. change (2 ^ 8) with 256.
  f_equal; [|f_equal]; Z.to_euclidean_division_equations; lia.
Qed.

Lemma Uint16_range b0 b1 l : is_byte b0 → is_byte b1 → 0 <= Uint16 (b0 :: b1 :: l) < 65536.
Proof. unfold is_byte. intros. simpl. rewrite lor_shiftl_8; lia. Qed.

(** One byte of a word, split off the rest. *)
Lemma shiftr_u8_step v k : 0 <= k → Z.shiftr v k = 256 * Z.shiftr v (k + 8) + u8 (Z.shiftr v k).
Proof.
  intros Hk. unfold u8. change (2 ^ 8) with 256.
  rewrite (Z.div_mod (Z.shiftr v k) 256) at 1 by lia.
  rewrite !Z.shiftr_div_pow2, Z.pow_add_r, <- Z.div_div by lia. done.
Qed.

Lemma PutUint64_inj v w :
  0 <= v < 2 ^ 64 → 0 <= w < 2 ^ 64 → PutUint64 v = PutUint64 w → v = w.
Proof.
  intros Hv Hw [= H7 H6 H5 H4 H3 H2 H1 H0].
  assert (Z.shiftr v 64 = Z.shiftr w 64) as Htop
    by (rewrite !Z.shiftr_div_pow2, !Z.div_small by lia; done).
  assert (∀ k, 0 <= k → Z.shiftr v (k + 8) = Z.shiftr w (k + 8) →
    u8 (Z.shiftr v k) = u8 (Z.shiftr w k) → Z.shiftr v k = Z.shiftr w k) as Hstep
    by (intros k Hk Hhi Hlo; rewrite (shiftr_u8_step v), (shiftr_u8_step w) by done; congruence).
  rewrite <- (Z.shiftr_0_r v), <- (Z.shiftr_0_r w) in H0 |- *.
  apply (Hstep 0); [done| |done]. do 6 (apply Hstep; [done| |done]). by apply (Hstep 56).
Qed.

Lemma PutUint64_length v : length (PutUint64 v) = 8%nat.
Proof. done. Qed.

(** * Lists, arrays and comparison *)

Lemma len_nonneg {A} (l : list A) : 0 <= len l.
Proof. unfold len. lia. Qed.

Lemma len_app {A} (l k : list A) : len (l ++ k) = len l + len k.
Proof. unfold len. rewrite length_app. lia. Qed.

Lemma len_nil_inv {A} (l : list A) : len l = 0 → l = [].
Proof. destruct l; unfold len; simpl; [done|lia]. Qed.
#[export] Hint Resolve len_nonneg : go.

Lemma ip4_bytes_length a : length (ip4_bytes a) = 4%nat.
Proof. by destruct a as [[[? ?] ?] ?]. Qed.

Lemma to_ip4_bytes a l : to_ip4 (ip4_bytes a ++ l) = a.
Proof. by destruct a as [[[? ?] ?] ?]. Qed.

Lemma to_ip4_bytes_nil a : to_ip4 (ip4_bytes a) = a.
Proof. by destruct a as [[[? ?] ?] ?]. Qed.

Lemma ip4_bytes_inj a b : ip4_bytes a = ip4_bytes b → a = b.
Proof. destruct a as [[[? ?] ?] ?], b as [[[? ?] ?] ?]. by intros [= -> -> -> ->]. Qed.

Lemma ip4_bytes_to_ip4 l : (4 <= length l)%nat → ip4_bytes (to_ip4 l) = take 4 l.
Proof. by destruct l as [|? [|? [|? [|? l]]]]; simpl; intros; try lia. Qed.

Lemma bytes_compare_eq a b : bytes_compare a b = Eq ↔ a = b.
Proof.
  revert b. induction a as [|x a IH]; intros [|y b]; simpl; try done.
  destruct (Z.compare_spec x y) as [->|Hlt|Hlt].
  - rewrite IH. naive_solver.
  - split; [done|]. intros [= -> ->]. lia.
  - split; [done|]. intros [= -> ->]. lia.
Qed.

Lemma bytes_compare_antisym a b : bytes_compare b a = CompOpp (bytes_compare a b).
Proof.
  revert b. induction a as [|x a IHa]; intros [|y b]; simpl; try done.
  rewrite (Z.compare_antisym x y). destruct (Z.compare x y); simpl; auto.
Qed.

Lemma sub_app_r {A} (l k : list A) i j :
  length l = i → sub (l ++ k) i j = take (j - i) k.
Proof. intros <-. unfold sub. by rewrite drop_app_length. Qed.

Lemma sub_app_l {A} (l k : list A) i j :
  (j <= length l)%nat → sub (l ++ k) i j = sub l i j.
Proof.
  intros Hj. unfold sub. destruct (decide (i <= length l)%nat).
  - rewrite drop_app_le by done. apply take_app_le. rewrite length_drop. lia.
  - replace (j - i)%nat with 0%nat by lia. by rewrite !take_0.
Qed.

(** * Slices *)

Lemma reslice_sid n s : sid (reslice n s) = sid s.
Proof. done. Qed.

(** Resizing a slice to the length of [src] and copying [src] in leaves exactly
    [src], whatever the recycled backing array held. *)
Lemma reslice_copy s src :
  len src <= scap s → sdata (slice_copy (reslice (length src) s) src) = src.
Proof.
  intros Hc. unfold slice_copy, reslice; simpl.
  rewrite length_take, length_app.
  rewrite Nat.min_l by len_lia. rewrite firstn_all.
  rewrite drop_ge by (rewrite length_take; lia). apply app_nil_r.
Qed.

(** Growing a slice within its capacity and copying [src] behind the first [i]
    bytes keeps those bytes and ends in [src]. *)
Lemma reslice_copy_at i s src :
  (i <= length (sdata s))%nat → Z.of_nat i + len src <= scap s →
  sdata (slice_copy_at i (reslice (i + length src) s) src) = take i (sdata s) ++ src.
Proof.
  intros Hi Hc. unfold slice_copy_at, reslice; simpl.
  assert (length (take (i + length src) (sdata s ++ stail s)) = i + length src)%nat as HL
    by (rewrite length_take, length_app; len_lia).
  rewrite take_take, Nat.min_l by lia. rewrite take_app_le by done.
  rewrite length_drop, HL. replace (i + length src - i)%nat with (length src) by lia.
  rewrite firstn_all, (drop_ge (drop _ _)) by (rewrite length_drop, HL; lia).
  by rewrite app_nil_r.
Qed.

(** * Ownership *)

Lemma ids_app l k : ids (l ++ k) = ids l ++ ids k.
Proof. unfold ids. by rewrite fmap_app, filter_app. Qed.

Lemma ids_cons s l : ids (s :: l) = (if decide (sid s = 0%nat) then [] else [sid s]) ++ ids l.
Proof.
  unfold ids. simpl. rewrite filter_cons. by repeat case_decide.
Qed.

#[export] Instance ids_perm : Proper ((≡ₚ) ==> (≡ₚ)) ids.
Proof. intros l k H. unfold ids. by rewrite H. Qed.

(** Only the multiset of held slices matters. *)
#[export] Instance owned_perm : Proper ((≡ₚ) ==> (=) ==> iff) owned.
Proof.
  intros l k H p ? <-. unfold owned. rewrite H. done.
Qed.

(** A held slice may be resized or rewritten: only its backing array counts. *)
Lemma owned_same_sid s s' held p : sid s = sid s' → owned (s :: held) p → owned (s' :: held) p.
Proof. unfold owned. simpl. rewrite !ids_cons. by intros ->. Qed.

(** Rearranging and rewriting held slices, at once. *)
Lemma owned_sids l k p : sid <$> l ≡ₚ sid <$> k → owned l p → owned k p.
Proof. unfold owned. rewrite !ids_app. unfold ids. by intros ->. Qed.

(** Discharge [owned k p] from [H : owned l p] when both hold the same arrays. *)
Ltac solve_owned H :=
  apply (owned_sids _ _ _) with (2 := H); cbn [fmap list_fmap sid reslice slice_from]; solve_Permutation.

Lemma owned_drop s held p : owned (s :: held) p → owned held p.
Proof.
  unfold owned. simpl. rewrite ids_cons. intros (Hn & Hf & ?).
  apply NoDup_app in Hn. apply Forall_app in Hf. naive_solver.
Qed.

Lemma owned_nil_slice held p : owned (nil_slice :: held) p ↔ owned held p.
Proof. unfold owned. simpl. by rewrite ids_cons. Qed.

Lemma owned_put s held p : owned (s :: held) p → owned held (Put s p).
Proof. unfold owned, Put. simpl. by rewrite Permutation_middle. Qed.

Lemma owned_make n held p s p' :
  make n p = (s, p') → owned held p → owned (s :: held) p'.
Proof.
  unfold make. intros [= <- <-] (Hn & Hf & Hpos). unfold owned. simpl.
  rewrite ids_cons. simpl. rewrite decide_False by lia. simpl. split_and!; [|constructor|lia].
  - constructor; [|done]. intros Hin. eapply Forall_forall in Hf; [|done]. lia.
  - lia.
  - eapply Forall_impl; [done|]. simpl. lia.
Qed.

Lemma owned_get held p s p' : Get p = (s, p') → owned held p → owned (s :: held) p'.
Proof.
  unfold Get. destruct (pfree p) as [|s0 r] eqn:E; [apply owned_make|].
  intros [= <- <-]. unfold owned. rewrite E. simpl. by rewrite Permutation_middle.
Qed.
#[export] Hint Resolve owned_get owned_put owned_make owned_drop : go.
