(* ===== verification/GoStd.v ===== *)
(** The parts of Go's standard library that the configuration loader and the
    status board use: [float64] arithmetic, decimal formatting with [fmt], and
    [time.ParseDuration].

    A [float64] is a [spec_float] with 53 bits of precision, so that every
    rounding of the library code is the one the machine makes.  A Go string is
    its sequence of bytes.  The results are that what [ParseDuration] accepts
    is a 64-bit duration, that it reads back every duration written as a whole
    number of units, and that [%.2f] prints the hundredths of a binary
    fraction rounded to even. *)

From stdpp Require Import base numbers list strings pretty tactics.
From Stdlib Require Import SpecFloat.
From S2P Require Import Prelude.

Local Open Scope Z_scope.

(** ** Strings *)

(** A Go string is a sequence of bytes. *)
Fixpoint string_bytes (s : string) : bytes :=
  match s with
  | EmptyString => []
  | String a r => Z.of_nat (Ascii.nat_of_ascii a) :: string_bytes r
  end.

(** [strconv.Itoa] and [%d], for the non-negative values the source prints. *)
Definition Itoa (i : nat) : bytes := string_bytes (pretty (N.of_nat i)).

Definition isDigit (c : Z) : bool := (48 <=? c) && (c <=? 57).

(** ** float64 *)

(** [float64(z)]: round to nearest, ties to even. *)
Definition float64 (z : Z) : spec_float := binary_normalize 53 1024 z 0 false.
Definition f64_mul : spec_float → spec_float → spec_float := SFmul 53 1024.
Definition f64_div : spec_float → spec_float → spec_float := SFdiv 53 1024.

(** [uint64(f)] of a value in range: truncation. *)
Definition f64_trunc (f : spec_float) : Z :=
  match f with
  | S754_finite s m e =>
      let v := if 0 <=? e then Z.pos m * 2 ^ e else Z.pos m / 2 ^ (- e) in if s then - v else v
  | _ => 0
  end.

(** The quotient [a / b] of naturals rounded to the nearest integer, ties to
    even, as [strconv] rounds the exact decimal expansion. *)
Definition div_even (a b : Z) : Z :=
  let q := a / b in
  let r := 2 * (a mod b) in
  if r <? b then q else if b <? r then q + 1 else if Z.even q then q else q + 1.

(** [%.2f] of a non-negative finite value: its hundredths, then the digits. *)
Definition hundredths (f : spec_float) : Z :=
  match f with
  | S754_finite _ m e => if 0 <=? e then 100 * Z.pos m * 2 ^ e else div_even (100 * Z.pos m) (2 ^ (- e))
  | _ => 0
  end.

Definition Sprintf_2f (f : spec_float) : bytes :=
  let h := hundredths f in
  Itoa (Z.to_nat (h / 100)) ++ [46; 48 + h mod 100 / 10; 48 + h mod 10].

(** ** time.ParseDuration *)

(** [unitMap]; the two spellings of the micro sign are in UTF-8. *)
Definition unitMap (u : bytes) : option Z :=
  if bool_decide (u = string_bytes "ns") then Some 1
  else if bool_decide (u = string_bytes "us") then Some 1000
  else if bool_decide (u = [194; 181; 115]) then Some 1000
  else if bool_decide (u = [206; 188; 115]) then Some 1000
  else if bool_decide (u = string_bytes "ms") then Some 1000000
  else if bool_decide (u = string_bytes "s") then Some 1000000000
  else if bool_decide (u = string_bytes "m") then Some 60000000000
  else if bool_decide (u = string_bytes "h") then Some 3600000000000
  else None.

(** Leading digits on a [uint64]; [None] is the overflow error. *)
Fixpoint leadingInt (s : bytes) (x : Z) : option (Z * bytes) :=
  match s with
  | c :: r =>
      if isDigit c then
        if 2 ^ 63 / 10 <? x then None
        else
          let x := u64 (x * 10 + c - 48) in
          if 2 ^ 63 <? x then None else leadingInt r x
      else Some (x, s)
  | [] => Some (x, s)
  end.

(** Leading digits of a fraction: digits that no longer fit are skipped. *)
Fixpoint leadingFraction (s : bytes) (x : Z) (scale : spec_float) (overflow : bool) : Z * spec_float * bytes :=
  match s with
  | c :: r =>
      if isDigit c then
        if overflow then leadingFraction r x scale true
        else if (2 ^ 63 - 1) / 10 <? x then leadingFraction r x scale true
        else
          let y := u64 (x * 10 + c - 48) in
          if 2 ^ 63 <? y then leadingFraction r x scale true
          else leadingFraction r y (f64_mul scale (float64 10)) false
      else (x, scale, s)
  | [] => (x, scale, s)
  end.

(** The unit: everything up to the next digit or point. *)
Fixpoint span_unit (s : bytes) : bytes * bytes :=
  match s with
  | c :: r => if (c =? 46) || isDigit c then ([], s) else let '(u, r) := span_unit r in (c :: u, r)
  | [] => ([], [])
  end.

(** One number with its unit; [None] is any of the errors. *)
Definition durationPart (s : bytes) : option (Z * bytes) :=
  match s with
  | [] => None
  | c :: _ =>
      if negb ((c =? 46) || isDigit c) then None
      else
        match leadingInt s 0 with
        | None => None
        | Some (v, s1) =>
            let pre := negb (len s =? len s1) in
            let '(f, scale, s2, post) :=
              match s1 with
              | 46 :: r =>
                  let '(f, scale, s2) := leadingFraction r 0 (float64 1) false in
                  (f, scale, s2, negb (len r =? len s2))
              | _ => (0, float64 1, s1, false)
              end in
            if negb pre && negb post then None
            else
              let '(u, s3) := span_unit s2 in
              if len u =? 0 then None
              else
                match unitMap u with
                | None => None
                | Some unit =>
                    if 2 ^ 63 / unit <? v then None
                    else
                      let v := u64 (v * unit) in
                      if 0 <? f then
                        let v := u64 (v + f64_trunc (f64_mul (float64 f) (f64_div (float64 unit) scale))) in
                        if 2 ^ 63 <? v then None else Some (v, s3)
                      else Some (v, s3)
                end
        end
  end.

(** [for s != ""]: every part consumes a byte, so the length is enough fuel. *)
Fixpoint durationParts (fuel : nat) (s : bytes) (d : Z) : option Z :=
  match s with
  | [] => Some d
  | _ :: _ =>
      match fuel with
      | O => None
      | S fuel' =>
          match durationPart s with
          | None => None
          | Some (v, s) => let d := u64 (d + v) in if 2 ^ 63 <? d then None else durationParts fuel' s d
          end
      end
  end.

(** Nanoseconds; [None] for every error, which callers do not tell apart. *)
Definition ParseDuration (s : bytes) : option Z :=
  let '(neg, s) :=
    match s with
    | c :: r => if (c =? 45) || (c =? 43) then (c =? 45, r) else (false, s)
    | [] => (false, s)
    end in
  if bool_decide (s = [48]) then Some 0
  else
    match s with
    | [] => None
    | _ =>
        match durationParts (length s) s 0 with
        | None => None
        | Some d => if neg : bool then Some (- d) else if 2 ^ 63 - 1 <? d then None else Some d
        end
    end.

(** * Facts *)

(** ** Consumption: the loop of [ParseDuration] has enough fuel *)

Lemma leadingInt_shorter s x v s' : leadingInt s x = Some (v, s') → (length s' <= length s)%nat.
Proof.
  revert x. induction s as [|c r IH]; intros x; simpl; [by intros [= <- <-]|].
  destruct (isDigit c); [|by intros [= <- <-]]. case_match; [done|]. case_match; [done|].
  intros H'. apply IH in H'. lia.
Qed.

Lemma leadingFraction_shorter s x sc o f sc' s' :
  leadingFraction s x sc o = (f, sc', s') → (length s' <= length s)%nat.
Proof.
  revert x sc o. induction s as [|c r IH]; intros x sc o; simpl; [by intros [= <- <- <-]|].
  destruct (isDigit c); [|by intros [= <- <- <-]].
  repeat case_match; intros H'; apply IH in H'; lia.
Qed.

Lemma span_unit_app s : s = (span_unit s).1 ++ (span_unit s).2.
Proof.
  induction s as [|c r IH]; simpl; [done|]. destruct (_ || _); [done|].
  destruct (span_unit r); simpl in *. by rewrite IH at 1.
Qed.

Lemma durationPart_shorter s v s' : durationPart s = Some (v, s') → (length s' < length s)%nat.
Proof.
  unfold durationPart. destruct s as [|c r]; [done|]. case_match; [done|].
  destruct (leadingInt (c :: r) 0) as [[v0 s1]|] eqn:E1; [|done]. apply leadingInt_shorter in E1.
  set (q := match s1 with 46 :: _ => _ | _ => _ end).
  assert (length q.1.2 <= length s1)%nat as Hq.
  { subst q. repeat case_match; simplify_eq; simpl; try lia.
    match goal with H : leadingFraction _ _ _ _ = _ |- _ => apply leadingFraction_shorter in H end. lia. }
  destruct q as [[[f sc] s2] post]. simpl in Hq. case_match; [done|].
  pose proof (span_unit_app s2) as Hs. destruct (span_unit s2) as [u s3]. simpl in Hs.
  destruct (len u =? 0) eqn:Eu; [done|]. bool_cases. subst s2. rewrite length_app in Hq.
  assert (length u ≠ 0)%nat by (unfold len in Eu; lia). simpl in *.
  repeat case_match; intros [= <- <-]; lia.
Qed.

(** More fuel than bytes changes nothing. *)
Lemma durationParts_fuel n m s d :
  (length s <= n)%nat → (length s <= m)%nat → durationParts n s d = durationParts m s d.
Proof.
  revert m s d. induction n as [|n IH]; intros m s d Hn Hm.
  - by destruct s; [|simpl in Hn; lia]; destruct m.
  - destruct s as [|c r]; [by destruct m|]. destruct m as [|m]; [simpl in Hm; lia|]. cbn [durationParts].
    destruct (durationPart (c :: r)) as [[v s']|] eqn:E; [|done]. apply durationPart_shorter in E.
    case_match; [done|]. apply IH; simpl in *; lia.
Qed.

(** ** Range *)

Lemma durationParts_range n s d r : 0 <= d <= 2 ^ 63 → durationParts n s d = Some r → 0 <= r <= 2 ^ 63.
Proof.
  revert s d. induction n as [|n IH]; intros [|c s] d Hd; cbn [durationParts]; try by intros [= <-].
  destruct (durationPart _) as [[v s']|]; [|done]. case_match; [done|]. bool_cases.
  apply IH. pose proof (u64_range (d + v)). lia.
Qed.

(** What [ParseDuration] accepts fits in a [time.Duration]. *)
Lemma ParseDuration_range s d : ParseDuration s = Some d → - 2 ^ 63 <= d < 2 ^ 63.
Proof.
  unfold ParseDuration. set (q := match s with [] => _ | _ :: _ => _ end). destruct q as [neg s'].
  case_bool_decide; [intros [= <-]; lia|]. destruct s' as [|c r]; [done|].
  destruct (durationParts _ _ _) as [x|] eqn:E; [|done]. apply durationParts_range in E; [|lia].
  destruct neg; [intros [= <-]; lia|]. case_match; [done|]. bool_cases. intros [= <-]. lia.
Qed.

(** ** Whole numbers of units *)

(** The value of a digit string read after [x]. *)
Definition digits_val (l : bytes) (x : Z) : Z := foldl (λ x c, x * 10 + c - 48) x l.

Lemma digits_val_mono l x : Forall (λ c, isDigit c = true) l → 0 <= x → x <= digits_val l x.
Proof.
  intros Hl. revert x. induction Hl as [|c l Hc Hl IH]; intros x Hx; simpl; [lia|].
  unfold isDigit in Hc. bool_cases. etrans; [|apply IH; lia]. lia.
Qed.

Lemma leadingInt_digits l r x :
  Forall (λ c, isDigit c = true) l → match r with c :: _ => isDigit c = false | [] => True end →
  0 <= x → digits_val l x <= 2 ^ 63 → leadingInt (l ++ r) x = Some (digits_val l x, r).
Proof.
  intros Hl Hr. revert x. induction Hl as [|c l Hc Hl IH]; intros x Hx Hb; simpl.
  - destruct r as [|c r]; [done|]. simpl. by rewrite Hr.
  - simpl in Hb. rewrite Hc. unfold isDigit in Hc. bool_cases.
    pose proof (digits_val_mono l (x * 10 + c - 48) Hl ltac:(lia)) as Hm.
    rewrite (proj2 (Z.ltb_ge _ _)) by (apply Z.div_le_lower_bound; lia).
    rewrite u64_small by lia. rewrite (proj2 (Z.ltb_ge _ _)) by lia. apply IH; [lia|done].
Qed.

Lemma pretty_go_digits (n : N) s :
  Forall (λ c, isDigit c = true) (string_bytes s) →
  Forall (λ c, isDigit c = true) (string_bytes (pretty_N_go n s)) ∧
  ∃ k, 0 <= k ∧ ∀ x, digits_val (string_bytes (pretty_N_go n s)) x = digits_val (string_bytes s) (x * 10 ^ k + Z.of_N n).
Proof.
  revert s. induction (N.lt_wf_0 n) as [n _ IH]; intros s Hs.
  destruct (decide (n = 0%N)) as [->|Hn].
  - rewrite pretty_N_go_0. split; [done|]. exists 0. split; [done|]. intros x. f_equal. lia.
  - rewrite pretty_N_go_step by lia.
    assert (n `mod` 10 < 10)%N as Hm by (apply N.mod_lt; lia).
    assert (Z.of_nat (Ascii.nat_of_ascii (pretty_N_char (n `mod` 10))) = 48 + Z.of_N (n `mod` 10)) as Hch.
    { assert (∀ m : nat, (m < 10)%nat → Z.of_nat (Ascii.nat_of_ascii (pretty_N_char (N.of_nat m))) = 48 + Z.of_nat m) as Ha
        by (intros m Hm'; do 10 (destruct m as [|m]; [reflexivity|]); lia).
      specialize (Ha (N.to_nat (n `mod` 10)) ltac:(lia)). rewrite N2Nat.id in Ha. rewrite Ha. lia. }
    assert (0 <= Z.of_N (n `mod` 10) < 10) as Hz by (split; [apply N2Z.is_nonneg|exact (proj1 (N2Z.inj_lt _ 10) Hm)]).
    destruct (IH (n `div` 10)%N) with (s := String (pretty_N_char (n `mod` 10)) s) as (Hd & k & Hk & Hv).
    { apply N.div_lt; lia. }
    { cbn [string_bytes]. constructor; [|done]. rewrite Hch. unfold isDigit. apply andb_true_iff.
      split; apply Z.leb_le; clear -Hz; lia. }
    split; [done|]. exists (k + 1). split; [lia|]. intros x. rewrite Hv.
    cbn [string_bytes]. unfold digits_val at 1. cbn [foldl]. rewrite Hch. unfold digits_val. f_equal.
    rewrite Z.pow_add_r by lia. pose proof (N.div_mod n 10 ltac:(lia)). lia.
Qed.

Lemma Itoa_digits n : Forall (λ c, isDigit c = true) (Itoa n) ∧ digits_val (Itoa n) 0 = Z.of_nat n ∧ Itoa n ≠ [].
Proof.
  unfold Itoa. destruct n as [|n]; [by repeat constructor|]. change (pretty (N.of_nat (S n))) with (pretty_N_go (N.of_nat (S n)) "").
  destruct (pretty_go_digits (N.of_nat (S n)) "") as (Hd & k & Hk & Hv); [constructor|].
  assert (digits_val (string_bytes (pretty_N_go (N.of_nat (S n)) "")) 0 = Z.of_nat (S n)) as Hval
    by (rewrite Hv; simpl; lia).
  split; [done|]. split; [done|]. intros He. rewrite He in Hval. simpl in Hval. lia.
Qed.

(** The units are made of neither digits nor points. *)
Lemma unitMap_letters u unit :
  unitMap u = Some unit →
  1 <= unit ∧ span_unit u = (u, []) ∧ match u with c :: _ => isDigit c = false ∧ c ≠ 46 | [] => False end.
Proof. unfold unitMap. repeat (case_bool_decide; [subst; intros [= <-]; by repeat split|]). done. Qed.

(** A duration written as a whole number of units is read back. *)
Lemma ParseDuration_whole (n : nat) u unit :
  unitMap u = Some unit → Z.of_nat n * unit < 2 ^ 63 → ParseDuration (Itoa n ++ u) = Some (Z.of_nat n * unit).
Proof.
  intros Hu Hb. destruct (unitMap_letters _ _ Hu) as (H1 & Hsp & Hh). destruct (Itoa_digits n) as (Hd & Hv & Hne).
  assert (0 <= Z.of_nat n * unit) as H0 by nia.
  destruct u as [|c0 u0]; [done|]. destruct Hh as [Hc0 Hp0]. set (u := c0 :: u0) in *.
  assert (leadingInt (Itoa n ++ u) 0 = Some (Z.of_nat n, u)) as Hli
    by (rewrite leadingInt_digits; [by rewrite Hv|done|done|lia|rewrite Hv; nia]).
  destruct (Itoa n) as [|d l] eqn:El; [done|]. pose proof (Forall_inv Hd) as Hdig.
  assert (durationPart ((d :: l) ++ u) = Some (Z.of_nat n * unit, [])) as Hpart.
  { unfold durationPart. rewrite <- app_comm_cons at 1. rewrite Hdig, orb_true_r. cbn [negb]. rewrite Hli.
    replace (negb (len ((d :: l) ++ u) =? len u)) with true
      by (symmetry; apply negb_true_iff, Z.eqb_neq; rewrite len_app; unfold len; rewrite length_cons; lia).
    replace (match u with 46 :: r => _ | _ => _ end) with (0, float64 1, u, false).
    2: { subst u. destruct (decide (c0 = 46)); [done|]. repeat case_match; done. }
    cbn [negb andb]. rewrite Hsp. replace (len u =? 0) with false by done. rewrite Hu.
    rewrite (proj2 (Z.ltb_ge _ _)) by (apply Z.div_le_lower_bound; lia).
    rewrite (u64_small (Z.of_nat n * unit)) by lia. done. }
  unfold ParseDuration. simpl app. cbn beta iota.
  assert ((d =? 45) || (d =? 43) = false) as -> by (unfold isDigit in Hdig; bool_cases; apply orb_false_iff; split; apply Z.eqb_neq; lia).
  case_bool_decide as Hz; [exfalso; destruct l; simpl in Hz; subst u; by simplify_eq|].
  change (d :: l ++ u) with ((d :: l) ++ u). destruct (length ((d :: l) ++ u)) eqn:Elen; [done|].
  cbn [durationParts]. rewrite Hpart, Z.add_0_l, (u64_small (Z.of_nat n * unit)) by lia.
  rewrite (proj2 (Z.ltb_ge _ _)) by lia. replace (durationParts n0 [] _) with (Some (Z.of_nat n * unit)) by by destruct n0.
  simpl app. cbn beta iota. by rewrite (proj2 (Z.ltb_ge _ _)) by lia.
Qed.
