(* ===== verification/Config.v ===== *)
(** Start-up: [internal/config], [internal/util/initial.go], the [init]
    functions of [assets] and the two [main] programs up to the services they
    start, and the unpacking of the Windows driver ([internal/tun/dll_loader.go]).

    The file system is a finite map with permissions; TOML decoding is a class,
    since the decoder is a library.  The configuration is a record of the
    package variables.  The results say exactly when loading panics, what a
    loaded configuration guarantees to the rest of the program, and that the
    identity of a client survives restarts. *)

From stdpp Require Import base numbers list gmap strings option tactics.
From S2P Require Import Prelude GoStd.

Local Open Scope Z_scope.

(** ** Files *)

(** [f_files]: the files that exist; [f_mayRead], [f_mayWrite]: the paths whose
    reads and writes succeed. *)
Record Files := mkFiles {
  f_files : gmap bytes bytes;
  f_mayRead : bytes → bool;
  f_mayWrite : bytes → bool;
}.

(** [os.Stat(path)] without an error. *)
Definition Stat (path : bytes) (fs : Files) : bool := bool_decide (is_Some (f_files fs !! path)).

Definition ReadFile (path : bytes) (fs : Files) : option bytes :=
  if f_mayRead fs path then f_files fs !! path else None.

(** The error of a failed write is dropped everywhere but in [InitWintunDLL]. *)
Definition WriteFile (path data : bytes) (fs : Files) : bool * Files :=
  if f_mayWrite fs path
  then (true, mkFiles (<[path := data]> (f_files fs)) (f_mayRead fs) (f_mayWrite fs)) else (false, fs).

(** ** config.go: data *)

Record ServerConfig := mkServerConfig {
  sc_ServerIp : bytes;
  sc_ServerPort : Z;
  sc_CheckPort : Z;
  sc_RetentionTime : bytes;
}.

Record DeviceConfig := mkDeviceConfig { dc_DeviceName : bytes }.

Record PerformanceConfig := mkPerformanceConfig {
  pc_ReadTimeout : bytes;
  pc_PingTime : bytes;
  pc_SendWorkers : Z;
  pc_RecvWorkers : Z;
}.

Record FeaturesConfig := mkFeaturesConfig {
  fc_EnableP2P : bool;
  fc_EnableUi : bool;
  fc_EnableCompress : bool;
}.

Record Configuration := mkConfiguration {
  conf_Server : ServerConfig;
  conf_Device : DeviceConfig;
  conf_Performance : PerformanceConfig;
  conf_Features : FeaturesConfig;
}.

(** The package variables. *)
Record Vars := mkVars {
  ServerIp : bytes;
  ServerPort : Z;
  DeviceName : bytes;
  ClientID : bytes;
  ReadTimeout : Z;
  RetentionTime : Z;
  PingTime : Z;
  SendWorkers : Z;
  RecvWorkers : Z;
  CheckPort : Z;
  EnableP2P : bool;
  EnableUi : bool;
  EnableCompress : bool;
}.

(** Their values before [InitConfig]. *)
Definition zeroVars : Vars := mkVars [] 0 [] (replicate 16 0) 0 0 0 0 0 0 false false false.

(** Why loading panicked. *)
Inductive configPanic : Type := PanicRead | PanicToml | PanicName | PanicRandom.

(** [toml.Unmarshal] into a zero [Configuration]. *)
Class Toml := Unmarshal : bytes → option Configuration.

(** ** config.go: InitConfig *)

Definition configPath : bytes := string_bytes "config.toml".
Definition cidPath : bytes := string_bytes ".client_id".
Definition second : Z := 1000000000.

(** The source of the configuration: a given path, a local file, or the
    embedded default. *)
Definition configSource (embedded localPath : bytes) (fs : Files) : option bytes :=
  if negb (bool_decide (localPath = [])) then ReadFile localPath fs
  else if Stat configPath fs then ReadFile configPath fs
  else Some embedded.

(** [x, err = time.ParseDuration(s); if err != nil { x = d }] *)
Definition durationOr (d : Z) (s : bytes) : Z := default d (ParseDuration s).

Definition atLeastOne (n : Z) : Z := if n <? 1 then 1 else n.

(** The persistent identity; [rnd] is what the random source delivers. *)
Definition loadClientID (rnd : option bytes) (fs : Files) : option bytes * Files :=
  let generate :=
    match rnd with
    | None => (None, fs)
    | Some id => (Some id, (WriteFile cidPath id fs).2)
    end in
  match ReadFile cidPath fs with
  | Some fileData => if len fileData =? 16 then (Some fileData, fs) else generate
  | None => generate
  end.

(** The variables set from the parsed file, apart from the identity. *)
Definition setVars (conf : Configuration) (id : bytes) : Vars :=
  mkVars (sc_ServerIp (conf_Server conf)) (sc_ServerPort (conf_Server conf))
    (dc_DeviceName (conf_Device conf)) id
    (durationOr (10 * second) (pc_ReadTimeout (conf_Performance conf)))
    (durationOr (300 * second) (sc_RetentionTime (conf_Server conf)))
    (durationOr (1 * second) (pc_PingTime (conf_Performance conf)))
    (atLeastOne (pc_SendWorkers (conf_Performance conf)))
    (atLeastOne (pc_RecvWorkers (conf_Performance conf)))
    (sc_CheckPort (conf_Server conf))
    (fc_EnableP2P (conf_Features conf)) (fc_EnableUi (conf_Features conf)) (fc_EnableCompress (conf_Features conf)).

(** The variables at the panic on the device name: those set before it. *)
Definition setVarsEarly (conf : Configuration) (v : Vars) : Vars :=
  mkVars (sc_ServerIp (conf_Server conf)) (sc_ServerPort (conf_Server conf))
    (dc_DeviceName (conf_Device conf)) (ClientID v) (ReadTimeout v)
    (durationOr (300 * second) (sc_RetentionTime (conf_Server conf)))
    (PingTime v) (SendWorkers v) (RecvWorkers v) (sc_CheckPort (conf_Server conf))
    (EnableP2P v) (EnableUi v) (EnableCompress v).

Section start_up.
Context `{Toml}.

Definition InitConfig (embedded localPath : bytes) (rnd : option bytes) (v : Vars) (fs : Files)
    : option configPanic * Vars * Files :=
  match configSource embedded localPath fs with
  | None => (Some PanicRead, v, fs)
  | Some data =>
      match Unmarshal data with
      | None => (Some PanicToml, v, fs)
      | Some conf =>
          let name := dc_DeviceName (conf_Device conf) in
          if (10 <? len name) || (len name <? 1) then (Some PanicName, setVarsEarly conf v, fs)
          else
            match loadClientID rnd fs with
            | (None, fs) => (Some PanicRandom, setVars conf (ClientID v), fs)
            | (Some id, fs) => (None, setVars conf id, fs)
            end
      end
  end.

(** ** initial.go, assets and the programs *)

(** A program: it exits with a code, or goes on with its configuration. *)
Inductive started : Type := Exits (code : Z) | Starts (v : Vars).

(** [InitAll] recovers a panic, reports it and exits. *)
Definition InitAll (embedded localPath : bytes) (rnd : option bytes) (fs : Files) : started * Files :=
  match InitConfig embedded localPath rnd zeroVars fs with
  | (Some _, _, fs) => (Exits 1, fs)
  | (None, v, fs) => (Starts v, fs)
  end.

(** [assets.init]: the example is written unless the file is there. *)
Definition examplePath : bytes := string_bytes "config.toml.example".
Definition assets_init (example : bytes) (fs : Files) : Files :=
  if Stat examplePath fs then fs else (WriteFile examplePath example fs).2.

(** The client up to [NewTransport]: package initialisation, then [InitAll]. *)
Definition main_client (embedded example configFile : bytes) (rnd : option bytes) (fs : Files) : started * Files :=
  InitAll embedded configFile rnd (assets_init example fs).

(** The server up to [NewHub]; a panic ends the process with code 2. *)
Definition main_server (embedded example : bytes) (rnd : option bytes) (fs : Files) : started * Files :=
  match InitConfig embedded [] rnd zeroVars (assets_init example fs) with
  | (Some _, _, fs) => (Exits 2, fs)
  | (None, v, fs) => (Starts v, fs)
  end.
End start_up.

(** ** dll_loader.go *)

Inductive arch : Type := amd64 | i386 | arm64 | otherArch.

(** [dllPath] is the driver's place beside the executable, if [os.Executable]
    tells where that is; the result says whether an error is returned. *)
Definition InitWintunDLL (goarch : arch) (dllBytes : bytes) (dllPath : option bytes) (fs : Files) : bool * Files :=
  match goarch with
  | amd64 =>
      match dllPath with
      | None => (false, fs)
      | Some dllPath =>
          if Stat dllPath fs then (true, fs) else WriteFile dllPath dllBytes fs
      end
  | i386 | arm64 | otherArch => (false, fs)
  end.

(** ** Uses of the configuration *)

(** [time.NewTicker(d)] panics on a duration that is not positive. *)
Definition NewTicker (d : Z) : option Z := if d <=? 0 then None else Some d.

(** The ticker [heartbeat] starts with. *)
Definition heartbeat_ticker (v : Vars) : option Z := NewTicker (PingTime v).

(** * Facts *)

(** ** Files *)

Lemma WriteFile_ne path q data fs :
  path ≠ q → f_files (WriteFile path data fs).2 !! q = f_files fs !! q.
Proof. intros. unfold WriteFile. case_match; simpl; [by apply lookup_insert_ne|done]. Qed.

Lemma WriteFile_rights path data fs :
  f_mayRead (WriteFile path data fs).2 = f_mayRead fs ∧ f_mayWrite (WriteFile path data fs).2 = f_mayWrite fs.
Proof. unfold WriteFile. by case_match. Qed.

(** Writing the example leaves the identity alone. *)
Lemma assets_init_id example fs :
  f_files (assets_init example fs) !! cidPath = f_files fs !! cidPath ∧
  f_mayRead (assets_init example fs) = f_mayRead fs ∧ f_mayWrite (assets_init example fs) = f_mayWrite fs.
Proof.
  unfold assets_init. case_match; [done|]. destruct (WriteFile_rights examplePath example fs) as [-> ->].
  split; [|done]. by apply WriteFile_ne.
Qed.

(** ** The identity *)

(** A stored identity: the file is readable and has sixteen bytes. *)
Definition storedID (id : bytes) (fs : Files) : Prop :=
  f_mayRead fs cidPath = true ∧ f_files fs !! cidPath = Some id ∧ len id = 16.

Lemma loadClientID_stored rnd id fs : storedID id fs → loadClientID rnd fs = (Some id, fs).
Proof.
  intros (Hr & Hf & Hl). unfold loadClientID, ReadFile. rewrite Hr, Hf. by rewrite (proj2 (Z.eqb_eq _ _) Hl).
Qed.

Lemma loadClientID_stores rnd fs id fs' :
  loadClientID rnd fs = (Some id, fs') → (∀ r, rnd = Some r → len r = 16) →
  f_mayRead fs cidPath = true → f_mayWrite fs cidPath = true → storedID id fs'.
Proof.
  unfold loadClientID. intros Hl Hrnd Hr Hw.
  assert (∀ r, rnd = Some r → storedID r (WriteFile cidPath r fs).2) as Hgen.
  { intros r Er. unfold storedID, WriteFile. rewrite Hw. simpl. rewrite lookup_insert_eq. auto. }
  unfold ReadFile in Hl. rewrite Hr in Hl. repeat case_match; simplify_eq; try by apply Hgen.
  bool_cases. by split_and!.
Qed.

Lemma loadClientID_length rnd fs id fs' :
  loadClientID rnd fs = (Some id, fs') → (∀ r, rnd = Some r → len r = 16) → len id = 16.
Proof. unfold loadClientID. intros Hl Hrnd. repeat case_match; simplify_eq; bool_cases; auto. Qed.

Section facts.
Context `{Toml}.

Lemma InitConfig_inv embedded path rnd v fs v' fs' :
  InitConfig embedded path rnd v fs = (None, v', fs') →
  ∃ data conf id, configSource embedded path fs = Some data ∧ Unmarshal data = Some conf ∧
    1 <= len (dc_DeviceName (conf_Device conf)) <= 10 ∧ loadClientID rnd fs = (Some id, fs') ∧ v' = setVars conf id.
Proof.
  unfold InitConfig. intros Hi. destruct (configSource embedded path fs) as [data|]; [|done].
  destruct (Unmarshal data) as [conf|] eqn:Eu; [|done]. destruct (_ || _) eqn:En; [done|].
  destruct (loadClientID rnd fs) as [[id|] fs1] eqn:El; [|done]. simplify_eq. bool_cases.
  exists data, conf, id. split_and!; done.
Qed.

Lemma durationOr_range d s : 0 <= d < 2 ^ 63 → - 2 ^ 63 <= durationOr d s < 2 ^ 63.
Proof.
  intros. unfold durationOr. destruct (ParseDuration s) as [x|] eqn:E; simpl; [by eapply ParseDuration_range|lia].
Qed.

Lemma durationOr_whole d n u unit :
  unitMap u = Some unit → Z.of_nat n * unit < 2 ^ 63 → durationOr d (Itoa n ++ u) = Z.of_nat n * unit.
Proof. intros. unfold durationOr. by rewrite (ParseDuration_whole n u unit). Qed.

(** What the rest of the program may rely on. *)
Definition config_wf (v : Vars) : Prop :=
  1 <= len (DeviceName v) <= 10 ∧ len (ClientID v) = 16 ∧ 1 <= SendWorkers v ∧ 1 <= RecvWorkers v ∧
  Forall (λ d, - 2 ^ 63 <= d < 2 ^ 63) [ReadTimeout v; RetentionTime v; PingTime v].

(** C23: a configuration that loads is well formed: the device name has one to ten
    bytes, the identity sixteen, there is at least one worker of each kind and
    every duration is a 64-bit value.  A duration written as a whole number of
    one of Go's units is taken as written, and one that cannot be parsed is
    replaced by its default. *)
Theorem config_loaded embedded path rnd v fs v' fs' :
  InitConfig embedded path rnd v fs = (None, v', fs') → (∀ r, rnd = Some r → len r = 16) →
  config_wf v' ∧ ∃ data conf, configSource embedded path fs = Some data ∧ Unmarshal data = Some conf ∧
    (∀ n u unit, pc_ReadTimeout (conf_Performance conf) = Itoa n ++ u → unitMap u = Some unit →
       Z.of_nat n * unit < 2 ^ 63 → ReadTimeout v' = Z.of_nat n * unit) ∧
    (∀ n u unit, pc_PingTime (conf_Performance conf) = Itoa n ++ u → unitMap u = Some unit →
       Z.of_nat n * unit < 2 ^ 63 → PingTime v' = Z.of_nat n * unit) ∧
    (∀ n u unit, sc_RetentionTime (conf_Server conf) = Itoa n ++ u → unitMap u = Some unit →
       Z.of_nat n * unit < 2 ^ 63 → RetentionTime v' = Z.of_nat n * unit) ∧
    (ParseDuration (pc_ReadTimeout (conf_Performance conf)) = None → ReadTimeout v' = 10 * second) ∧
    (ParseDuration (pc_PingTime (conf_Performance conf)) = None → PingTime v' = 1 * second) ∧
    (ParseDuration (sc_RetentionTime (conf_Server conf)) = None → RetentionTime v' = 300 * second).
Proof.
  intros Hi Hrnd. destruct (InitConfig_inv _ _ _ _ _ _ _ Hi) as (data & conf & id & Hs & Hu & Hn & Hl & ->). split.
  - unfold config_wf. simpl. split_and!; [lia|lia|by eapply loadClientID_length| | |].
    1,2: unfold atLeastOne; case_match; bool_cases; lia.
    repeat constructor; apply durationOr_range; unfold second; lia.
  - exists data, conf. simpl. split_and!; try done.
    1-3: intros n u unit -> ? ?; by apply durationOr_whole.
    all: intros He; unfold durationOr; by rewrite He.
Qed.

(** C24: the identity of a client survives restarts.  After a start that could read
    and write the identity file, every later start on the files it left, with
    whatever configuration and random source, uses the same identity, and
    leaves it stored. *)
Theorem client_id_persistent emb ex path rnd fs v fs' emb2 ex2 path2 rnd2 v2 fs2 :
  main_client emb ex path rnd fs = (Starts v, fs') → (∀ r, rnd = Some r → len r = 16) →
  f_mayRead fs cidPath = true → f_mayWrite fs cidPath = true →
  main_client emb2 ex2 path2 rnd2 fs' = (Starts v2, fs2) →
  ClientID v2 = ClientID v ∧ storedID (ClientID v) fs2.
Proof.
  unfold main_client, InitAll. intros H1 Hrnd Hr Hw H2.
  destruct (InitConfig _ _ _ _ _) as [[[?|] v1] fs1] eqn:E1; simplify_eq.
  destruct (InitConfig emb2 _ _ _ _) as [[[?|] v3] fs3] eqn:E2; simplify_eq.
  apply InitConfig_inv in E1 as (d1 & c1 & id1 & _ & _ & _ & Hl1 & ->).
  apply InitConfig_inv in E2 as (d2 & c2 & id2 & _ & _ & _ & Hl2 & ->). simpl.
  destruct (assets_init_id ex fs) as (_ & Hra & Hwa).
  apply loadClientID_stores in Hl1 as (Hs1 & Hs2 & Hs3); [|done|by rewrite Hra|by rewrite Hwa].
  destruct (assets_init_id ex2 fs') as (Hf2 & Hr2 & _).
  assert (storedID id1 (assets_init ex2 fs')) as Hst by (unfold storedID; by rewrite Hf2, Hr2).
  rewrite (loadClientID_stored _ _ _ Hst) in Hl2. by simplify_eq.
Qed.

(** The client's heartbeat panics when it starts exactly if the configured
    [ping_time] is a duration that is zero or negative: loading accepts it. *)
Theorem heartbeat_panics_iff embedded path rnd v fs v' fs' :
  InitConfig embedded path rnd v fs = (None, v', fs') →
  ∃ data conf, configSource embedded path fs = Some data ∧ Unmarshal data = Some conf ∧
    (heartbeat_ticker v' = None ↔ ∃ d, ParseDuration (pc_PingTime (conf_Performance conf)) = Some d ∧ d <= 0).
Proof.
  intros Hi. destruct (InitConfig_inv _ _ _ _ _ _ _ Hi) as (data & conf & id & Hs & Hu & _ & _ & ->).
  exists data, conf. split_and!; [done..|]. unfold heartbeat_ticker, NewTicker, setVars, durationOr. simpl.
  destruct (ParseDuration _) as [d|]; simpl.
  - destruct (d <=? 0) eqn:E; bool_cases; naive_solver lia.
  - split; [done|]. naive_solver.
Qed.
End facts.

(** A decoder that knows one file: the example configuration of the client with
    the given heartbeat interval. *)
Definition ex_conf (ping : bytes) : Configuration :=
  mkConfiguration (mkServerConfig (string_bytes "192.0.2.1") 10011 10012 [])
    (mkDeviceConfig (string_bytes "easytun"))
    (mkPerformanceConfig (string_bytes "10s") ping 4 4) (mkFeaturesConfig false true true).

Definition ex_toml : Toml := λ data, Some (ex_conf data).
Definition ex_files : Files := mkFiles ∅ (λ _, true) (λ _, true).
Definition ex_random (b : Z) : option bytes := Some (replicate 16 b).

Lemma config_loaded_witness :
  config_wf (@InitConfig ex_toml (string_bytes "1s") [] (ex_random 7) zeroVars ex_files).1.2.
Proof.
  refine (proj1 (@config_loaded ex_toml (string_bytes "1s") [] (ex_random 7) zeroVars ex_files _
    (@InitConfig ex_toml (string_bytes "1s") [] (ex_random 7) zeroVars ex_files).2 _ _));
    [vm_compute; reflexivity|]. intros r [= <-]. reflexivity.
Defined.

Definition ex_start (rnd : option bytes) (fs : Files) : started * Files :=
  @main_client ex_toml (string_bytes "1s") [35] [] rnd fs.
Definition ex_vars (s : started) : Vars := match s with Starts v => v | Exits _ => zeroVars end.
Definition ex_first : started * Files := ex_start (ex_random 7) ex_files.
Definition ex_second : started * Files := ex_start (ex_random 8) ex_first.2.

Lemma client_id_persistent_witness : ClientID (ex_vars ex_second.1) = replicate 16 7.
Proof.
  rewrite (proj1 (@client_id_persistent ex_toml (string_bytes "1s") [35] [] (ex_random 7) ex_files (ex_vars ex_first.1)
    ex_first.2 (string_bytes "1s") [35] [] (ex_random 8) (ex_vars ex_second.1) ex_second.2
    eq_refl (λ r e, match e in _ = x return match x with Some y => len y = 16 | None => True end with eq_refl => eq_refl end)
    eq_refl eq_refl eq_refl)).
  reflexivity.
Defined.

Lemma heartbeat_panics_iff_witness :
  heartbeat_ticker (@InitConfig ex_toml (string_bytes "0s") [] (ex_random 7) zeroVars ex_files).1.2 = None.
Proof.
  destruct (@heartbeat_panics_iff ex_toml (string_bytes "0s") [] (ex_random 7) zeroVars ex_files
    (@InitConfig ex_toml (string_bytes "0s") [] (ex_random 7) zeroVars ex_files).1.2
    (@InitConfig ex_toml (string_bytes "0s") [] (ex_random 7) zeroVars ex_files).2)
    as (data & conf & Hd & Hc & Hiff); [vm_compute; reflexivity|].
  apply Hiff. vm_compute in Hd. injection Hd as <-. vm_compute in Hc. injection Hc as <-.
  exists 0. split; [vm_compute; reflexivity|done].
Defined.
