(* ===== verification/Cipher.v ===== *)
(** Authenticated encryption: [internal/protocol/cipher.go].

    The AEAD itself (golang.org/x/crypto/chacha20poly1305) is library code: it
    is the class [AEAD], and the documented behaviour the code relies on is
    the class [AEADLaws].  [toy_aead] is a concrete instance, so that every
    statement made under these classes is also one about an executable
    function.  The file models the key holders and the nonce counter and
    proves that a sender never repeats a nonce. *)

From stdpp Require Import base numbers list tactics.
From S2P Require Import Prelude.

Local Open Scope Z_scope.

Definition NonceSize : nat := 12.
Definition AuthenticationTagLength : Z := 16.

(** [Seal] and [Open] of a [cipher.AEAD] made from a key.  [Open] is always
    called by the source with the ciphertext's own storage as destination;
    [aead_residue] is what that storage holds behind the plaintext when [Open]
    succeeds, and all of what it holds when [Open] fails. *)
Class AEAD := {
  aead_seal : bytes → bytes → bytes → bytes → bytes;
  aead_open : bytes → bytes → bytes → bytes → option bytes;
  aead_residue : bytes → bytes → bytes → bytes → bytes;
}.

Class AEADLaws `{AEAD} : Prop := {
  aead_open_seal k n p a : aead_open k n (aead_seal k n p a) a = Some p;
  aead_seal_length k n p a : length (aead_seal k n p a) = (length p + 16)%nat;
  aead_open_sound k n c a p : aead_open k n c a = Some p → c = aead_seal k n p a;
  aead_residue_length k n c a :
    length (aead_residue k n c a) =
      match aead_open k n c a with Some p => length c - length p | None => length c end%nat;
}.

(** ** cipher.go *)

Definition CipherInit : Z := 1.
Definition CipherReady : Z := 2.

Record CipherState := mkCipherState { cs_key : bytes; cs_nonce : Z }.

Record Cipher := mkCipher {
  Recver : option CipherState;
  Sender : option CipherState;
  cipher_status : Z;
}.

Definition NewChaCha : Cipher := mkCipher None None CipherInit.

(** [chacha20poly1305.New] fails only on a key that is not 32 bytes long, and
    both arguments are [[32]byte] arrays. *)
Definition Init (c : Cipher) (recvKey sendKey : bytes) : Cipher :=
  mkCipher (Some (mkCipherState recvKey 0)) (Some (mkCipherState sendKey 0)) CipherReady.

Definition IsReady (c : Cipher) : bool := cipher_status c =? CipherReady.

(** [atomic.AddUint64(&cs.nonce, 1) - 1] *)
Definition GetNonce (cs : CipherState) : Z * CipherState :=
  let n := u64 (cs_nonce cs + 1) in (u64 (n - 1), mkCipherState (cs_key cs) n).

Section with_aead.
Context `{AEAD}.

(** [append(dst, Seal(...))] *)
Definition Encrypt (cs : CipherState) (dst nonce payload header : bytes) : bytes :=
  dst ++ aead_seal (cs_key cs) nonce payload header.

(** [Open] over [data[from:]] in place: the plaintext (or the failure) and
    the storage afterwards. *)
Definition Decrypt (cs : CipherState) (from : nat) (data : gslice) (nonce header : bytes)
    : option bytes * gslice :=
  let ciphertext := drop from (sdata data) in
  let out := aead_open (cs_key cs) nonce ciphertext header in
  let rest := aead_residue (cs_key cs) nonce ciphertext header in
  (out, Slice (sid data) (take from (sdata data) ++ default [] out ++ rest) (stail data)).
End with_aead.

(** ** The nonce counter *)

(** The nonces handed out by [n] successive calls. *)
Fixpoint GetNonces (n : nat) (cs : CipherState) : list Z * CipherState :=
  match n with
  | O => ([], cs)
  | S n' => let '(v, cs1) := GetNonce cs in
            let '(vs, cs2) := GetNonces n' cs1 in (v :: vs, cs2)
  end.

Lemma GetNonce_val cs : 0 <= cs_nonce cs < 2 ^ 64 → fst (GetNonce cs) = cs_nonce cs.
Proof. intros. unfold GetNonce, u64. simpl. rewrite Zminus_mod_idemp_l. rewrite Z.mod_small; lia. Qed.

Lemma GetNonce_next cs : cs_nonce (snd (GetNonce cs)) = u64 (cs_nonce cs + 1).
Proof. done. Qed.

Lemma GetNonce_range cs : 0 <= cs_nonce (snd (GetNonce cs)) < 2 ^ 64.
Proof. apply u64_range. Qed.

Lemma GetNonce_key cs : cs_key (snd (GetNonce cs)) = cs_key cs.
Proof. done. Qed.

(** The [i]-th of the nonces is the start value plus [i], modulo 2^64. *)
Lemma GetNonces_lookup n cs i v :
  0 <= cs_nonce cs < 2 ^ 64 →
  fst (GetNonces n cs) !! i = Some v → v = u64 (cs_nonce cs + Z.of_nat i) ∧ (i < n)%nat.
Proof.
  revert cs i. induction n as [|n IH]; intros cs i Hr; cbn [GetNonces]; [done|].
  destruct (GetNonce cs) as [v0 cs1] eqn:E. destruct (GetNonces n cs1) as [vs cs2] eqn:E2.
  pose proof (GetNonce_val cs Hr) as Hv. pose proof (GetNonce_next cs) as Hn.
  pose proof (GetNonce_range cs) as Hr1. rewrite E in Hv, Hn, Hr1. simpl in Hv, Hn, Hr1. subst v0.
  cbn [fst].  destruct i as [|i]; simpl.
  - intros Heq. simplify_eq. rewrite Z.add_0_r, u64_small by done. lia.
  - intros Hi. specialize (IH cs1 i). rewrite E2 in IH. simpl in IH.
    destruct (IH Hr1 Hi) as [-> ?]. split; [|lia]. rewrite Hn. unfold u64.
    rewrite Zplus_mod_idemp_l. f_equal. lia.
Qed.

(** C29: as long as at most 2^64 packets are sealed under one key, the counter
    never hands out the same nonce twice, wrap-around included. *)
Theorem nonces_distinct (n : nat) (cs : CipherState) :
  0 <= cs_nonce cs < 2 ^ 64 → Z.of_nat n <= 2 ^ 64 → NoDup (fst (GetNonces n cs)).
Proof.
  intros Hr Hn. apply NoDup_alt. intros i j v Hi Hj.
  apply GetNonces_lookup in Hi as [-> Hi]; [|done].
  apply GetNonces_lookup in Hj as [Heq Hj]; [|done].
  unfold u64 in Heq. apply Nat2Z.inj.
  Z.to_euclidean_division_equations. nia.
Qed.

Lemma nonces_distinct_witness :
  NoDup (fst (GetNonces 3 (mkCipherState [] (2 ^ 64 - 1)))).
Proof. apply (nonces_distinct 3 (mkCipherState [] (2 ^ 64 - 1))); simpl; lia. Defined.

(** ** A concrete AEAD

    Bytes are shifted by a value computed from key, nonce and associated data
    and followed by a 16-byte tag; enough to satisfy the laws and to run the
    codec, with no claim of secrecy. *)

Definition toy_sum (l : bytes) : Z := foldl (λ acc b, (acc * 31 + b) mod 1009) 7 l.

Definition toy_tag (k n c a : bytes) : bytes :=
  replicate 12 0 ++ [toy_sum k; toy_sum n; toy_sum c; toy_sum a].

#[export] Instance toy_aead : AEAD := {
  aead_seal k n p a :=
    let c := (λ b, b + toy_sum (k ++ n)) <$> p in c ++ toy_tag k n c a;
  aead_open k n c a :=
    let body := take (length c - 16) c in
    if decide (drop (length c - 16) c = toy_tag k n body a ∧ (16 <= length c)%nat)
    then Some ((λ b, b - toy_sum (k ++ n)) <$> body) else None;
  aead_residue k n c a :=
    let body := take (length c - 16) c in
    if decide (drop (length c - 16) c = toy_tag k n body a ∧ (16 <= length c)%nat)
    then drop (length c - 16) c else replicate (length c) 0;
}.

#[export] Instance toy_aead_laws : AEADLaws.
Proof.
  split; intros; simpl in *.
  - rewrite length_app, length_fmap. simpl.
    replace (length p + 16 - 16)%nat with (length ((λ b, b + toy_sum (k ++ n)) <$> p))
      by (rewrite length_fmap; lia).
    rewrite take_app_length, drop_app_length, decide_True by (split; [done|lia]).
    f_equal. rewrite <- list_fmap_compose. rewrite <- (list_fmap_id p) at 2.
    apply list_fmap_ext. simpl. lia.
  - rewrite length_app, length_fmap. simpl. lia.
  - case_decide as Hd; [|done]. destruct Hd as [Ht Hlen]. simplify_eq.
    rewrite <- list_fmap_compose.
    rewrite (list_fmap_ext _ id) by (intros; simpl; lia). rewrite list_fmap_id.
    rewrite <- Ht. by rewrite take_drop.
  - case_decide as Hd.
    + rewrite length_drop, length_fmap, length_take. lia.
    + apply length_replicate.
Qed.
