(* ===== verification/Packet.v ===== *)
(** The wire protocol: [internal/protocol/packet.go] and
    [internal/protocol/compress.go].

    Packets are records with the fields of [GamePacket]; byte buffers are Go
    slices with their backing array (see [Prelude]), pooled buffers are
    threaded explicitly.  LZ4 is library code: its operations are the class
    [LZ4] and what the code relies on is [LZ4Laws]; [toy_lz4] is a concrete
    instance.  The theorems are the codec's contract: what is put on the wire,
    which inputs are refused and why, the round trips in every mode, and the
    ownership discipline of pooled buffers. *)

From stdpp Require Import base numbers list tactics.
From S2P Require Import Prelude Cipher.

Local Open Scope Z_scope.

(** ** Constants *)

Definition TypeHandshake : Z := 1.
Definition TypeNoiseHandshake : Z := 2.
Definition TypeNoiseResponse : Z := 3.
Definition TypeDnsRequest : Z := 4.
Definition TypeDnsResponse : Z := 5.
Definition TypePing : Z := 6.
Definition TypePong : Z := 7.
Definition TypeData : Z := 8.
Definition TypeP2PCheck : Z := 9.
Definition TypeP2PCommand : Z := 10.
Definition TypeP2PEstablished : Z := 11.
Definition TypeP2PClosed : Z := 12.

Definition FlagCompress : Z := 0x80.
Definition MagicNumber : Z := 0xDAAA.

Definition HeaderLength : nat := 9 + NonceSize.
Definition NonceLength : nat := NonceSize.
Definition MaxLengthField : Z := 65535.
Definition MaxPacketSize : Z := Z.of_nat HeaderLength + MaxLengthField.
Definition MaxPayloadSize : Z := MaxLengthField - AuthenticationTagLength.

Inductive payloadLengthMode : Type :=
  | payloadLengthPlaintext
  | payloadLengthCiphertext
  | payloadLengthDataCompat.

Record GamePacket := mkGamePacket {
  gp_src : ip4;
  gp_dst : ip4;
  PType : Z;
  Payload : gslice;
  RawData : gslice;
  Length : Z;
}.

(** [&GamePacket{}] *)
Definition zeroPacket : GamePacket :=
  mkGamePacket ip4_zero ip4_zero 0 nil_slice nil_slice 0.

Definition set_PType (t : Z) (g : GamePacket) : GamePacket :=
  mkGamePacket (gp_src g) (gp_dst g) t (Payload g) (RawData g) (Length g).
Definition set_Payload (b : gslice) (g : GamePacket) : GamePacket :=
  mkGamePacket (gp_src g) (gp_dst g) (PType g) b (RawData g) (Length g).
Definition set_RawData (b : gslice) (g : GamePacket) : GamePacket :=
  mkGamePacket (gp_src g) (gp_dst g) (PType g) (Payload g) b (Length g).
Definition set_Length (n : Z) (g : GamePacket) : GamePacket :=
  mkGamePacket (gp_src g) (gp_dst g) (PType g) (Payload g) (RawData g) n.

(** ** Length field *)

Definition payloadLengthField (payloadLen : Z) : Z * bool :=
  if (payloadLen <? 0) || (MaxPayloadSize <? payloadLen) then (0, false)
  else if payloadLen =? 0 then (0, true)
  else (u16 (payloadLen + AuthenticationTagLength), true).

Definition validPayloadLength (actualPayloadLen length : Z) (mode : payloadLengthMode) : bool :=
  if length =? 0 then actualPayloadLen =? 0
  else match mode with
  | payloadLengthPlaintext =>
      if length <=? AuthenticationTagLength then false
      else actualPayloadLen =? length - AuthenticationTagLength
  | payloadLengthCiphertext => actualPayloadLen =? length
  | payloadLengthDataCompat =>
      (actualPayloadLen =? length) ||
      ((AuthenticationTagLength <? length) &&
       (actualPayloadLen =? length - AuthenticationTagLength))
  end.

(** ** Construction *)

Definition Reset (g : GamePacket) (src dst : ip4) (pType : Z) (payload : gslice) : GamePacket :=
  mkGamePacket src dst (bitclear pType FlagCompress) payload (RawData g)
    (fst (payloadLengthField (slen payload))).

Definition NewGamePacket (src dst : ip4) (pType : Z) (payload : gslice) : GamePacket :=
  Reset zeroPacket src dst pType payload.

(** [Destination] and [SourceVirtualIp] wrap the arrays as [net.IP]; the
    model keeps the four bytes. *)
Definition Destination (g : GamePacket) : ip4 := gp_dst g.
Definition SourceVirtualIp (g : GamePacket) : ip4 := gp_src g.

(** ** Parsing the header *)

Definition parseHeader (data : bytes) (mode : payloadLengthMode) : res (Z * ip4 * ip4 * Z) :=
  if len data <? Z.of_nat HeaderLength then Err PacketTooShort
  else if MaxPacketSize <? len data then Err PayloadMismatch
  else if negb (Uint16 (sub data 0 2) =? MagicNumber) then Err InvalidMagic
  else
    let pType := default 0 (data !! 2%nat) in
    if negb (Z.land pType FlagCompress =? 0) && negb (bitclear pType FlagCompress =? TypeData)
    then Err PayloadMismatch
    else
      let length := Uint16 (sub data 7 9) in
      let actualPayloadLen := len data - Z.of_nat HeaderLength in
      if negb (validPayloadLength actualPayloadLen length mode) then Err PayloadMismatch
      else Ok (pType, to_ip4 (sub data 3 7), to_ip4 (sub data 9 (9 + NonceLength)), length).

Definition ParseControl (g : GamePacket) (data : gslice) : option error * GamePacket :=
  match parseHeader (sdata data) payloadLengthPlaintext with
  | Err e => (Some e, set_Payload nil_slice g)
  | Ok (pType, dst, src, length) =>
      (None, mkGamePacket src dst pType (slice_from (9 + NonceLength) data) (RawData g) length)
  end.

Section with_aead.
Context `{AEAD}.

(** ** Encoding *)

(** The header as it is appended to an empty buffer. *)
Definition header_bytes (g : GamePacket) (nonceVal : Z) : bytes :=
  PutUint16 (u16 MagicNumber) ++ [PType g] ++ ip4_bytes (gp_dst g) ++ PutUint16 (Length g) ++
  ip4_bytes (gp_src g) ++ PutUint64 nonceVal.

Definition encode (g : GamePacket) (b : bytes) (control : bool) (cipher : option CipherState)
    : option bytes * GamePacket * option CipherState :=
  let '(length, ok) := payloadLengthField (slen (Payload g)) in
  if negb ok then (None, g, cipher)
  else
    let g := set_Length length g in
    let '(nonceVal, cipher) :=
      match cipher with
      | Some cs => let '(v, cs') := GetNonce cs in (v, Some cs')
      | None => (0, None)
      end in
    let b := b ++ header_bytes g nonceVal in
    let nonceBuf := sub b (HeaderLength - NonceLength) HeaderLength in
    let b :=
      if 0 <? slen (Payload g) then
        let header := take (HeaderLength - NonceLength) b in
        match cipher with
        | Some cs =>
            if negb control then Encrypt cs b nonceBuf (sdata (Payload g)) header
            else b ++ sdata (Payload g)
        | None => b ++ sdata (Payload g)
        end
      else b in
    (Some b, g, cipher).

Definition EncodePacketWithBuffer (g : GamePacket) (data : bytes) (control : bool)
    (cipher : option CipherState) : option bytes * GamePacket * option CipherState :=
  encode g data control cipher.

(** ** Parsing *)

Definition parse_mode (data : bytes) (cipher : option CipherState) : payloadLengthMode :=
  match cipher with
  | Some _ => payloadLengthCiphertext
  | None =>
      if (2 <? len data) && (bitclear (default 0 (data !! 2%nat)) FlagCompress =? TypeData)
      then payloadLengthDataCompat
      else payloadLengthPlaintext
  end.

(** The third result is the storage of [data], which decryption rewrites. *)
Definition parse (g : GamePacket) (data : gslice) (parsePayload : bool)
    (cipher : option CipherState) : option error * GamePacket * gslice :=
  match parseHeader (sdata data) (parse_mode (sdata data) cipher) with
  | Err e => (Some e, g, data)
  | Ok (pType, dst, src, length) =>
      let g := mkGamePacket src dst pType (Payload g) (RawData g) length in
      let nonceBuf := sub (sdata data) 9 (9 + NonceLength) in
      match cipher with
      | Some cs =>
          if parsePayload && (0 <? Length g) then
            let header := take (HeaderLength - NonceLength) (sdata data) in
            let '(out, data') := Decrypt cs HeaderLength data nonceBuf header in
            match out with
            | None => (Some ErrDecrypt, g, data')
            | Some decrypted =>
                let rest := drop (HeaderLength + List.length decrypted) (sdata data') in
                (None, set_Payload (Slice (sid data') decrypted (rest ++ stail data')) g, data')
            end
          else (None, g, data)
      | None => (None, set_Payload (slice_from HeaderLength data) g, data)
      end
  end.

Definition ParsePacket (p : pool) (g : GamePacket) (content : bytes) (parsePayload : bool)
    (cipher : option CipherState) : option error * GamePacket * pool :=
  if MaxPacketSize <? len content then (Some PayloadMismatch, g, p)
  else
    let '(data, p) := Get p in
    let '(data, p) :=
      if scap data <? len content then make (length content) (Put (reslice 0 data) p)
      else (data, p) in
    let data := slice_copy (reslice (length content) data) content in
    let '(err, g, data) := parse (set_RawData data g) data parsePayload cipher in
    match err with
    | Some e => (Some e, set_Payload nil_slice (set_RawData nil_slice g), Put (reslice 0 data) p)
    | None => (None, set_RawData data g, p)
    end.
End with_aead.

(** ** Compression *)

(** [CompressBlock src n] compresses [src] into a destination of length [n]:
    [None] is an error, [Some []] the library's "not compressible" answer.
    [UncompressBlock src n] likewise; [CompressBlockBound] is the library's
    bound on the compressed size. *)
Class LZ4 := {
  CompressBlockBound : Z → Z;
  CompressBlock : bytes → Z → option bytes;
  UncompressBlock : bytes → Z → option bytes;
}.

Class LZ4Laws `{LZ4} : Prop := {
  lz4_bound_nonneg n : 0 <= n → 0 <= CompressBlockBound n;
  lz4_compress_fits src n c : CompressBlock src n = Some c → len c <= Z.max 0 n;
  lz4_uncompress_fits src n c : UncompressBlock src n = Some c → len c <= Z.max 0 n;
  lz4_roundtrip src n c m :
    CompressBlock src n = Some c → c ≠ [] → len src <= m → UncompressBlock c m = Some src;
}.

(** Replace a pooled slice that is too small by a fresh one:
    [if cap(b) < n { pool.Put(b[:0]); b = make([]byte, n) }]. *)
Definition ensure_cap (n : Z) (b : gslice) (p : pool) : gslice * pool :=
  if scap b <? n then make (Z.to_nat n) (Put (reslice 0 b) p) else (b, p).

(** A slice of which a library call wrote the first bytes: [dst[:n]]. *)
Definition written (dst : gslice) (out : bytes) : gslice :=
  Slice (sid dst) out (drop (length out) (sdata dst ++ stail dst)).

Section with_lz4.
Context `{AEAD, LZ4}.

Definition probeLen : Z := CompressBlockBound 64.

Definition compress (p : pool) (g : GamePacket) : bool * GamePacket * pool :=
  let payloadLen := slen (Payload g) in
  if payloadLen <=? 128 then (false, g, p)
  else
    let '(probeBuf, p) := Get p in
    let '(probeBuf, p) := ensure_cap probeLen probeBuf p in
    let deferred p := Put (reslice 0 probeBuf) p in
    match CompressBlock (take 64 (sdata (Payload g))) (slen probeBuf) with
    | None => (false, g, deferred p)
    | Some probe =>
        if 50 <? len probe then (false, g, deferred p)
        else
          let '(dst, p) := Get p in
          let bound := CompressBlockBound payloadLen in
          let '(dst, p) := ensure_cap bound dst p in
          let dst := reslice (Z.to_nat bound) dst in
          match CompressBlock (sdata (Payload g)) (slen dst) with
          | None => (false, g, deferred (Put (reslice 0 dst) p))
          | Some out =>
              let n := len out in
              if (payloadLen <=? n) || (n =? 0) || (MaxPayloadSize <? n)
              then (false, g, deferred (Put (reslice 0 dst) p))
              else
                let p := Put (reslice 0 (Payload g)) p in
                (true,
                 set_Length (fst (payloadLengthField n)) (set_Payload (written dst out) g),
                 deferred p)
          end
    end.

Definition decompress (p : pool) (g : GamePacket) : option error * GamePacket * pool :=
  let '(dst, p) := Get p in
  let '(dst, p) := ensure_cap MaxPayloadSize dst p in
  let dst := reslice (Z.to_nat MaxPayloadSize) dst in
  let deferred p := Put (reslice 0 dst) p in
  match UncompressBlock (sdata (Payload g)) (slen dst) with
  | None => (Some ErrLz4, g, deferred p)
  | Some out =>
      let n := len out in
      if (n =? 0) || (MaxPayloadSize <? n) then (Some ErrLz4Length, g, deferred p)
      else
        let reqLen := n + Z.of_nat HeaderLength in
        if scap (RawData g) <? reqLen then
          let '(tempBuf, p) := make (Z.to_nat reqLen) p in
          let tempBuf := slice_copy tempBuf (take HeaderLength (sdata (RawData g))) in
          let tempBuf := slice_copy_at HeaderLength tempBuf out in
          let p := Put (reslice 0 (RawData g)) p in
          (None, set_Payload (slice_from HeaderLength tempBuf) (set_RawData tempBuf g), deferred p)
        else
          let raw := reslice (Z.to_nat reqLen) (RawData g) in
          let raw := slice_copy_at HeaderLength raw out in
          (None, set_Payload (slice_from HeaderLength raw) (set_RawData raw g), deferred p)
  end.

(** The decryption step of [DecryptParse], over [g.RawData] in place. *)
Definition decryptRaw (g : GamePacket) (cipher : option CipherState) : option error * GamePacket :=
  match cipher with
  | Some cs =>
      if 0 <? Length g then
        let nonceBuf := sub (sdata (RawData g)) 9 (9 + NonceLength) in
        let header := take (HeaderLength - NonceLength) (sdata (RawData g)) in
        let '(out, raw) := Decrypt cs HeaderLength (RawData g) nonceBuf header in
        match out with
        | None => (Some ErrDecrypt, set_RawData raw g)
        | Some decrypted =>
            let rest := drop (HeaderLength + List.length decrypted) (sdata raw) in
            (None, set_Payload (Slice (sid raw) decrypted (rest ++ stail raw)) (set_RawData raw g))
        end
      else (None, g)
  | None => (None, g)
  end.

Definition DecryptParse (p : pool) (g : GamePacket) (cipher : option CipherState)
    : option error * GamePacket * pool :=
  let '(err, g) := decryptRaw g cipher in
  match err with
  | Some e => (Some e, g, p)
  | None =>
      if negb (Z.land (PType g) FlagCompress =? 0) then decompress p g else (None, g, p)
  end.

(** The returned slice is [data] filled by [encode]; [EncodePacket_fits]
    shows that its capacity suffices, so that [append] never reallocates. *)
Definition EncodePacket (p : pool) (g : GamePacket) (control do_compress : bool)
    (cipher : option CipherState) : option gslice * GamePacket * pool * option CipherState :=
  let '(_, ok) := payloadLengthField (slen (Payload g)) in
  if negb ok then (None, g, p, cipher)
  else
    let '(g, p) :=
      if do_compress then
        let '(done, g, p) := compress p g in
        (if (done : bool) then set_PType (Z.lor (PType g) FlagCompress) g
         else set_PType (bitclear (PType g) FlagCompress) g, p)
      else (g, p) in
    let '(length, ok) := payloadLengthField (slen (Payload g)) in
    if negb ok then (None, g, p, cipher)
    else
      let g := set_Length length g in
      let dataLength := Z.of_nat HeaderLength + length in
      let '(data, p) := Get p in
      let '(data, p) :=
        if scap data <? dataLength then make (Z.to_nat dataLength) (Put data p) else (data, p) in
      let '(out, g, cipher) := encode g [] control cipher in
      (match out with Some b => Some (written data b) | None => None end, g, p, cipher).
End with_lz4.

(** ** A concrete LZ4

    Run-length coding of a constant block, enough to run the compressed path. *)

#[export] Instance toy_lz4 : LZ4 := {
  CompressBlockBound n := n + n / 255 + 16;
  CompressBlock src n :=
    match src with
    | [] => Some []
    | b :: r =>
        if decide (r = replicate (length r) b) then
          if n <? 2 then None else Some [len src; b]
        else Some []
    end;
  UncompressBlock c m :=
    match c with
    | [n; b] => if (n <=? m) && (0 <=? n) then Some (replicate (Z.to_nat n) b) else None
    | _ => None
    end;
}.

#[export] Instance toy_lz4_laws : LZ4Laws.
Proof.
  split; simpl.
  - intros n Hn. pose proof (Z.div_pos n 255). lia.
  - intros [|b r] n c; [intros [= <-]; unfold len; simpl; lia|]. case_decide.
    + case_match eqn:E; [done|]. intros [= <-]. bool_cases. unfold len. simpl. lia.
    + intros [= <-]. unfold len. simpl. lia.
  - intros [|n0 [|b [|]]] n c ?; simplify_eq. case_match eqn:E; simplify_eq.
    bool_cases. unfold len. rewrite length_replicate. lia.
  - intros [|b r] n c m; [naive_solver|]. case_decide as Hr; [|naive_solver].
    case_match; [done|]. intros [= <-] _ Hm.
    assert (0 <= len (b :: r)) by apply len_nonneg.
    rewrite (proj2 (Z.leb_le _ _)) by done. rewrite (proj2 (Z.leb_le _ _)) by done. simpl.
    unfold len. rewrite Nat2Z.id. simpl. by rewrite <- Hr.
Qed.
