(* ===== verification/PacketFacts.v ===== *)
(** The contract of the packet codec: sizes and refusals of the encoder, the
    round trips of the plain, sealed and compressed forms, canonicity of what
    the parser accepts, authenticity of what is decrypted, and ownership of
    the pooled buffers. *)

From stdpp Require Import base numbers list tactics.
From S2P Require Import Prelude Cipher Packet.

Local Open Scope Z_scope.

(** * Header and length field *)

(** Types that may carry the compression flag: [parseHeader] refuses the flag
    on anything but data packets. *)
Definition flag_ok (t : Z) : Prop :=
  Z.land t FlagCompress = 0 ∨ bitclear t FlagCompress = TypeData.

#[export] Instance flag_ok_dec t : Decision (flag_ok t).
Proof. unfold flag_ok. apply _. Defined.

Lemma header_bytes_length g n : length (header_bytes g n) = HeaderLength.
Proof. unfold header_bytes. rewrite !length_app, !ip4_bytes_length. done. Qed.

Lemma header_prefix g n body : take HeaderLength (header_bytes g n ++ body) = header_bytes g n.
Proof. rewrite <- (header_bytes_length g n). apply take_app_length. Qed.

Lemma header_drop g n body : drop HeaderLength (header_bytes g n ++ body) = body.
Proof. rewrite <- (header_bytes_length g n). apply drop_app_length. Qed.

(** The additional authenticated data: everything before the nonce. *)
Lemma header_aad g n body :
  take (HeaderLength - NonceLength) (header_bytes g n ++ body) =
  take (HeaderLength - NonceLength) (header_bytes g n).
Proof. apply take_app_le. rewrite header_bytes_length. unfold HeaderLength. lia. Qed.

(** Every field of the header, at the offsets the parser reads. *)
Ltac header_field :=
  rewrite sub_app_l by (rewrite header_bytes_length; unfold HeaderLength, NonceSize; lia);
  match goal with g : GamePacket |- _ =>
    destruct g as [[[[? ?] ?] ?] [[[? ?] ?] ?] ? ? ? ?]; reflexivity end.

Lemma header_magic g n body : sub (header_bytes g n ++ body) 0 2 = PutUint16 (u16 MagicNumber).
Proof. header_field. Qed.

Lemma header_dst g n body : sub (header_bytes g n ++ body) 3 7 = ip4_bytes (gp_dst g).
Proof. header_field. Qed.

Lemma header_len g n body : sub (header_bytes g n ++ body) 7 9 = PutUint16 (Length g).
Proof. header_field. Qed.

Lemma header_type g n body : (header_bytes g n ++ body) !! 2%nat = Some (PType g).
Proof. done. Qed.

(** The nonce on the wire is the source address followed by the counter. *)
Lemma header_nonce g n body :
  sub (header_bytes g n ++ body) 9 HeaderLength = ip4_bytes (gp_src g) ++ PutUint64 n.
Proof. header_field. Qed.

Lemma payloadLengthField_spec n :
  payloadLengthField n =
    if decide (0 <= n <= MaxPayloadSize) then ((if decide (n = 0) then 0 else n + 16), true)
    else (0, false).
Proof.
  unfold payloadLengthField, MaxPayloadSize, MaxLengthField, AuthenticationTagLength.
  destruct ((n <? 0) || (65535 - 16 <? n)) eqn:E.
  - rewrite decide_False; [done|]. intros Hn. apply orb_true_iff in E as [?|?]; bool_cases; lia.
  - bool_cases. rewrite decide_True by lia. destruct (n =? 0) eqn:E0; bool_cases.
    + by rewrite decide_True.
    + rewrite decide_False by done. rewrite u16_small by lia. done.
Qed.

Lemma payloadLengthField_range n : 0 <= fst (payloadLengthField n) < 65536.
Proof.
  rewrite payloadLengthField_spec. unfold MaxPayloadSize, MaxLengthField, AuthenticationTagLength.
  repeat case_decide; simpl; lia.
Qed.
#[export] Hint Resolve payloadLengthField_range : go.

Lemma parseHeader_ok g n body mode :
  0 <= Length g < 65536 → flag_ok (PType g) → len body <= MaxLengthField →
  validPayloadLength (len body) (Length g) mode = true →
  parseHeader (header_bytes g n ++ body) mode = Ok (PType g, gp_dst g, gp_src g, Length g).
Proof.
  intros HL Hf Hb Hv. unfold parseHeader.
  assert (len (header_bytes g n ++ body) = Z.of_nat HeaderLength + len body) as Hlen
    by (rewrite len_app; unfold len at 1; rewrite header_bytes_length; done).
  rewrite Hlen. pose proof (len_nonneg body).
  rewrite (proj2 (Z.ltb_ge _ _)) by lia.
  unfold MaxPacketSize. rewrite (proj2 (Z.ltb_ge _ _)) by lia.
  replace (Z.of_nat HeaderLength + len body - Z.of_nat HeaderLength) with (len body) by lia.
  rewrite header_magic, header_type, header_len, header_dst. change (9 + NonceLength)%nat with HeaderLength.
  rewrite header_nonce, to_ip4_bytes, to_ip4_bytes_nil.
  change (default 0 (Some (PType g))) with (PType g).
  assert (Uint16 (PutUint16 (Length g)) = Length g) as ->
    by (rewrite <- (app_nil_r (PutUint16 _)), Uint16_PutUint16; by apply u16_small).
  rewrite Hv. change (Uint16 _ =? MagicNumber) with true. cbn [negb].
  destruct Hf as [-> | ->]; [done|]. by rewrite andb_false_r.
Qed.

Lemma validPayloadLength_plain n mode :
  0 <= n <= MaxPayloadSize → mode ≠ payloadLengthCiphertext →
  validPayloadLength n (fst (payloadLengthField n)) mode = true.
Proof.
  intros Hn Hm. rewrite payloadLengthField_spec, decide_True by done. simpl.
  unfold validPayloadLength, AuthenticationTagLength. case_decide; [subst; done|].
  rewrite (proj2 (Z.eqb_neq (n + 16) 0)) by lia. destruct mode; [|done|].
  - rewrite (proj2 (Z.leb_gt _ _)) by lia. apply Z.eqb_eq. lia.
  - apply orb_true_iff. right. apply andb_true_iff.
    split; [apply Z.ltb_lt; lia|apply Z.eqb_eq; lia].
Qed.

Lemma validPayloadLength_sealed n mode :
  0 < n <= MaxPayloadSize → mode ≠ payloadLengthPlaintext →
  validPayloadLength (n + 16) (fst (payloadLengthField n)) mode = true.
Proof.
  intros Hn Hm. rewrite payloadLengthField_spec, decide_True, decide_False by lia. simpl.
  unfold validPayloadLength. rewrite (proj2 (Z.eqb_neq (n + 16) 0)) by lia.
  destruct mode; [done|apply Z.eqb_refl|]. by rewrite Z.eqb_refl.
Qed.

(** * The encoder and the parser, in closed form *)

Section codec.
Context `{AEAD}.

Implicit Types (g : GamePacket) (p : pool) (cs : CipherState).

(** The counter value an encoder uses and the cipher it leaves behind. *)
Definition next_nonce (cipher : option CipherState) : Z * option CipherState :=
  match cipher with
  | Some cs => let '(v, cs') := GetNonce cs in (v, Some cs')
  | None => (0, None)
  end.

(** What follows the header on the wire. *)
Definition wire_body g (v : Z) (control : bool) (cipher : option CipherState) : bytes :=
  match cipher with
  | Some cs =>
      if control || bool_decide (sdata (Payload g) = []) then sdata (Payload g)
      else aead_seal (cs_key cs) (ip4_bytes (gp_src g) ++ PutUint64 v) (sdata (Payload g))
             (take (HeaderLength - NonceLength) (header_bytes g v))
  | None => sdata (Payload g)
  end.

Definition with_length g : GamePacket :=
  set_Length (fst (payloadLengthField (slen (Payload g)))) g.

Lemma encode_some g control cipher :
  slen (Payload g) <= MaxPayloadSize →
  encode g [] control cipher =
    (Some (header_bytes (with_length g) (fst (next_nonce cipher)) ++
           wire_body (with_length g) (fst (next_nonce cipher)) control cipher),
     with_length g, snd (next_nonce cipher)).
Proof.
  intros Hs. unfold encode, with_length. pose proof (len_nonneg (sdata (Payload g))).
  unfold slen in *. rewrite payloadLengthField_spec, decide_True by done. cbn [negb fst].
  set (g' := set_Length _ g). assert (Payload g' = Payload g) as Hp by done.
  clearbody g'. rewrite Hp. unfold wire_body. rewrite !Hp.
  destruct (0 <? len (sdata (Payload g))) eqn:E; bool_cases; last first.
  { rewrite (len_nil_inv (sdata (Payload g))) by lia. rewrite bool_decide_eq_true_2 by done.
    rewrite orb_true_r. destruct cipher as [cs|]; unfold next_nonce; [destruct (GetNonce cs)|];
      by rewrite app_nil_r. }
  rewrite bool_decide_eq_false_2
    by (intros E0; rewrite E0 in E; unfold len in E; simpl in E; lia).
  rewrite orb_false_r. destruct cipher as [cs|]; [|done]. unfold next_nonce.
  pose proof (GetNonce_key cs) as Hk. destruct (GetNonce cs) as [v cs'].
  destruct control; [done|]. cbn [fst snd negb] in *. unfold Encrypt. rewrite Hk.
  pose proof (header_nonce g' v []) as Hn. rewrite app_nil_r in Hn.
  change (HeaderLength - NonceLength)%nat with 9%nat. rewrite !app_nil_l. by rewrite Hn.
Qed.

Lemma encode_none g b control cipher :
  MaxPayloadSize < slen (Payload g) → encode g b control cipher = (None, g, cipher).
Proof.
  intros Hs. unfold encode. rewrite payloadLengthField_spec, decide_False by lia. done.
Qed.

Lemma encode_inv g control cipher wire g' c' :
  encode g [] control cipher = (Some wire, g', c') →
  slen (Payload g) <= MaxPayloadSize ∧ g' = with_length g ∧ c' = snd (next_nonce cipher) ∧
  wire = header_bytes g' (fst (next_nonce cipher)) ++
         wire_body g' (fst (next_nonce cipher)) control cipher.
Proof.
  intros He. destruct (decide (slen (Payload g) <= MaxPayloadSize)) as [Hs|Hs];
    [|rewrite encode_none in He by lia; done].
  rewrite encode_some in He by done. split_and!; congruence.
Qed.

(** [ParsePacket] copies its input into a buffer it owns and runs [parse]. *)
Lemma ParsePacket_unfold p g content pp cipher :
  len content <= MaxPacketSize →
  ∃ d p1, sdata d = content ∧ (∀ held, owned held p → owned (d :: held) p1) ∧
    ParsePacket p g content pp cipher =
      let '(err, g', d') := parse (set_RawData d g) d pp cipher in
      match err with
      | Some e => (Some e, set_Payload nil_slice (set_RawData nil_slice g'), Put (reslice 0 d') p1)
      | None => (None, set_RawData d' g', p1)
      end.
Proof.
  intros Hl. unfold ParsePacket. rewrite (proj2 (Z.ltb_ge _ _)) by done.
  destruct (Get p) as [b p0] eqn:Eg. destruct (scap b <? len content) eqn:Ec.
  - destruct (make _ _) as [b1 p1] eqn:Em. eexists _, p1. split_and!; [| |reflexivity].
    + apply reslice_copy. unfold make in Em. simplify_eq. unfold scap, len. simpl.
      rewrite length_replicate. lia.
    + intros held Ho. eapply owned_same_sid; [|eapply owned_make; [done|]]; [done|].
      apply owned_put. eapply owned_same_sid; [|eapply owned_get; done]. done.
  - bool_cases. eexists _, p0. split_and!; [| |reflexivity].
    + by apply reslice_copy.
    + intros held Ho. eapply owned_same_sid; [|eapply owned_get; done]. done.
Qed.

(** Parsing without a cipher hands the body over untouched. *)
Lemma parse_plain g d pp n g0 body :
  sdata d = header_bytes g n ++ body →
  0 <= Length g < 65536 → flag_ok (PType g) → len body <= MaxLengthField →
  validPayloadLength (len body) (Length g) (parse_mode (sdata d) None) = true →
  parse (set_RawData d g0) d pp None =
    (None, mkGamePacket (gp_src g) (gp_dst g) (PType g) (slice_from HeaderLength d) d (Length g), d).
Proof.
  intros Hd HL Hf Hb Hv. unfold parse. rewrite Hd in *.
  rewrite (parseHeader_ok g n body) by done. done.
Qed.

Lemma parse_mode_plain data : parse_mode data None ≠ payloadLengthCiphertext.
Proof. unfold parse_mode. by case_match. Qed.

Lemma parse_mode_data g n body :
  bitclear (PType g) FlagCompress = TypeData →
  parse_mode (header_bytes g n ++ body) None = payloadLengthDataCompat.
Proof.
  intros Ht. unfold parse_mode. rewrite header_type.
  change (default 0 (Some (PType g))) with (PType g). rewrite Ht, Z.eqb_refl, andb_true_r.
  rewrite len_app. unfold len at 1. rewrite header_bytes_length. pose proof (len_nonneg body).
  by rewrite (proj2 (Z.ltb_lt _ _)) by (unfold HeaderLength; simpl; lia).
Qed.

Lemma len_wire_body_plain g v control cipher :
  control = true ∨ cipher = None → wire_body g v control cipher = sdata (Payload g).
Proof. intros [-> | ->]; [|done]. by destruct cipher. Qed.

(** A packet sent in the clear (a control packet, or any packet while no
    cipher exists) is parsed back with the same addresses, type and payload,
    by [ParsePacket] from any pool and by [ParseControl] from any buffer. *)
Theorem plain_roundtrip p g g0 pp control cipher wire g1 c1 (d : gslice) :
  flag_ok (PType g) → control = true ∨ cipher = None →
  encode g [] control cipher = (Some wire, g1, c1) → sdata d = wire →
  (∃ g2 p2, ParsePacket p g0 wire pp None = (None, g2, p2) ∧
    gp_src g2 = gp_src g ∧ gp_dst g2 = gp_dst g ∧ PType g2 = PType g ∧
    Length g2 = Length g1 ∧ sdata (Payload g2) = sdata (Payload g) ∧ sdata (RawData g2) = wire) ∧
  (∃ g3, ParseControl g0 d = (None, g3) ∧
    gp_src g3 = gp_src g ∧ gp_dst g3 = gp_dst g ∧ PType g3 = PType g ∧
    Length g3 = Length g1 ∧ sdata (Payload g3) = sdata (Payload g)).
Proof.
  intros Hf Hc He Hd. apply encode_inv in He as (Hs & -> & -> & Hw).
  rewrite len_wire_body_plain in Hw by done. change (Payload (with_length g)) with (Payload g) in Hw.
  pose proof (len_nonneg (sdata (Payload g))). unfold slen in Hs.
  pose proof (payloadLengthField_range (slen (Payload g))) as HL.
  assert (∀ mode, mode ≠ payloadLengthCiphertext →
    validPayloadLength (len (sdata (Payload g))) (Length (with_length g)) mode = true) as Hv
    by (intros; apply validPayloadLength_plain; unfold slen in *; lia || done).
  assert (len (sdata (Payload g)) <= MaxLengthField)
    by (unfold MaxPayloadSize, AuthenticationTagLength in Hs; lia).
  split.
  - assert (len wire <= MaxPacketSize) as Hwl by (rewrite Hw, len_app; unfold len at 1;
      rewrite header_bytes_length; unfold MaxPacketSize; lia).
    destruct (ParsePacket_unfold p g0 wire pp None Hwl) as (b & p1 & Hb & _ & ->).
    rewrite (parse_plain (with_length g) b pp (fst (next_nonce cipher)) g0 (sdata (Payload g)));
      [| by rewrite Hb | done | done | done | by apply Hv, parse_mode_plain].
    eexists _, _. split_and!; try done. cbn [Payload slice_from sdata set_RawData].
    rewrite Hb, Hw. apply header_drop.
  - unfold ParseControl. rewrite Hd, Hw.
    rewrite parseHeader_ok by (try done; by apply Hv).
    eexists. split_and!; try done. cbn [Payload slice_from sdata].
    rewrite Hd, Hw. apply header_drop.
Qed.

(** The encoder refuses exactly the payloads whose length does not fit
    the length field; otherwise the wire carries the header, the payload
    and, when it is sealed, 16 bytes of tag, and never more than
    [MaxPacketSize] bytes, the limit of the parser. *)
Theorem encode_size `{!AEADLaws} g control cipher out g' c' :
  encode g [] control cipher = (out, g', c') →
  match out with
  | None => MaxPayloadSize < slen (Payload g) ∧ g' = g ∧ c' = cipher
  | Some wire =>
      slen (Payload g) <= MaxPayloadSize ∧
      len wire = Z.of_nat HeaderLength + slen (Payload g) +
        (if negb control && bool_decide (is_Some cipher) && negb (slen (Payload g) =? 0)
         then 16 else 0) ∧
      len wire <= MaxPacketSize
  end.
Proof.
  intros He. destruct (decide (slen (Payload g) <= MaxPayloadSize)) as [Hs|Hs]; last first.
  { rewrite encode_none in He by lia. simplify_eq. split_and!; try done. lia. }
  destruct out as [wire|]; [|rewrite encode_some in He by done; congruence].
  apply encode_inv in He as (_ & -> & -> & ->). rewrite !len_app. unfold len at 1 3. rewrite header_bytes_length.
  assert (len (wire_body (with_length g) (fst (next_nonce cipher)) control cipher) =
    slen (Payload g) + (if negb control && bool_decide (is_Some cipher) &&
      negb (slen (Payload g) =? 0) then 16 else 0)) as ->.
  { unfold wire_body. cbn [Payload with_length set_Length]. unfold slen.
    destruct cipher as [cs|]; [|rewrite bool_decide_eq_false_2 by (by intros [? ?]);
      rewrite andb_false_r; simpl; lia].
    rewrite (bool_decide_eq_true_2 (is_Some _)) by done. rewrite andb_true_r.
    destruct control; simpl; [lia|]. case_bool_decide as Hn.
    - rewrite Hn. done.
    - destruct (_ =? 0) eqn:E; bool_cases; [by apply len_nil_inv in E|].
      simpl. unfold len. rewrite aead_seal_length. lia. }
  unfold MaxPacketSize, MaxPayloadSize, AuthenticationTagLength in *.
  split_and!; [lia|lia|]. destruct (_ && _)%bool; lia.
Qed.
End codec.

(** * Compression *)

Lemma owned_reslice n s held p : owned (s :: held) p → owned (reslice n s :: held) p.
Proof. by apply owned_same_sid. Qed.

Lemma owned_swap s t held p : owned (s :: t :: held) p → owned (t :: s :: held) p.
Proof. intros Ho. rewrite Permutation_swap. done. Qed.

Lemma ensure_cap_spec n b p b' p' held :
  ensure_cap n b p = (b', p') → owned (b :: held) p → owned (b' :: held) p'.
Proof.
  unfold ensure_cap. case_match; [|by intros [= <- <-]].
  intros Hm Ho. eapply owned_make; [done|]. by apply owned_put, owned_reslice.
Qed.

Lemma ensure_cap_cap n b p b' p' : 0 <= n → ensure_cap n b p = (b', p') → n <= scap b'.
Proof.
  unfold ensure_cap. intros Hn. destruct (scap b <? n) eqn:E; bool_cases.
  - unfold make. intros [= <- <-]. unfold scap, len. simpl. rewrite length_replicate. lia.
  - by intros [= <- <-].
Qed.

Lemma reslice_slen n s : 0 <= n <= scap s → slen (reslice (Z.to_nat n) s) = n.
Proof. intros. unfold slen, len, reslice. simpl. rewrite length_take, length_app. len_lia. Qed.
#[export] Hint Resolve owned_reslice owned_swap : go.

Section compression.
Context `{AEAD, LZ4}.

Implicit Types (g : GamePacket) (p : pool) (held : list gslice).

(** Either nothing changed, or the payload was replaced by a strictly
    smaller LZ4 block of it. *)
Definition compressed_to g g' : Prop :=
  ∃ dst n out, CompressBlock (sdata (Payload g)) n = Some out ∧
    0 < len out < slen (Payload g) ∧ len out <= MaxPayloadSize ∧
    g' = set_Length (fst (payloadLengthField (len out))) (set_Payload (written dst out) g).

Lemma compress_spec p g ok g' p' :
  compress p g = (ok, g', p') →
  (if ok then compressed_to g g' else g' = g) ∧
  ∀ held, owned (Payload g :: held) p → owned (Payload g' :: held) p'.
Proof.
  unfold compress. destruct (_ <=? 128) eqn:El; [intros [= <- <- <-]; done|].
  destruct (Get p) as [pb p1] eqn:E1. destruct (ensure_cap _ pb p1) as [pb' p2] eqn:E2.
  assert (∀ held, owned held p → owned (pb' :: held) p2) as Hpb
    by (intros held Ho; eapply ensure_cap_spec; [done|by eapply owned_get]).
  assert (∀ held, owned held p → owned held (Put (reslice 0 pb') p2)) as Hdef
    by (intros held Ho; by apply owned_put, owned_reslice, Hpb).
  destruct (CompressBlock (take 64 _) _) as [probe|]; [|intros [= <- <- <-]; auto].
  destruct (50 <? len probe); [intros [= <- <- <-]; auto|].
  destruct (Get p2) as [d p3] eqn:E3. destruct (ensure_cap _ d p3) as [d' p4] eqn:E4.
  set (dst := reslice _ d').
  assert (∀ held, owned held p → owned (dst :: pb' :: held) p4) as Hd.
  { intros held Ho. apply owned_reslice. eapply ensure_cap_spec; [done|].
    eapply owned_get; [done|]. by apply Hpb. }
  assert (∀ held, owned held p → owned held (Put (reslice 0 pb') (Put (reslice 0 dst) p4))) as Hd2
    by (intros held Ho; by apply owned_put, owned_reslice, owned_put, owned_reslice, Hd).
  destruct (CompressBlock (sdata (Payload g)) (slen dst)) as [out|] eqn:Ec;
    [|intros [= <- <- <-]; auto].
  destruct (_ || _)%bool eqn:Eb; [intros [= <- <- <-]; auto|]. intros [= <- <- <-].
  bool_cases. split.
  - exists dst, (slen dst), out. pose proof (len_nonneg out). split_and!; auto; lia.
  - intros held Ho. specialize (Hd (Payload g :: held) Ho).
    apply owned_put, owned_reslice, owned_put, owned_reslice. solve_owned Hd.
Qed.

Lemma decompress_ok p g out :
  UncompressBlock (sdata (Payload g)) MaxPayloadSize = Some out →
  0 < len out <= MaxPayloadSize → (HeaderLength <= length (sdata (RawData g)))%nat →
  ∃ g' p', decompress p g = (None, g', p') ∧
    sdata (Payload g') = out ∧
    sdata (RawData g') = take HeaderLength (sdata (RawData g)) ++ out ∧
    gp_src g' = gp_src g ∧ gp_dst g' = gp_dst g ∧ PType g' = PType g ∧ Length g' = Length g.
Proof.
  intros Hu Hn Hr. unfold decompress.
  destruct (Get p) as [d p1] eqn:E1. destruct (ensure_cap _ d p1) as [d' p2] eqn:E2.
  assert (MaxPayloadSize <= scap d') as Hcap by (eapply ensure_cap_cap; [|done]; done).
  set (dst := reslice _ d'). assert (slen dst = MaxPayloadSize) as ->
    by (apply reslice_slen; done).
  clearbody dst. rewrite Hu.
  rewrite (proj2 (Z.eqb_neq _ _)), (proj2 (Z.ltb_ge _ _)) by lia. cbn [orb].
  assert (Z.to_nat (len out + Z.of_nat HeaderLength) = HeaderLength + length out)%nat as ->
    by (unfold len; lia).
  destruct (scap (RawData g) <? _) eqn:Ec; bool_cases.
  - destruct (make _ p2) as [tb p3] eqn:Em. unfold make in Em. simplify_eq.
    set (tb := Slice _ _ _). set (hd := take HeaderLength (sdata (RawData g))).
    assert (length hd = HeaderLength) as Hh by (unfold hd; rewrite length_take; lia).
    assert (sdata (slice_copy_at HeaderLength (slice_copy tb hd) out) = hd ++ out) as Htb.
    { unfold slice_copy_at, slice_copy, tb. cbn [sdata].
      rewrite length_replicate, (take_ge hd) by lia.
      rewrite <- Hh, take_app_length, drop_app_length, length_drop, length_replicate.
      replace (length hd + length out - length hd)%nat with (length out) by lia.
      rewrite firstn_all, (drop_ge (drop _ _)) by (rewrite length_drop, length_replicate; lia).
      by rewrite app_nil_r. }
    eexists _, _. split; [reflexivity|]. cbn [Payload RawData set_Payload set_RawData sdata
      slice_from gp_src gp_dst PType Length]. rewrite Htb. split_and!; try done.
    by rewrite <- Hh, drop_app_length.
  - eexists _, _. split; [reflexivity|]. cbn [Payload RawData set_Payload set_RawData sdata
      slice_from gp_src gp_dst PType Length].
    assert (sdata (slice_copy_at HeaderLength (reslice (HeaderLength + length out) (RawData g)) out)
      = take HeaderLength (sdata (RawData g)) ++ out) as Hc by (apply reslice_copy_at; lia).
    unfold slice_from. cbn [sdata]. rewrite Hc. split_and!; try done.
    apply drop_app_length'. rewrite length_take. lia.
Qed.

Lemma decompress_owned p g err g' p' held :
  decompress p g = (err, g', p') → owned (RawData g :: held) p → owned (RawData g' :: held) p'.
Proof.
  unfold decompress. intros Hdec Ho.
  destruct (Get p) as [d p1] eqn:E1. destruct (ensure_cap _ d p1) as [d' p2] eqn:E2.
  assert (owned (d' :: RawData g :: held) p2) as Hd
    by (eapply ensure_cap_spec; [done|by eapply owned_get]).
  destruct (UncompressBlock _ _) as [out|]; [|simplify_eq; by apply owned_put, owned_reslice].
  destruct (_ || _)%bool; [simplify_eq; by apply owned_put, owned_reslice|].
  destruct (scap (RawData g) <? _).
  - destruct (make _ p2) as [tb p3] eqn:Em. apply owned_make with (2 := Hd) in Em. simplify_eq.
    apply owned_put, owned_reslice, owned_put, owned_reslice. solve_owned Em.
  - simplify_eq. apply owned_put, owned_reslice. solve_owned Hd.
Qed.

(** The packet that is put on the wire: the given one, or its compressed form. *)
Definition encoded_as (do_compress : bool) g g1 : Prop :=
  if do_compress then
    g1 = set_PType (bitclear (PType g) FlagCompress) g ∨
    ∃ g0, compressed_to g g0 ∧ g1 = set_PType (Z.lor (PType g) FlagCompress) g0
  else g1 = g.

Lemma EncodePacket_inv p g control comp cipher data g' p' c' :
  EncodePacket p g control comp cipher = (Some data, g', p', c') →
  slen (Payload g) <= MaxPayloadSize ∧
  ∃ g1, encoded_as comp g g1 ∧ slen (Payload g1) <= MaxPayloadSize ∧
    g' = with_length g1 ∧ c' = snd (next_nonce cipher) ∧
    sdata data = header_bytes g' (fst (next_nonce cipher)) ++
                 wire_body g' (fst (next_nonce cipher)) control cipher.
Proof.
  unfold EncodePacket. destruct (payloadLengthField _) as [L0 ok0] eqn:EL0.
  rewrite payloadLengthField_spec in EL0. case_decide as Hs0; simplify_eq; [|done].
  cbn [negb]. destruct (if comp then _ else _) as [g1 p1] eqn:Ec.
  assert (encoded_as comp g g1) as He.
  { destruct comp; [|simplify_eq; done]. destruct (compress p g) as [[okc gc] pc] eqn:Ecp.
    apply compress_spec in Ecp as [Hc _]. simpl. destruct okc; simplify_eq.
    - right. exists gc. split; [done|]. destruct Hc as (? & ? & ? & ? & ? & ? & ->). done.
    - by left. }
  destruct (payloadLengthField (slen (Payload g1))) as [L ok] eqn:EL.
  rewrite payloadLengthField_spec in EL. case_decide as Hs; simplify_eq; [|done].
  cbn [negb]. destruct (Get p1) as [b p2]. destruct (if scap b <? _ then _ else _) as [b' p3].
  destruct (encode _ [] control cipher) as [[out gx] cx] eqn:Een.
  intros Hout. destruct out as [w|]; [|done]. apply encode_inv in Een as (_ & Hg & -> & ->).
  split; [lia|]. exists g1. assert (gx = with_length g1) as -> by done.
  injection Hout as <- <- <- <-. split_and!; try done. lia.
Qed.

(** Payloads that fit the length field are encoded. *)
Lemma EncodePacket_total p g control comp cipher :
  slen (Payload g) <= MaxPayloadSize →
  ∃ data g' p' c', EncodePacket p g control comp cipher = (Some data, g', p', c').
Proof.
  intros Hs. unfold EncodePacket. pose proof (len_nonneg (sdata (Payload g))) as Hnn.
  unfold slen in *. rewrite payloadLengthField_spec, decide_True by done. cbn [negb].
  destruct (if comp then _ else _) as [g1 p1] eqn:Ec.
  assert (0 <= len (sdata (Payload g1)) <= MaxPayloadSize) as Hs1.
  { destruct comp; [|by simplify_eq]. destruct (compress p g) as [[okc gc] pc] eqn:Ecp.
    apply compress_spec in Ecp as [Hc _]. destruct okc; simplify_eq; [|done].
    destruct Hc as (dst & n & out & _ & Ho & Ho' & ->). cbn. split; [lia|done]. }
  rewrite payloadLengthField_spec, decide_True by done. cbn [negb].
  destruct (Get p1) as [b p2]. destruct (if scap b <? _ then _ else _) as [b' p3].
  rewrite encode_some by (unfold slen; cbn; lia). eauto 10.
Qed.

(** Without compression the packet keeps its payload. *)
Lemma EncodePacket_payload p g control cipher data g' p' c' :
  EncodePacket p g control false cipher = (data, g', p', c') → Payload g' = Payload g.
Proof.
  destruct data as [d|].
  - intros He. apply EncodePacket_inv in He as (_ & g1 & Heq & _ & -> & _). simpl in Heq. by subst.
  - destruct (decide (slen (Payload g) <= MaxPayloadSize)) as [Hs|Hs].
    + destruct (EncodePacket_total p g control false cipher Hs) as (? & ? & ? & ? & ->). done.
    + unfold EncodePacket. rewrite payloadLengthField_spec, decide_False by lia. cbn. by intros [= <- <- <-].
Qed.
End compression.

(** * The sealed data plane *)

Section data_plane.
Context `{AEADLaws} `{LZ4Laws}.

Implicit Types (g : GamePacket) (p q : pool) (cs rs : CipherState).

Lemma decryptRaw_ok g gw v pl rs :
  0 < Length g →
  sdata (RawData g) = header_bytes gw v ++
    aead_seal (cs_key rs) (ip4_bytes (gp_src gw) ++ PutUint64 v) pl
      (take (HeaderLength - NonceLength) (header_bytes gw v)) →
  ∃ g2 rest, decryptRaw g (Some rs) = (None, g2) ∧ sdata (Payload g2) = pl ∧
    sdata (RawData g2) = header_bytes gw v ++ pl ++ rest ∧ length rest = 16%nat ∧
    gp_src g2 = gp_src g ∧ gp_dst g2 = gp_dst g ∧ PType g2 = PType g ∧ Length g2 = Length g.
Proof.
  intros HL Hr. unfold decryptRaw, Decrypt. rewrite (proj2 (Z.ltb_lt _ _)) by done.
  rewrite Hr. change (9 + NonceLength)%nat with HeaderLength.
  rewrite header_nonce, header_aad, header_drop, header_prefix, aead_open_seal.
  eexists _, _. split; [reflexivity|]. split_and!; try done.
  rewrite aead_residue_length, aead_open_seal, aead_seal_length. lia.
Qed.

Lemma decryptRaw_type g c err g2 : decryptRaw g c = (err, g2) → PType g2 = PType g.
Proof.
  unfold decryptRaw, Decrypt. destruct c; [|naive_solver]. destruct (0 <? Length g); [|naive_solver].
  destruct (aead_open _ _ _ _); naive_solver.
Qed.

(** Receiving a data packet: parsed without a cipher, as the receivers do. *)
Lemma ParsePacket_data q g0 gw v body :
  bitclear (PType gw) FlagCompress = TypeData →
  0 <= Length gw < 65536 → len body <= MaxLengthField →
  validPayloadLength (len body) (Length gw) payloadLengthDataCompat = true →
  ∃ d q1, sdata d = header_bytes gw v ++ body ∧
    ParsePacket q g0 (header_bytes gw v ++ body) true None =
      (None, mkGamePacket (gp_src gw) (gp_dst gw) (PType gw) (slice_from HeaderLength d) d
               (Length gw), q1).
Proof.
  intros Ht HL Hb Hv.
  assert (len (header_bytes gw v ++ body) <= MaxPacketSize) as Hl.
  { rewrite len_app. unfold len at 1. rewrite header_bytes_length. unfold MaxPacketSize. lia. }
  destruct (ParsePacket_unfold q g0 _ true None Hl) as (d & q1 & Hd & _ & ->).
  exists d, q1. split; [done|].
  rewrite (parse_plain gw d true v g0 body); [done|done|done|by right|done|].
  rewrite Hd, parse_mode_data by done. done.
Qed.

Lemma with_length_pos g :
  0 < slen (Payload g) <= MaxPayloadSize → Length (with_length g) = slen (Payload g) + 16.
Proof.
  intros Hs. unfold with_length. cbn [Length set_Length].
  rewrite payloadLengthField_spec, decide_True, decide_False by lia. done.
Qed.

(** The part of the round trip before decompression: whatever packet [g1] was
    put on the wire, the receiver recovers its fields and its payload, with
    16 bytes of residue behind the payload in the raw buffer. *)
Lemma sealed_delivery g1 cs q g0 rs :
  bitclear (PType g1) FlagCompress = TypeData → cs_key rs = cs_key cs →
  slen (Payload g1) <= MaxPayloadSize →
  let v := fst (GetNonce cs) in
  ∃ gp q1 g2 rest,
    ParsePacket q g0 (header_bytes (with_length g1) v ++ wire_body (with_length g1) v false (Some cs))
      true None = (None, gp, q1) ∧
    gp_src gp = gp_src g1 ∧ gp_dst gp = gp_dst g1 ∧ PType gp = PType g1 ∧
    sdata (RawData gp) = header_bytes (with_length g1) v ++ wire_body (with_length g1) v false (Some cs) ∧
    decryptRaw gp (Some rs) = (None, g2) ∧ PType g2 = PType g1 ∧
    sdata (Payload g2) = sdata (Payload g1) ∧
    sdata (RawData g2) = header_bytes (with_length g1) v ++ sdata (Payload g1) ++ rest ∧
    length rest = (if bool_decide (sdata (Payload g1) = []) then 0 else 16)%nat.
Proof.
  intros Ht Hk Hs v. pose proof (len_nonneg (sdata (Payload g1))) as Hnn.
  pose proof (payloadLengthField_range (slen (Payload g1))) as HLr. unfold wire_body.
  change (Payload (with_length g1)) with (Payload g1). unfold slen in *.
  unfold MaxPayloadSize, AuthenticationTagLength in Hs.
  case_bool_decide as He; cbn [orb].
  - destruct (ParsePacket_data q g0 (with_length g1) v (sdata (Payload g1)))
      as (d & q1 & Hd & ->); [done|done|lia| |].
    { apply validPayloadLength_plain; [|done]. unfold MaxPayloadSize, AuthenticationTagLength. lia. }
    set (gp := mkGamePacket _ _ _ _ _ _). exists gp, q1, gp, [].
    assert (Length gp = 0) as HL0 by (unfold gp, with_length, slen; cbn; by rewrite He).
    split_and!; try done.
    + unfold decryptRaw. by rewrite HL0.
    + unfold gp. cbn [Payload slice_from sdata]. rewrite Hd. apply header_drop.
    + unfold gp. cbn [RawData]. by rewrite Hd, app_nil_r.
  - assert (0 < len (sdata (Payload g1))) as Hpos.
    { destruct (sdata (Payload g1)); [done|]. unfold len. simpl. lia. }
    set (body := aead_seal _ _ _ _).
    assert (len body = len (sdata (Payload g1)) + 16) as Hbl
      by (unfold body, len; rewrite aead_seal_length; lia).
    destruct (ParsePacket_data q g0 (with_length g1) v body) as (d & q1 & Hd & ->);
      [done|done|lia|rewrite Hbl; apply validPayloadLength_sealed; [|done];
       unfold MaxPayloadSize, AuthenticationTagLength; lia|].
    set (gp := mkGamePacket _ _ _ _ _ _).
    destruct (decryptRaw_ok gp (with_length g1) v (sdata (Payload g1)) rs)
      as (g2 & rest & Hdec & Hpl & Hraw & Hrl & _ & _ & Hpt & _).
    + unfold gp. cbn [Length]. rewrite with_length_pos; unfold slen; [lia|].
      unfold MaxPayloadSize, AuthenticationTagLength. lia.
    + unfold gp. cbn [RawData]. rewrite Hd, Hk. done.
    + exists gp, q1, g2, rest. split_and!; done.
Qed.

(** The delivery behind [data_roundtrip], with what the relay needs to know. *)
Lemma data_delivered p g comp cs data g' p' c' q g0 rs :
  PType g = TypeData → cs_key rs = cs_key cs →
  EncodePacket p g false comp (Some cs) = (Some data, g', p', c') →
  ∃ g1 q1 g2 q2,
    ParsePacket q g0 (sdata data) true None = (None, g1, q1) ∧
    gp_src g1 = gp_src g ∧ gp_dst g1 = gp_dst g ∧ bitclear (PType g1) FlagCompress = TypeData ∧
    sdata (RawData g1) = sdata data ∧
    DecryptParse q1 g1 (Some rs) = (None, g2, q2) ∧
    sdata (Payload g2) = sdata (Payload g) ∧
    ∃ rest, sdata (RawData g2) =
        take HeaderLength (sdata (RawData g2)) ++ sdata (Payload g) ++ rest ∧
      length rest = (if bool_decide (sdata (Payload g) = [] ∨ Z.land (PType g1) FlagCompress ≠ 0%Z)
                     then 0 else 16)%nat ∧
      length (take HeaderLength (sdata (RawData g2))) = HeaderLength.
Proof.
  intros Ht Hk He. apply EncodePacket_inv in He as (Hs & gw & Hw & Hsw & -> & -> & ->).
  cbn [next_nonce]. destruct (GetNonce cs) as [v cs'] eqn:Ev. cbn [fst snd].
  assert (bitclear (PType gw) FlagCompress = TypeData ∧ gp_src gw = gp_src g ∧
          gp_dst gw = gp_dst g) as (Htw & Hsrc & Hdst).
  { destruct comp; simpl in Hw; [destruct Hw as [-> | (gc & (? & ? & ? & ? & ? & ? & ->) & ->)]|];
      subst; cbn; rewrite ?Ht; done. }
  destruct (sealed_delivery gw cs q g0 rs) as (g1 & q1 & g2 & rest & Hp & Hs1 & Hd1 & Hpt1 & Hr1 & Hdec & Hpt & Hpl & Hraw & Hrl);
    [done..|].
  rewrite Ev in Hp, Hr1, Hraw. cbn [fst] in Hp, Hr1, Hraw.
  exists g1, q1. rewrite Hp. unfold DecryptParse. rewrite Hdec, Hpt.
  assert (sdata (Payload gw) = sdata (Payload g) ∧ Z.land (PType gw) FlagCompress = 0 ∨
          ∃ n, CompressBlock (sdata (Payload g)) n = Some (sdata (Payload gw)) ∧
            0 < len (sdata (Payload gw)) ∧ 0 < slen (Payload g) ∧
            Z.land (PType gw) FlagCompress ≠ 0) as [[Hsame Hflag]|(n & Hc & Hcl & Hpos & Hflag)].
  { destruct comp; simpl in Hw; [destruct Hw as [-> | (gc & (dst & n & out & Ho & Hol & _ & ->) & ->)]|].
    - left. cbn. rewrite Ht. done.
    - right. exists n. cbn. rewrite Ht. split_and!; [done|lia|lia|done].
    - left. subst. rewrite Ht. done. }
  - rewrite Hflag. cbn [Z.eqb negb]. eexists g2, q1. rewrite <- Hsame. split_and!; try congruence.
    exists rest. rewrite Hraw at 2 3. rewrite header_prefix, Hpt1, Hrl, header_bytes_length. split; [done|].
    split; [|done]. repeat case_bool_decide; naive_solver.
  - rewrite (proj2 (Z.eqb_neq _ _)) by done. cbn [negb].
    assert (UncompressBlock (sdata (Payload g2)) MaxPayloadSize = Some (sdata (Payload g))) as Hu.
    { rewrite Hpl. eapply lz4_roundtrip; [done| |done]. intros E. rewrite E in Hcl. done. }
    destruct (decompress_ok q1 g2 (sdata (Payload g)))
      as (g3 & q3 & -> & Hp3 & Hr3 & _); [done|unfold slen in *; lia| |].
    { rewrite Hraw, length_app, header_bytes_length. lia. }
    exists g3, q3. split_and!; try congruence. exists []. rewrite app_nil_r, Hr3.
    rewrite Hraw, header_prefix, Hpt1, header_prefix, header_bytes_length. split; [done|].
    split; [|done]. rewrite bool_decide_eq_true_2; auto.
Qed.

(** C9: the data plane end to end.  Whatever a sender seals with
    [EncodePacket], compressed or not, from any pool, the receiver that holds
    the same key recovers from the wire bytes: the source and destination
    addresses from the header, and after [DecryptParse] the very payload.
    The raw buffer that is handed on to the TUN device holds header and
    payload, followed by the 16 bytes of the spent tag when the packet was
    sealed without compression. *)
Theorem data_roundtrip p g comp cs data g' p' c' q g0 rs :
  PType g = TypeData → cs_key rs = cs_key cs →
  EncodePacket p g false comp (Some cs) = (Some data, g', p', c') →
  ∃ g1 q1 g2 q2,
    ParsePacket q g0 (sdata data) true None = (None, g1, q1) ∧
    gp_src g1 = gp_src g ∧ gp_dst g1 = gp_dst g ∧
    DecryptParse q1 g1 (Some rs) = (None, g2, q2) ∧
    sdata (Payload g2) = sdata (Payload g) ∧
    ∃ rest, sdata (RawData g2) =
        take HeaderLength (sdata (RawData g2)) ++ sdata (Payload g) ++ rest ∧
      length rest = (if bool_decide (sdata (Payload g) = [] ∨ Z.land (PType g1) FlagCompress ≠ 0%Z)
                     then 0 else 16)%nat.
Proof.
  intros Ht Hk He. destruct (data_delivered p g comp cs data g' p' c' q g0 rs Ht Hk He)
    as (g1 & q1 & g2 & q2 & Hp & Hs & Hd & _ & _ & Hdec & Hpl & rest & Hraw & Hrl & _).
  exists g1, q1, g2, q2. eauto 10.
Qed.
End data_plane.

(** * What the parser accepts *)

Lemma parseHeader_inv data mode t dst src L :
  parseHeader data mode = Ok (t, dst, src, L) →
  (HeaderLength <= length data)%nat ∧ len data <= MaxPacketSize ∧
  Uint16 (sub data 0 2) = MagicNumber ∧ data !! 2%nat = Some t ∧ flag_ok t ∧
  dst = to_ip4 (sub data 3 7) ∧ src = to_ip4 (sub data 9 HeaderLength) ∧
  L = Uint16 (sub data 7 9) ∧
  validPayloadLength (len data - Z.of_nat HeaderLength) L mode = true.
Proof.
  unfold parseHeader. destruct (_ <? _) eqn:E1; [done|]. destruct (MaxPacketSize <? _) eqn:E2; [done|].
  destruct (negb (Uint16 _ =? _)) eqn:E3; [done|]. destruct (negb _ && negb _)%bool eqn:E4; [done|].
  destruct (negb (validPayloadLength _ _ _)) eqn:E5; [done|]. intros [= <- <- <- <-]. bool_cases.
  unfold len in E1. assert (is_Some (data !! 2%nat)) as [t Ht]
    by (apply lookup_lt_is_Some; unfold HeaderLength, NonceSize in *; lia).
  rewrite Ht in *. split_and!; try done; [lia|].
  apply andb_false_iff in E4 as [E4|E4]; bool_cases; [by left|by right].
Qed.

(** The first bytes of a buffer long enough to hold a header, by name. *)
Lemma header_split (data : bytes) :
  (HeaderLength <= length data)%nat →
  ∃ m0 m1 t d0 d1 d2 d3 l0 l1 s0 s1 s2 s3 rest,
    data = m0 :: m1 :: t :: d0 :: d1 :: d2 :: d3 :: l0 :: l1 :: s0 :: s1 :: s2 :: s3 :: rest ∧
    (8 <= length rest)%nat.
Proof.
  unfold HeaderLength, NonceSize. intros Hl.
  do 13 (destruct data as [|? data]; [simpl in Hl; lia|]).
  eexists _, _, _, _, _, _, _, _, _, _, _, _, _, data. split; [done|]. simpl in Hl. lia.
Qed.

(** What [ParseControl] accepts is canonical.  Re-encoding the packet it
    produced gives back the received bytes, except for the eight counter bytes
    of the nonce, which control packets do not use: the parser accepts no two
    spellings of a packet and loses nothing of one. *)
Theorem ParseControl_canonical `{AEAD} g0 d g :
  bytes_ok (sdata d) → ParseControl g0 d = (None, g) →
  ∃ wire g', encode g [] true None = (Some wire, g', None) ∧
    take 13 wire = take 13 (sdata d) ∧ drop HeaderLength wire = drop HeaderLength (sdata d).
Proof.
  intros Hok. unfold bytes_ok in Hok. unfold ParseControl.
  destruct (parseHeader _ _) as [[[[t dst] src] L]|e] eqn:Ep; [|done]. intros [= <-].
  apply parseHeader_inv in Ep as (Hl & Hmax & Hm & Ht & _ & -> & -> & -> & Hv).
  pose proof (len_nonneg (drop HeaderLength (sdata d))) as Hnn.
  assert (len (sdata d) - Z.of_nat HeaderLength = len (drop HeaderLength (sdata d))) as Hlen
    by (unfold len; rewrite length_drop; lia).
  rewrite Hlen in Hv. unfold MaxPacketSize in Hmax.
  set (g := mkGamePacket _ _ _ _ _ _).
  assert (Payload g = slice_from HeaderLength d) as HP by done.
  assert (slen (Payload g) <= MaxPayloadSize ∧ Length (with_length g) = Uint16 (sub (sdata d) 7 9))
    as [Hs HL].
  { unfold with_length, slen. cbn [Length set_Length]. rewrite HP. cbn [slice_from sdata].
    rewrite payloadLengthField_spec. unfold validPayloadLength in Hv.
    unfold MaxPayloadSize, MaxLengthField, AuthenticationTagLength in *.
    destruct (Uint16 _ =? 0) eqn:E0; bool_cases.
    - rewrite decide_True by lia. rewrite decide_True by done. simpl. lia.
    - destruct (_ <=? 16) eqn:E1; [done|]. bool_cases.
      assert (Uint16 (sub (sdata d) 7 9) < 65536).
      { destruct (header_split _ Hl) as (? & ? & ? & ? & ? & ? & ? & l0 & l1 & ? & ? & ? & ? & ? & Hd & _).
        rewrite Hd in *. repeat (apply Forall_cons_1 in Hok as [? Hok]).
        by apply (Uint16_range l0 l1 []). }
      rewrite decide_True by lia. rewrite decide_False by lia. simpl. lia. }
  rewrite encode_some by done. eexists _, _. split; [done|].
  rewrite header_drop, len_wire_body_plain by auto. split; [|done].
  destruct (header_split _ Hl) as (m0 & m1 & t' & d0 & d1 & d2 & d3 & l0 & l1 & s0 & s1 & s2 & s3 & r & Hd & Hr).
  rewrite take_app_le by (rewrite header_bytes_length; unfold HeaderLength, NonceSize; lia).
  unfold header_bytes. rewrite HL. cbn [with_length set_Length PType gp_dst gp_src g].
  rewrite Hd in *. repeat (apply Forall_cons_1 in Hok as [? Hok]).
  change (sub _ 7 9) with [l0; l1]. rewrite PutUint16_Uint16 by done.
  change (sub _ 0 2) with [m0; m1] in Hm. simpl in Ht. simplify_eq.
  assert (PutUint16 (u16 MagicNumber) = [m0; m1]) as ->.
  { rewrite <- (PutUint16_Uint16 m0 m1 []) by done. by rewrite Hm. }
  destruct r; [simpl in Hr; lia|]. done.
Qed.

(** ** Authenticity *)

Section authenticity.
Context `{AEADLaws} `{LZ4Laws}.

Lemma decompress_fail p g :
  match UncompressBlock (sdata (Payload g)) MaxPayloadSize with
  | None => ∃ p', decompress p g = (Some ErrLz4, g, p')
  | Some out => ¬ (0 < len out <= MaxPayloadSize) → ∃ p', decompress p g = (Some ErrLz4Length, g, p')
  end.
Proof.
  unfold decompress. destruct (Get p) as [d p1]. destruct (ensure_cap _ d p1) as [d' p2] eqn:E2.
  rewrite reslice_slen by (split; [done|]; eapply ensure_cap_cap; [|done]; done).
  destruct (UncompressBlock _ _) as [out|]; [|eauto]. intros Hn. pose proof (len_nonneg out).
  destruct ((len out =? 0) || (MaxPayloadSize <? len out))%bool eqn:E; [eauto|].
  bool_cases. lia.
Qed.

Lemma decompress_out p g g2 p2 :
  (HeaderLength <= length (sdata (RawData g)))%nat → decompress p g = (None, g2, p2) →
  UncompressBlock (sdata (Payload g)) MaxPayloadSize = Some (sdata (Payload g2)).
Proof.
  intros Hl Hdp. pose proof (decompress_fail p g) as Hf.
  destruct (UncompressBlock (sdata (Payload g)) MaxPayloadSize) as [out|] eqn:Eu;
    [|destruct Hf as [? Hf]; congruence].
  destruct (decide (0 < len out <= MaxPayloadSize)) as [Hr|Hr];
    [|destruct (Hf Hr) as [? Hf']; congruence].
  destruct (decompress_ok p g out) as (g3 & p3 & Hd & Hp3 & _); [done..|].
  rewrite Hd in Hdp. by simplify_eq.
Qed.

(** If [DecryptParse] accepts a packet with a non-empty body, that body is the sealing, under the session
    key, with the nonce in the header (source address and counter) and with
    the rest of the header (type, destination, length) authenticated, of the
    delivered payload, or of an LZ4 block that expands to it. *)
Lemma decrypt_authentic p g rs g2 p2 :
  (HeaderLength <= length (sdata (RawData g)))%nat → 0 < Length g →
  DecryptParse p g (Some rs) = (None, g2, p2) →
  ∃ pl, drop HeaderLength (sdata (RawData g)) =
      aead_seal (cs_key rs) (sub (sdata (RawData g)) 9 HeaderLength) pl
        (take (HeaderLength - NonceLength) (sdata (RawData g))) ∧
    (if Z.land (PType g) FlagCompress =? 0 then sdata (Payload g2) = pl
     else UncompressBlock pl MaxPayloadSize = Some (sdata (Payload g2))).
Proof.
  intros Hl HL. unfold DecryptParse, decryptRaw, Decrypt.
  rewrite (proj2 (Z.ltb_lt _ _)) by done. change (9 + NonceLength)%nat with HeaderLength.
  destruct (aead_open _ _ _ _) as [pl|] eqn:Eo; [|done].
  intros Hdp. apply aead_open_sound in Eo. exists pl. split; [done|]. cbn [PType set_Payload set_RawData] in *.
  destruct (Z.land _ _ =? 0); simpl in Hdp; [by simplify_eq|].
  apply decompress_out in Hdp; [done|]. simpl. rewrite length_app, length_take. lia.
Qed.

(** What a receiver has of a datagram it could parse. *)
Lemma ParsePacket_parsed p g0 content g p1 :
  ParsePacket p g0 content true None = (None, g, p1) →
  sdata (RawData g) = content ∧ sdata (Payload g) = drop HeaderLength content ∧ (HeaderLength <= length content)%nat ∧
  (Length g = 0 → len content = Z.of_nat HeaderLength).
Proof.
  intros Hp. unfold ParsePacket in Hp. destruct (MaxPacketSize <? len content) eqn:E; [done|]. bool_cases.
  destruct (ParsePacket_unfold p g0 content true None) as (d & q & Hd & _ & Hu); [lia|].
  unfold ParsePacket in Hu. rewrite (proj2 (Z.ltb_ge _ _)) in Hu by lia. rewrite Hu in Hp. clear Hu.
  unfold parse in Hp. destruct (parseHeader _ _) as [[[[t dst] src] L]|] eqn:Eh; [|done]. simplify_eq. simpl.
  apply parseHeader_inv in Eh as (Hl & _ & _ & _ & _ & _ & _ & HL & Hv).
  split_and!; try done. intros ->. unfold validPayloadLength in Hv. simpl in Hv. bool_cases. lia.
Qed.

(** C22: what the data path accepts.  A datagram that a client can parse and that
    [DecryptParse] accepts under the key of a session is one of two things.  Its
    length field is positive: then its body is the sealing, under that key, with
    the nonce in the header (source address and counter) and the rest of the
    header (type, destination, length) authenticated, of the delivered payload,
    or of an LZ4 block that expands to it.  Or its length field is zero: then it
    is a bare header, nothing of it is authenticated, it is accepted as it is
    under every key, and what it delivers is empty (or, with the flag set, what
    LZ4 makes of an empty block). *)
Theorem accepted_sealed_or_empty p g0 content g p1 rs g2 p2 :
  ParsePacket p g0 content true None = (None, g, p1) → 0 <= Length g → DecryptParse p1 g (Some rs) = (None, g2, p2) →
  if 0 <? Length g then
    ∃ pl, drop HeaderLength content =
        aead_seal (cs_key rs) (sub content 9 HeaderLength) pl (take (HeaderLength - NonceLength) content) ∧
      (if Z.land (PType g) FlagCompress =? 0 then sdata (Payload g2) = pl
       else UncompressBlock pl MaxPayloadSize = Some (sdata (Payload g2)))
  else
    len content = Z.of_nat HeaderLength ∧
    if Z.land (PType g) FlagCompress =? 0
    then sdata (Payload g2) = [] ∧ ∀ rs' q, DecryptParse q g (Some rs') = (None, g, q)
    else UncompressBlock [] MaxPayloadSize = Some (sdata (Payload g2)).
Proof.
  intros Hp H0L Hd. destruct (ParsePacket_parsed _ _ _ _ _ Hp) as (Hraw & Hpl & Hl & HL).
  destruct (0 <? Length g) eqn:E; bool_cases.
  - rewrite <- Hraw in Hl |- *. eapply decrypt_authentic; [exact Hl|lia|exact Hd].
  - assert (Length g = 0) as HL0 by lia. specialize (HL HL0). split; [done|].
    assert (sdata (Payload g) = []) as Hnil by (rewrite Hpl; apply drop_ge; unfold len in HL; lia).
    assert (∀ rs' q, decryptRaw g (Some rs') = (None, g)) as Hraw' by (intros; unfold decryptRaw; by rewrite HL0).
    unfold DecryptParse in *. rewrite Hraw' in Hd by done. destruct (Z.land (PType g) FlagCompress =? 0) eqn:Ez; simpl in Hd.
    + simplify_eq. split; [done|]. intros rs' q. rewrite Hraw' by done. by rewrite Ez.
    + rewrite <- Hnil. eapply decompress_out; [by rewrite Hraw|exact Hd].
Qed.
End authenticity.

(** * Buffers *)

Section buffers.
Context `{AEADLaws} `{LZ4Laws}.

Implicit Types (g : GamePacket) (p : pool) (held : list gslice).

(** The pooled buffer [EncodePacket] fills is large enough for what it
    appends, so the returned slice still is that buffer. *)
Lemma EncodePacket_fits p g control comp cipher data g' p' c' :
  EncodePacket p g control comp cipher = (Some data, g', p', c') →
  slen data <= Z.of_nat HeaderLength + Length g'.
Proof.
  intros He. apply EncodePacket_inv in He as (_ & g1 & _ & Hs & -> & -> & Hd).
  unfold slen at 1. rewrite Hd, len_app. unfold len at 1. rewrite header_bytes_length.
  cut (len (wire_body (with_length g1) (fst (next_nonce cipher)) control cipher) <=
    Length (with_length g1)); [lia|].
  unfold wire_body. change (Payload (with_length g1)) with (Payload g1).
  destruct (decide (sdata (Payload g1) = [])) as [Hn|Hn].
  - unfold with_length, slen. cbn [Length set_Length]. rewrite Hn.
    destruct cipher; [rewrite bool_decide_eq_true_2, orb_true_r by done|]; done.
  - rewrite with_length_pos by (split; [|done]; unfold slen, len; destruct (sdata (Payload g1)); [done|simpl; lia]).
    unfold slen. destruct cipher; [|lia]. destruct (_ || _)%bool; [lia|].
    unfold len. rewrite aead_seal_length. lia.
Qed.

(** Encoding keeps buffers apart. *)
Lemma EncodePacket_keeps p g control comp cipher out g' p' c' held :
  EncodePacket p g control comp cipher = (out, g', p', c') →
  owned (Payload g :: held) p →
  owned (default nil_slice out :: Payload g' :: held) p'.
Proof.
  unfold EncodePacket. destruct (payloadLengthField _) as [L0 ok0]. destruct ok0; cbn [negb];
    [|intros [= <- <- <- <-] Ho; by apply owned_nil_slice].
  destruct (if comp then _ else _) as [g1 p1] eqn:Ec. intros He Ho.
  assert (owned (Payload g1 :: held) p1) as Ho1.
  { destruct comp; [|by simplify_eq]. destruct (compress p g) as [[okc gc] pc] eqn:Ecp.
    apply compress_spec in Ecp as [_ Hc]. specialize (Hc _ Ho). by destruct okc; simplify_eq. }
  destruct (payloadLengthField (slen (Payload g1))) as [L ok]. destruct ok; cbn [negb] in He;
    [|simplify_eq; by apply owned_nil_slice].
  destruct (Get p1) as [b p2] eqn:Eg. apply owned_get with (2 := Ho1) in Eg.
  destruct (if scap b <? _ then _ else _) as [b' p3] eqn:Em.
  assert (owned (b' :: Payload g1 :: held) p3) as Ho3.
  { destruct (scap b <? _); [|by simplify_eq]. eapply owned_make; [done|]. by apply owned_put. }
  destruct (encode _ [] control cipher) as [[o gx] cx] eqn:Een. simplify_eq.
  assert (Payload g' = Payload g1) as HP.
  { unfold encode in Een. destruct (payloadLengthField _) as [? []]; cbn [negb] in Een; [|by simplify_eq].
    destruct cipher as [cs|]; [destruct (GetNonce cs)|]; simplify_eq; done. }
  rewrite HP. destruct o as [w|]; simpl.
  - solve_owned Ho3.
  - apply owned_nil_slice. by apply owned_drop in Ho3.
Qed.

(** Encoding keeps buffers apart.  If the payload's buffer is not in the
    pool and not held twice, then afterwards neither the returned wire buffer
    nor the packet's payload buffer is in the pool, and no buffer is in two
    hands: whatever compression swapped was put back exactly once. *)
Theorem EncodePacket_owned p g control comp cipher out g' p' c' held :
  EncodePacket p g control comp cipher = (out, g', p', c') →
  owned (Payload g :: held) p →
  owned (default nil_slice out :: Payload g' :: held) p'.
Proof. apply EncodePacket_keeps. Qed.

(** Receiving keeps buffers apart and leaks none.  On success the packet's
    raw buffer is a buffer nobody else holds; on a parse error the buffer is
    back in the pool and the packet keeps no reference to it; decryption and
    decompression swap the raw buffer at most for another one it alone holds. *)
Theorem receive_owned p g content pp cipher err g1 p1 rs held :
  ParsePacket p g content pp cipher = (err, g1, p1) → owned held p →
  match err with
  | Some _ => owned held p1 ∧ (len content <= MaxPacketSize → RawData g1 = nil_slice ∧ Payload g1 = nil_slice)
  | None => owned (RawData g1 :: held) p1 ∧
      ∀ err2 g2 p2, DecryptParse p1 g1 rs = (err2, g2, p2) → owned (RawData g2 :: held) p2
  end.
Proof.
  intros Hp Ho. destruct (decide (len content <= MaxPacketSize)) as [Hl|Hl]; last first.
  { unfold ParsePacket in Hp. rewrite (proj2 (Z.ltb_lt _ _)) in Hp by lia. simplify_eq. done. }
  destruct (ParsePacket_unfold p g content pp cipher Hl) as (d & p0 & _ & Hd & Heq).
  rewrite Heq in Hp. specialize (Hd _ Ho).
  destruct (parse _ d pp cipher) as [[e g'] d'] eqn:Epa.
  assert (sid d' = sid d) as Hsid.
  { unfold parse, Decrypt in Epa. destruct (parseHeader _ _) as [[[[? ?] ?] ?]|]; [|by simplify_eq].
    destruct cipher as [cs|]; [|by simplify_eq]. destruct (pp && _)%bool; [|by simplify_eq].
    destruct (aead_open _ _ _ _); by simplify_eq. }
  destruct e as [e|]; simplify_eq.
  - split; [|done]. apply owned_put. by eapply owned_same_sid.
  - assert (owned (d' :: held) p1) as Hd1 by (by eapply owned_same_sid). split; [done|].
    intros err2 g2 p2. unfold DecryptParse.
    destruct (decryptRaw _ rs) as [e3 g3] eqn:Ed.
    assert (owned (RawData g3 :: held) p1) as Hd3.
    { eapply owned_same_sid; [|exact Hd1]. unfold decryptRaw, Decrypt in Ed.
      destruct rs as [rs|]; [|by simplify_eq]. destruct (0 <? _); [|by simplify_eq].
      destruct (aead_open _ _ _ _); by simplify_eq. }
    destruct e3; [intros; by simplify_eq|]. destruct (negb _); [|intros; by simplify_eq].
    intros Hdec. by eapply decompress_owned.
Qed.

(** The compression probe is run into the recycled buffer at the length it
    happens to have.  A buffer that went through the pool has length zero, and
    when the library refuses an empty destination, [compress] gives up although
    nothing was learnt about the payload. *)
Theorem probe_uses_recycled_length p g b r :
  pfree p = b :: r → sdata b = [] → probeLen <= scap b →
  CompressBlock (take 64 (sdata (Payload g))) 0 = None →
  ∃ p', compress p g = (false, g, p').
Proof.
  intros Hf Hb Hc Hn. unfold compress, Get. rewrite Hf. destruct (_ <=? 128); [eauto|].
  unfold ensure_cap. rewrite (proj2 (Z.ltb_ge _ _)) by done.
  unfold slen at 1. rewrite Hb. change (len []) with 0. rewrite Hn. eauto.
Qed.
End buffers.

(** * Witnesses

    One concrete packet and pool, run through the codec with the concrete AEAD
    and LZ4 instances. *)

Definition ex_pool : pool := Pool [] 10 256.
Definition ex_payload : gslice := Slice 1 [1; 2; 3] [].
Definition ex_long : gslice := Slice 2 (replicate 200 7) [].
Definition ex_packet (t : Z) (b : gslice) : GamePacket := NewGamePacket (10, 0, 6, 2) (10, 0, 6, 3) t b.
Definition ex_wire : bytes := default [] (encode (ex_packet TypeDnsRequest ex_payload) [] true None).1.1.
Definition ex_key : CipherState := mkCipherState [5; 6; 7] 41.

Lemma plain_roundtrip_witness :
  ∃ g2 p2, ParsePacket ex_pool zeroPacket ex_wire true None = (None, g2, p2) ∧
    sdata (Payload g2) = [1; 2; 3].
Proof.
  destruct (plain_roundtrip ex_pool (ex_packet TypeDnsRequest ex_payload) zeroPacket true true None
    ex_wire (with_length (ex_packet TypeDnsRequest ex_payload)) None (Slice 3 ex_wire []))
    as [(g2 & p2 & Hp & _ & _ & _ & _ & Hpl & _) _];
    [left; reflexivity | left; reflexivity | vm_compute; reflexivity | reflexivity |].
  exists g2, p2. split; [exact Hp | exact Hpl].
Defined.

Lemma encode_size_witness : len ex_wire = 24.
Proof.
  destruct (encode_size (ex_packet TypeDnsRequest ex_payload) true None (Some ex_wire)
    (with_length (ex_packet TypeDnsRequest ex_payload)) None) as (_ & Hl & _);
    [vm_compute; reflexivity |]. rewrite Hl. vm_compute. reflexivity.
Defined.

(** The compressed and sealed form of a 200-byte payload, run end to end. *)
Definition ex_sealed : gslice * GamePacket * pool * option CipherState :=
  match EncodePacket ex_pool (ex_packet TypeData ex_long) false true (Some ex_key) with
  | (Some d, g, p, c) => (d, g, p, c)
  | (None, g, p, c) => (nil_slice, g, p, c)
  end.

Lemma data_roundtrip_witness :
  PType ex_sealed.1.1.2 = Z.lor TypeData FlagCompress ∧
  ∃ g1 q1 g2 q2, ParsePacket ex_pool zeroPacket (sdata ex_sealed.1.1.1) true None = (None, g1, q1) ∧
    DecryptParse q1 g1 (Some ex_key) = (None, g2, q2) ∧ sdata (Payload g2) = replicate 200 7.
Proof.
  split; [vm_compute; reflexivity|].
  destruct (data_roundtrip ex_pool (ex_packet TypeData ex_long) true ex_key ex_sealed.1.1.1
    ex_sealed.1.1.2 ex_sealed.1.2 ex_sealed.2 ex_pool zeroPacket ex_key)
    as (g1 & q1 & g2 & q2 & Hp & _ & _ & Hd & Hpl & _);
    [reflexivity | reflexivity | vm_compute; reflexivity |].
  exists g1, q1, g2, q2. split; [exact Hp | split; [exact Hd | exact Hpl]].
Defined.

Lemma ParseControl_canonical_witness :
  ∃ wire g', encode (ParseControl zeroPacket (Slice 3 ex_wire [])).2 [] true None = (Some wire, g', None) ∧
    drop HeaderLength wire = [1; 2; 3].
Proof.
  destruct (ParseControl_canonical zeroPacket (Slice 3 ex_wire [])
    (ParseControl zeroPacket (Slice 3 ex_wire [])).2) as (w & g' & He & _ & Hd).
  - unfold bytes_ok, is_byte. vm_compute. repeat constructor; discriminate.
  - vm_compute. reflexivity.
  - exists w, g'. split; [exact He | rewrite Hd; vm_compute; reflexivity].
Defined.

(** The same, sealed without compression and parsed by the receiver. *)
Definition ex_arrived : bytes :=
  sdata (default nil_slice (EncodePacket ex_pool (ex_packet TypeData ex_payload) false false (Some ex_key)).1.1.1).
Definition ex_received : GamePacket := (ParsePacket ex_pool zeroPacket ex_arrived true None).1.2.

Lemma accepted_sealed_or_empty_witness :
  ∃ pl, drop HeaderLength ex_arrived =
      aead_seal [5; 6; 7] (sub ex_arrived 9 HeaderLength) pl (take (HeaderLength - NonceLength) ex_arrived) ∧ pl = [1; 2; 3].
Proof.
  destruct (accepted_sealed_or_empty ex_pool zeroPacket ex_arrived ex_received (ParsePacket ex_pool zeroPacket ex_arrived true None).2 ex_key
    (DecryptParse (ParsePacket ex_pool zeroPacket ex_arrived true None).2 ex_received (Some ex_key)).1.2
    (DecryptParse (ParsePacket ex_pool zeroPacket ex_arrived true None).2 ex_received (Some ex_key)).2) as (pl & Hs & Hpl).
  - vm_compute. reflexivity.
  - vm_compute. discriminate.
  - vm_compute. reflexivity.
  - exists pl. split; [exact Hs|]. symmetry. exact Hpl.
Defined.

Lemma ex_owned : owned [ex_long] ex_pool.
Proof.
  unfold owned. vm_compute. split_and!; [|repeat constructor|lia].
  apply NoDup_singleton.
Qed.

Lemma EncodePacket_owned_witness :
  owned [ex_sealed.1.1.1; Payload ex_sealed.1.1.2] ex_sealed.1.2.
Proof.
  apply (EncodePacket_owned ex_pool (ex_packet TypeData ex_long) false true (Some ex_key)
    (Some ex_sealed.1.1.1) ex_sealed.1.1.2 ex_sealed.1.2 ex_sealed.2 []).
  - vm_compute. reflexivity.
  - apply ex_owned.
Defined.

Lemma receive_owned_witness :
  owned [RawData (ParsePacket ex_pool zeroPacket ex_wire true None).1.2]
    (ParsePacket ex_pool zeroPacket ex_wire true None).2.
Proof.
  refine (proj1 (receive_owned ex_pool zeroPacket ex_wire true None None
    (ParsePacket ex_pool zeroPacket ex_wire true None).1.2
    (ParsePacket ex_pool zeroPacket ex_wire true None).2 None [] _ _)).
  - vm_compute. reflexivity.
  - apply (owned_drop ex_long), ex_owned.
Defined.

(** The same payload, compressed with a fresh buffer and refused with a
    recycled one of the same capacity. *)
Lemma probe_uses_recycled_length_witness :
  (compress ex_pool (ex_packet TypeData ex_long)).1.1 = true ∧
  ∃ p', compress (Pool [Slice 4 [] (replicate 256 0)] 10 256) (ex_packet TypeData ex_long) =
    (false, ex_packet TypeData ex_long, p').
Proof.
  split; [vm_compute; reflexivity|].
  apply (probe_uses_recycled_length (Pool [Slice 4 [] (replicate 256 0)] 10 256)
    (ex_packet TypeData ex_long) (Slice 4 [] (replicate 256 0)) []);
    [reflexivity | reflexivity | vm_compute; discriminate | vm_compute; reflexivity].
Defined.
