(* ===== verification/Stun.v ===== *)
(** P2P bookkeeping: [internal/stun].

    The server's tunnel table ([server.go]), the client's view of one peer
    ([client.go]) and the NAT classification ([p2p.go]).  The tunnel table is a
    map from unordered address pairs; its invariant is that every tunnel is
    filed under the key of its own two ends. *)

From stdpp Require Import base numbers list gmap tactics.
From S2P Require Import Prelude.

Local Open Scope Z_scope.

(** ** p2p.go *)

Definition TypeBlock : Z := 1.
Definition TypeUnknown : Z := 2.
Definition TypeCone : Z := 3.
Definition TypeSymmetric : Z := 4.

(** The classification reported by the NAT-probing library. *)
Inductive natKind : Type :=
  | Blocked | FullCone | RestrictNAT | RestrictPortNAT | SymmetricNAT | OtherNAT.

(** [probe] is the library's answer: an error, or a kind. *)
Definition GetNatType (probe : option natKind) : res Z :=
  match probe with
  | None => Err ErrNatType
  | Some Blocked => Ok TypeBlock
  | Some (FullCone | RestrictNAT | RestrictPortNAT) => Ok TypeCone
  | Some SymmetricNAT => Ok TypeSymmetric
  | Some OtherNAT => Err ErrNatType
  end.

(** ** client.go *)

Record P2PStatus := mkP2PStatus {
  DstNatType : Z;
  dstAddr : option UDPAddr;
  LastSeen : Z;
  Established : bool;
}.

Definition SetDstAddr (a : UDPAddr) (s : P2PStatus) : P2PStatus :=
  mkP2PStatus (DstNatType s) (Some a) (LastSeen s) (Established s).

Definition GetDstAddr (s : P2PStatus) : option UDPAddr := dstAddr s.

Definition UpdateLastSeen (now : Z) (established : bool) (s : P2PStatus) : P2PStatus :=
  mkP2PStatus (DstNatType s) (dstAddr s) now established.

Definition IsTimeout (now timeout : Z) (s : P2PStatus) : bool := timeout <? now - LastSeen s.

(** ** server.go *)

Definition TunnelInit : Z := 1.
Definition TunnelConnected : Z := 2.
Definition TunnelFailed : Z := 3.

Record P2PTask := mkP2PTask { DstVip : ip4; TaskDst : option addrPort; SrcVip : ip4; TaskSrc : option addrPort }.

Record P2PTunnel := mkP2PTunnel {
  tunnelA : ip4;
  tunnelB : ip4;
  Status : Z;
  RetryTimes : Z;
  InitCnt : Z;
}.

Definition AddRetryTimes (t : P2PTunnel) : P2PTunnel :=
  mkP2PTunnel (tunnelA t) (tunnelB t) (Status t) (u32 (RetryTimes t + 1)) (InitCnt t).

Definition GetRetryTimes (t : P2PTunnel) : Z := RetryTimes t.

Definition ChangeStatus (status : Z) (t : P2PTunnel) : P2PTunnel :=
  mkP2PTunnel (tunnelA t) (tunnelB t) status (RetryTimes t) (InitCnt t).

Definition GetStatus (t : P2PTunnel) : Z := Status t.

(** [map[[8]byte]*P2PTunnel].  Tunnels are reached through the map only: a
    caller that changes a tunnel it looked up changes the map's entry. *)
Abbreviation TunnelManager := (gmap bytes P2PTunnel) (only parsing).

Definition NewTunnelManager : TunnelManager := ∅.

Definition makeKey (A B : ip4) : bytes :=
  match bytes_compare (ip4_bytes A) (ip4_bytes B) with
  | Lt => ip4_bytes A ++ ip4_bytes B
  | _ => ip4_bytes B ++ ip4_bytes A
  end.

Definition Exist (tm : TunnelManager) (A B : ip4) : option P2PTunnel := tm !! makeKey A B.

(** Writing through the pointer [Exist] returned. *)
Definition updateTunnel (f : P2PTunnel → P2PTunnel) (A B : ip4) (tm : TunnelManager) : TunnelManager :=
  alter f (makeKey A B) tm.

Definition AddTunnel (A B : ip4) (status : Z) (tm : TunnelManager) : TunnelManager :=
  match tm !! makeKey A B with
  | Some _ => tm
  | None => <[makeKey A B := mkP2PTunnel A B status 0 0]> tm
  end.

Definition RemoveTunnel (A B : ip4) (tm : TunnelManager) : TunnelManager :=
  delete (makeKey A B) tm.

Definition RemoveA (A : ip4) (tm : TunnelManager) : TunnelManager :=
  filter (λ kt, ¬ (tunnelA kt.2 = A ∨ tunnelB kt.2 = A)) tm.

(** ** Facts *)

Lemma makeKey_sym A B : makeKey A B = makeKey B A.
Proof.
  unfold makeKey. rewrite (bytes_compare_antisym (ip4_bytes A)).
  destruct (bytes_compare (ip4_bytes A) (ip4_bytes B)) eqn:E; simpl; try done.
  apply bytes_compare_eq, ip4_bytes_inj in E. by subst.
Qed.

Lemma makeKey_cases A B :
  makeKey A B = ip4_bytes A ++ ip4_bytes B ∨ makeKey A B = ip4_bytes B ++ ip4_bytes A.
Proof. unfold makeKey. destruct (bytes_compare _ _); auto. Qed.

Lemma ip4_bytes_app_inj A B C D :
  ip4_bytes A ++ ip4_bytes B = ip4_bytes C ++ ip4_bytes D → A = C ∧ B = D.
Proof.
  intros E. apply app_inj_1 in E as [? ?]; [|by rewrite !ip4_bytes_length].
  split; by apply ip4_bytes_inj.
Qed.

Lemma makeKey_inj A B C D :
  makeKey A B = makeKey C D → (A = C ∧ B = D) ∨ (A = D ∧ B = C).
Proof.
  destruct (makeKey_cases A B) as [-> | ->], (makeKey_cases C D) as [-> | ->];
    intros [? ?]%ip4_bytes_app_inj; auto.
Qed.

(** The key of a tunnel identifies the unordered pair of its ends, no more
    and no less: both directions give the same key, and two pairs share a key
    only if they are the same pair. *)
Theorem makeKey_unordered_pair A B C D :
  makeKey A B = makeKey C D ↔ (A = C ∧ B = D) ∨ (A = D ∧ B = C).
Proof.
  split; [apply makeKey_inj|]. intros [[-> ->]|[-> ->]]; [done|apply makeKey_sym].
Qed.

(** Every tunnel is filed under the key of its ends. *)
Definition tm_wf (tm : TunnelManager) : Prop :=
  map_Forall (λ k t, k = makeKey (tunnelA t) (tunnelB t)) tm.

Lemma tm_wf_empty : tm_wf NewTunnelManager.
Proof. apply map_Forall_empty. Qed.

Lemma tm_wf_add A B st tm : tm_wf tm → tm_wf (AddTunnel A B st tm).
Proof.
  intros Hwf. unfold AddTunnel. case_match; [done|]. by apply map_Forall_insert_2.
Qed.

Lemma tm_wf_update f A B tm :
  (∀ t, tunnelA (f t) = tunnelA t ∧ tunnelB (f t) = tunnelB t) →
  tm_wf tm → tm_wf (updateTunnel f A B tm).
Proof.
  intros Hf Hwf k t. unfold updateTunnel. rewrite lookup_alter.
  case_decide; [|apply Hwf]. subst. destruct (tm !! _) as [t0|] eqn:E; [|done].
  simpl. intros [= <-]. destruct (Hf t0) as [-> ->]. by apply Hwf.
Qed.

Lemma tm_wf_remove_tunnel A B tm : tm_wf tm → tm_wf (RemoveTunnel A B tm).
Proof. intros Hwf k t Hk. unfold RemoveTunnel in Hk. apply lookup_delete_Some in Hk as [_ Hk]. by apply Hwf. Qed.

Lemma tm_wf_removeA A tm : tm_wf tm → tm_wf (RemoveA A tm).
Proof. intros Hwf k t Hk. unfold RemoveA in Hk. apply map_lookup_filter_Some in Hk as [Hk _]. by apply Hwf. Qed.
#[export] Hint Resolve tm_wf_empty tm_wf_add tm_wf_remove_tunnel tm_wf_removeA : go.

Lemma Exist_add A B st tm C D :
  Exist (AddTunnel A B st tm) C D =
    if decide (makeKey C D = makeKey A B) then
      Some (default (mkP2PTunnel A B st 0 0) (Exist tm A B))
    else Exist tm C D.
Proof.
  unfold Exist, AddTunnel. case_decide as Hk.
  - rewrite Hk. destruct (tm !! makeKey A B) eqn:E; [by rewrite E|]. by rewrite lookup_insert_eq.
  - destruct (tm !! makeKey A B) eqn:E; [done|]. by rewrite lookup_insert_ne.
Qed.

Lemma Exist_update f A B tm C D :
  Exist (updateTunnel f A B tm) C D =
    if decide (makeKey C D = makeKey A B) then f <$> Exist tm C D else Exist tm C D.
Proof.
  unfold Exist, updateTunnel. rewrite lookup_alter. repeat case_decide; congruence.
Qed.

(** When a client leaves, exactly the tunnels with that client at one end
    disappear; every other tunnel is kept as it is. *)
Theorem RemoveA_exact A tm C D :
  tm_wf tm →
  Exist (RemoveA A tm) C D = if decide (C = A ∨ D = A) then None else Exist tm C D.
Proof.
  intros Hwf. unfold Exist, RemoveA. destruct (tm !! makeKey C D) as [t|] eqn:E.
  - pose proof (Hwf _ _ E) as Hk. apply makeKey_inj in Hk.
    case_decide as Hd.
    + apply map_lookup_filter_None. right. intros t' Ht' Hn. simplify_eq. apply Hn. simpl. naive_solver.
    + apply map_lookup_filter_Some. split; [done|]. simpl. naive_solver.
  - rewrite (proj2 (map_lookup_filter_None _ _ _)) by auto. by case_decide.
Qed.

Lemma RemoveA_exact_witness :
  let tm := AddTunnel (1,1,1,1) (2,2,2,2) TunnelInit (AddTunnel (2,2,2,2) (3,3,3,3) TunnelConnected NewTunnelManager) in
  Exist (RemoveA (1,1,1,1) tm) (2,2,2,2) (1,1,1,1) = None ∧
  Exist (RemoveA (1,1,1,1) tm) (3,3,3,3) (2,2,2,2) = Some (mkP2PTunnel (2,2,2,2) (3,3,3,3) TunnelConnected 0 0).
Proof.
  split; (rewrite RemoveA_exact; [vm_compute; reflexivity | auto with go]).
Defined.
