(* ===== verification/Util.v ===== *)
(** Utilities: [internal/util] (dns.go, format.go, ipTransform.go, ping.go).

    Address conversions, the Internet checksum and the IPv4/UDP packet built
    around a DNS answer, unique host names, the text of byte counts, and the
    ping test, whose library is the class [ProBing].  The central results are
    that the packet the client injects into its TUN device verifies under the receiver's own checksum rules, and that
    the search for a free host name terminates with a free name. *)

From stdpp Require Import base numbers list gmap strings pretty tactics.
From S2P Require Import Prelude GoStd.

Local Open Scope Z_scope.

(** ** ipTransform.go *)

(** The 16-byte form of [net.IPv4] and the conversion [To4]. *)
Definition v4InV6Prefix : bytes := replicate 10 0 ++ [255; 255].

Definition net_IPv4 (a : ip4) : bytes := v4InV6Prefix ++ ip4_bytes a.

Definition To4 (ip : bytes) : option bytes :=
  if bool_decide (length ip = 4%nat) then Some ip
  else if bool_decide (length ip = 16%nat ∧ take 12 ip = v4InV6Prefix) then Some (drop 12 ip)
  else None.

Definition IpToKey (ip : bytes) : ip4 :=
  match To4 ip with
  | None => ip4_zero
  | Some v4Ip => to_ip4 v4Ip
  end.

(** [addr.Addr().As4()] panics on the zero [netip.Addr] and on an IPv6 address:
    [None] is that panic. *)
Definition UDPAddrPortToBytes (addr : option addrPort) (natType : Z) : option bytes :=
  match addr with
  | Some (V4 ip, port) => Some (ip4_bytes ip ++ PutUint16 port ++ [natType])
  | Some (V6 _, _) | None => None
  end.

(** The IP of the result is the slice [buf[0:4]], not a copy. *)
Definition BytesToIP (buf : gslice) : UDPAddr :=
  mkUDPAddr (V4 (to_ip4 (sub (sdata buf) 0 4)), Uint16 (sub (sdata buf) 4 6)) (Some (sid buf)).

(** ** dns.go *)

(** The summing loop, including the odd last byte, on a [uint32]. *)
Fixpoint sum_words (data : bytes) (sum : Z) : Z :=
  match data with
  | b0 :: b1 :: rest => sum_words rest (u32 (sum + Uint16 [b0; b1]))
  | [b0] => u32 (sum + u32 (Z.shiftl b0 8))
  | [] => sum
  end.

(** [for sum > 0xffff { sum = (sum & 0xffff) + (sum >> 16) }] *)
Fixpoint fold_carry (fuel : nat) (sum : Z) : Z :=
  match fuel with
  | O => sum
  | S fuel' =>
      if 0xffff <? sum then fold_carry fuel' (u32 (Z.land sum 0xffff + Z.shiftr sum 16)) else sum
  end.

(** Three rounds always suffice ([fold_carry_done]). *)
Definition checksum (data : bytes) : Z :=
  0xffff - u16 (fold_carry 3 (sum_words data 0)).

Definition pseudoHeader (src dst : ip4) (n : Z) : bytes :=
  ip4_bytes src ++ ip4_bytes dst ++ [0] ++ [17] ++ PutUint16 (u16 n).

Definition udpChecksum (src dst : ip4) (udpData : bytes) : Z :=
  checksum (pseudoHeader src dst (len udpData) ++ udpData).

(** The two headers, with the value of their checksum field. *)
Definition ipHeader (totalLen check : Z) (src dst : ip4) : bytes :=
  [0x45; 0x00] ++ PutUint16 (u16 totalLen) ++ PutUint16 0 ++ PutUint16 0x4000 ++ [64; 17] ++
  PutUint16 check ++ ip4_bytes src ++ ip4_bytes dst.

Definition udpDatagram (dstPort check : Z) (payload : bytes) : bytes :=
  PutUint16 53 ++ PutUint16 dstPort ++ PutUint16 (u16 (8 + len payload)) ++ PutUint16 check ++ payload.

Definition BuildDNSResponse (rawResp : bytes) (localIp dnsServerIp : ip4) : res bytes :=
  if len rawResp <? 2 then Err ErrRawTooShort
  else
    let dstPort := Uint16 (sub rawResp 0 2) in
    let dnsPayload := drop 2 rawResp in
    let totalLen := 20 + 8 + len dnsPayload in
    let ip0 := ipHeader totalLen 0 dnsServerIp localIp in
    let ip := ipHeader totalLen (checksum ip0) dnsServerIp localIp in
    let udp0 := udpDatagram dstPort 0 dnsPayload in
    let udpCheck := udpChecksum dnsServerIp localIp udp0 in
    Ok (ip ++ udpDatagram dstPort udpCheck dnsPayload).

(** ** ping.go *)

(** The library's pinger. *)
Class ProBing := {
  pinger : Type;
  NewPinger : bytes → option pinger;
  SetPrivileged : bool → pinger → pinger;
  SetCount : Z → pinger → pinger;
  SetTimeout : Z → pinger → pinger;
  pinger_Run : pinger → option (Z * Z);         (** average time and loss *)
}.

(** [None] is a panic. *)
Definition TestPing `{ProBing} (ip : bytes) : option (Z * Z) :=
  p ← NewPinger ip; pinger_Run (SetTimeout 3000000000 (SetCount 4 (SetPrivileged true p))).

(** ** format.go *)

(** The candidate [hostname + "-" + strconv.Itoa(i)]. *)
Definition numbered (hostname : bytes) (i : nat) : bytes := hostname ++ [45] ++ Itoa i.

Fixpoint unique_from {A} (fuel i : nat) (hostname : bytes) (dnsMap : gmap bytes A) : option bytes :=
  match fuel with
  | O => None
  | S fuel' =>
      match dnsMap !! numbered hostname i with
      | None => Some (numbered hostname i)
      | Some _ => unique_from fuel' (S i) hostname dnsMap
      end
  end.

(** One more round than there are names is enough ([UniqueHostName_fresh]). *)
Definition UniqueHostName {A} (hostname : bytes) (dnsMap : gmap bytes A) : option bytes :=
  match dnsMap !! hostname with
  | None => Some hostname
  | Some _ => unique_from (S (size dnsMap)) 1 hostname dnsMap
  end.

(** The unit selection of [FormatBytes]: [None] is the plain byte form, else
    the divisor and the index into the suffix list. *)
Fixpoint format_loop (fuel : nat) (n div : Z) (exp : nat) : Z * nat :=
  match fuel with
  | O => (div, exp)
  | S fuel' => if 1024 <=? n then format_loop fuel' (n / 1024) (u64 (div * 1024)) (S exp) else (div, exp)
  end.

Definition format_suffixes : list string := ["KB"; "MB"; "GB"; "TB"; "PB"; "EB"]%string.

Definition FormatBytes_unit (b : Z) : option (Z * nat) :=
  if b <? 1024 then None else Some (format_loop 7 (b / 1024) 1024 0).

(** The text; [None] would be the index of [suffix] out of range. *)
Definition FormatBytes (b : Z) : option bytes :=
  match FormatBytes_unit b with
  | None => Some (Itoa (Z.to_nat b) ++ string_bytes " B")
  | Some (div, exp) =>
      match format_suffixes !! exp with
      | None => None
      | Some suffix => Some (Sprintf_2f (f64_div (float64 b) (float64 div)) ++ [32] ++ string_bytes suffix)
      end
  end.

(** * Addresses *)

Lemma IpToKey_IPv4 a : IpToKey (net_IPv4 a) = a.
Proof. destruct a as [[[? ?] ?] ?]. reflexivity. Qed.

Lemma IpToKey_v4 a : IpToKey (ip4_bytes a) = a.
Proof. destruct a as [[[? ?] ?] ?]. reflexivity. Qed.

(** The seven bytes of a P2P command carry an endpoint losslessly: the
    client's [BytesToIP] recovers the address and the port, and the seventh
    byte is the NAT type.  A peer without a known endpoint, or with one that is
    not IPv4, has no encoding: the conversion panics. *)
Theorem endpoint_roundtrip a port nat_type :
  0 <= port < 65536 →
  UDPAddrPortToBytes None nat_type = None ∧ (∀ v6, UDPAddrPortToBytes (Some (V6 v6, port)) nat_type = None) ∧
  ∃ buf, UDPAddrPortToBytes (Some (V4 a, port)) nat_type = Some buf ∧ length buf = 7%nat ∧
    (∀ s, sdata s = take 6 buf → BytesToIP s = mkUDPAddr (V4 a, port) (Some (sid s))) ∧ buf !! 6%nat = Some nat_type.
Proof.
  intros Hp. split; [done|]. split; [done|]. destruct a as [[[a0 a1] a2] a3]. eexists. split; [done|].
  split_and!; try done. intros s Hs. unfold BytesToIP. rewrite Hs. simpl. do 2 f_equal.
  change (Uint16 (PutUint16 port ++ []) = port). rewrite Uint16_PutUint16. by apply u16_small.
Qed.

Lemma endpoint_roundtrip_witness :
  ∃ buf, UDPAddrPortToBytes (Some (V4 (1, 2, 3, 4), 40000)) 3 = Some buf ∧
    BytesToIP (Slice 5 (take 6 buf) []) = mkUDPAddr (V4 (1, 2, 3, 4), 40000) (Some 5%nat).
Proof.
  destruct (endpoint_roundtrip (1, 2, 3, 4) 40000 3) as (_ & _ & buf & Hb & _ & Hr & _); [lia|].
  exists buf. split; [exact Hb | apply Hr; reflexivity].
Defined.

(** * The Internet checksum *)

(** The mathematical sum of the big-endian 16-bit words. *)
Fixpoint wordsum (l : bytes) : Z :=
  match l with
  | a :: b :: r => 256 * a + b + wordsum r
  | [a] => 256 * a
  | [] => 0
  end.

(** Induction two bytes at a time. *)
Lemma pairs_ind (P : bytes → Prop) :
  P [] → (∀ a, P [a]) → (∀ a b r, P r → P (a :: b :: r)) → ∀ l, P l.
Proof.
  intros H0 H1 H2 l. enough (P l ∧ ∀ a, P (a :: l)) as [? _] by done.
  induction l as [|x l [IH1 IH2]]; split; auto.
Qed.

Lemma wordsum_bounds l : bytes_ok l → 0 <= wordsum l ∧ 2 * wordsum l <= 65535 * (len l + 1).
Proof.
  unfold bytes_ok, is_byte, len. induction l as [|a|a b r IH] using pairs_ind; intros Hok; simpl.
  - lia.
  - apply Forall_cons_1 in Hok as [? _]. lia.
  - apply Forall_cons_1 in Hok as [? Hok]. apply Forall_cons_1 in Hok as [? Hok].
    specialize (IH Hok). lia.
Qed.

Lemma wordsum_app l k : Nat.Even (length l) → wordsum (l ++ k) = wordsum l + wordsum k.
Proof.
  induction l as [|a|a b r IH] using pairs_ind; simpl; intros [m Hm]; [lia|lia|].
  rewrite IH; [lia|]. exists (m - 1)%nat. lia.
Qed.

Lemma u32_small z : 0 <= z < 2 ^ 32 → u32 z = z.
Proof. apply Z.mod_small. Qed.

Lemma sum_words_spec l s :
  bytes_ok l → 0 <= s → s + wordsum l < 2 ^ 32 → sum_words l s = s + wordsum l.
Proof.
  unfold bytes_ok, is_byte. revert s.
  induction l as [|a|a b r IH] using pairs_ind; intros s Hok Hs Hb; cbn [sum_words wordsum] in *.
  - lia.
  - apply Forall_cons_1 in Hok as [? _]. rewrite Z.shiftl_mul_pow2 by lia.
    rewrite (u32_small (a * 2 ^ 8)), u32_small; lia.
  - apply Forall_cons_1 in Hok as [? Hok]. apply Forall_cons_1 in Hok as [? Hok].
    assert (0 <= wordsum r) by (apply wordsum_bounds; done).
    cbn [Uint16]. rewrite lor_shiftl_8, u32_small by lia. rewrite IH; [lia|done|lia|lia].
Qed.

(** One round of carry folding subtracts a multiple of 65535. *)
Lemma carry_step s :
  0 <= s < 2 ^ 32 →
  u32 (Z.land s 0xffff + Z.shiftr s 16) = s mod 65536 + s / 65536.
Proof.
  intros Hs. change 0xffff with (Z.ones 16). rewrite Z.land_ones, Z.shiftr_div_pow2 by lia.
  change (2 ^ 16) with 65536. apply u32_small. Z.to_euclidean_division_equations. lia.
Qed.

Lemma fold_carry_spec s :
  0 <= s < 2 ^ 32 →
  ∃ q, s = fold_carry 3 s + 65535 * q ∧ 0 <= fold_carry 3 s <= 65535 ∧ (0 < s → 0 < fold_carry 3 s).
Proof.
  intros Hs. change (2 ^ 32) with 4294967296 in Hs. cbn [fold_carry].
  destruct (0xffff <? s) eqn:E1; bool_cases; [|exists 0; lia].
  rewrite carry_step by lia. set (s1 := s mod 65536 + s / 65536).
  assert (s = s1 + 65535 * (s / 65536) ∧ 0 < s1 <= 131070) as [H1 B1]
    by (unfold s1; Z.to_euclidean_division_equations; lia). clearbody s1.
  destruct (0xffff <? s1) eqn:E2; bool_cases; [|exists (s / 65536); lia].
  rewrite carry_step by lia. set (s2 := s1 mod 65536 + s1 / 65536).
  assert (s1 = s2 + 65535 * (s1 / 65536) ∧ 0 < s2 <= 65535) as [H2 B2]
    by (unfold s2; Z.to_euclidean_division_equations; lia). clearbody s2.
  destruct (0xffff <? s2) eqn:E3; bool_cases; [lia|].
  exists (s / 65536 + s1 / 65536). lia.
Qed.

(** The fuel of [checksum] is enough: after three rounds the loop's exit
    condition holds, and more rounds change nothing. *)
Lemma fold_carry_done s n : 0 <= s < 2 ^ 32 → fold_carry (3 + n) s = fold_carry 3 s.
Proof.
  intros Hs. assert (∀ m t, t <= 65535 → fold_carry m t = t) as Hstop.
  { intros [|m] t Ht; simpl; [done|]. by rewrite (proj2 (Z.ltb_ge _ _)). }
  assert (∀ m, fold_carry (3 + m) s = fold_carry m (fold_carry 3 s)) as Hcomp.
  { intros m. cbn [fold_carry Nat.add].
    repeat match goal with |- context [if ?b then _ else _] =>
      destruct b eqn:?; bool_cases; [|symmetry; by apply Hstop] end. done. }
  rewrite Hcomp. apply Hstop. destruct (fold_carry_spec s Hs) as (? & _ & ? & _). lia.
Qed.

(** The checksum complements the sum modulo 65535. *)
Lemma checksum_spec l :
  bytes_ok l → 0 < wordsum l < 2 ^ 32 →
  ∃ q, wordsum l + checksum l = 65535 * q ∧ 0 <= checksum l < 65535.
Proof.
  intros Hok Hw. unfold checksum. rewrite sum_words_spec by (done || lia).
  destruct (fold_carry_spec (0 + wordsum l)) as (q & Hq & Hb & Hp); [lia|].
  rewrite u16_small by lia. exists (q + 1). lia.
Qed.

Lemma checksum_verifies l :
  bytes_ok l → 0 < wordsum l < 2 ^ 32 → (∃ q, wordsum l = 65535 * q) → checksum l = 0.
Proof.
  intros Hok Hw [q Hq]. destruct (checksum_spec l Hok Hw) as (q' & Hq' & Hb). lia.
Qed.

Lemma put_value v : 256 * u8 (Z.shiftr v 8) + u8 v = u16 v.
Proof.
  pose proof (Uint16_PutUint16 v []) as H. simpl in H.
  rewrite lor_shiftl_8 in H by apply u8_range. lia.
Qed.

Lemma PutUint16_ok v : bytes_ok (PutUint16 v).
Proof. repeat constructor; apply u8_is_byte. Qed.
#[export] Hint Resolve PutUint16_ok : go.

Lemma bytes_ok_app l k : bytes_ok (l ++ k) ↔ bytes_ok l ∧ bytes_ok k.
Proof. apply Forall_app. Qed.

Lemma ipHeader_ok totalLen check src dst :
  bytes_ok (ip4_bytes src) → bytes_ok (ip4_bytes dst) → bytes_ok (ipHeader totalLen check src dst).
Proof.
  intros. unfold ipHeader. rewrite !bytes_ok_app.
  split_and!; auto with go; repeat constructor; unfold is_byte; lia.
Qed.

Lemma ipHeader_sum totalLen check src dst :
  0 <= check < 65536 →
  wordsum (ipHeader totalLen check src dst) = wordsum (ipHeader totalLen 0 src dst) + check.
Proof.
  intros Hc. unfold ipHeader, PutUint16. destruct src as [[[? ?] ?] ?], dst as [[[? ?] ?] ?].
  pose proof (put_value check) as Hv. rewrite u16_small in Hv by done. simpl.
  change (u8 (Z.shiftr 0 8)) with 0. change (u8 0) with 0. lia.
Qed.

Lemma udpDatagram_ok port check payload :
  bytes_ok payload → bytes_ok (udpDatagram port check payload).
Proof. intros. unfold udpDatagram. rewrite !bytes_ok_app. split_and!; auto with go. Qed.

Lemma udpDatagram_sum port check payload :
  0 <= check < 65536 →
  wordsum (udpDatagram port check payload) = wordsum (udpDatagram port 0 payload) + check.
Proof.
  intros Hc. unfold udpDatagram, PutUint16.
  pose proof (put_value check) as Hv. rewrite u16_small in Hv by done. simpl.
  change (u8 (Z.shiftr 0 8)) with 0. change (u8 0) with 0. lia.
Qed.

Lemma pseudoHeader_ok src dst n :
  bytes_ok (ip4_bytes src) → bytes_ok (ip4_bytes dst) → bytes_ok (pseudoHeader src dst n).
Proof.
  intros. unfold pseudoHeader. rewrite !bytes_ok_app.
  split_and!; auto with go; repeat constructor; unfold is_byte; lia.
Qed.

Lemma pseudoHeader_even src dst n : Nat.Even (length (pseudoHeader src dst n)).
Proof. destruct src as [[[? ?] ?] ?], dst as [[[? ?] ?] ?]. exists 6%nat. done. Qed.

Lemma pseudoHeader_pos src dst n :
  bytes_ok (ip4_bytes src) → bytes_ok (ip4_bytes dst) → 17 <= wordsum (pseudoHeader src dst n).
Proof.
  destruct src as [[[s0 s1] s2] s3], dst as [[[d0 d1] d2] d3]. unfold bytes_ok, is_byte. intros Hs Hd.
  repeat (apply Forall_cons_1 in Hs as [? Hs]). repeat (apply Forall_cons_1 in Hd as [? Hd]).
  pose proof (put_value (u16 n)). pose proof (u16_range (u16 n)). simpl. lia.
Qed.

(** Filling a zeroed checksum field with the checksum makes the data verify;
    [f] builds the data from the value of the field. *)
Lemma checksum_filled (f : Z → bytes) :
  (∀ c, bytes_ok (f c)) → (∀ c, 0 <= c < 65536 → wordsum (f c) = wordsum (f 0) + c) →
  0 < wordsum (f 0) < 2 ^ 32 - 65536 → checksum (f (checksum (f 0))) = 0.
Proof.
  intros Hok Hsum Hb. destruct (checksum_spec (f 0)) as (q & Hq & Hc); [done|lia|].
  apply checksum_verifies; [done|rewrite Hsum; lia|]. exists q. rewrite Hsum; lia.
Qed.

Lemma ipHeader_length totalLen check src dst : length (ipHeader totalLen check src dst) = 20%nat.
Proof. unfold ipHeader. rewrite !length_app, !ip4_bytes_length. done. Qed.

Lemma udpDatagram_len port check payload : len (udpDatagram port check payload) = 8 + len payload.
Proof. unfold udpDatagram, len. rewrite !length_app. simpl. lia. Qed.

Lemma ipHeader_pos totalLen src dst :
  bytes_ok (ip4_bytes src) → bytes_ok (ip4_bytes dst) → 0 < wordsum (ipHeader totalLen 0 src dst).
Proof.
  intros Hs Hd. unfold ipHeader. rewrite wordsum_app by (exists 1%nat; done).
  match goal with |- 0 < _ + wordsum ?l => assert (0 <= wordsum l) end.
  { apply wordsum_bounds. rewrite !bytes_ok_app.
    split_and!; auto with go; repeat constructor; unfold is_byte; lia. }
  change (wordsum [69; 0]) with (256 * 69). lia.
Qed.

Lemma ipHeader_verifies totalLen src dst :
  bytes_ok (ip4_bytes src) → bytes_ok (ip4_bytes dst) →
  checksum (ipHeader totalLen (checksum (ipHeader totalLen 0 src dst)) src dst) = 0.
Proof.
  intros Hs Hd. apply (checksum_filled (λ c, ipHeader totalLen c src dst)).
  - intros. by apply ipHeader_ok.
  - intros. by apply ipHeader_sum.
  - destruct (wordsum_bounds (ipHeader totalLen 0 src dst)) as [_ Hb]; [by apply ipHeader_ok|].
    unfold len in Hb. rewrite ipHeader_length in Hb. split; [by apply ipHeader_pos|lia].
Qed.

Lemma udpDatagram_verifies port payload src dst :
  bytes_ok payload → bytes_ok (ip4_bytes src) → bytes_ok (ip4_bytes dst) → len payload <= 65535 →
  udpChecksum src dst (udpDatagram port (udpChecksum src dst (udpDatagram port 0 payload)) payload) = 0.
Proof.
  intros Hp Hs Hd Hl. unfold udpChecksum. rewrite !udpDatagram_len.
  set (ps := pseudoHeader _ _ _).
  apply (checksum_filled (λ c, ps ++ udpDatagram port c payload)).
  - intros. apply bytes_ok_app. split; [by apply pseudoHeader_ok|by apply udpDatagram_ok].
  - intros. rewrite !wordsum_app by apply pseudoHeader_even. rewrite udpDatagram_sum by done. lia.
  - rewrite wordsum_app by apply pseudoHeader_even.
    destruct (wordsum_bounds (udpDatagram port 0 payload)) as [? Hb]; [by apply udpDatagram_ok|].
    rewrite udpDatagram_len in Hb.
    destruct (wordsum_bounds ps) as [_ Hb2]; [by apply pseudoHeader_ok|].
    pose proof (pseudoHeader_pos src dst (8 + len payload) Hs Hd) as Hpos. fold ps in Hpos.
    assert (len ps = 12) as Hps
      by (unfold ps; destruct src as [[[? ?] ?] ?], dst as [[[? ?] ?] ?]; done).
    rewrite Hps in Hb2. lia.
Qed.

(** The packet injected into the TUN device for a DNS answer is a valid
    IPv4/UDP datagram.  Its IPv4 header verifies, its UDP checksum verifies
    over the pseudo header, its length fields are right, it goes from the DNS
    address, port 53, to the local address and the port the request came from,
    and it carries exactly the answer. *)
Theorem BuildDNSResponse_valid rawResp localIp dnsServerIp pkt :
  bytes_ok rawResp → bytes_ok (ip4_bytes localIp) → bytes_ok (ip4_bytes dnsServerIp) →
  len rawResp <= 65509 → BuildDNSResponse rawResp localIp dnsServerIp = Ok pkt →
  len pkt = 26 + len rawResp ∧ Uint16 (sub pkt 2 4) = len pkt ∧
  checksum (take 20 pkt) = 0 ∧ sub pkt 12 16 = ip4_bytes dnsServerIp ∧ sub pkt 16 20 = ip4_bytes localIp ∧
  udpChecksum dnsServerIp localIp (drop 20 pkt) = 0 ∧
  Uint16 (sub pkt 20 22) = 53 ∧ sub pkt 22 24 = take 2 rawResp ∧ Uint16 (sub pkt 24 26) = len (drop 20 pkt) ∧
  drop 28 pkt = drop 2 rawResp.
Proof.
  intros Hr Hl Hd Hlen. unfold BuildDNSResponse. destruct (len rawResp <? 2) eqn:E; [done|].
  bool_cases. destruct rawResp as [|p0 [|p1 payload]]; [done|done|].
  assert (len (p0 :: p1 :: payload) = 2 + len payload) as HL by (unfold len; simpl; lia).
  rewrite HL in *. change (sub _ 0 2) with [p0; p1].
  change (drop 2 (p0 :: p1 :: payload)) with payload.
  apply Forall_cons_1 in Hr as [Hp0 Hr]. apply Forall_cons_1 in Hr as [Hp1 Hr].
  pose proof (len_nonneg payload) as Hnn.
  set (ip := ipHeader _ (checksum _) _ _). set (udp := udpDatagram _ (udpChecksum _ _ _) _).
  intros Hpkt. assert (pkt = ip ++ udp) as -> by congruence. clear Hpkt.
  assert (length ip = 20%nat) as Hip by apply ipHeader_length.
  assert (len udp = 8 + len payload) as Hudp by apply udpDatagram_len.
  assert (take 20 (ip ++ udp) = ip) as -> by (rewrite <- Hip; apply take_app_length).
  assert (drop 20 (ip ++ udp) = udp) as -> by (rewrite <- Hip; apply drop_app_length).
  assert (len (ip ++ udp) = 28 + len payload) as -> by (rewrite len_app, Hudp; unfold len at 1; lia).
  assert (∀ i j, sub (ip ++ udp) (20 + i) (20 + j) = sub udp i j) as Hsub.
  { intros i j. unfold sub. rewrite drop_app_ge, Hip by lia.
    replace (20 + j - (20 + i))%nat with (j - i)%nat by lia.
    by replace (20 + i - 20)%nat with i by lia. }
  assert (sub (ip ++ udp) 20 22 = sub udp 0 2) as -> by exact (Hsub 0%nat 2%nat).
  assert (sub (ip ++ udp) 22 24 = sub udp 2 4) as -> by exact (Hsub 2%nat 4%nat).
  assert (sub (ip ++ udp) 24 26 = sub udp 4 6) as -> by exact (Hsub 4%nat 6%nat).
  rewrite Hudp.
  rewrite !sub_app_l by lia. split_and!; try done; try lia.
  - change (Uint16 (PutUint16 (u16 (20 + 8 + len payload)) ++ []) = 28 + len payload).
    rewrite Uint16_PutUint16, !(u16_small (_ + _)) by lia. lia.
  - by apply ipHeader_verifies.
  - unfold ip. destruct dnsServerIp as [[[? ?] ?] ?], localIp as [[[? ?] ?] ?]. done.
  - unfold ip. destruct dnsServerIp as [[[? ?] ?] ?], localIp as [[[? ?] ?] ?]. done.
  - apply udpDatagram_verifies; try done. lia.
  - change (PutUint16 (Uint16 [p0; p1]) = [p0; p1]). by apply PutUint16_Uint16.
  - change (Uint16 (PutUint16 (u16 (8 + len payload)) ++ []) = 8 + len payload).
    rewrite Uint16_PutUint16, !(u16_small (_ + _)) by lia. lia.
  - rewrite drop_app_ge, Hip by lia. done.
Qed.

Lemma BuildDNSResponse_valid_witness :
  ∃ pkt, BuildDNSResponse [0x30; 0x39; 1; 2; 3] (10, 0, 6, 2) (10, 0, 6, 1) = Ok pkt ∧
    checksum (take 20 pkt) = 0 ∧ drop 28 pkt = [1; 2; 3].
Proof.
  eexists. split; [reflexivity|].
  match goal with |- checksum (take 20 ?pkt) = 0 ∧ _ =>
    destruct (BuildDNSResponse_valid [0x30; 0x39; 1; 2; 3] (10, 0, 6, 2) (10, 0, 6, 1) pkt)
      as (_ & _ & Hc & _ & _ & _ & _ & _ & _ & Hd) end;
    [repeat constructor; unfold is_byte; lia | repeat constructor; unfold is_byte; lia |
     repeat constructor; unfold is_byte; lia | vm_compute; discriminate | reflexivity |].
  split; [exact Hc | exact Hd].
Defined.

(** * Host names *)

Lemma string_bytes_inj s t : string_bytes s = string_bytes t → s = t.
Proof.
  revert t. induction s as [|a s IH]; intros [|b t]; simpl; try done.
  intros [= Hab Hst]. f_equal; [|by apply IH].
  apply Nat2Z.inj in Hab. rewrite <- (Ascii.ascii_nat_embedding a), <- (Ascii.ascii_nat_embedding b).
  congruence.
Qed.

Lemma numbered_inj h i j : numbered h i = numbered h j → i = j.
Proof.
  unfold numbered, Itoa. intros H. apply app_inv_head in H. injection H as H.
  apply string_bytes_inj in H. apply (inj pretty) in H. lia.
Qed.

(** What the search returns: the first free candidate from [i] on. *)
Lemma unique_from_Some {A} (fuel i : nat) (h : bytes) (m : gmap bytes A) (name : bytes) :
  unique_from fuel i h m = Some name →
  m !! name = None ∧ ∃ k, (i <= k)%nat ∧ name = numbered h k ∧
    ∀ j, (i <= j < k)%nat → is_Some (m !! numbered h j).
Proof.
  revert i. induction fuel as [|fuel IH]; intros i; simpl; [done|].
  destruct (m !! numbered h i) eqn:E.
  - intros (Hn & k & Hk & -> & Hj)%IH. split; [done|]. exists k. split_and!; [lia|done|].
    intros j Hjk. destruct (decide (j = i)) as [->|]; [by eexists|]. apply Hj. lia.
  - intros [= <-]. split; [done|]. exists i. split_and!; [lia|done|]. intros j ?. lia.
Qed.

(** If the search fails, it met as many taken names as it made rounds. *)
Lemma unique_from_None {A} (fuel i : nat) (h : bytes) (m : gmap bytes A) :
  unique_from fuel i h m = None → ∀ j, (i <= j < i + fuel)%nat → is_Some (m !! numbered h j).
Proof.
  revert i. induction fuel as [|fuel IH]; intros i; simpl; [intros _ j ?; lia|].
  destruct (m !! numbered h i) eqn:E; [|done]. intros Hn j Hj.
  destruct (decide (j = i)) as [->|]; [by eexists|]. apply (IH (S i) Hn). lia.
Qed.

Lemma unique_from_total {A} (i : nat) (h : bytes) (m : gmap bytes A) : is_Some (unique_from (S (size m)) i h m).
Proof.
  destruct (unique_from _ _ _ _) eqn:E; [by eexists|]. exfalso.
  pose proof (unique_from_None _ _ _ _ E) as Hall.
  set (names := numbered h <$> seq i (S (size m))).
  assert (NoDup names) as Hnd.
  { apply NoDup_fmap_2_strong; [|apply NoDup_seq]. intros x y _ _. apply numbered_inj. }
  assert (list_to_set names ⊆ dom m) as Hsub.
  { intros x Hx. apply elem_of_list_to_set in Hx. apply list_elem_of_fmap in Hx as (j & -> & Hj).
    apply elem_of_dom, Hall. apply elem_of_seq in Hj. lia. }
  apply subseteq_size in Hsub. rewrite size_dom in Hsub.
  rewrite size_list_to_set in Hsub by done. unfold names in Hsub.
  rewrite length_fmap, length_seq in Hsub. lia.
Qed.

(** The search is total and finds a free name, the requested one if it is free. *)
Lemma UniqueHostName_total {A} (h : bytes) (m : gmap bytes A) :
  ∃ name, UniqueHostName h m = Some name ∧ m !! name = None ∧ (m !! h = None → name = h).
Proof.
  unfold UniqueHostName. destruct (m !! h) eqn:E; [|eauto].
  destruct (unique_from_total 1 h m) as [name Hn]. exists name. split; [done|].
  apply unique_from_Some in Hn as [? _]. done.
Qed.

(** C31: the search for a host name always ends, and ends with a name that is
    not taken: the requested one if it is free, else the requested one with
    the smallest free number from 1 on behind it. *)
Theorem UniqueHostName_fresh {A} (h : bytes) (m : gmap bytes A) :
  ∃ name, UniqueHostName h m = Some name ∧ m !! name = None ∧
    (m !! h = None → name = h) ∧
    (is_Some (m !! h) → ∃ k, (1 <= k)%nat ∧ name = numbered h k ∧
       ∀ j, (1 <= j < k)%nat → is_Some (m !! numbered h j)).
Proof.
  unfold UniqueHostName. destruct (m !! h) eqn:E.
  - destruct (unique_from_total 1 h m) as [name Hn]. exists name. split; [done|].
    apply unique_from_Some in Hn as [? Hk]. split_and!; [done|done|]. intros _. exact Hk.
  - exists h. split_and!; naive_solver.
Qed.

(** * Byte units *)

Lemma pow1024_succ e : 0 <= e → 1024 ^ (e + 1) = 1024 ^ e * 1024.
Proof. intros. rewrite Z.pow_add_r by lia. done. Qed.

Lemma format_loop_spec fuel b exp :
  0 <= b < 2 ^ 64 → 1 <= b / 1024 ^ (Z.of_nat exp + 1) → b < 1024 ^ (Z.of_nat (exp + fuel) + 1) →
  ∃ e, format_loop fuel (b / 1024 ^ (Z.of_nat exp + 1)) (1024 ^ (Z.of_nat exp + 1)) exp =
      (1024 ^ (Z.of_nat e + 1), e) ∧ 1 <= b / 1024 ^ (Z.of_nat e + 1) < 1024.
Proof.
  revert exp. induction fuel as [|fuel IH]; intros exp Hb H1 Hf; cbn [format_loop].
  - rewrite Nat.add_0_r in Hf. rewrite Z.div_small in H1 by lia. lia.
  - set (d := 1024 ^ (Z.of_nat exp + 1)) in *.
    assert (0 < d) as Hd by (apply Z.pow_pos_nonneg; lia).
    destruct (1024 <=? b / d) eqn:E; bool_cases; [|exists exp; fold d; split; [done|lia]].
    assert (1024 ^ (Z.of_nat (S exp) + 1) = d * 1024) as Hd'
      by (unfold d; rewrite <- pow1024_succ by lia; f_equal; lia).
    assert (d * 1024 <= b) by (rewrite <- (Z.mul_div_le b d) by lia; nia).
    rewrite u64_small by lia. rewrite Z.div_div by lia. rewrite <- Hd'. apply IH; [done| |].
    + rewrite Hd'. apply Z.div_le_lower_bound; lia.
    + by replace (S exp + fuel)%nat with (exp + S fuel)%nat by lia.
Qed.

(** For every 64-bit byte count the unit loop stops with an index inside the
    suffix list, a divisor that is the matching power of 1024 without
    overflow, and a quotient below 1024. *)
Lemma FormatBytes_unit_in_range b :
  1024 <= b < 2 ^ 64 →
  ∃ div exp, FormatBytes_unit b = Some (div, exp) ∧ (exp < length format_suffixes)%nat ∧
    div = 1024 ^ (Z.of_nat exp + 1) ∧ 1 <= b / div < 1024.
Proof.
  intros Hb. unfold FormatBytes_unit. rewrite (proj2 (Z.ltb_ge _ _)) by lia.
  destruct (format_loop_spec 7 b 0) as (e & He & Hr).
  - lia.
  - apply Z.div_le_lower_bound; simpl; lia.
  - eapply Z.lt_le_trans; [apply Hb|]. vm_compute. discriminate.
  - change (1024 ^ (Z.of_nat 0 + 1)) with 1024 in He. rewrite He.
    eexists _, e. split_and!; try done; [|lia|lia]. change (e < 6)%nat.
    destruct (decide (e < 6)%nat) as [|Hn]; [done|]. exfalso.
    assert (1024 ^ 7 <= 1024 ^ (Z.of_nat e + 1)) as Hp by (apply Z.pow_le_mono_r; lia).
    assert (2 ^ 64 < 1024 ^ 7) as H7 by done. rewrite Z.div_small in Hr by lia. lia.
Qed.

Example FormatBytes_unit_max : FormatBytes_unit (2 ^ 64 - 1) = Some (2 ^ 60, 5%nat).
Proof. reflexivity. Qed.
