(* ===== verification/Noise.v ===== *)
(** Noise sessions: [internal/protocol/noise.go].

    A manager keeps one session per peer.  The handshake library
    (github.com/flynn/noise) is the class [Noise]; the documented behaviour of
    its two-message IK pattern is [NoiseLaws], and [toy_noise] is a concrete
    instance.  Every method of the manager and of a session is one definition;
    times are Unix seconds passed in where the source reads the clock. *)

From stdpp Require Import base numbers list gmap tactics relations.
From S2P Require Import Prelude Cipher.

Local Open Scope Z_scope.

(** ** The handshake library *)

Record noiseConfig := mkConfig {
  cfg_random : Z;           (** what [rand.Reader] delivers to this handshake *)
  cfg_initiator : bool;
  cfg_private : bytes;
  cfg_public : bytes;
  cfg_peer : bytes;         (** [PeerStatic], empty for a responder *)
}.

(** [WriteMessage] and [ReadMessage] give [None] on an error, else the message
    (or payload) and, when the call completed the handshake, the keys of the
    two cipher states; both change the handshake state they are called on. *)
Class Noise := {
  HandshakeState : Type;
  NewHandshakeState : noiseConfig → HandshakeState;
  WriteMessage : HandshakeState → bytes → option (bytes * option (bytes * bytes)) * HandshakeState;
  ReadMessage : HandshakeState → bytes → option (bytes * option (bytes * bytes)) * HandshakeState;
  noise_public : bytes → bytes;     (** the public key of a private key *)
  noise_waiting : HandshakeState → Prop;  (** an IK initiator that expects the response *)
}.

Class NoiseLaws `{Noise} : Prop := {
  (** An initiator that has called [WriteMessage] waits for the response, and
      keeps waiting when a message is refused. *)
  waiting_init cfg pl :
    cfg_initiator cfg = true → noise_waiting (snd (WriteMessage (NewHandshakeState cfg) pl));
  waiting_refused h d h' : noise_waiting h → ReadMessage h d = (None, h') → noise_waiting h';
  (** The second IK message completes the handshake, on both sides. *)
  waiting_done h d p ks h' : noise_waiting h → ReadMessage h d = (Some (p, ks), h') → is_Some ks;
  responder_done cfg d p ks h pl :
    cfg_initiator cfg = false → ReadMessage (NewHandshakeState cfg) d = (Some (p, ks), h) →
    ∃ m k h', WriteMessage h pl = (Some (m, Some k), h');
  (** An undisturbed run between an initiator and the owner of the static key
      it was given: message sizes 96 and 48, and both ends get the same pair. *)
  ik_run ci cr :
    cfg_initiator ci = true → cfg_initiator cr = false →
    cfg_peer ci = cfg_public cr → cfg_public cr = noise_public (cfg_private cr) →
    cfg_public ci = noise_public (cfg_private ci) →
    ∃ m1 hi p hr m2 k hr' p' hi',
      WriteMessage (NewHandshakeState ci) [] = (Some (m1, None), hi) ∧ len m1 = 96 ∧
      ReadMessage (NewHandshakeState cr) m1 = (Some (p, None), hr) ∧
      WriteMessage hr [] = (Some (m2, Some k), hr') ∧ len m2 = 48 ∧
      ReadMessage hi m2 = (Some (p', Some k), hi');
}.

(** ** Data *)

Section noise.
Context `{Noise}.

Record NoiseSession := mkSession {
  remoteVip : ip4;
  s_cipher : Cipher;
  s_hs : option HandshakeState;
  isInitiator : bool;
  lastSeen : Z;
  pendingChan : list gslice;   (** buffered channel, capacity 24 *)
  pendingClosed : bool;
}.

Definition pendingCap : nat := 24.

Definition NewNoiseSession (now : Z) (vip : ip4) (initiator : bool) (hs : option HandshakeState)
    : NoiseSession :=
  mkSession vip NewChaCha hs initiator now [] false.

(** [tunChan] is the client's queue of packets read from the TUN device; the
    manager only appends to it.  [nm_random] numbers the draws from the
    system's random source. *)
Record NoiseManager := mkManager {
  tunChan : list gslice;
  myVip : ip4;
  staticPriv : bytes;
  staticPub : bytes;
  sessions : gmap ip4 NoiseSession;
  nm_random : Z;
}.

Definition set_sessions (f : gmap ip4 NoiseSession → gmap ip4 NoiseSession) (m : NoiseManager)
    : NoiseManager :=
  mkManager (tunChan m) (myVip m) (staticPriv m) (staticPub m) (f (sessions m)) (nm_random m).

Definition NewNoiseManager (priv : bytes) (random : Z) : NoiseManager :=
  mkManager [] ip4_zero priv (noise_public priv) ∅ random.

(** ** Session methods *)

Definition session_UpdateLastSeen (now : Z) (s : NoiseSession) : NoiseSession :=
  mkSession (remoteVip s) (s_cipher s) (s_hs s) (isInitiator s) now (pendingChan s) (pendingClosed s).

Definition isTimeout (now timeout : Z) (s : NoiseSession) : bool := timeout <? now - lastSeen s.

(** Drains the closed channel into [recv], in order. *)
Definition SendAllPendingData (s : NoiseSession) (recv : list gslice) : NoiseSession * list gslice :=
  (mkSession (remoteVip s) (s_cipher s) (s_hs s) (isInitiator s) (lastSeen s) [] (pendingClosed s),
   recv ++ pendingChan s).

Definition closePending (s : NoiseSession) : NoiseSession :=
  mkSession (remoteVip s) (s_cipher s) (s_hs s) (isInitiator s) (lastSeen s) (pendingChan s) true.

(** The [select] of [AddPendingData]: [None] is the panic of a send on a closed
    channel, which [default] does not prevent. *)
Definition pendingSend (data : gslice) (s : NoiseSession) : option NoiseSession :=
  if pendingClosed s then None
  else if bool_decide (length (pendingChan s) < pendingCap)%nat then
    Some (mkSession (remoteVip s) (s_cipher s) (s_hs s) (isInitiator s) (lastSeen s)
      (pendingChan s ++ [data]) (pendingClosed s))
  else Some s.

(** The test and the [select] with nothing in between: then the send cannot
    panic.  Nothing keeps the two together in the source. *)
Definition AddPendingData (data : gslice) (s : NoiseSession) : NoiseSession :=
  if pendingClosed s then s else default s (pendingSend data s).

Definition set_cipher (c : Cipher) (hs : option HandshakeState) (s : NoiseSession) : NoiseSession :=
  mkSession (remoteVip s) c hs (isInitiator s) (lastSeen s) (pendingChan s) (pendingClosed s).

(** ** Manager methods *)

Definition SetVirtualIp (vip : ip4) (m : NoiseManager) : NoiseManager :=
  mkManager (tunChan m) vip (staticPriv m) (staticPub m) (sessions m) (nm_random m).

Definition GetPublicKey (m : NoiseManager) : bytes := staticPub m.

Definition GetSession (m : NoiseManager) (key : ip4) : option NoiseSession := sessions m !! key.

Definition SetSession (key : ip4) (value : NoiseSession) (m : NoiseManager) : NoiseManager :=
  set_sessions (insert key value) m.

Definition DeleteSession (key : ip4) (m : NoiseManager) : NoiseManager :=
  set_sessions (delete key) m.

(** A configuration with fresh randomness. *)
Definition draw (initiator : bool) (peer : bytes) (m : NoiseManager) : noiseConfig * NoiseManager :=
  (mkConfig (nm_random m) initiator (staticPriv m) (staticPub m) peer,
   mkManager (tunChan m) (myVip m) (staticPriv m) (staticPub m) (sessions m) (nm_random m + 1)).

Definition HandshakeInit (now : Z) (vip : ip4) (remotePub : bytes) (payload : gslice) (m : NoiseManager)
    : option bytes * NoiseManager :=
  let '(cfg, m) := draw true remotePub m in
  let hs := NewHandshakeState cfg in
  let session := AddPendingData payload (NewNoiseSession now vip true (Some hs)) in
  (* The session holds the handshake state [WriteMessage] advances. *)
  let '(out, hs) := WriteMessage hs [] in
  let m := SetSession vip (set_cipher (s_cipher session) (Some hs) session) m in
  (match out with Some (msg, _) => Some msg | None => None end, m).

(** What [HandleNoisePacket] returns: an error; a nil dereference; or a
    session (possibly nil) and a response (possibly nil). *)
Inductive noiseResult : Type :=
  | NErr (e : error)
  | NPanic
  | NRet (session : option NoiseSession) (response : option bytes).

Definition handleResponderFirst (now : Z) (srcVip : ip4) (data : bytes) (m : NoiseManager)
    : noiseResult * NoiseManager :=
  let '(cfg, m) := draw false [] m in
  match ReadMessage (NewHandshakeState cfg) data with
  | (None, _) => (NErr ErrNoise, m)
  | (Some _, hs) =>
      match WriteMessage hs [] with
      | (Some (responseMsg, Some (csSend, csRecv)), _) =>
          let session := NewNoiseSession now srcVip false None in
          let session := set_cipher (Init (s_cipher session) csRecv csSend) (s_hs session) session in
          let session := closePending session in
          let '(session, ch) := SendAllPendingData session (tunChan m) in
          let m := SetSession srcVip session m in
          (NRet (Some session) (Some responseMsg),
           mkManager ch (myVip m) (staticPriv m) (staticPub m) (sessions m) (nm_random m))
      | _ => (NPanic, m)
      end
  end.

Definition HandleNoisePacket (now : Z) (srcVip : ip4) (data : bytes) (m : NoiseManager)
    : noiseResult * NoiseManager :=
  match GetSession m srcVip with
  | None => handleResponderFirst now srcVip data m
  | Some session =>
      if IsReady (s_cipher session) then (NRet (Some session) None, m)
      else if isInitiator session && (64 <=? len data) then
        match bytes_compare (ip4_bytes (myVip m)) (ip4_bytes srcVip) with
        | Gt => handleResponderFirst now srcVip data m
        | _ => (NErr ErrNoiseCollision, m)
        end
      else if isInitiator session then
        match s_hs session with
        | None => (NPanic, m)
        | Some hs =>
            match ReadMessage hs data with
            | (None, hs) => (NErr ErrNoise, SetSession srcVip (set_cipher (s_cipher session) (Some hs) session) m)
            | (Some (_, None), _) => (NPanic, m)
            | (Some (_, Some (csRecv, csSend)), _) =>
                let session := set_cipher (Init (s_cipher session) csRecv csSend) None session in
                let session := closePending session in
                let '(session, ch) := SendAllPendingData session (tunChan m) in
                let m := SetSession srcVip session m in
                (NRet None None,
                 mkManager ch (myVip m) (staticPriv m) (staticPub m) (sessions m) (nm_random m))
            end
        end
      else (NErr ErrNoiseState, m)
  end.

Definition sweepSessions (now timeout : Z) (m : NoiseManager) : NoiseManager :=
  set_sessions (filter (λ ks, isTimeout now timeout ks.2 = false)) m.

(** One tick of [CheckSession]. *)
Definition CheckSession_tick (now : Z) (m : NoiseManager) : NoiseManager := sweepSessions now 10 m.
End noise.
