(* ===== verification/NoiseFacts.v ===== *)
(** Correctness of the Noise session manager: the session invariant under
    every operation, absence of nil dereferences, agreement of the keys of two
    managers after a handshake and after a handshake collision, delivery of
    the packets that waited, and expiry. *)

From stdpp Require Import base numbers list gmap tactics relations.
From S2P Require Import Prelude Cipher Noise.

Local Open Scope Z_scope.

Section facts.
Context `{NoiseLaws}.

Implicit Types (m : NoiseManager) (s : NoiseSession) (vip : ip4).

(** ** The session invariant *)

(** A session is either an initiator still waiting, with its handshake state
    and an open queue, or complete: both keys present, the handshake state
    gone, the queue closed and drained. *)
Inductive session_ok (vip : ip4) : NoiseSession → Prop :=
  | ok_waiting hs t q :
      noise_waiting hs → (length q <= pendingCap)%nat →
      session_ok vip (mkSession vip NewChaCha (Some hs) true t q false)
  | ok_ready kr ks nr ns b t :
      session_ok vip (mkSession vip (mkCipher (Some (mkCipherState kr nr)) (Some (mkCipherState ks ns))
        CipherReady) None b t [] true).

Definition manager_ok m : Prop := map_Forall session_ok (sessions m).

Lemma manager_ok_insert vip s m :
  session_ok vip s → manager_ok m → map_Forall session_ok (<[vip := s]> (sessions m)).
Proof. intros. by apply map_Forall_insert_2. Qed.

Lemma session_ok_ready vip s :
  session_ok vip s → IsReady (s_cipher s) = true →
  is_Some (Recver (s_cipher s)) ∧ is_Some (Sender (s_cipher s)) ∧ pendingClosed s = true ∧ pendingChan s = [].
Proof. destruct 1; simpl; [done|]. eauto. Qed.

Lemma session_ok_waiting vip s :
  session_ok vip s → IsReady (s_cipher s) = false →
  isInitiator s = true ∧ pendingClosed s = false ∧ ∃ hs, s_hs s = Some hs ∧ noise_waiting hs.
Proof. destruct 1; simpl; [|done]. eauto. Qed.

Lemma session_ok_touch vip s now : session_ok vip s → session_ok vip (session_UpdateLastSeen now s).
Proof. destruct 1; by constructor. Qed.

Lemma session_ok_pending vip s d : session_ok vip s → session_ok vip (AddPendingData d s).
Proof.
  destruct 1; unfold AddPendingData, pendingSend; simpl; [|by constructor].
  case_bool_decide; constructor; try done. rewrite length_app. simpl. lia.
Qed.

(** The session a completed handshake leaves. *)
Definition ready_session vip (k : bytes * bytes) (recv_first initiator : bool) (t : Z) : NoiseSession :=
  let '(k1, k2) := k in
  let '(r, w) := if recv_first then (k1, k2) else (k2, k1) in
  mkSession vip (mkCipher (Some (mkCipherState r 0)) (Some (mkCipherState w 0)) CipherReady)
    None initiator t [] true.

Lemma ready_session_ok vip k rf i t : session_ok vip (ready_session vip k rf i t).
Proof. destruct k, rf; constructor. Qed.

(** The responder's side in closed form. *)
Lemma handleResponderFirst_spec now vip data m :
  let cfg := fst (draw false [] m) in
  match ReadMessage (NewHandshakeState cfg) data with
  | (None, _) =>
      ∃ m', handleResponderFirst now vip data m = (NErr ErrNoise, m') ∧ sessions m' = sessions m ∧
        tunChan m' = tunChan m ∧ myVip m' = myVip m
  | (Some _, hs) =>
      ∃ msg k h' m', WriteMessage hs [] = (Some (msg, Some k), h') ∧
        handleResponderFirst now vip data m =
          (NRet (Some (ready_session vip k false false now)) (Some msg), m') ∧
        sessions m' = <[vip := ready_session vip k false false now]> (sessions m) ∧
        tunChan m' = tunChan m ∧ myVip m' = myVip m
  end.
Proof.
  intros cfg. unfold handleResponderFirst. unfold draw in *. cbn [fst] in cfg.
  destruct (ReadMessage (NewHandshakeState cfg) data) as [[[p ks]|] hs] eqn:Er.
  - destruct (responder_done cfg data p ks hs [] eq_refl Er) as (msg & [k1 k2] & h' & Hw).
    exists msg, (k1, k2), h'. eexists. split; [done|].
    fold cfg. rewrite Er, Hw. simpl. rewrite app_nil_r. done.
  - eexists. fold cfg. rewrite Er. done.
Qed.

(** ** Steps *)

(** Everything that happens to a manager: the calls of the sending workers,
    the receiving workers, the control connection and the sweeper. *)
Inductive noise_step : NoiseManager → NoiseManager → Prop :=
  | step_set_vip vip m : noise_step m (SetVirtualIp vip m)
  | step_init now vip pub pl out m m' :
      HandshakeInit now vip pub pl m = (out, m') → noise_step m m'
  | step_packet now vip data r m m' :
      HandleNoisePacket now vip data m = (r, m') → noise_step m m'
  | step_pending vip s d m :
      GetSession m vip = Some s → noise_step m (SetSession vip (AddPendingData d s) m)
  | step_seen vip s now m :
      GetSession m vip = Some s → noise_step m (SetSession vip (session_UpdateLastSeen now s) m)
  | step_delete vip m : noise_step m (DeleteSession vip m)
  | step_sweep now m : noise_step m (CheckSession_tick now m).

Lemma HandshakeInit_spec now vip pub pl m :
  ∃ hs, noise_waiting hs ∧
    WriteMessage (NewHandshakeState (fst (draw true pub m))) [] =
      (fst (WriteMessage (NewHandshakeState (fst (draw true pub m))) []), hs) ∧
    HandshakeInit now vip pub pl m =
      (fst <$> fst (WriteMessage (NewHandshakeState (fst (draw true pub m))) []),
       SetSession vip (mkSession vip NewChaCha (Some hs) true now [pl] false) (snd (draw true pub m))).
Proof.
  unfold HandshakeInit. destruct (draw true pub m) as [cfg m1] eqn:Ed. cbn [fst snd].
  assert (cfg_initiator cfg = true) as Hi by (unfold draw in Ed; simplify_eq; done).
  pose proof (waiting_init cfg [] Hi) as Hw.
  destruct (WriteMessage (NewHandshakeState cfg) []) as [out hs]. exists hs. cbn [fst snd] in *.
  split_and!; [done|done|]. f_equal. by destruct out as [[? ?]|].
Qed.

Lemma HandleNoisePacket_ok now vip data m r m' :
  manager_ok m → HandleNoisePacket now vip data m = (r, m') → manager_ok m' ∧ r ≠ NPanic ∧
    (∀ s resp, r = NRet (Some s) resp → session_ok vip s ∧ IsReady (s_cipher s) = true) ∧
    r ≠ NErr ErrNoiseState.
Proof.
  intros Hm. unfold HandleNoisePacket.
  assert (∀ r m', handleResponderFirst now vip data m = (r, m') → manager_ok m' ∧ r ≠ NPanic ∧
    (∀ s resp, r = NRet (Some s) resp → session_ok vip s ∧ IsReady (s_cipher s) = true) ∧
    r ≠ NErr ErrNoiseState) as Hresp.
  { intros r0 m0 Hr. pose proof (handleResponderFirst_spec now vip data m) as Hs. cbn zeta in Hs.
    destruct (ReadMessage _ data) as [[[p ks]|] hs].
    - destruct Hs as (msg & k & h' & m1 & _ & Heq & Hse & _). rewrite Heq in Hr. simplify_eq.
      split_and!; try done.
      + unfold manager_ok. rewrite Hse. apply manager_ok_insert; [apply ready_session_ok|done].
      + intros s resp [= <- <-]. split; [apply ready_session_ok|]. by destruct k.
    - destruct Hs as (m1 & Heq & Hse & _). rewrite Heq in Hr. simplify_eq.
      unfold manager_ok. rewrite Hse. done. }
  destruct (GetSession m vip) as [s|] eqn:Es; [|apply Hresp].
  assert (session_ok vip s) as Hok by (by apply (Hm vip)).
  destruct (IsReady (s_cipher s)) eqn:Er.
  { intros [= <- <-]. split_and!; try done. intros s' resp [= <- <-]. done. }
  destruct (session_ok_waiting _ _ Hok Er) as (Hi & Hc & hs & Hhs & Hw). rewrite Hi. cbn [andb].
  destruct (64 <=? len data).
  { destruct (bytes_compare _ _); [| |apply Hresp]; intros [= <- <-]; split_and!; done. }
  rewrite Hhs. destruct (ReadMessage hs data) as [[[p ks]|] hs'] eqn:Erd.
  - destruct (waiting_done _ _ _ _ _ Hw Erd) as [[k1 k2] ->]. intros [= <- <-].
    split_and!; try done. apply manager_ok_insert; [|done].
    inversion Hok; subst; simpl in *; [|done]. constructor.
  - intros [= <- <-]. split_and!; try done. apply manager_ok_insert; [|done].
    inversion Hok; subst; simpl in *; [|done]. constructor; [|done].
    simplify_eq. eapply waiting_refused; done.
Qed.

Lemma noise_step_ok m m' : noise_step m m' → manager_ok m → manager_ok m'.
Proof.
  destruct 1 as [vip m|now vip pub pl out m m' Hi|now vip data r m m' Hh|vip s d m Hg|vip s now m Hg
    |vip m|now m]; intros Hm; try done.
  - destruct (HandshakeInit_spec now vip pub pl m) as (hs & Hw & _ & Heq).
    rewrite Heq in Hi. simplify_eq. apply manager_ok_insert; [|done].
    constructor; [done|]. unfold pendingCap. simpl. lia.
  - by eapply HandleNoisePacket_ok.
  - apply manager_ok_insert; [|done]. apply session_ok_pending. by apply (Hm vip).
  - apply manager_ok_insert; [|done]. apply session_ok_touch. by apply (Hm vip).
  - by apply map_Forall_delete.
  - intros k s Hk. apply map_lookup_filter_Some in Hk as [Hk _]. by apply Hm.
Qed.

(** C19: the session invariant.  In every state a manager can reach, every
    session is either an initiator waiting for its response, with a live
    handshake state and an open queue of at most 24 packets, or a completed
    session with both keys and a closed, empty queue.  In such a state no
    incoming packet makes [HandleNoisePacket] dereference a nil handshake or
    a nil key, none reaches the "invalid state" error, and a session it
    returns for decryption has its keys. *)
Theorem noise_sessions_safe priv random m now vip data r m' :
  rtc noise_step (NewNoiseManager priv random) m →
  HandleNoisePacket now vip data m = (r, m') →
  manager_ok m ∧ r ≠ NPanic ∧ r ≠ NErr ErrNoiseState ∧
  (∀ s resp, r = NRet (Some s) resp → is_Some (Recver (s_cipher s)) ∧ is_Some (Sender (s_cipher s))).
Proof.
  intros Hr Hh. assert (manager_ok m) as Hm.
  { revert Hr. apply (rtc_ind_r manager_ok); [apply map_Forall_empty|].
    intros; by eapply noise_step_ok. }
  destruct (HandleNoisePacket_ok _ _ _ _ _ _ Hm Hh) as (_ & Hp & Hs & Hst).
  split_and!; try done. intros s resp ->. destruct (Hs s resp eq_refl) as [Hok Hrd].
  destruct (session_ok_ready _ _ Hok Hrd) as (? & ? & _). done.
Qed.

(** ** Key agreement *)

(** What one end seals, the other opens, in both directions. *)
Definition keys_agree s s' : Prop :=
  IsReady (s_cipher s) = true ∧ IsReady (s_cipher s') = true ∧
  cs_key <$> Sender (s_cipher s) = cs_key <$> Recver (s_cipher s') ∧
  cs_key <$> Recver (s_cipher s) = cs_key <$> Sender (s_cipher s').

Lemma ready_sessions_agree v w k t t' i i' :
  keys_agree (ready_session v k true i t) (ready_session w k false i' t').
Proof. by destruct k. Qed.

(** A worker that finds the session unfinished queues its packet. *)
Definition queue_all vip (ds : list gslice) m : NoiseManager :=
  foldl (λ m d, match GetSession m vip with
                | Some s => SetSession vip (AddPendingData d s) m
                | None => m
                end) m ds.

Definition waiting_session vip hs (t : Z) (q : list gslice) : NoiseSession :=
  mkSession vip NewChaCha (Some hs) true t q false.

Lemma queue_all_spec vip hs t q ds m :
  GetSession m vip = Some (waiting_session vip hs t q) → (length q + length ds <= pendingCap)%nat →
  queue_all vip ds m = SetSession vip (waiting_session vip hs t (q ++ ds)) m.
Proof.
  revert q m. induction ds as [|d ds IH]; intros q m Hg Hl.
  - simpl. rewrite app_nil_r. unfold SetSession, set_sessions. destruct m; simpl in *.
    f_equal. symmetry. by apply insert_id.
  - change (queue_all vip (d :: ds) m) with (queue_all vip ds
      (match GetSession m vip with Some s => SetSession vip (AddPendingData d s) m | None => m end)).
    rewrite Hg.
    assert (AddPendingData d (waiting_session vip hs t q) = waiting_session vip hs t (q ++ [d])) as ->.
    { unfold AddPendingData, pendingSend. simpl. rewrite bool_decide_eq_true_2; [done|]. simpl in Hl. lia. }
    rewrite (IH (q ++ [d])).
    + unfold SetSession, set_sessions. simpl. rewrite insert_insert_eq, <- app_assoc. done.
    + apply lookup_insert_eq.
    + rewrite length_app. simpl in *. lia.
Qed.

(** The initiator on receipt of the response. *)
Lemma finish_handshake now vip hs t q data p k hs' m :
  GetSession m vip = Some (waiting_session vip hs t q) → len data = 48 →
  ReadMessage hs data = (Some (p, Some k), hs') →
  ∃ m', HandleNoisePacket now vip data m = (NRet None None, m') ∧
    GetSession m' vip = Some (ready_session vip k true true t) ∧ tunChan m' = tunChan m ++ q.
Proof.
  intros Hg Hl Hr. unfold HandleNoisePacket. rewrite Hg, Hl. simpl. rewrite Hr. destruct k as [k1 k2].
  eexists. split; [done|]. split; [|done]. apply lookup_insert_eq.
Qed.

(** Static keys belong together. *)
Definition own_keys m : Prop := staticPub m = noise_public (staticPriv m).

(** A whole IK run between the configurations two managers draw. *)
Lemma ik_run_managers mA mB :
  own_keys mA → own_keys mB →
  ∃ w1 hi p hr w2 k hr' p' hi',
    WriteMessage (NewHandshakeState (fst (draw true (staticPub mB) mA))) [] = (Some (w1, None), hi) ∧
    len w1 = 96 ∧ ReadMessage (NewHandshakeState (fst (draw false [] mB))) w1 = (Some (p, None), hr) ∧
    WriteMessage hr [] = (Some (w2, Some k), hr') ∧ len w2 = 48 ∧
    ReadMessage hi w2 = (Some (p', Some k), hi').
Proof. intros HA HB. apply ik_run; done. Qed.

(** A whole exchange between two managers, with the messages and the sessions. *)
Lemma handshake_exchange mA mB vA vB t1 t2 t3 pl ds :
  own_keys mA → own_keys mB → GetSession mB vA = None → (length ds < pendingCap)%nat →
  ∃ w1 mA1 sB w2 mB1 sA mA2,
    HandshakeInit t1 vB (staticPub mB) pl mA = (Some w1, mA1) ∧ len w1 = 96 ∧ len w2 = 48 ∧
    HandleNoisePacket t2 vA w1 mB = (NRet (Some sB) (Some w2), mB1) ∧ GetSession mB1 vA = Some sB ∧
    HandleNoisePacket t3 vB w2 (queue_all vB ds mA1) = (NRet None None, mA2) ∧
    GetSession mA2 vB = Some sA ∧ keys_agree sA sB ∧ tunChan mA2 = tunChan mA ++ pl :: ds.
Proof.
  intros HA HB Hn Hds.
  destruct (ik_run_managers mA mB HA HB) as (w1 & hi & p & hr & w2 & k & hr' & p' & hi' & Hw & Hl1 & Hr & Hw2 & Hl2 & Hf).
  destruct (HandshakeInit_spec t1 vB (staticPub mB) pl mA) as (hs & _ & Hhs & Heq).
  rewrite Hw in Hhs, Heq. simpl in Hhs, Heq. simplify_eq.
  pose proof (handleResponderFirst_spec t2 vA w1 mB) as HR. cbn zeta in HR. rewrite Hr in HR.
  destruct HR as (msg & k' & h' & mB1 & Hw2' & HB1 & HsB & _). rewrite Hw2 in Hw2'. simplify_eq.
  match type of Heq with _ = (_, ?m) => set (mA1 := m) in * end.
  assert (GetSession mA1 vB = Some (waiting_session vB hs t1 [pl])) as HgA by apply lookup_insert_eq.
  pose proof (queue_all_spec _ _ _ _ ds _ HgA ltac:(simpl; lia)) as Hq.
  destruct (finish_handshake t3 vB hs t1 ([pl] ++ ds) msg p' k' hi'
    (SetSession vB (waiting_session vB hs t1 ([pl] ++ ds)) mA1)) as (mA2 & Hfin & HgA2 & Htun);
    [apply lookup_insert_eq|done|done|].
  exists w1, mA1, (ready_session vA k' false false t2), msg, mB1, (ready_session vB k' true true t1), mA2.
  rewrite Hq. split_and!; [done|done|done| | |done|done|apply ready_sessions_agree|done].
  - unfold HandleNoisePacket. by rewrite Hn.
  - unfold GetSession. rewrite HsB. apply lookup_insert_eq.
Qed.

(** C10: a handshake between two managers ends with agreeing keys.  The
    initiator sends the message of [HandshakeInit], the responder answers it
    at once with a completed session, and the initiator completes on the
    answer: what either end seals the other opens.  Every packet queued while
    the handshake was under way, up to the capacity of the queue, is handed
    back to the send queue, in order. *)
Theorem handshake_agreement mA mB vA vB t1 t2 t3 pl ds w1 mA1 :
  own_keys mA → own_keys mB → GetSession mB vA = None → (length ds < pendingCap)%nat →
  HandshakeInit t1 vB (staticPub mB) pl mA = (Some w1, mA1) →
  ∃ sB w2 mB1 sA mA2,
    HandleNoisePacket t2 vA w1 mB = (NRet (Some sB) (Some w2), mB1) ∧ GetSession mB1 vA = Some sB ∧
    HandleNoisePacket t3 vB w2 (queue_all vB ds mA1) = (NRet None None, mA2) ∧
    GetSession mA2 vB = Some sA ∧ keys_agree sA sB ∧ tunChan mA2 = tunChan mA ++ pl :: ds.
Proof.
  intros HA HB Hn Hds Hi.
  destruct (handshake_exchange mA mB vA vB t1 t2 t3 pl ds HA HB Hn Hds)
    as (w1' & mA1' & sB & w2 & mB1 & sA & mA2 & Hi' & _ & _ & H1' & H2' & H3' & H4' & H5' & H6').
  rewrite Hi in Hi'. injection Hi' as <- <-. exists sB, w2, mB1, sA, mA2. by split_and!.
Qed.

(** C39: the window between the test and the send of [AddPendingData].  A sending
    worker that found the queue of a session open is still to send when the
    answer of the peer completes the handshake: the queue is now closed, and
    whatever the worker sends stops the client with a panic.  A test made now
    would have kept the packet out. *)
Theorem late_packet_panics now vip data m s m' :
  GetSession m vip = Some s → pendingClosed s = false →
  HandleNoisePacket now vip data m = (NRet None None, m') →
  ∃ s', GetSession m' vip = Some s' ∧ IsReady (s_cipher s') = true ∧ tunChan m' = tunChan m ++ pendingChan s ∧
    ∀ d, is_Some (pendingSend d s) ∧ pendingSend d s' = None ∧ AddPendingData d s' = s'.
Proof.
  intros Hg Hc Hh. unfold HandleNoisePacket, SendAllPendingData in Hh. rewrite Hg in Hh.
  assert (∀ r m0, handleResponderFirst now vip data m = (r, m0) → r ≠ NRet None None) as Hresp.
  { intros r m0 Hr ->. unfold handleResponderFirst in Hr. repeat (case_match; simplify_eq). }
  repeat (case_match; simplify_eq); try by destruct (Hresp _ _ Hh).
  unfold GetSession. simpl. rewrite lookup_insert_eq. eexists. split_and!; [done..|].
  intros d. unfold pendingSend, AddPendingData. rewrite Hc. simpl. case_bool_decide; eauto.
Qed.

(** C30: crossing handshakes resolve.  When two managers with different
    addresses have both initiated, the one with the smaller address refuses
    the other's message and keeps waiting, the one with the larger address
    turns responder; the answer completes the first, and the keys agree.  The
    packet that waited at the smaller address is delivered. *)
Theorem handshake_collision mA mB vA vB t1 t2 t3 t4 plA plB mA1 mB1 wA wB :
  own_keys mA → own_keys mB → myVip mA = vA → myVip mB = vB →
  bytes_compare (ip4_bytes vA) (ip4_bytes vB) = Lt →
  HandshakeInit t1 vB (staticPub mB) plA mA = (Some wA, mA1) →
  HandshakeInit t2 vA (staticPub mA) plB mB = (Some wB, mB1) → 64 <= len wB →
  HandleNoisePacket t3 vB wB mA1 = (NErr ErrNoiseCollision, mA1) ∧
  ∃ sB w2 mB2 sA mA2,
    HandleNoisePacket t3 vA wA mB1 = (NRet (Some sB) (Some w2), mB2) ∧ GetSession mB2 vA = Some sB ∧
    HandleNoisePacket t4 vB w2 mA1 = (NRet None None, mA2) ∧ GetSession mA2 vB = Some sA ∧
    keys_agree sA sB ∧ tunChan mA2 = tunChan mA ++ [plA].
Proof.
  intros HA HB HvA HvB Hlt HiA HiB HwB.
  destruct (HandshakeInit_spec t1 vB (staticPub mB) plA mA) as (hA & _ & HhA & HeqA).
  destruct (HandshakeInit_spec t2 vA (staticPub mA) plB mB) as (hB & _ & _ & HeqB).
  assert (staticPub mB1 = staticPub mB ∧ own_keys mB1 ∧ myVip mB1 = vB ∧
    GetSession mB1 vA = Some (waiting_session vA hB t2 [plB])) as (HpB & HB1 & HvB1 & HgB).
  { rewrite HeqB in HiB. simplify_eq. split_and!; try done. apply lookup_insert_eq. }
  destruct (ik_run_managers mA mB1 HA HB1) as (x1 & hi & p & hr & w2 & k & hr' & p' & hi' & Hw & Hl1 & Hr & Hw2 & Hl2 & Hf).
  rewrite HpB in Hw. rewrite Hw in HhA, HeqA. simpl in HhA, HeqA. rewrite HeqA in HiA. simplify_eq.
  set (mA1 := SetSession (myVip mB) _ _) in *.
  assert (GetSession mA1 (myVip mB) = Some (waiting_session (myVip mB) hA t1 [plA])) as HgA
    by apply lookup_insert_eq.
  split.
  { unfold HandleNoisePacket. rewrite HgA. simpl. rewrite (proj2 (Z.leb_le 64 (len wB))) by done.
    by rewrite Hlt. }
  pose proof (handleResponderFirst_spec t3 (myVip mA) wA mB1) as HR. cbn zeta in HR. rewrite Hr in HR.
  destruct HR as (msg & k' & h' & mB2 & Hw2' & HB2 & HsB & _). rewrite Hw2 in Hw2'. simplify_eq.
  destruct (finish_handshake t4 (myVip mB) hA t1 [plA] msg p' k' hi' mA1 HgA Hl2 Hf) as (mA2 & Hfin & HgA2 & Htun).
  exists (ready_session (myVip mA) k' false false t3), msg, mB2, (ready_session (myVip mB) k' true true t1), mA2.
  split_and!; [| |done|done|apply ready_sessions_agree|done].
  - unfold HandleNoisePacket. rewrite HgB. simpl. rewrite Hl1. simpl.
    rewrite HvB1, bytes_compare_antisym, Hlt. done.
  - unfold GetSession. rewrite HsB. apply lookup_insert_eq.
Qed.

(** The manager that turns responder in a collision forgets what it had
    queued.  The packets waiting in the session it gives up reach neither the
    send queue nor the session that replaces it. *)
Theorem collision_drops_pending now vip data m s r m' resp sB :
  GetSession m vip = Some s → HandleNoisePacket now vip data m = (r, m') →
  r = NRet (Some sB) (Some resp) →
  tunChan m' = tunChan m ∧ GetSession m' vip = Some sB ∧ pendingChan sB = [].
Proof.
  intros Hg Hh ->. unfold HandleNoisePacket in Hh. rewrite Hg in Hh.
  destruct (IsReady _); [done|]. destruct (isInitiator s && _)%bool; last first.
  { destruct (isInitiator s); [|done]. destruct (s_hs s); [|done].
    destruct (ReadMessage _ _) as [[[? [[? ?]|]]|] ?]; done. }
  destruct (bytes_compare _ _); [done|done|].
  pose proof (handleResponderFirst_spec now vip data m) as HR. cbn zeta in HR.
  destruct (ReadMessage _ data) as [[[p ks]|] hs].
  - destruct HR as (msg & [k1 k2] & h' & mr & _ & HR & Hs & Ht & _). rewrite HR in Hh. simplify_eq.
    split_and!; try done. unfold GetSession. rewrite Hs. apply lookup_insert_eq.
  - destruct HR as (mr & HR & _). rewrite HR in Hh. done.
Qed.

(** The sweep drops exactly the sessions not seen for more than ten
    seconds, and a session just used for sending or receiving survives it. *)
Theorem sweep_exact now m vip s :
  GetSession m vip = Some s →
  GetSession (CheckSession_tick now m) vip = (if 10 <? now - lastSeen s then None else Some s) ∧
  GetSession (CheckSession_tick now (SetSession vip (session_UpdateLastSeen now s) m)) vip =
    Some (session_UpdateLastSeen now s).
Proof.
  intros Hg. unfold GetSession, CheckSession_tick, sweepSessions, set_sessions in *. cbn [sessions] in *.
  split.
  - destruct (10 <? now - lastSeen s) eqn:E.
    + apply map_lookup_filter_None. right. intros s' Hs'. simplify_eq. unfold isTimeout. simpl.
      by rewrite E.
    + apply map_lookup_filter_Some. done.
  - apply map_lookup_filter_Some. split; [apply lookup_insert_eq|]. unfold isTimeout. simpl.
    apply Z.ltb_ge. lia.
Qed.
End facts.

(** * A concrete handshake library

    Messages carry the two ephemeral draws and a digest of the responder's
    static key; a response to another run is refused. *)

Record toyState := mkToy { toy_cfg : noiseConfig; toy_stage : nat; toy_remote : Z }.

Definition toy_keys (a b : Z) : bytes * bytes := ([1; a; b], [2; a; b]).

Definition toy_write (h : toyState) (pl : bytes)
    : option (bytes * option (bytes * bytes)) * toyState :=
  let '(mkToy cfg st r) := h in
  match cfg_initiator cfg, st with
  | true, 0%nat =>
      (Some (replicate 93 0 ++ [cfg_random cfg; toy_sum (cfg_public cfg); toy_sum (cfg_peer cfg)], None),
       mkToy cfg 1 0)
  | false, 1%nat =>
      (Some (replicate 46 0 ++ [r; cfg_random cfg], Some (toy_keys r (cfg_random cfg))), mkToy cfg 2 r)
  | _, _ => (None, h)
  end.

Definition toy_read (h : toyState) (d : bytes)
    : option (bytes * option (bytes * bytes)) * toyState :=
  let '(mkToy cfg st r) := h in
  match cfg_initiator cfg, st with
  | false, 0%nat =>
      if bool_decide (length d = 96%nat ∧ d !! 95%nat = Some (toy_sum (cfg_public cfg)))
      then (Some ([], None), mkToy cfg 1 (default 0 (d !! 93%nat))) else (None, h)
  | true, 1%nat =>
      if bool_decide (length d = 48%nat ∧ d !! 46%nat = Some (cfg_random cfg))
      then (Some ([], Some (toy_keys (cfg_random cfg) (default 0 (d !! 47%nat)))), mkToy cfg 2 0)
      else (None, h)
  | _, _ => (None, h)
  end.

#[export] Instance toy_noise : Noise := {
  HandshakeState := toyState;
  NewHandshakeState cfg := mkToy cfg 0 0;
  WriteMessage := toy_write;
  ReadMessage := toy_read;
  noise_public priv := 9 :: priv;
  noise_waiting h := cfg_initiator (toy_cfg h) = true ∧ toy_stage h = 1%nat;
}.

#[export] Instance toy_noise_laws : NoiseLaws.
Proof.
  split; simpl.
  - intros cfg pl Hi. rewrite Hi. by split.
  - intros [cfg st r] d h' [Hi Hs]. simpl in *. rewrite Hi. subst st.
    case_bool_decide; intros; simplify_eq; done.
  - intros [cfg st r] d p ks h' [Hi Hs]. simpl in *. rewrite Hi. subst st.
    case_bool_decide; intros; simplify_eq; eauto.
  - intros cfg d p ks h pl Hi. rewrite Hi. case_bool_decide; intros; simplify_eq. simpl.
    rewrite Hi. eauto.
  - intros ci cr Hi Hr Hp _ _. rewrite Hi, Hr.
    exists (replicate 93 0 ++ [cfg_random ci; toy_sum (cfg_public ci); toy_sum (cfg_peer ci)]),
      (mkToy ci 1 0), [], (mkToy cr 1 (cfg_random ci)),
      (replicate 46 0 ++ [cfg_random ci; cfg_random cr]), (toy_keys (cfg_random ci) (cfg_random cr)),
      (mkToy cr 2 (cfg_random ci)), [], (mkToy ci 2 0).
    unfold toy_read, toy_write. rewrite Hi, Hr. split_and!; try done.
    + rewrite bool_decide_eq_true_2; [done|]. split; [done|]. simpl. by rewrite Hp.
    + rewrite bool_decide_eq_true_2; done.
Qed.

(** * Witnesses: two clients, 10.0.6.2 and 10.0.6.3 *)

Definition ex_A : NoiseManager := SetVirtualIp (10, 0, 6, 2) (NewNoiseManager [1] 100).
Definition ex_B : NoiseManager := SetVirtualIp (10, 0, 6, 3) (NewNoiseManager [2] 200).
Definition ex_initA : option bytes * NoiseManager :=
  HandshakeInit 5 (10, 0, 6, 3) (staticPub ex_B) (Slice 1 [42] []) ex_A.
Definition ex_initB : option bytes * NoiseManager :=
  HandshakeInit 5 (10, 0, 6, 2) (staticPub ex_A) (Slice 2 [43] []) ex_B.

Lemma noise_sessions_safe_witness :
  fst (HandleNoisePacket 6 (10, 0, 6, 3) [1; 2; 3] (snd ex_initA)) ≠ NPanic.
Proof.
  destruct (noise_sessions_safe [1] 100 (snd ex_initA) 6 (10, 0, 6, 3) [1; 2; 3]
    (fst (HandleNoisePacket 6 (10, 0, 6, 3) [1; 2; 3] (snd ex_initA)))
    (snd (HandleNoisePacket 6 (10, 0, 6, 3) [1; 2; 3] (snd ex_initA)))) as (_ & Hp & _).
  - eapply rtc_l; [apply (step_set_vip (10, 0, 6, 2))|]. apply rtc_once.
    apply (step_init 5 (10, 0, 6, 3) (staticPub ex_B) (Slice 1 [42] []) (fst ex_initA)). reflexivity.
  - apply surjective_pairing.
  - exact Hp.
Defined.

Lemma handshake_agreement_witness :
  ∃ sB w2 mB1 sA mA2,
    HandleNoisePacket 6 (10, 0, 6, 2) (default [] (fst ex_initA)) ex_B = (NRet (Some sB) (Some w2), mB1) ∧
    GetSession mA2 (10, 0, 6, 3) = Some sA ∧ keys_agree sA sB ∧
    tunChan mA2 = [Slice 1 [42] []; Slice 3 [44] []].
Proof.
  destruct (handshake_agreement ex_A ex_B (10, 0, 6, 2) (10, 0, 6, 3) 5 6 7 (Slice 1 [42] [])
    [Slice 3 [44] []] (default [] (fst ex_initA)) (snd ex_initA))
    as (sB & w2 & mB1 & sA & mA2 & H1 & _ & _ & H4 & H5 & H6);
    [reflexivity | reflexivity | reflexivity | unfold pendingCap; simpl; lia | reflexivity |].
  exists sB, w2, mB1, sA, mA2. split; [exact H1|]. split; [exact H4|]. split; [exact H5 | exact H6].
Defined.

(** A worker tests the queue of the first client's session; then the answer of the
    second arrives. *)
Lemma late_packet_panics_witness :
  (∀ s, GetSession (snd ex_initA) (10, 0, 6, 3) = Some s → pendingClosed s = false) ∧
  ∃ answer m' s', HandleNoisePacket 7 (10, 0, 6, 3) answer (snd ex_initA) = (NRet None None, m') ∧
    GetSession m' (10, 0, 6, 3) = Some s' ∧ pendingSend (Slice 4 [45] []) s' = None.
Proof.
  split; [intros s [= <-]; reflexivity|].
  set (answer := match fst (HandleNoisePacket 6 (10, 0, 6, 2) (default [] (fst ex_initA)) ex_B) with
    NRet _ (Some w) => w | _ => [] end).
  exists answer, (snd (HandleNoisePacket 7 (10, 0, 6, 3) answer (snd ex_initA))).
  destruct (late_packet_panics 7 (10, 0, 6, 3) answer (snd ex_initA)
    (default (NewNoiseSession 0 ip4_zero false None) (GetSession (snd ex_initA) (10, 0, 6, 3)))
    (snd (HandleNoisePacket 7 (10, 0, 6, 3) answer (snd ex_initA)))) as (s' & Hs & _ & _ & Hp); [reflexivity..|].
  exists s'. split; [reflexivity|]. split; [exact Hs|]. apply Hp.
Defined.

Lemma handshake_collision_witness :
  HandleNoisePacket 6 (10, 0, 6, 3) (default [] (fst ex_initB)) (snd ex_initA) =
    (NErr ErrNoiseCollision, snd ex_initA).
Proof.
  destruct (handshake_collision ex_A ex_B (10, 0, 6, 2) (10, 0, 6, 3) 5 5 6 7 (Slice 1 [42] [])
    (Slice 2 [43] []) (snd ex_initA) (snd ex_initB) (default [] (fst ex_initA)) (default [] (fst ex_initB)))
    as [Hc _];
    [reflexivity | reflexivity | reflexivity | reflexivity | reflexivity | reflexivity | reflexivity |
     vm_compute; discriminate |].
  exact Hc.
Defined.

Definition ex_yield : noiseResult * NoiseManager :=
  HandleNoisePacket 6 (10, 0, 6, 2) (default [] (fst ex_initA)) (snd ex_initB).

(** What [fst ex_yield] returned, taken apart. *)
Definition ex_new : NoiseSession * bytes :=
  match fst ex_yield with NRet (Some s) (Some w) => (s, w) | _ => (NewNoiseSession 0 ip4_zero false None, []) end.
Definition ex_old : NoiseSession :=
  default (NewNoiseSession 0 ip4_zero false None) (GetSession (snd ex_initB) (10, 0, 6, 2)).

Lemma collision_drops_pending_witness :
  pendingChan ex_old = [Slice 2 [43] []] ∧ tunChan (snd ex_yield) = tunChan (snd ex_initB).
Proof.
  split; [vm_compute; reflexivity|].
  destruct (collision_drops_pending 6 (10, 0, 6, 2) (default [] (fst ex_initA)) (snd ex_initB)
    ex_old (fst ex_yield) (snd ex_yield) (snd ex_new) (fst ex_new)) as [Ht _];
    [reflexivity | exact (surjective_pairing ex_yield) | reflexivity | exact Ht].
Defined.

Lemma sweep_exact_witness :
  GetSession (CheckSession_tick 16 (snd ex_initA)) (10, 0, 6, 3) = None.
Proof.
  refine (eq_trans (proj1 (sweep_exact 16 (snd ex_initA) (10, 0, 6, 3) _ _)) _); reflexivity.
Defined.
