(* ===== verification/Hub.v ===== *)
(** The server's control plane: [internal/transport/server.go] (types),
    [server_hub.go], [server_ws.go], [server_p2p.go] and the DNS table of
    [server_dns.go].

    A [Client] of the source is a heap object: the model names it by a number
    and keeps the objects in [hub_clients], so that the routing table holds
    references and an update of a client is seen through the table.  Atomic
    snapshots are the current value of the field; every method that runs under
    one mutex is one definition.  Channels are bounded lists. *)

From stdpp Require Import base numbers list gmap tactics.
From S2P Require Import Prelude Cipher Packet Stun Util.

Local Open Scope Z_scope.

(** ** Data

    The source also allocates [Client.packetChan] and [Hub.controlChan], which
    nothing sends to or receives from; they have no field here. *)

Record Client := mkClient {
  natType : Z;
  controlChan : list GamePacket;        (** capacity 16 *)
  dataAddr : option addrPort;           (** [None]: the zero [netip.AddrPort] *)
  virtualIp : option ip4;               (** [None]: nil *)
  hostname : bytes;
  noisePublicKey : bytes;
  clientID : bytes;
}.

Record packet := mkPacket { pkt_data : gslice; pkt_broadcast : bool; pkt_dstAddr : option addrPort }.

Record transferPacket := mkTransfer { tp_gp : GamePacket; tp_srcAddr : option addrPort }.

Record offlineClient := mkOffline { oc_virtualIp : ip4; oc_hostname : bytes; oc_expiry : Z }.

(** The registered handlers of WebSocket messages. *)
Inductive WSHandler : Type :=
  | HHandshake | HNoiseHandshake | HP2PEstablished | HP2PClosed.

Record Hub := mkHub {
  hub_clients : gmap nat Client;        (** the client objects, by reference *)
  clientMap : gmap ip4 nat;             (** router snapshot *)
  clientSlice : list nat;
  hub_tm : TunnelManager;
  dnsMap : gmap bytes ip4;
  freeIps : list Z;                     (** stack, top at the end *)
  retentionMap : gmap bytes offlineClient;
  transferChan : list transferPacket;   (** capacity 128 *)
  packetChan : list packet;             (** capacity 128 *)
  p2pTaskChan : list P2PTask;           (** capacity 32 *)
  bufPool : pool;
  wsHandlers : gmap Z WSHandler;
}.

Definition controlCap : nat := 16.
Definition transferCap : nat := 128.
Definition packetCap : nat := 128.
Definition p2pTaskCap : nat := 32.

(** Field updates. *)
Definition set_clients f (h : Hub) : Hub :=
  mkHub (f (hub_clients h)) (clientMap h) (clientSlice h) (hub_tm h) (dnsMap h) (freeIps h)
    (retentionMap h) (transferChan h) (packetChan h) (p2pTaskChan h) (bufPool h) (wsHandlers h).
Definition set_router m l (h : Hub) : Hub :=
  mkHub (hub_clients h) m l (hub_tm h) (dnsMap h) (freeIps h)
    (retentionMap h) (transferChan h) (packetChan h) (p2pTaskChan h) (bufPool h) (wsHandlers h).
Definition set_tm f (h : Hub) : Hub :=
  mkHub (hub_clients h) (clientMap h) (clientSlice h) (f (hub_tm h)) (dnsMap h) (freeIps h)
    (retentionMap h) (transferChan h) (packetChan h) (p2pTaskChan h) (bufPool h) (wsHandlers h).
Definition set_dns f (h : Hub) : Hub :=
  mkHub (hub_clients h) (clientMap h) (clientSlice h) (hub_tm h) (f (dnsMap h)) (freeIps h)
    (retentionMap h) (transferChan h) (packetChan h) (p2pTaskChan h) (bufPool h) (wsHandlers h).
Definition set_free l (h : Hub) : Hub :=
  mkHub (hub_clients h) (clientMap h) (clientSlice h) (hub_tm h) (dnsMap h) l
    (retentionMap h) (transferChan h) (packetChan h) (p2pTaskChan h) (bufPool h) (wsHandlers h).
Definition set_retention f (h : Hub) : Hub :=
  mkHub (hub_clients h) (clientMap h) (clientSlice h) (hub_tm h) (dnsMap h) (freeIps h)
    (f (retentionMap h)) (transferChan h) (packetChan h) (p2pTaskChan h) (bufPool h) (wsHandlers h).
Definition set_transfer l (h : Hub) : Hub :=
  mkHub (hub_clients h) (clientMap h) (clientSlice h) (hub_tm h) (dnsMap h) (freeIps h)
    (retentionMap h) l (packetChan h) (p2pTaskChan h) (bufPool h) (wsHandlers h).
Definition set_packets l (h : Hub) : Hub :=
  mkHub (hub_clients h) (clientMap h) (clientSlice h) (hub_tm h) (dnsMap h) (freeIps h)
    (retentionMap h) (transferChan h) l (p2pTaskChan h) (bufPool h) (wsHandlers h).
Definition set_tasks l (h : Hub) : Hub :=
  mkHub (hub_clients h) (clientMap h) (clientSlice h) (hub_tm h) (dnsMap h) (freeIps h)
    (retentionMap h) (transferChan h) (packetChan h) l (bufPool h) (wsHandlers h).
Definition set_pool p (h : Hub) : Hub :=
  mkHub (hub_clients h) (clientMap h) (clientSlice h) (hub_tm h) (dnsMap h) (freeIps h)
    (retentionMap h) (transferChan h) (packetChan h) (p2pTaskChan h) p (wsHandlers h).

Definition set_controlChan l (c : Client) : Client :=
  mkClient (natType c) l (dataAddr c) (virtualIp c) (hostname c) (noisePublicKey c) (clientID c).
Definition set_dataAddr a (c : Client) : Client :=
  mkClient (natType c) (controlChan c) a (virtualIp c) (hostname c) (noisePublicKey c) (clientID c).
Definition set_identity nat_type pub cid (c : Client) : Client :=
  mkClient nat_type (controlChan c) (dataAddr c) (virtualIp c) (hostname c) pub cid.
Definition set_place vip name (c : Client) : Client :=
  mkClient (natType c) (controlChan c) (dataAddr c) vip name (noisePublicKey c) (clientID c).

(** [IpToKey(c.virtualIp)]: a nil address gives the zero key. *)
Definition vipKey (c : Client) : ip4 := default ip4_zero (virtualIp c).

(** The virtual network 10.0.6.0/24. *)
Definition SubnetIP : ip4 := (10, 0, 6, 1).
Definition vip_of (x : Z) : ip4 := let '(a, b, c, _) := SubnetIP in (a, b, c, x).

(** ** server_hub.go *)

(** [for i := 254; i >= 2; i--] *)
Definition initialFree : list Z := (λ i, 254 - Z.of_nat i) <$> seq 0 253.

Definition RegisterWSHandler (pType : Z) (handler : WSHandler) (m : gmap Z WSHandler) : gmap Z WSHandler :=
  <[pType := handler]> m.

Definition registerDefaultWSHandlers (m : gmap Z WSHandler) : gmap Z WSHandler :=
  RegisterWSHandler TypeP2PClosed HP2PClosed
    (RegisterWSHandler TypeP2PEstablished HP2PEstablished
      (RegisterWSHandler TypeNoiseHandshake HNoiseHandshake
        (RegisterWSHandler TypeHandshake HHandshake m))).

Definition NewHub : Hub :=
  mkHub ∅ ∅ [] NewTunnelManager ∅ initialFree ∅ [] [] [] (Pool [] 1 2048)
    (registerDefaultWSHandlers ∅).

(** The new slice holds the clients of the old map, in map order, and the new
    client. *)
Definition addClient (c : nat) (h : Hub) : Hub :=
  match hub_clients h !! c with
  | None => h
  | Some client =>
      set_router (<[vipKey client := c]> (clientMap h))
        ((map_to_list (clientMap h)).*2 ++ [c]) h
  end.

Definition removeClient (c : nat) (h : Hub) : Hub :=
  match hub_clients h !! c with
  | None => h
  | Some client =>
      let vIp := vipKey client in
      match clientMap h !! vIp with
      | None => h
      | Some _ =>
          let newMap := delete vIp (clientMap h) in
          set_tm (RemoveA vIp) (set_router newMap (map_to_list newMap).*2 h)
      end
  end.

Definition getIp (h : Hub) : option ip4 * Hub :=
  let n := length (freeIps h) in
  match freeIps h !! (n - 1)%nat with
  | None => (None, h)
  | Some x => (Some (vip_of x), set_free (take (n - 1) (freeIps h)) h)
  end.

Definition releaseIp (ip : ip4) (h : Hub) : Hub :=
  let '(_, _, _, x) := ip in set_free (freeIps h ++ [x]) h.

(** ** server_dns.go: the table *)

Definition addDns (name : bytes) (ip : ip4) (h : Hub) : Hub := set_dns (insert name ip) h.

Definition removeDns (name : bytes) (h : Hub) : Hub := set_dns (delete name) h.

(** [strings.Replace(s, old, "", 1)] *)
Fixpoint replace_once (old s : bytes) : bytes :=
  if bool_decide (take (length old) s = old) then drop (length old) s
  else match s with
       | [] => []
       | b :: r => b :: replace_once old r
       end.

Definition getDns (name domain : bytes) (h : Hub) : option ip4 :=
  dnsMap h !! replace_once (domain ++ [46]) name.

(** One round of [cleanRetention]: the expired entries, in map order. *)
Definition expire (e : bytes * offlineClient) (h : Hub) : Hub :=
  set_retention (delete e.1) (removeDns (oc_hostname e.2) (releaseIp (oc_virtualIp e.2) h)).

Definition cleanRetention_tick (now : Z) (h : Hub) : Hub :=
  foldr expire h (map_to_list (filter (λ e, oc_expiry e.2 < now) (retentionMap h))).
