(* ===== verification/HubWs.v ===== *)
(** The server's WebSocket side and its P2P scheduler:
    [internal/transport/server_ws.go], [server_p2p.go] and the dispatcher of
    [server_hub.go].

    Every handler is one definition over the hub; where a handler takes locks,
    each critical section is a definition of its own, so that interleavings of
    several connections can be stated.  A Go panic, which ends the server
    process, is [None]. *)

From stdpp Require Import base numbers list gmap option tactics.
From S2P Require Import Prelude Cipher Packet Stun Util Hub.

Local Open Scope Z_scope.

(** ** Sending on a client's control channel *)

(** The branch a [select] with a send, [ctx.Done()] and [default] takes. *)
Inductive selected : Type := Sent | CtxDone | Default.

(** [select { case c.controlChan <- gp: default: }] *)
Definition sendControl (c : nat) (gp : GamePacket) (h : Hub) : bool * Hub :=
  match hub_clients h !! c with
  | None => (false, h)
  | Some client =>
      if bool_decide (length (controlChan client) < controlCap)%nat then
        (true, set_clients (insert c (set_controlChan (controlChan client ++ [gp]) client)) h)
      else (false, h)
  end.

(** The same with a [ctx.Done()] case: [done] says that this case was taken. *)
Definition selectSend (done : bool) (c : nat) (gp : GamePacket) (h : Hub) : selected * Hub :=
  if done then (CtxDone, h)
  else let '(ok, h) := sendControl c gp h in (if ok : bool then Sent else Default, h).

(** ** Memory *)

(** A new slice that holds [b]. *)
Definition alloc (b : bytes) (p : pool) : gslice * pool :=
  (Slice (pfresh p) b [], Pool (pfree p) (S (pfresh p)) (pnew p)).

Definition hub_alloc (b : bytes) (h : Hub) : gslice * Hub :=
  let '(s, p) := alloc b (bufPool h) in (s, set_pool p h).

(** [append(s, b...)]: in place within the capacity, else in a new array (the
    spare capacity the runtime adds is not used by the code). *)
Definition append (s : gslice) (b : bytes) (p : pool) : gslice * pool :=
  if slen s + len b <=? scap s then
    (Slice (sid s) (sdata s ++ b) (drop (length b) (stail s)), p)
  else alloc (sdata s ++ b) p.

(** ** Connections *)

Definition newClient (c : nat) (dataAddr : option addrPort) (virtualIp : option ip4) (h : Hub) : Hub :=
  set_clients (insert c (mkClient 0 [] dataAddr virtualIp [] (replicate 32 0) (replicate 16 0))) h.

(** ** handleHandshake *)

(** The fields copied from the request before the lock. *)
Definition setIdentity (c : nat) (payload : bytes) (h : Hub) : Hub :=
  set_clients (alter (set_identity (default 0 (payload !! 0%nat)) (sub payload 1 33) (sub payload 33 49)) c) h.

(** The section under [retentionMtx]: take back a retained place, or a new
    address and a host name not in [snapshot]. *)
Definition assignPlace (c : nat) (name : bytes) (snapshot : gmap bytes ip4) (h : Hub) : Hub :=
  match hub_clients h !! c with
  | None => h
  | Some client =>
      match retentionMap h !! clientID client with
      | Some oc =>
          set_retention (delete (clientID client))
            (set_clients (insert c (set_place (Some (oc_virtualIp oc)) (oc_hostname oc) client)) h)
      | None =>
          let '(ip, h) := getIp h in
          set_clients (insert c (set_place ip (default [] (UniqueHostName name snapshot)) client)) h
      end
  end.

(** The reply with the assigned address and name. *)
Definition handshakeReply (done : bool) (c : nat) (client : Client) (h : Hub) : Hub :=
  let '(payload, h) := hub_alloc (hostname client) h in
  snd (selectSend done c (NewGamePacket ip4_zero (vipKey client) TypeHandshake payload) h).

(** The whole handler with nothing in between; its sections, which other
    goroutines can separate, are the definitions it calls ([Interleave],
    [ServerRun]). *)
Definition handleHandshake (done : bool) (c : nat) (gp : GamePacket) (h : Hub) : option error * Hub :=
  let payload := sdata (Payload gp) in
  if len payload <? 49 then (Some PacketTooShort, h)
  else
    let snapshot := dnsMap h in
    let h := setIdentity c payload h in
    let h := assignPlace c (drop 49 payload) snapshot h in
    match hub_clients h !! c with
    | None => (None, h)
    | Some client =>
        match virtualIp client with
        | None => (Some ErrNoVirtualIp, h)
        | Some ip =>
            let h := addClient c h in
            let h := addDns (hostname client) ip h in
            (None, handshakeReply done c client h)
        end
    end.

(** ** The other handlers *)

Definition handleNoiseHandshake (done : bool) (c : nat) (gp : GamePacket) (h : Hub) : option error * Hub :=
  match clientMap h !! Destination gp, hub_clients h !! c with
  | Some d, Some client =>
      match hub_clients h !! d with
      | None => (None, h)
      | Some dstC =>
          let '(pendingBuffer, p) := Get (bufPool h) in
          let pendingBuffer := reslice 0 pendingBuffer in
          let '(pendingBuffer, p) := append pendingBuffer (noisePublicKey dstC) p in
          let '(pendingBuffer, p) := append pendingBuffer (sdata (Payload gp)) p in
          let newGp := NewGamePacket (Destination gp) (vipKey client) TypeNoiseResponse pendingBuffer in
          let '(r, h) := selectSend done c newGp (set_pool p h) in
          match r with
          | Default => (None, set_pool (Put (reslice 0 pendingBuffer) (bufPool h)) h)
          | _ => (None, h)
          end
      end
  | _, _ => (None, h)
  end.

Definition handleP2PEstablished (c : nat) (gp : GamePacket) (h : Hub) : option error * Hub :=
  match hub_clients h !! c with
  | None => (None, h)
  | Some client =>
      let A := vipKey client in
      let B := Destination gp in
      match Exist (hub_tm h) A B with
      | None => (None, set_tm (AddTunnel A B TunnelConnected) h)
      | Some t =>
          if GetStatus t =? TunnelInit
          then (None, set_tm (updateTunnel (ChangeStatus TunnelConnected) A B) h)
          else (None, h)
      end
  end.

Definition handleP2PClosed (c : nat) (gp : GamePacket) (h : Hub) : option error * Hub :=
  match hub_clients h !! c with
  | None => (None, h)
  | Some client =>
      let A := vipKey client in
      let B := Destination gp in
      match Exist (hub_tm h) A B with
      | None => (None, h)
      | Some _ =>
          (None, set_tm (updateTunnel AddRetryTimes A B)
                   (set_tm (updateTunnel (ChangeStatus TunnelFailed) A B) h))
      end
  end.

(** ** Dispatch and the pumps *)

Definition HandleWSMessage (done : bool) (c : nat) (gp : GamePacket) (h : Hub) : option error * Hub :=
  match wsHandlers h !! PType gp with
  | None => (None, h)
  | Some HHandshake => handleHandshake done c gp h
  | Some HNoiseHandshake => handleNoiseHandshake done c gp h
  | Some HP2PEstablished => handleP2PEstablished c gp h
  | Some HP2PClosed => handleP2PClosed c gp h
  end.

(** Whether a pump goes on, returns, or cancels the connection and returns. *)
Inductive pump : Type := Running | Returned | Cancelled.

(** One binary message in [readPump]; [g] is the packet object the loop reuses. *)
Definition readPump_message (done : bool) (c : nat) (g : GamePacket) (msg : gslice) (h : Hub)
    : pump * GamePacket * Hub :=
  let '(err, g) := ParseControl g msg in
  match err, hub_clients h !! c with
  | Some _, _ => (Running, g, h)
  | None, None => (Running, g, h)
  | None, Some client =>
      if negb (PType g =? TypeHandshake) && bool_decide (virtualIp client = None) then (Running, g, h)
      else
        let '(err, h) := HandleWSMessage done c g h in
        match err with
        | Some _ => (if PType g =? TypeHandshake then Cancelled else Running, g, h)
        | None => (Running, g, h)
        end
  end.

(** The ping handler of [readPump]; the send blocks while the channel is full. *)
Definition pingHandler (c : nat) (h : Hub) : option Hub :=
  let '(ok, h) := sendControl c (NewGamePacket ip4_zero ip4_zero TypePong nil_slice) h in
  if ok : bool then Some h else None.

(** What [writePump] puts on the WebSocket. *)
Inductive wsOut : Type := WsPong | WsBinary (data : bytes).

Section pumps.
Context `{AEAD, LZ4}.

(** One message in [writePump]; [writerOk] and [closeOk] are the results of
    [NextWriter] and of closing the writer.  [None]: the channel is empty.  The
    server never closes a control channel, so that receive always succeeds. *)
Definition writePump_step (writerOk closeOk : bool) (c : nat) (h : Hub) : option (pump * list wsOut * Hub) :=
  match hub_clients h !! c with
  | None => None
  | Some client =>
      match controlChan client with
      | [] => None
      | gp :: rest =>
          let h := set_clients (insert c (set_controlChan rest client)) h in
          if PType gp =? TypePong then Some (Running, [WsPong], h)
          else if negb writerOk then Some (Cancelled, [], h)
          else
            let '(data, gp, p, _) := EncodePacket (bufPool h) gp true false None in
            let data := default nil_slice data in
            let p := Put (reslice 0 data) p in
            let p := if PType gp =? TypeNoiseResponse then Put (reslice 0 (Payload gp)) p else p in
            Some (if closeOk then Running else Returned, [WsBinary (sdata data)], set_pool p h)
      end
  end.
End pumps.

(** ** Disconnection, in [serverWS] *)

(** The section under [retentionMtx]. *)
Definition retainClient (c : nat) (now retentionTime : Z) (h : Hub) : Hub :=
  match hub_clients h !! c with
  | None => h
  | Some client =>
      match virtualIp client with
      | None => h
      | Some ip =>
          set_retention (insert (clientID client) (mkOffline ip (hostname client) (now + retentionTime))) h
      end
  end.

(** The end of a connection, its two sections with nothing in between. *)
Definition serverWS_done (c : nat) (now retentionTime : Z) (h : Hub) : Hub :=
  match hub_clients h !! c with
  | None => h
  | Some client =>
      match virtualIp client with
      | None => h
      | Some _ => removeClient c (retainClient c now retentionTime h)
      end
  end.

(** ** server_p2p.go *)

(** What [ifEstablish] reads of the tunnel table decides what it then does. *)
Inductive attempt : Type := NoAttempt | FirstAttempt | AnotherAttempt.

Definition ifEstablish_check (src dst : ip4) (srcNat dstNat : Z) (h : Hub) : attempt :=
  if (srcNat <=? TypeUnknown) || (dstNat <=? TypeUnknown) then NoAttempt
  else
    match Exist (hub_tm h) src dst with
    | None => FirstAttempt
    | Some tunnel =>
        if (GetStatus tunnel =? TunnelFailed) && (GetRetryTimes tunnel <? 6) then AnotherAttempt else NoAttempt
    end.

Definition ifEstablish_act (a : attempt) (src dst : ip4) (h : Hub) : bool * Hub :=
  match a with
  | NoAttempt => (false, h)
  | FirstAttempt => (true, set_tm (AddTunnel src dst TunnelInit) h)
  | AnotherAttempt => (true, set_tm (updateTunnel (ChangeStatus TunnelInit) src dst) h)
  end.

(** Both with nothing in between. *)
Definition ifEstablish (src dst : ip4) (srcNat dstNat : Z) (h : Hub) : bool * Hub :=
  ifEstablish_act (ifEstablish_check src dst srcNat dstNat h) src dst h.

Definition newP2PTask (done : bool) (srcVip dstVip : ip4) (srcAddr dstAddr : option addrPort) (h : Hub) : Hub :=
  let newTask := mkP2PTask dstVip dstAddr srcVip srcAddr in
  if done then h
  else if bool_decide (length (p2pTaskChan h) < p2pTaskCap)%nat
  then set_tasks (p2pTaskChan h ++ [newTask]) h
  else h.

Definition trySendControl (c : nat) (gp : GamePacket) (h : Hub) : Hub := snd (sendControl c gp h).

(** [trySendControl] of a [TypeP2PCommand] that carries an endpoint. *)
Definition sendCommand (c : nat) (src dst : ip4) (addr : option addrPort) (nat_type : Z) (h : Hub) : option Hub :=
  b ← UDPAddrPortToBytes addr nat_type;
  let '(payload, h) := hub_alloc b h in
  Some (trySendControl c (NewGamePacket src dst TypeP2PCommand payload) h).

Definition handleP2PCommand (s d : nat) (srcClient dstClient : Client) (task : P2PTask) (h : Hub) : option Hub :=
  let srcAddr := dataAddr srcClient in
  let dstAddr := dataAddr dstClient in
  let check c src dst h := trySendControl c (NewGamePacket src dst TypeP2PCheck nil_slice) h in
  h ← (if natType srcClient =? TypeSymmetric then
         let h := check s (DstVip task) (SrcVip task) h in
         sendCommand d (SrcVip task) (DstVip task) srcAddr (natType srcClient) h
       else Some h);
  h ← (if natType dstClient =? TypeSymmetric then
         let h := check d (SrcVip task) (DstVip task) h in
         sendCommand s (DstVip task) (SrcVip task) dstAddr (natType dstClient) h
       else Some h);
  h ← (if natType dstClient =? TypeCone then
         sendCommand s (DstVip task) (SrcVip task) dstAddr (natType dstClient) h
       else Some h);
  if natType srcClient =? TypeCone then
    sendCommand d (SrcVip task) (DstVip task) srcAddr (natType srcClient) h
  else Some h.

(** One task of [handleP2PTask]; an empty queue leaves the hub as it is. *)
Definition handleP2PTask_step (h : Hub) : option Hub :=
  match p2pTaskChan h with
  | [] => Some h
  | task :: rest =>
      let h := set_tasks rest h in
      let h :=
        match Exist (hub_tm h) (SrcVip task) (DstVip task) with
        | None => set_tm (AddTunnel (SrcVip task) (DstVip task) TunnelInit) h
        | Some _ => set_tm (updateTunnel AddRetryTimes (SrcVip task) (DstVip task)) h
        end in
      match clientMap h !! SrcVip task, clientMap h !! DstVip task with
      | Some s, Some d =>
          match hub_clients h !! s, hub_clients h !! d with
          | Some srcClient, Some dstClient => handleP2PCommand s d srcClient dstClient task h
          | _, _ => Some h
          end
      | _, _ => Some h
      end
  end.
