(* ===== verification/HubUdp.v ===== *)
(** The server's data plane: [internal/transport/server.go] ([transfer],
    [updateAddrCheck]), [server_udp.go] and the responder of [server_dns.go].

    One received datagram, one relayed packet and one sent batch are one
    definition each.  The DNS message library is the class [DnsLib]. *)

From stdpp Require Import base numbers list gmap option strings tactics.
From S2P Require Import Prelude GoStd Cipher Packet Stun Util Hub HubWs.

Local Open Scope Z_scope.

(** ** server.go *)

Definition updateAddrCheck (c : nat) (addr : option addrPort) (h : Hub) : Hub :=
  match hub_clients h !! c with
  | None => h
  | Some client =>
      if bool_decide (dataAddr client = addr) then h
      else set_clients (insert c (set_dataAddr addr client)) h
  end.

(** [dst.IsMulticast], [dst.IsLoopback] and [h.Subnet.Contains(dst)]. *)
Definition IsMulticast (a : ip4) : bool := let '(a0, _, _, _) := a in Z.land a0 0xf0 =? 0xe0.
Definition IsLoopback (a : ip4) : bool := let '(a0, _, _, _) := a in a0 =? 127.
Definition subnetContains (a : ip4) : bool :=
  let '(s0, s1, s2, _) := SubnetIP in
  let '(a0, a1, a2, _) := a in (a0 =? s0) && (a1 =? s1) && (a2 =? s2).
Definition lastByte (a : ip4) : Z := let '(_, _, _, a3) := a in a3.

(** The unicast case of [transfer]: whether the packet was consumed.  [done]
    says that the [ctx.Done()] case of a [select] was taken; the goroutine
    then returns and keeps the buffer. *)
Definition forward (done : bool) (src dst : ip4) (srcNat : Z) (tp : transferPacket) (h : Hub) : bool * Hub :=
  match clientMap h !! dst with
  | None => (false, h)
  | Some d =>
      match hub_clients h !! d with
      | None => (false, h)
      | Some client =>
          let dstAddr := dataAddr client in
          let '(try, h) := ifEstablish src dst srcNat (natType client) h in
          let h := if try : bool then newP2PTask done src dst (tp_srcAddr tp) dstAddr h else h in
          match dstAddr with
          | None => (false, h)
          | Some _ =>
              let p := mkPacket (RawData (tp_gp tp)) false dstAddr in
              if done then (true, h)
              else if bool_decide (length (packetChan h) < packetCap)%nat
              then (true, set_packets (packetChan h ++ [p]) h)
              else (false, h)
          end
      end
  end.

(** One packet in [transfer]; an empty queue leaves the hub as it is. *)
Definition transfer_step (done : bool) (h : Hub) : Hub :=
  match transferChan h with
  | [] => h
  | tp :: rest =>
      let h := set_transfer rest h in
      let dst := Destination (tp_gp tp) in
      let srcIp := SourceVirtualIp (tp_gp tp) in
      let srcClient := clientMap h !! srcIp in
      let h := match srcClient with Some s => updateAddrCheck s (tp_srcAddr tp) h | None => h end in
      let '(consume, h) :=
        match srcClient ≫= λ s, hub_clients h !! s with
        | None => (false, h)
        | Some src =>
            if (lastByte dst =? 255) || IsMulticast dst then (false, h)
            else if subnetContains dst && negb (IsLoopback dst)
            then forward done srcIp dst (natType src) tp h
            else (false, h)
        end in
      if consume : bool then h
      else set_pool (Put (reslice 0 (RawData (tp_gp tp))) (bufPool h)) h
  end.

(** ** server_dns.go: the responder *)

(** The library's messages: [Unpack] and [Pack], the names of the question
    section, [SetReply] on a copy, the header bits, and parsing of a record in
    presentation form. *)
Class DnsLib := {
  dnsMsg : Type;
  dnsRR : Type;
  dns_Unpack : bytes → option dnsMsg;
  dns_Questions : dnsMsg → list bytes;
  dns_SetReply : dnsMsg → dnsMsg;
  dns_SetAuthoritative : dnsMsg → dnsMsg;
  dns_SetRcode : Z → dnsMsg → dnsMsg;
  dns_New : bytes → option dnsRR;
  dns_AddAnswer : dnsRR → dnsMsg → dnsMsg;
  dns_Pack : dnsMsg → option bytes;
}.

Definition RcodeNameError : Z := 3.

(** [net.IP.String] of an IPv4 address. *)
Definition ipString (a : ip4) : bytes :=
  let '(a0, a1, a2, a3) := a in
  let n z := Itoa (Z.to_nat z) in
  n a0 ++ [46] ++ n a1 ++ [46] ++ n a2 ++ [46] ++ n a3.

Section with_dns.
Context `{DnsLib}.

(** [r] is the request with the client's two-byte port in front; the answer
    is built in the request's array when it fits. *)
Definition buildDnsResponse (r : gslice) (h : Hub) : res gslice * Hub :=
  if slen r <? 2 then (Err PacketTooShort, h)
  else
    match dns_Unpack (drop 2 (sdata r)) with
    | None => (Err ErrDns, h)
    | Some msg =>
        match dns_Questions msg with
        | [] => (Err ParseDNSError, h)
        | name :: _ =>
            let msgResp := dns_SetAuthoritative (dns_SetReply msg) in
            match getDns name (string_bytes ".et") h with
            | None =>
                match dns_Pack (dns_SetRcode RcodeNameError msgResp) with
                | None => (Err ErrDns, h)
                | Some data => let '(s, h) := hub_alloc data h in (Ok s, h)
                end
            | Some dnsRes =>
                match dns_New (name ++ string_bytes " 60 IN A " ++ ipString dnsRes) with
                | None => (Err ParseDNSError, h)
                | Some rr =>
                    match dns_Pack (dns_AddAnswer rr msgResp) with
                    | None => (Err ErrDns, h)
                    | Some data =>
                        let '(s, p) := append (reslice 2 r) data (bufPool h) in
                        (Ok s, set_pool p h)
                    end
                end
            end
        end
    end.

Context `{AEAD, LZ4}.

(** ** server_udp.go *)

(** The [CleanUp] label, for a packet that was not consumed. *)
Definition cleanUp (g : GamePacket) (h : Hub) : Hub :=
  set_pool (Put (reslice 0 (RawData g)) (bufPool h)) h.

(** The [TypeDnsRequest] case. *)
Definition answerDns (g : GamePacket) (srcAddrPort : option addrPort) (h : Hub) : Hub :=
  let '(dnsResp, h) := buildDnsResponse (Payload g) h in
  match dnsResp with
  | Err _ => h
  | Ok resp =>
      let dnsGp := NewGamePacket ip4_zero (SourceVirtualIp g) TypeDnsResponse resp in
      let '(data, _, p, _) := EncodePacket (bufPool h) dnsGp false false None in
      let data := default nil_slice data in
      let h := set_pool p h in
      if bool_decide (length (packetChan h) < packetCap)%nat
      then set_packets (packetChan h ++ [mkPacket data false srcAddrPort]) h
      else set_pool (Put (reslice 0 data) (bufPool h)) h
  end.

(** One datagram in [listenUdp].  [g] is the packet object of the
    [transferPacket] taken from [tpPool]. *)
Definition listenUdp_datagram (done : bool) (srcAddrPort : option addrPort) (g : GamePacket)
    (payload : bytes) (h : Hub) : Hub :=
  let '(err, g, p) := ParsePacket (bufPool h) g payload true None in
  let h := set_pool p h in
  match err with
  | Some _ => cleanUp g h
  | None =>
      let rawPType := bitclear (PType g) FlagCompress in
      if rawPType =? TypePing then
        let h := match clientMap h !! SourceVirtualIp g with
                 | Some c => updateAddrCheck c srcAddrPort h
                 | None => h
                 end in
        cleanUp g h
      else if rawPType =? TypeDnsRequest then cleanUp g (answerDns g srcAddrPort h)
      else if rawPType =? TypeData then
        if done then cleanUp g h
        else if bool_decide (length (transferChan h) < transferCap)%nat
        then set_transfer (transferChan h ++ [mkTransfer g srcAddrPort]) h
        else cleanUp g h
      else cleanUp g h
  end.
End with_dns.

(** One datagram in [listenCheck]; [g] is the packet object the loop reuses. *)
Definition listenCheck_datagram (g : GamePacket) (addr : addrPort) (data : gslice) (h : Hub)
    : GamePacket * option Hub :=
  let '(err, g) := ParseControl g data in
  match err with
  | Some _ => (g, Some h)
  | None =>
      if PType g =? TypeP2PCheck then
        let srcVip := SourceVirtualIp g in
        let dstVip := Destination g in
        match Exist (hub_tm h) srcVip dstVip with
        | None => (g, Some h)
        | Some _ =>
            match clientMap h !! srcVip, clientMap h !! dstVip with
            | Some s, Some d =>
                match hub_clients h !! s with
                | Some srcClient => (g, sendCommand d srcVip dstVip (Some addr) (natType srcClient) h)
                | None => (g, Some h)
                end
            | _, _ => (g, Some h)
            end
        end
      else (g, Some h)
  end.

(** ** writeUdpPacket *)

Definition batchSize : nat := 16.

(** The messages one queued packet becomes. *)
Definition packetMessages (p : packet) (h : Hub) : list (bytes * addrPort) :=
  if pkt_broadcast p then
    omap (λ c, client ← hub_clients h !! c; addr ← dataAddr client; Some (sdata (pkt_data p), addr))
      (clientSlice h)
  else
    match pkt_dstAddr p with
    | Some a => [(sdata (pkt_data p), a)]
    | None => []
    end.

(** One batch: the messages handed to [WriteBatch], and the buffers recycled.
    An empty queue sends nothing. *)
Definition writeUdpPacket_step (h : Hub) : list (bytes * addrPort) * Hub :=
  let packetBatch := take batchSize (packetChan h) in
  let h := set_packets (drop batchSize (packetChan h)) h in
  let msgs := packetBatch ≫= λ p, packetMessages p h in
  (msgs, set_pool (foldl (λ pl p, Put (reslice 0 (pkt_data p)) pl) (bufPool h) packetBatch) h).

(** ** A concrete DNS library

    A message is its question name, a response code and its answers, printed
    one after the other. *)
#[export] Instance toy_dns : DnsLib := {
  dnsMsg := (list bytes * Z * list bytes)%type;
  dnsRR := bytes;
  dns_Unpack b := match b with [] => None | _ => Some ([b], 0, []) end;
  dns_Questions m := m.1.1;
  dns_SetReply m := (m.1.1, 0, []);
  dns_SetAuthoritative m := m;
  dns_SetRcode z m := (m.1.1, z, m.2);
  dns_New b := Some b;
  dns_AddAnswer rr m := (m.1, m.2 ++ [rr]);
  dns_Pack m := Some (m.1.2 :: concat m.2);
}.
