(* ===== verification/HubFrame.v ===== *)
(** Frame lemmas of the server: which operations leave the address book (the
    routes, the free addresses, the retained places, the DNS table and the
    place of every client) alone, and how the ones that change it change it. *)

From stdpp Require Import base numbers list gmap option tactics.
From S2P Require Import Prelude Cipher Packet Stun Util Hub HubWs HubUdp.

Local Open Scope Z_scope.

(** What the address book knows of a client object. *)
Definition place (c : Client) : option ip4 * bytes * bytes := (virtualIp c, hostname c, clientID c).

(** Two hubs with the same address book. *)
Definition same_book (h h' : Hub) : Prop :=
  freeIps h' = freeIps h ∧ retentionMap h' = retentionMap h ∧ dnsMap h' = dnsMap h ∧
  clientMap h' = clientMap h ∧ wsHandlers h' = wsHandlers h ∧
  ∀ c, place <$> hub_clients h' !! c = place <$> hub_clients h !! c.

#[export] Instance same_book_preorder : PreOrder same_book.
Proof.
  split.
  - intros h. unfold same_book. naive_solver.
  - unfold same_book. intros a b c (?&?&?&?&?&Hab) (?&?&?&?&?&Hbc).
    split_and!; try congruence; try by rewrite Hbc.
Qed.

Lemma same_book_lookup h h' c client :
  same_book h h' → hub_clients h !! c = Some client →
  ∃ client', hub_clients h' !! c = Some client' ∧ place client' = place client.
Proof.
  intros (_&_&_&_&_&Hp) Hc. specialize (Hp c). rewrite Hc in Hp. simpl in Hp.
  destruct (hub_clients h' !! c) as [client'|]; [|done]. apply (inj Some) in Hp. eauto.
Qed.

Lemma same_book_update c client client' h :
  hub_clients h !! c = Some client → place client' = place client →
  same_book h (set_clients (insert c client') h).
Proof.
  intros Hc Hp. unfold same_book, set_clients. simpl. split_and!; try done.
  intros c'. rewrite lookup_insert. case_decide; [|done]. subst. by rewrite Hc; simpl; f_equal.
Qed.

Lemma same_book_tm f h : same_book h (set_tm f h).
Proof. unfold same_book, set_tm. simpl. naive_solver. Qed.
Lemma same_book_pool p h : same_book h (set_pool p h).
Proof. unfold same_book, set_pool. simpl. naive_solver. Qed.
Lemma same_book_tasks l h : same_book h (set_tasks l h).
Proof. unfold same_book, set_tasks. simpl. naive_solver. Qed.
Lemma same_book_transfer l h : same_book h (set_transfer l h).
Proof. unfold same_book, set_transfer. simpl. naive_solver. Qed.
Lemma same_book_packets l h : same_book h (set_packets l h).
Proof. unfold same_book, set_packets. simpl. naive_solver. Qed.
#[export] Hint Resolve same_book_tm same_book_pool same_book_tasks same_book_transfer same_book_packets : go.

Lemma same_book_sendControl c gp h : same_book h (sendControl c gp h).2.
Proof.
  unfold sendControl. destruct (hub_clients h !! c) as [client|] eqn:E; [|done].
  case_bool_decide; [|done]. by apply same_book_update with client.
Qed.

Lemma same_book_selectSend done c gp h : same_book h (selectSend done c gp h).2.
Proof.
  unfold selectSend. destruct done; [done|].
  pose proof (same_book_sendControl c gp h). destruct (sendControl c gp h). done.
Qed.

Lemma same_book_alloc b h : same_book h (hub_alloc b h).2.
Proof. apply same_book_pool. Qed.

Lemma same_book_updateAddr c a h : same_book h (updateAddrCheck c a h).
Proof.
  unfold updateAddrCheck. destruct (hub_clients h !! c) as [client|] eqn:E; [|done].
  case_bool_decide; [done|]. by apply same_book_update with client.
Qed.
#[export] Hint Resolve same_book_sendControl same_book_selectSend same_book_alloc same_book_updateAddr : go.

(** Close a [same_book] goal through intermediate hubs. *)
Ltac book :=
  repeat first
    [ reflexivity
    | solve [auto with go]
    | match goal with |- same_book _ (set_pool _ _) => etrans; [|apply same_book_pool] end
    | match goal with |- same_book _ (set_tm _ _) => etrans; [|apply same_book_tm] end
    | match goal with |- same_book _ (set_tasks _ _) => etrans; [|apply same_book_tasks] end
    | match goal with |- same_book _ (set_packets _ _) => etrans; [|apply same_book_packets] end
    | match goal with |- same_book _ (set_transfer _ _) => etrans; [|apply same_book_transfer] end
    | match goal with |- same_book _ (updateAddrCheck _ _ _) => etrans; [|apply same_book_updateAddr] end ].

(** ** Control handlers *)

Lemma same_book_reply done c client h : same_book h (handshakeReply done c client h).
Proof.
  unfold handshakeReply. destruct (hub_alloc _ _) as [payload h1] eqn:E.
  etrans; [|apply same_book_selectSend]. replace h1 with (hub_alloc (hostname client) h).2 by (by rewrite E).
  apply same_book_alloc.
Qed.

Lemma same_book_noise done c gp h : same_book h (handleNoiseHandshake done c gp h).2.
Proof.
  unfold handleNoiseHandshake. destruct (clientMap h !! _), (hub_clients h !! c); try done.
  destruct (hub_clients h !! _); [|done].
  destruct (Get _) as [b p], (append _ _ p) as [b1 p1], (append _ _ p1) as [b2 p2].
  match goal with |- context [selectSend ?x ?y ?z ?w] =>
    pose proof (same_book_selectSend x y z w) as Hs; destruct (selectSend x y z w) as [r h1] end.
  simpl in Hs. assert (same_book h h1) by (etrans; [apply same_book_pool|done]).
  destruct r; simpl; book; done.
Qed.

Lemma same_book_established c gp h : same_book h (handleP2PEstablished c gp h).2.
Proof. unfold handleP2PEstablished. repeat case_match; simpl; book. Qed.

Lemma same_book_closed c gp h : same_book h (handleP2PClosed c gp h).2.
Proof. unfold handleP2PClosed. repeat case_match; simpl; book. Qed.

(** ** P2P scheduling *)

Lemma same_book_ifEstablish s d ns nd h : same_book h (ifEstablish s d ns nd h).2.
Proof. unfold ifEstablish, ifEstablish_act. repeat case_match; simpl; book. Qed.

Lemma same_book_newP2PTask done s d sa da h : same_book h (newP2PTask done s d sa da h).
Proof. unfold newP2PTask. repeat case_match; book. Qed.

Lemma same_book_trySend c gp h : same_book h (trySendControl c gp h).
Proof. apply same_book_sendControl. Qed.

Lemma same_book_sendCommand c s d a n h h' : sendCommand c s d a n h = Some h' → same_book h h'.
Proof.
  unfold sendCommand. destruct (UDPAddrPortToBytes a n) as [b|]; simpl; [|done]. intros [= <-].
  etrans; [|apply same_book_trySend]. apply same_book_pool.
Qed.
#[export] Hint Resolve same_book_sendCommand same_book_trySend : go.

Lemma same_book_command s d sc dc t h h' : handleP2PCommand s d sc dc t h = Some h' → same_book h h'.
Proof.
  unfold handleP2PCommand. intros Hr.
  apply bind_Some in Hr as (h1 & H1 & Hr). apply bind_Some in Hr as (h2 & H2 & Hr).
  apply bind_Some in Hr as (h3 & H3 & Hr).
  assert (∀ c g h0 h1 c' s' d' a n, sendCommand c' s' d' a n (trySendControl c g h0) = Some h1 →
    same_book h0 h1) as Hpair by (intros; etrans; [apply same_book_trySend|eauto with go]).
  transitivity h1; [repeat case_match; simplify_eq; eauto with go; reflexivity|].
  transitivity h2; [repeat case_match; simplify_eq; eauto with go; reflexivity|].
  transitivity h3; repeat case_match; simplify_eq; eauto with go; reflexivity.
Qed.

Lemma same_book_task h h' : handleP2PTask_step h = Some h' → same_book h h'.
Proof.
  unfold handleP2PTask_step. destruct (p2pTaskChan h) as [|task rest]; [by intros [= <-]|].
  set (h1 := match Exist _ _ _ with Some _ => _ | None => _ end).
  assert (same_book h h1) by (subst h1; case_match; book). intros Hr.
  repeat case_match; simplify_eq; try done. etrans; [done|]. by eapply same_book_command.
Qed.
#[export] Hint Resolve same_book_reply same_book_noise same_book_established same_book_closed
  same_book_ifEstablish same_book_newP2PTask same_book_task : go.

(** ** Data plane *)

Lemma same_book_forward done s d n tp h : same_book h (forward done s d n tp h).2.
Proof.
  unfold forward. destruct (clientMap h !! d) as [x|]; [|done].
  destruct (hub_clients h !! x) as [client|]; [|done].
  pose proof (same_book_ifEstablish s d n (natType client) h) as H1.
  destruct (ifEstablish _ _ _ _ _) as [try h1]. simpl in H1.
  set (h2 := if try then _ else _).
  assert (same_book h h2) as H2 by (subst h2; destruct try; [etrans; [done|apply same_book_newP2PTask]|done]).
  destruct (dataAddr client); [|done]. destruct done; [done|].
  case_bool_decide; simpl; [|done]. etrans; [done|apply same_book_packets].
Qed.

Lemma same_book_transfer_step done h : same_book h (transfer_step done h).
Proof.
  unfold transfer_step. destruct (transferChan h) as [|tp rest]; [done|].
  set (h1 := match clientMap _ !! _ with Some _ => _ | None => _ end).
  assert (same_book h h1) as H1 by (subst h1; case_match; book).
  set (r := match _ with Some _ => _ | None => _ end).
  assert (same_book h r.2) as H2.
  { subst r. repeat case_match; try done. etrans; [done|apply same_book_forward]. }
  destruct r as [[] h2]; simpl in *; [done|]. etrans; [done|apply same_book_pool].
Qed.

Section data_plane.
Context `{DnsLib, AEAD, LZ4}.

Lemma same_book_buildDns r h : same_book h (buildDnsResponse r h).2.
Proof.
  unfold buildDnsResponse.
  repeat case_match; simplify_eq/=; try done; match goal with H : hub_alloc _ _ = (_, ?h1) |- _ =>
    unfold hub_alloc in H; simplify_eq/=; book | _ => book end.
Qed.

Lemma same_book_answerDns g a h : same_book h (answerDns g a h).
Proof.
  unfold answerDns. pose proof (same_book_buildDns (Payload g) h) as Hb.
  destruct (buildDnsResponse _ _) as [[resp|e] h1]; simpl in Hb; [|done].
  destruct (EncodePacket _ _ _ _ _) as [[[data g'] p] cs]. etrans; [exact Hb|].
  case_bool_decide; book.
Qed.

Lemma same_book_listenUdp done a g payload h : same_book h (listenUdp_datagram done a g payload h).
Proof.
  unfold listenUdp_datagram, cleanUp. destruct (ParsePacket _ _ _ _ _) as [[err g1] p].
  assert (∀ h0, same_book h0 (answerDns g1 a h0)) by (intros; apply same_book_answerDns).
  repeat case_match; book. etrans; [apply same_book_pool|done].
Qed.

Lemma same_book_writePump wo co c h r out h' :
  writePump_step wo co c h = Some (r, out, h') → same_book h h'.
Proof.
  unfold writePump_step. destruct (hub_clients h !! c) as [client|] eqn:E; [|done].
  destruct (controlChan client) as [|gp rest]; [done|].
  assert (same_book h (set_clients (insert c (set_controlChan rest client)) h))
    by (by apply same_book_update with client).
  destruct (EncodePacket _ _ _ _ _) as [[[data g'] p] cs].
  repeat case_match; intros; simplify_eq; try done; (etrans; [done|apply same_book_pool]).
Qed.
End data_plane.

Lemma same_book_listenCheck g a d h g' h' :
  listenCheck_datagram g a d h = (g', Some h') → same_book h h'.
Proof.
  unfold listenCheck_datagram. destruct (ParseControl g d) as [err g1].
  repeat case_match; intros; simplify_eq; try done. by eapply same_book_sendCommand.
Qed.

Lemma same_book_writeUdp h : same_book h (writeUdpPacket_step h).2.
Proof. unfold writeUdpPacket_step. simpl. book. Qed.

Lemma same_book_ping c h h' : pingHandler c h = Some h' → same_book h h'.
Proof.
  unfold pingHandler. pose proof (same_book_sendControl c (NewGamePacket ip4_zero ip4_zero TypePong nil_slice) h).
  destruct (sendControl _ _ _) as [[] h1]; [|done]. by intros [= <-].
Qed.
