(* ===== verification/Lease.v ===== *)
(** The address book's contract and its refinement.

    [lease_step] is the abstract specification of the server's address
    assignment: a lease maps each virtual address in use to its holder, either
    online or reserved for a disconnected client until it expires.
    [orderly_refines_leases] shows that every orderly run of the server
    is a run of this specification: one in which clients shake hands once per
    connection, with an identity that is not online, and in which handshakes and
    disconnections do not overlap.  [Interleave.v] and [Ledger.v] treat all other
    runs. *)

From stdpp Require Import base numbers list gmap option tactics.
From S2P Require Import Prelude Cipher Packet Stun Util Hub HubWs HubUdp HubFrame.

Local Open Scope Z_scope.

(** ** The specification *)

Inductive holder : Type :=
  | Online (cid name : bytes)
  | Reserved (cid name : bytes) (expiry : Z).

Definition h_cid (x : holder) : bytes := match x with Online cid _ | Reserved cid _ _ => cid end.
Definition h_name (x : holder) : bytes := match x with Online _ n | Reserved _ n _ => n end.
Definition expired (now : Z) (x : holder) : bool :=
  match x with Online _ _ => false | Reserved _ _ e => e <? now end.

Abbreviation Lease := (gmap ip4 holder) (only parsing).

(** The assignable addresses 10.0.6.2 to 10.0.6.254. *)
Definition addresses : list ip4 := vip_of <$> initialFree.

(** Observable events. *)
Inductive label : Type :=
  | Attach (cid req : bytes) (out : option (ip4 * bytes))
  | Detach (v : ip4) (expiry : Z)
  | Expire (now : Z)
  | Tau.

Inductive lease_step : Lease → label → Lease → Prop :=
  | attach_resume (L : Lease) v cid req name e :
      L !! v = Some (Reserved cid name e) →
      lease_step L (Attach cid req (Some (v, name))) (<[v := Online cid name]> L)
  | attach_new (L : Lease) v cid req name :
      L !! v = None → v ∈ addresses →
      (∀ w x, L !! w = Some x → h_cid x ≠ cid ∧ h_name x ≠ name) →
      ((∀ w x, L !! w = Some x → h_name x ≠ req) → name = req) →
      lease_step L (Attach cid req (Some (v, name))) (<[v := Online cid name]> L)
  | attach_full (L : Lease) cid req :
      (∀ w x, L !! w = Some x → h_cid x ≠ cid) → (∀ v, v ∈ addresses → is_Some (L !! v)) →
      lease_step L (Attach cid req None) L
  | detach (L : Lease) v cid name e :
      L !! v = Some (Online cid name) →
      lease_step L (Detach v e) (<[v := Reserved cid name e]> L)
  | expire_all (L : Lease) now :
      lease_step L (Expire now) (filter (λ e, expired now e.2 = false) L)
  | tau (L : Lease) : lease_step L Tau L.

(** Client identities and host names each determine their address. *)
Definition lease_wf (L : Lease) : Prop :=
  ∀ v w x y, L !! v = Some x → L !! w = Some y → h_cid x = h_cid y ∨ h_name x = h_name y → v = w.

Lemma lease_wf_empty : lease_wf ∅.
Proof. intros v w x y Hv. by rewrite lookup_empty in Hv. Qed.

Lemma lease_wf_replace (L : Lease) v x y :
  L !! v = Some x → h_cid y = h_cid x → h_name y = h_name x → lease_wf L → lease_wf (<[v := y]> L).
Proof.
  intros Hv Hc Hn Hwf a b p q. rewrite !lookup_insert. intros Ha Hb Hpq.
  repeat case_decide; simplify_eq; try done.
  - eapply Hwf; [exact Ha|exact Hv|]. by rewrite <- Hc, <- Hn.
  - eapply Hwf; [exact Hv|exact Hb|]. by rewrite <- Hc, <- Hn.
  - by eapply Hwf.
Qed.

Lemma lease_step_wf L l L' : lease_step L l L' → lease_wf L → lease_wf L'.
Proof.
  destruct 1 as [L v cid req name e Hv | L v cid req name Hv Hin Hfresh Hreq | | L v cid name e Hv | L now |];
    intros Hwf; try done.
  - by apply (lease_wf_replace L v (Reserved cid name e)).
  - intros a b p q. rewrite !lookup_insert. intros Ha Hb Hpq.
    repeat case_decide; simplify_eq; try done.
    + destruct (Hfresh _ _ Ha), Hpq; simpl in *; congruence.
    + destruct (Hfresh _ _ Hb), Hpq; simpl in *; congruence.
    + by eapply Hwf.
  - by apply (lease_wf_replace L v (Online cid name)).
  - intros a b p q [Ha _]%map_lookup_filter_Some [Hb _]%map_lookup_filter_Some. by apply Hwf.
Qed.

(** ** The refinement relation *)

Definition freed (h : Hub) : list ip4 := vip_of <$> freeIps h.

Record book (h : Hub) (L : Lease) : Prop := {
  book_wf : lease_wf L;
  book_handlers : wsHandlers h = registerDefaultWSHandlers ∅;
  (** The addresses in use and the free ones are all addresses, each once. *)
  book_free : freed h ++ (map_to_list L).*1 ≡ₚ addresses;
  book_route v c : clientMap h !! v = Some c →
    ∃ client, hub_clients h !! c = Some client ∧ virtualIp client = Some v ∧
      L !! v = Some (Online (clientID client) (hostname client));
  book_online v cid name : L !! v = Some (Online cid name) → is_Some (clientMap h !! v);
  book_reserved cid oc : retentionMap h !! cid = Some oc →
    L !! oc_virtualIp oc = Some (Reserved cid (oc_hostname oc) (oc_expiry oc));
  book_retained v cid name e : L !! v = Some (Reserved cid name e) →
    retentionMap h !! cid = Some (mkOffline v name e);
  book_dns n v : dnsMap h !! n = Some v ↔ ∃ x, L !! v = Some x ∧ h_name x = n;
}.

Lemma addresses_NoDup : NoDup addresses.
Proof. apply (bool_decide_unpack (NoDup addresses)). vm_compute. done. Qed.

Lemma addresses_vip v : v ∈ addresses → v = vip_of (lastByte v).
Proof.
  unfold addresses. intros (x & -> & _)%list_elem_of_fmap. done.
Qed.

Lemma book_in_addresses h L v x : book h L → L !! v = Some x → v ∈ addresses.
Proof.
  intros B Hv. rewrite <- (book_free _ _ B). apply elem_of_app. right.
  apply list_elem_of_fmap. exists (v, x). split; [done|]. by apply elem_of_map_to_list.
Qed.

Lemma book_free_fresh h L v : book h L → v ∈ freed h → L !! v = None ∧ v ∈ addresses.
Proof.
  intros B Hv. pose proof addresses_NoDup as Hn. rewrite <- (book_free _ _ B) in Hn.
  apply list.NoDup_app in Hn as (_ & Hd & _). split.
  - destruct (L !! v) as [x|] eqn:E; [|done]. exfalso. apply (Hd _ Hv).
    apply list_elem_of_fmap. exists (v, x). split; [done|]. by apply elem_of_map_to_list.
  - rewrite <- (book_free _ _ B). apply elem_of_app. by left.
Qed.

(** Overwriting a lease keeps the set of addresses in use. *)
Lemma keys_replace (L : Lease) v x y :
  L !! v = Some x → (map_to_list (<[v := y]> L)).*1 ≡ₚ (map_to_list L).*1.
Proof.
  intros Hv. rewrite <- (map_to_list_delete L v x) by done.
  rewrite <- (map_to_list_delete (<[v := y]> L) v y) by apply lookup_insert_eq.
  by rewrite delete_insert_eq.
Qed.

Lemma keys_add (L : Lease) v y :
  L !! v = None → (map_to_list (<[v := y]> L)).*1 ≡ₚ v :: (map_to_list L).*1.
Proof. intros Hv. by rewrite map_to_list_insert. Qed.

Lemma book_init : book NewHub ∅.
Proof.
  split; try done. intros n v. split; [done|]. by intros (x & ? & _).
Qed.

Lemma book_same h h' L : same_book h h' → book h L → book h' L.
Proof.
  intros Hs B. pose proof Hs as (Hf & Hr & Hd & Hm & Hw & Hp). destruct B.
  split; try congruence; rewrite ?Hm, ?Hr, ?Hd; try done.
  - unfold freed. by rewrite Hf.
  - intros v c Hv. destruct (book_route0 v c Hv) as (client & Hc & Hvip & HL).
    destruct (same_book_lookup _ _ _ _ Hs Hc) as (client' & Hc' & Hpl).
    unfold place in Hpl. simplify_eq. exists client'. by split_and!; congruence.
Qed.

(** ** Attaching *)

(** The common part of a first handshake and of a reconnection: the client [c]
    gets the place [(v, name)], which was free or reserved for it. *)
Lemma book_attach h L h2 v c client :
  let L' := <[v := Online (clientID client) (hostname client)]> L in
  book h L → lease_wf L' → freed h2 ++ (map_to_list L').*1 ≡ₚ addresses →
  (L !! v = None ∨ ∃ e, L !! v = Some (Reserved (clientID client) (hostname client) e)) →
  (∀ old, hub_clients h !! c = Some old → virtualIp old = None) →
  hub_clients h2 !! c = Some client → virtualIp client = Some v →
  (∀ c', c' ≠ c → hub_clients h2 !! c' = hub_clients h !! c') →
  clientMap h2 = <[v := c]> (clientMap h) → wsHandlers h2 = wsHandlers h →
  retentionMap h2 = delete (clientID client) (retentionMap h) →
  dnsMap h2 = <[hostname client := v]> (dnsMap h) →
  book h2 L'.
Proof.
  intros L' B Hwf Hfree Hold Hnone Hc Hvip Hoth Hm Hw Hr Hd.
  assert (L' !! v = Some (Online (clientID client) (hostname client))) as Hv by apply lookup_insert_eq.
  assert (∀ w, w ≠ v → L' !! w = L !! w) as Hne by (intros; by apply lookup_insert_ne).
  split; rewrite ?Hm, ?Hr, ?Hd, ?Hw; try done.
  - apply B.
  - intros w c' Hw'. apply lookup_insert_Some in Hw' as [[<- <-]|[Hwv Hw']]; [eauto|].
    destruct (book_route _ _ B _ _ Hw') as (old & Ho & Hov & HL).
    assert (c' ≠ c) by (intros ->; rewrite (Hnone _ Ho) in Hov; done).
    exists old. rewrite Hoth, Hne by done. done.
  - intros w cid' n' Hw'. destruct (decide (w = v)) as [->|].
    + rewrite lookup_insert_eq. eauto.
    + rewrite lookup_insert_ne by done. rewrite Hne in Hw' by done. by eapply book_online.
  - intros cid' oc [Hcid Hoc]%lookup_delete_Some. pose proof (book_reserved _ _ B _ _ Hoc) as HL.
    rewrite Hne; [done|]. intros <-. destruct Hold as [Ho|[e Ho]]; congruence.
  - intros w cid' n' e' Hw'. assert (w ≠ v) by (intros ->; congruence).
    pose proof Hw' as HL. rewrite Hne in HL by done.
    rewrite lookup_delete_ne; [by apply (book_retained _ _ B)|].
    intros Heq. assert (w = v) by (eapply Hwf; [exact Hw'|exact Hv|by left]). done.
  - intros n w. destruct (decide (w = v)) as [->|Hwv].
    + rewrite Hv. destruct (decide (n = hostname client)) as [->|Hn].
      * rewrite lookup_insert_eq. naive_solver.
      * rewrite lookup_insert_ne by done. rewrite (book_dns _ _ B).
        destruct Hold as [->|[e ->]]; split; intros (x & ? & ?); simplify_eq/=.
    + rewrite Hne by done. rewrite <- (book_dns _ _ B), lookup_insert_Some. split; [naive_solver|].
      intros Hn. right. split; [|done]. intros <-. apply (book_dns _ _ B) in Hn as (x & Hx & Hxn).
      apply Hwv. rewrite <- Hne in Hx by done. eapply Hwf; [exact Hx|exact Hv|]. by right.
Qed.

Lemma lookup_setIdentity c payload h c' :
  hub_clients (setIdentity c payload h) !! c' =
    (if decide (c' = c) then set_identity (default 0 (payload !! 0%nat)) (sub payload 1 33) (sub payload 33 49)
       <$> hub_clients h !! c' else hub_clients h !! c').
Proof. unfold setIdentity. simpl. rewrite lookup_alter. repeat case_decide; congruence. Qed.

Lemma addClient_eq c h client :
  hub_clients h !! c = Some client →
  addClient c h = set_router (<[vipKey client := c]> (clientMap h)) ((map_to_list (clientMap h)).*2 ++ [c]) h.
Proof. unfold addClient. by intros ->. Qed.

Lemma getIp_spec h :
  (freeIps h = [] ∧ getIp h = (None, h)) ∨
  (∃ l x, freeIps h = l ++ [x] ∧ getIp h = (Some (vip_of x), set_free l h)).
Proof.
  unfold getIp. destruct (freeIps h) as [|y r] eqn:E using rev_ind; [by left|]. right.
  exists r, y. split; [done|]. rewrite length_app. simpl.
  replace (length r + 1 - 1)%nat with (length r) by lia.
  rewrite lookup_app_r, Nat.sub_diag by lia. simpl. by rewrite take_app_length.
Qed.

(** The publishing half of the handshake. *)
Lemma publish_book done c client v h :
  hub_clients h !! c = Some client → virtualIp client = Some v →
  let h' := handshakeReply done c client (addDns (hostname client) v (addClient c h)) in
  same_book (set_dns (insert (hostname client) v)
    (set_router (<[v := c]> (clientMap h)) ((map_to_list (clientMap h)).*2 ++ [c]) h)) h'.
Proof.
  intros Hc Hv. rewrite (addClient_eq _ _ _ Hc). unfold vipKey. rewrite Hv. apply same_book_reply.
Qed.

(** What [UniqueHostName] promises, on the DNS table of a book. *)
Lemma unique_in_book h L req :
  book h L → let name := default [] (UniqueHostName req (dnsMap h)) in
  (∀ w x, L !! w = Some x → h_name x ≠ name) ∧ ((∀ w x, L !! w = Some x → h_name x ≠ req) → name = req).
Proof.
  intros B. destruct (UniqueHostName_total req (dnsMap h)) as (name & -> & Hn & Hreq). simpl.
  assert (∀ n, dnsMap h !! n = None ↔ ∀ w x, L !! w = Some x → h_name x ≠ n) as Hd.
  { intros n. rewrite eq_None_not_Some. split.
    - intros Hno w x Hx Hxn. apply Hno. exists w. apply (book_dns _ _ B). eauto.
    - intros Hno [w Hw]. apply (book_dns _ _ B) in Hw as (x & Hx & Hxn). by apply (Hno w x). }
  split; [by apply Hd|]. intros. by apply Hreq, Hd.
Qed.

(** The outcome of a handshake, as the client object and the error show it. *)
Definition attached (c : nat) (h' : Hub) (err : option error) : option (ip4 * bytes) :=
  match err, hub_clients h' !! c with
  | None, Some client => v ← virtualIp client; Some (v, hostname client)
  | _, _ => None
  end.

Section handshake.
Context (done : bool) (c : nat) (gp : GamePacket) (h : Hub) (L : Lease) (client0 : Client).
Let payload : bytes := sdata (Payload gp).
Let cid : bytes := sub payload 33 49.
Let req : bytes := drop 49 payload.
Let client1 : Client := set_identity (default 0 (payload !! 0%nat)) (sub payload 1 33) cid client0.
Context (B : book h L) (Hc0 : hub_clients h !! c = Some client0) (Hv0 : virtualIp client0 = None).
Context (Hlen : 49 <= len payload).

Lemma client1_lookup : hub_clients (setIdentity c payload h) !! c = Some client1.
Proof. rewrite lookup_setIdentity, decide_True, Hc0 by done. done. Qed.

(** The rest of the handshake, once the client has a place. *)
Lemma handshake_publish client v h1 L' :
  assignPlace c req (dnsMap h) (setIdentity c payload h) = h1 →
  hub_clients h1 !! c = Some client → virtualIp client = Some v →
  book (set_dns (insert (hostname client) v)
    (set_router (<[v := c]> (clientMap h1)) ((map_to_list (clientMap h1)).*2 ++ [c]) h1)) L' →
  let r := handleHandshake done c gp h in
  book r.2 L' ∧ r.1 = None ∧ attached c r.2 r.1 = Some (v, hostname client).
Proof.
  intros Ha Hc Hv B'. unfold handleHandshake. fold payload. rewrite (proj2 (Z.ltb_ge _ _)) by done.
  fold req. rewrite Ha, Hc, Hv. simpl.
  pose proof (publish_book done c client v h1 Hc Hv) as Hs. simpl in Hs.
  split; [by eapply book_same|]. split; [done|]. unfold attached.
  eapply same_book_lookup in Hs as (client' & Hc' & Hp); [|exact Hc].
  simpl in Hc'. rewrite Hc'. unfold place in Hp. simplify_eq. by rewrite H, Hv; simpl; congruence.
Qed.

Lemma handshake_resume oc :
  retentionMap h !! cid = Some oc →
  let L' := <[oc_virtualIp oc := Online cid (oc_hostname oc)]> L in
  let r := handleHandshake done c gp h in
  lease_step L (Attach cid req (Some (oc_virtualIp oc, oc_hostname oc))) L' ∧
  book r.2 L' ∧ r.1 = None ∧ attached c r.2 r.1 = Some (oc_virtualIp oc, oc_hostname oc).
Proof.
  intros Hr L'. pose proof (book_reserved _ _ B _ _ Hr) as HL.
  assert (lease_step L (Attach cid req (Some (oc_virtualIp oc, oc_hostname oc))) L') as Hst
    by (by eapply attach_resume). split; [done|].
  set (client := set_place (Some (oc_virtualIp oc)) (oc_hostname oc) client1).
  eapply (handshake_publish client (oc_virtualIp oc)
    (set_retention (delete cid) (set_clients (insert c client) (setIdentity c payload h))));
    [|apply lookup_insert_eq|done|].
  - unfold assignPlace. rewrite client1_lookup. simpl. rewrite Hr. done.
  - eapply (book_attach h L _ _ c client B); try done; simpl.
    + apply (lease_step_wf _ _ _ Hst), B.
    + rewrite keys_replace by done. apply B.
    + eauto.
    + naive_solver.
    + apply lookup_insert_eq.
    + intros c' Hn. rewrite lookup_insert_ne by done.
      pose proof (lookup_setIdentity c payload h c') as E. by rewrite decide_False in E.
Qed.

Lemma handshake_fresh l x :
  retentionMap h !! cid = None → freeIps h = l ++ [x] →
  (∀ w x, L !! w = Some x → h_cid x ≠ cid) →
  let name := default [] (UniqueHostName req (dnsMap h)) in
  let L' := <[vip_of x := Online cid name]> L in
  let r := handleHandshake done c gp h in
  lease_step L (Attach cid req (Some (vip_of x, name))) L' ∧
  book r.2 L' ∧ r.1 = None ∧ attached c r.2 r.1 = Some (vip_of x, name).
Proof.
  intros Hr Hf Hcid name L'. destruct (unique_in_book h L req B) as [Hn1 Hn2]. fold name in Hn1, Hn2.
  assert (vip_of x ∈ freed h) as Hx.
  { unfold freed. rewrite Hf, fmap_app. apply elem_of_app. right. apply list_elem_of_singleton. done. }
  apply (book_free_fresh _ L) in Hx as [Hx Ha]; [|done].
  assert (lease_step L (Attach cid req (Some (vip_of x, name))) L') as Hst
    by (apply attach_new; eauto). split; [done|].
  set (client := set_place (Some (vip_of x)) name client1).
  eapply (handshake_publish client (vip_of x)
    (set_clients (insert c client) (set_free l (setIdentity c payload h))));
    [|apply lookup_insert_eq|done|].
  - unfold assignPlace. rewrite client1_lookup. simpl. rewrite Hr.
    destruct (getIp_spec (setIdentity c payload h)) as [[Hnil _]|(l' & x' & Hl' & ->)]; simpl in *;
      [rewrite Hf in Hnil; by destruct l|].
    rewrite Hf in Hl'. apply app_inj_tail in Hl' as [<- <-]. done.
  - eapply (book_attach h L _ _ c client B); try done; simpl.
    + apply (lease_step_wf _ _ _ Hst), B.
    + rewrite keys_add by done. rewrite <- (book_free _ _ B). unfold freed. simpl. rewrite Hf, fmap_app. simpl.
      solve_Permutation.
    + by left.
    + naive_solver.
    + apply lookup_insert_eq.
    + intros c' Hn. rewrite lookup_insert_ne by done.
      pose proof (lookup_setIdentity c payload h c') as E. by rewrite decide_False in E.
    + by rewrite delete_id.
Qed.
End handshake.

(** ** Client objects without a route *)

(** The book does not see client objects that hold no address. *)
Lemma book_unrouted h h2 L c :
  book h L → (∀ old, hub_clients h !! c = Some old → virtualIp old = None) →
  (∀ c', c' ≠ c → hub_clients h2 !! c' = hub_clients h !! c') →
  clientMap h2 = clientMap h → wsHandlers h2 = wsHandlers h → retentionMap h2 = retentionMap h →
  dnsMap h2 = dnsMap h → freeIps h2 = freeIps h → book h2 L.
Proof.
  intros B Hold Hoth Hm Hw Hr Hd Hf. destruct B.
  split; try congruence; rewrite ?Hm, ?Hr, ?Hd; try done.
  - unfold freed. by rewrite Hf.
  - intros v c' Hv. destruct (book_route0 _ _ Hv) as (old & Ho & Hov & HL).
    assert (c' ≠ c) by (intros ->; rewrite (Hold _ Ho) in Hov; done).
    exists old. by rewrite Hoth.
Qed.

Lemma book_newClient h L c a : book h L → hub_clients h !! c = None → book (newClient c a None h) L.
Proof.
  intros B Hc. apply (book_unrouted h _ L c); try done.
  - intros old. by rewrite Hc.
  - intros c' Hn. simpl. by rewrite lookup_insert_ne.
Qed.

Lemma handshake_full done c gp h L client0 :
  let cid := sub (sdata (Payload gp)) 33 49 in
  book h L → hub_clients h !! c = Some client0 → virtualIp client0 = None →
  49 <= len (sdata (Payload gp)) → retentionMap h !! cid = None → freeIps h = [] →
  (∀ w x, L !! w = Some x → h_cid x ≠ cid) →
  let r := handleHandshake done c gp h in
  lease_step L (Attach cid (drop 49 (sdata (Payload gp))) None) L ∧ book r.2 L ∧
  r.1 = Some ErrNoVirtualIp ∧ attached c r.2 r.1 = None.
Proof.
  intros cid B Hc0 Hv0 Hlen Hr Hf Hcid. subst cid. split.
  { apply attach_full; [done|]. intros v Hv. rewrite <- (book_free _ _ B) in Hv.
    unfold freed in Hv. rewrite Hf in Hv. simpl in Hv. apply list_elem_of_fmap in Hv as ([w x] & -> & Hw).
    apply elem_of_map_to_list in Hw. simpl. eauto. }
  unfold handleHandshake. rewrite (proj2 (Z.ltb_ge _ _)) by done.
  unfold assignPlace. rewrite (client1_lookup c gp h client0 Hc0). simpl. rewrite Hr.
  unfold getIp. simpl. rewrite Hf. simpl. rewrite lookup_insert_eq. simpl. split_and!; try done.
  apply (book_unrouted h _ L c); try done; [naive_solver|].
  intros c' Hn. simpl. rewrite lookup_insert_ne by done.
  pose proof (lookup_setIdentity c (sdata (Payload gp)) h c') as E. by rewrite decide_False in E.
Qed.

(** ** Detaching *)

Lemma serverWS_done_eq c now rt h client v :
  hub_clients h !! c = Some client → virtualIp client = Some v → is_Some (clientMap h !! v) →
  ∃ tm slice, serverWS_done c now rt h =
    set_tm tm (set_router (delete v (clientMap h)) slice
      (set_retention (insert (clientID client) (mkOffline v (hostname client) (now + rt))) h)).
Proof.
  intros Hc Hv [c' Hm]. unfold serverWS_done, retainClient, removeClient, vipKey.
  rewrite Hc, Hv. simpl. rewrite Hc, Hv. simpl. rewrite Hm. eauto.
Qed.

Lemma book_detach h L c client v now rt :
  book h L → hub_clients h !! c = Some client → clientMap h !! v = Some c → virtualIp client = Some v →
  let L' := <[v := Reserved (clientID client) (hostname client) (now + rt)]> L in
  lease_step L (Detach v (now + rt)) L' ∧ book (serverWS_done c now rt h) L'.
Proof.
  intros B Hc Hm Hvip L'. destruct (book_route _ _ B _ _ Hm) as (? & ? & _ & HL). simplify_eq.
  assert (lease_step L (Detach v (now + rt)) L') as Hst by (by eapply detach). split; [done|].
  assert (lease_wf L') as Hwf by (apply (lease_step_wf _ _ _ Hst), B).
  assert (∀ w, w ≠ v → L' !! w = L !! w) as Hne by (intros; by apply lookup_insert_ne).
  assert (L' !! v = Some (Reserved (clientID client) (hostname client) (now + rt))) as HL'
    by apply lookup_insert_eq.
  destruct (serverWS_done_eq c now rt h client v) as (tm & slice & ->); [done|done|eauto|].
  apply (book_same _ _ _ (same_book_tm _ _)). split; simpl; try done.
  - apply B.
  - unfold L'. erewrite keys_replace by done. apply B.
  - intros w c' [Hwv Hw]%lookup_delete_Some. rewrite Hne by done. by apply (book_route _ _ B).
  - intros w cid n Hw. assert (w ≠ v) by congruence. rewrite lookup_delete_ne by done.
    rewrite Hne in Hw by done. by eapply book_online.
  - intros cid oc [[<- <-]|[Hn Ho]]%lookup_insert_Some; [done|].
    apply (book_reserved _ _ B) in Ho. rewrite Hne; [done|]. congruence.
  - intros w cid n e Hw. destruct (decide (w = v)) as [->|Hwv].
    + rewrite HL' in Hw. simplify_eq. apply lookup_insert_eq.
    + rewrite lookup_insert_ne.
      * rewrite Hne in Hw by done. by apply (book_retained _ _ B).
      * intros <-. apply Hwv. eapply Hwf; [exact Hw|exact HL'|by left].
  - intros n w. rewrite (book_dns _ _ B). destruct (decide (w = v)) as [->|Hwv]; [|by rewrite Hne].
    rewrite HL, HL'. split; intros (x & ? & ?); simplify_eq/=; eauto.
Qed.

(** ** Expiry *)

Lemma releaseIp_freed v h : v = vip_of (lastByte v) → freed (releaseIp v h) = freed h ++ [v].
Proof.
  intros Hv. destruct v as [[[a b] d] x]. unfold freed, releaseIp. simpl. rewrite fmap_app. simpl.
  by rewrite Hv.
Qed.

Lemma releaseIp_frame v h :
  wsHandlers (releaseIp v h) = wsHandlers h ∧ clientMap (releaseIp v h) = clientMap h ∧
  hub_clients (releaseIp v h) = hub_clients h ∧ dnsMap (releaseIp v h) = dnsMap h ∧
  retentionMap (releaseIp v h) = retentionMap h.
Proof. by destruct v as [[[a b] d] x]. Qed.

Lemma book_expire h L cid oc :
  book h L → retentionMap h !! cid = Some oc → book (expire (cid, oc) h) (delete (oc_virtualIp oc) L).
Proof.
  intros B Hr. pose proof (book_reserved _ _ B _ _ Hr) as HL. set (v := oc_virtualIp oc) in *.
  pose proof (book_in_addresses _ _ _ _ B HL) as Ha.
  destruct (releaseIp_frame v h) as (Ew & Em & Ec & Ed & Er). unfold expire. simpl. fold v.
  assert (∀ w x, delete v L !! w = Some x ↔ w ≠ v ∧ L !! w = Some x) as Hdel
    by (intros; rewrite lookup_delete_Some; naive_solver).
  split; simpl; rewrite ?Ew, ?Em, ?Ec, ?Ed, ?Er; try apply B.
  - intros a b x y [_ Hx]%Hdel [_ Hy]%Hdel. by apply (book_wf _ _ B).
  - change (freed (releaseIp v h) ++ (map_to_list (delete v L)).*1 ≡ₚ addresses).
    rewrite releaseIp_freed by (by apply addresses_vip). rewrite <- (book_free _ _ B).
    rewrite <- (map_to_list_delete L v _ HL). simpl. solve_Permutation.
  - intros w c Hw. destruct (book_route _ _ B _ _ Hw) as (client & ? & ? & Hc). exists client.
    rewrite Hdel. split_and!; try done. congruence.
  - intros w cid' n [_ Hw]%Hdel. by eapply book_online.
  - intros cid' oc' [Hn Hoc]%lookup_delete_Some. pose proof (book_reserved _ _ B _ _ Hoc) as HL'.
    apply Hdel. split; [|done]. congruence.
  - intros w cid' n e [Hwv Hw]%Hdel. rewrite lookup_delete_ne; [by apply (book_retained _ _ B)|].
    intros <-. apply Hwv. eapply (book_wf _ _ B); [exact Hw|exact HL|by left].
  - intros n w. rewrite lookup_delete_Some, (book_dns _ _ B). setoid_rewrite Hdel. split.
    + intros (Hn & x & Hx & Hxn). exists x. split_and!; try done. intros ->. rewrite HL in Hx. injection Hx as <-. by apply Hn.
    + intros (x & [Hwv Hx] & Hxn). split; [|eauto]. intros <-. apply Hwv.
      eapply (book_wf _ _ B); [exact Hx|exact HL|]. right. done.
Qed.

Definition drop_leases (l : list (bytes * offlineClient)) (L : Lease) : Lease :=
  foldr (λ e L, delete (oc_virtualIp e.2) L) L l.

Lemma book_expire_list l h L :
  book h L → NoDup l.*1 → (∀ e, e ∈ l → retentionMap h !! e.1 = Some e.2) →
  book (foldr expire h l) (drop_leases l L) ∧
  ∀ cid, cid ∉ l.*1 → retentionMap (foldr expire h l) !! cid = retentionMap h !! cid.
Proof.
  intros B. induction l as [|[cid oc] l IH]; simpl; [done|]. rewrite list.NoDup_cons. intros [Hn Hnd] Hin.
  destruct IH as [B' Hr']; [done|intros; apply Hin; by right|]. split.
  - apply book_expire; [done|]. rewrite Hr' by done. apply (Hin (cid, oc)). by left.
  - intros cid'. rewrite not_elem_of_cons. intros [Hne Hni].
    destruct (releaseIp_frame (oc_virtualIp oc) (foldr expire h l)) as (_ & _ & _ & _ & ->).
    rewrite lookup_delete_ne by done. by apply Hr'.
Qed.

Lemma lookup_drop_leases (l : list (bytes * offlineClient)) (L : Lease) (v : ip4) :
  drop_leases l L !! v = if decide (v ∈ (λ e, oc_virtualIp e.2) <$> l) then None else L !! v.
Proof.
  induction l as [|e l IH]; simpl; [done|]. rewrite lookup_delete, IH.
  repeat case_decide; set_solver.
Qed.

Lemma book_tick h L now :
  book h L →
  let L' := filter (λ e, expired now e.2 = false) L in
  lease_step L (Expire now) L' ∧ book (cleanRetention_tick now h) L'.
Proof.
  intros B L'. split; [apply expire_all|]. unfold cleanRetention_tick.
  set (l := map_to_list (filter (λ e, oc_expiry e.2 < now) (retentionMap h))).
  assert (∀ cid oc, (cid, oc) ∈ l ↔ retentionMap h !! cid = Some oc ∧ oc_expiry oc < now) as Hl
    by (intros; unfold l; rewrite elem_of_map_to_list, map_lookup_filter_Some; done).
  replace L' with (drop_leases l L).
  { apply (book_expire_list l h L B); [apply NoDup_fst_map_to_list|].
    intros [cid oc] He. by apply Hl in He as [? _]. }
  apply map_eq. intros v. rewrite lookup_drop_leases. unfold L'. case_decide as Hv.
  - apply list_elem_of_fmap in Hv as ([cid oc] & -> & [Hr He]%Hl). symmetry.
    apply map_lookup_filter_None. right. simpl. intros x Hx. rewrite (book_reserved _ _ B _ _ Hr) in Hx.
    simplify_eq/=. apply not_false_iff_true, Z.ltb_lt. done.
  - destruct (L !! v) as [x|] eqn:E; symmetry.
    + apply map_lookup_filter_Some. split; [done|]. simpl. destruct x as [|cid n e]; [done|]. simpl.
      apply Z.ltb_ge. destruct (decide (e < now)); [|lia]. exfalso. apply Hv.
      apply list_elem_of_fmap. exists (cid, mkOffline v n e). split; [done|]. apply Hl.
      split; [by apply (book_retained _ _ B)|done].
    + apply map_lookup_filter_None. by left.
Qed.

(** ** Runs *)

Inductive lease_run : Lease → list label → Lease → Prop :=
  | lease_run_nil L : lease_run L [] L
  | lease_run_cons L l L1 tr L' : lease_step L l L1 → lease_run L1 tr L' → lease_run L (l :: tr) L'.

Lemma lease_run_app L tr1 L1 tr2 L2 : lease_run L tr1 L1 → lease_run L1 tr2 L2 → lease_run L (tr1 ++ tr2) L2.
Proof. induction 1; simpl; [done|]. econstructor; eauto. Qed.

Section runs.
Context `{DnsLib, AEAD, LZ4}.

(** The client identity a handshake carries, and the name it asks for. *)
Definition handshakeID (gp : GamePacket) : bytes := sub (sdata (Payload gp)) 33 49.
Definition handshakeName (gp : GamePacket) : bytes := drop 49 (sdata (Payload gp)).

(** No client online has this identity. *)
Definition id_offline (cid : bytes) (h : Hub) : Prop :=
  ∀ v c client, clientMap h !! v = Some c → hub_clients h !! c = Some client → clientID client ≠ cid.

(** The steps of an orderly run: a client shakes hands once per connection, with
    an identity that is not online, and handshakes and disconnections do not
    overlap, so that each is one step.  The server does not enforce this;
    [Ledger.v] says what holds of the addresses without it.  The packet object that
    [listenUdp] takes from its pool has no buffer: every path that returns one
    clears [RawData] first. *)
Inductive orderly_step : Hub → label → Hub → Prop :=
  | step_connect h c : hub_clients h !! c = None → orderly_step h Tau (newClient c None None h)
  | step_handshake h c done gp client :
      PType gp = TypeHandshake → hub_clients h !! c = Some client → virtualIp client = None →
      49 <= len (sdata (Payload gp)) → id_offline (handshakeID gp) h →
      let r := HandleWSMessage done c gp h in
      orderly_step h (Attach (handshakeID gp) (handshakeName gp) (attached c r.2 r.1)) r.2
  | step_short h c done gp :
      PType gp = TypeHandshake → len (sdata (Payload gp)) < 49 → orderly_step h Tau (HandleWSMessage done c gp h).2
  | step_message h c done gp : PType gp ≠ TypeHandshake → orderly_step h Tau (HandleWSMessage done c gp h).2
  | step_disconnect h c client v now rt :
      hub_clients h !! c = Some client → virtualIp client = Some v → clientMap h !! v = Some c →
      orderly_step h (Detach v (now + rt)) (serverWS_done c now rt h)
  | step_leave h c client now rt :
      hub_clients h !! c = Some client → virtualIp client = None → orderly_step h Tau (serverWS_done c now rt h)
  | step_tick h now : orderly_step h (Expire now) (cleanRetention_tick now h)
  | step_transfer h done : orderly_step h Tau (transfer_step done h)
  | step_udp h done a g payload : RawData g = nil_slice → orderly_step h Tau (listenUdp_datagram done a g payload h)
  | step_check h g a d g' h' : listenCheck_datagram g a d h = (g', Some h') → orderly_step h Tau h'
  | step_task h h' : handleP2PTask_step h = Some h' → orderly_step h Tau h'
  | step_send h : orderly_step h Tau (writeUdpPacket_step h).2
  | step_write h wo co c r out h' : writePump_step wo co c h = Some (r, out, h') → orderly_step h Tau h'
  | step_ping h c h' : pingHandler c h = Some h' → orderly_step h Tau h'.

Inductive orderly_run : Hub → list label → Hub → Prop :=
  | orderly_run_nil h : orderly_run h [] h
  | orderly_run_cons h l h1 tr h' : orderly_step h l h1 → orderly_run h1 tr h' → orderly_run h (l :: tr) h'.

Lemma orderly_run_app h tr h1 tr' h2 : orderly_run h tr h1 → orderly_run h1 tr' h2 → orderly_run h (tr ++ tr') h2.
Proof. induction 1; simpl; [done|]. econstructor; eauto. Qed.

Lemma orderly_run_one h l h' : orderly_step h l h' → orderly_run h [l] h'.
Proof. intros. econstructor; [done|constructor]. Qed.

Lemma dispatch_handshake h L done c gp :
  book h L → PType gp = TypeHandshake → HandleWSMessage done c gp h = handleHandshake done c gp h.
Proof. intros B Ht. unfold HandleWSMessage. by rewrite Ht, (book_handlers _ _ B). Qed.

Lemma dispatch_other h L done c gp :
  book h L → PType gp ≠ TypeHandshake → same_book h (HandleWSMessage done c gp h).2.
Proof.
  intros B Ht. unfold HandleWSMessage. rewrite (book_handlers _ _ B).
  unfold registerDefaultWSHandlers, RegisterWSHandler.
  destruct (decide (PType gp = TypeP2PClosed)) as [->|?]; [apply same_book_closed|].
  destruct (decide (PType gp = TypeP2PEstablished)) as [->|?]; [apply same_book_established|].
  destruct (decide (PType gp = TypeNoiseHandshake)) as [->|?]; [apply same_book_noise|].
  rewrite !lookup_insert_ne by congruence. done.
Qed.

Lemma handshake_simulated h L c done gp client :
  book h L → hub_clients h !! c = Some client → virtualIp client = None →
  49 <= len (sdata (Payload gp)) → id_offline (handshakeID gp) h →
  let r := handleHandshake done c gp h in
  ∃ L', lease_step L (Attach (handshakeID gp) (handshakeName gp) (attached c r.2 r.1)) L' ∧ book r.2 L'.
Proof.
  intros B Hc Hv Hlen Hoff. unfold handshakeID, handshakeName in *.
  destruct (retentionMap h !! sub (sdata (Payload gp)) 33 49) as [oc|] eqn:Hr.
  { destruct (handshake_resume done c gp h L client B Hc Hv Hlen oc Hr) as (Hs & B' & _ & ->). eauto. }
  assert (∀ w x, L !! w = Some x → h_cid x ≠ sub (sdata (Payload gp)) 33 49) as Hcid.
  { intros w [cid n|cid n e] HL; simpl; intros ->.
    - destruct (book_online _ _ B _ _ _ HL) as [c' Hc']. destruct (book_route _ _ B _ _ Hc') as (cl & Hcl & _ & HL').
      simplify_eq. by eapply Hoff.
    - apply (book_retained _ _ B) in HL. congruence. }
  destruct (getIp_spec h) as [[Hf _]|(l & x & Hf & _)].
  - destruct (handshake_full done c gp h L client B Hc Hv Hlen Hr Hf Hcid) as (Hs & B' & _ & ->). eauto.
  - destruct (handshake_fresh done c gp h L client B Hc Hv Hlen l x Hr Hf Hcid) as (Hs & B' & _ & ->). eauto.
Qed.

Lemma orderly_step_simulated h l h' L : orderly_step h l h' → book h L → ∃ L', lease_step L l L' ∧ book h' L'.
Proof.
  intros Hst B. assert (∀ h'', same_book h h'' → ∃ L', lease_step L Tau L' ∧ book h'' L') as Htau
    by (intros h'' Hs; exists L; split; [constructor|by eapply book_same]).
  destruct Hst.
  - exists L. split; [constructor|]. by apply book_newClient.
  - subst r. erewrite dispatch_handshake by done. by eapply handshake_simulated.
  - erewrite dispatch_handshake by done. unfold handleHandshake.
    rewrite (proj2 (Z.ltb_lt _ _)) by done. by apply Htau.
  - apply Htau. by eapply dispatch_other.
  - eexists. by apply book_detach.
  - apply Htau. unfold serverWS_done. rewrite H2, H3. done.
  - eexists. by apply book_tick.
  - apply Htau, same_book_transfer_step.
  - apply Htau, same_book_listenUdp.
  - apply Htau. by eapply same_book_listenCheck.
  - apply Htau. by eapply same_book_task.
  - apply Htau, same_book_writeUdp.
  - apply Htau. by eapply same_book_writePump.
  - apply Htau. by eapply same_book_ping.
Qed.

Lemma orderly_run_simulated h tr h' L : orderly_run h tr h' → book h L → ∃ L', lease_run L tr L' ∧ book h' L'.
Proof.
  intros Hr. revert L. induction Hr as [h|h l h1 tr h' Hst Hr IH]; intros L B; [exists L; split; [constructor|done]|].
  destruct (orderly_step_simulated _ _ _ _ Hst B) as (L1 & HL1 & B1).
  destruct (IH L1 B1) as (L' & HL' & B'). exists L'. split; [by econstructor|done].
Qed.

(** In orderly runs the server's address book implements the lease
    specification: such a trace of connections, handshakes, disconnections,
    expiries and any other traffic, from the initial state, is a trace of
    [lease_step] with the same outcomes, and the routes, the retained places, the DNS table and the free
    stack describe exactly the leases it ends in. *)
Theorem orderly_refines_leases tr h :
  orderly_run NewHub tr h → ∃ L, lease_run ∅ tr L ∧ book h L.
Proof. intros Hr. exact (orderly_run_simulated _ _ _ _ Hr book_init). Qed.

(** ** Consequences for the hub *)

(** The addresses of the online and of the retained clients. *)
Definition routed (h : Hub) : list ip4 := (map_to_list (clientMap h)).*1.
Definition retained (h : Hub) : list ip4 := (λ e, oc_virtualIp e.2) <$> map_to_list (retentionMap h).

Lemma elem_of_routed h L v : book h L → v ∈ routed h ↔ ∃ cid n, L !! v = Some (Online cid n).
Proof.
  intros B. unfold routed. rewrite list_elem_of_fmap. split.
  - intros ([w c] & -> & Hw%elem_of_map_to_list). destruct (book_route _ _ B _ _ Hw) as (? & _ & _ & HL). eauto.
  - intros (cid & n & HL). destruct (book_online _ _ B _ _ _ HL) as [c Hc].
    exists (v, c). by rewrite elem_of_map_to_list.
Qed.

Lemma elem_of_retained h L v : book h L → v ∈ retained h ↔ ∃ cid n e, L !! v = Some (Reserved cid n e).
Proof.
  intros B. unfold retained. rewrite list_elem_of_fmap. split.
  - intros ([cid oc] & -> & Hw%elem_of_map_to_list). apply (book_reserved _ _ B) in Hw. eauto.
  - intros (cid & n & e & HL). apply (book_retained _ _ B) in HL.
    exists (cid, mkOffline v n e). by rewrite elem_of_map_to_list.
Qed.

Lemma retained_NoDup h L : book h L → NoDup (retained h).
Proof.
  intros B. apply NoDup_fmap_2_strong; [|apply NoDup_map_to_list].
  intros [c1 o1] [c2 o2] Ha%elem_of_map_to_list Hb%elem_of_map_to_list E. simpl in E.
  pose proof (book_reserved _ _ B _ _ Ha) as L1. pose proof (book_reserved _ _ B _ _ Hb) as L2.
  rewrite E, L2 in L1. simplify_eq. congruence.
Qed.

(** Every address is free, routed or retained, and only one of them. *)
Lemma book_partition h L : book h L → freed h ++ routed h ++ retained h ≡ₚ addresses.
Proof.
  intros B. rewrite <- (book_free _ _ B). apply Permutation_app; [done|].
  apply NoDup_Permutation.
  - apply list.NoDup_app. split_and!; [apply NoDup_fst_map_to_list| |by eapply retained_NoDup].
    intros v. rewrite (elem_of_routed _ _ _ B), (elem_of_retained _ _ _ B). naive_solver.
  - apply NoDup_fst_map_to_list.
  - intros v. rewrite elem_of_app, (elem_of_routed _ _ _ B), (elem_of_retained _ _ _ B).
    rewrite list_elem_of_fmap. split.
    + intros [(cid & n & HL)|(cid & n & e & HL)]; by eexists (v, _); rewrite elem_of_map_to_list.
    + intros ([w [cid n|cid n e]] & -> & Hw%elem_of_map_to_list); simpl; eauto.
Qed.

(** In every state an orderly run reaches, the 253 addresses 10.0.6.2 to
    10.0.6.254 are partitioned into free, routed and retained ones: none is
    lost and none is handed out twice. *)
Theorem addresses_partitioned tr h :
  orderly_run NewHub tr h → freed h ++ routed h ++ retained h ≡ₚ addresses ∧ NoDup addresses ∧ length addresses = 253%nat.
Proof.
  intros Hr. destruct (orderly_run_simulated _ _ _ _ Hr book_init) as (L & _ & B).
  split; [by eapply book_partition|]. split; [apply addresses_NoDup|done].
Qed.

(** Routing and naming are exact in every state an orderly run reaches: a route
    leads to the client object that was assigned the address, whose host name
    resolves to it; and a name resolves only to the address of the online or
    retained client that bears it. *)
Theorem routes_and_names_exact tr h :
  orderly_run NewHub tr h →
  (∀ v c, clientMap h !! v = Some c → ∃ client, hub_clients h !! c = Some client ∧
     virtualIp client = Some v ∧ dnsMap h !! hostname client = Some v) ∧
  (∀ cid oc, retentionMap h !! cid = Some oc → dnsMap h !! oc_hostname oc = Some (oc_virtualIp oc)) ∧
  (∀ n v, dnsMap h !! n = Some v →
     (∃ c client, clientMap h !! v = Some c ∧ hub_clients h !! c = Some client ∧ hostname client = n) ∨
     (∃ cid oc, retentionMap h !! cid = Some oc ∧ oc_virtualIp oc = v ∧ oc_hostname oc = n)).
Proof.
  intros Hr. destruct (orderly_run_simulated _ _ _ _ Hr book_init) as (L & _ & B). split_and!.
  - intros v c Hv. destruct (book_route _ _ B _ _ Hv) as (client & Hc & Hvip & HL).
    exists client. split_and!; [done|done|]. apply (book_dns _ _ B). eauto.
  - intros cid oc Hoc. apply (book_dns _ _ B). apply (book_reserved _ _ B) in Hoc. eauto.
  - intros n v Hn. apply (book_dns _ _ B) in Hn as ([cid n'|cid n' e] & HL & <-).
    + left. destruct (book_online _ _ B _ _ _ HL) as [c Hc].
      destruct (book_route _ _ B _ _ Hc) as (client & Hcl & _ & HL'). simplify_eq. eauto.
    + right. apply (book_retained _ _ B) in HL. simpl. eauto.
Qed.

(** ** Reconnection *)

(** A trace in which client [cid] stays away and nothing later than [e] is
    taken as the time of an expiry round. *)
Definition quiet (cid : bytes) (e : Z) (l : label) : Prop :=
  match l with
  | Attach cid' _ _ => cid' ≠ cid
  | Expire now => now <= e
  | _ => True
  end.

Lemma reserved_stays L tr L' v cid name e :
  lease_run L tr L' → lease_wf L → Forall (quiet cid e) tr →
  L !! v = Some (Reserved cid name e) → L' !! v = Some (Reserved cid name e).
Proof.
  induction 1 as [|L l L1 tr L' Hst Hr IH]; [done|]. intros Hwf [Hq Hqs]%list.Forall_cons HL.
  apply IH; [by eapply lease_step_wf|done|].
  destruct Hst as [L w cid' req n' e' Hw| L w cid' req n' Hw| | L w cid' n' e' Hw|L now|]; try done.
  - rewrite lookup_insert_ne; [done|]. intros ->. simpl in Hq. congruence.
  - rewrite lookup_insert_ne; [done|]. congruence.
  - rewrite lookup_insert_ne; [done|]. congruence.
  - apply map_lookup_filter_Some. split; [done|]. simpl in *. by apply Z.ltb_ge.
Qed.

(** C16: a client that loses its connection gets its address and its host name
    back: whatever happens meanwhile in an orderly run, if no expiry round later than the
    retention time has run, a handshake with the same identity on a new
    connection succeeds with the same address and the same name. *)
Theorem reconnect_restores tr h c client v now rt tr' h' c' client' done gp :
  orderly_run NewHub tr h →
  hub_clients h !! c = Some client → virtualIp client = Some v → clientMap h !! v = Some c →
  orderly_run (serverWS_done c now rt h) tr' h' →
  Forall (quiet (clientID client) (now + rt)) tr' →
  hub_clients h' !! c' = Some client' → virtualIp client' = None →
  PType gp = TypeHandshake → 49 <= len (sdata (Payload gp)) → handshakeID gp = clientID client →
  let r := HandleWSMessage done c' gp h' in
  r.1 = None ∧ attached c' r.2 r.1 = Some (v, hostname client).
Proof.
  intros Hr Hc Hv Hm Hr' Hq Hc' Hv' Ht Hlen Hid.
  destruct (orderly_run_simulated _ _ _ _ Hr book_init) as (L & _ & B).
  destruct (book_detach h L c client v now rt B Hc Hm Hv) as [_ B1].
  destruct (orderly_run_simulated _ _ _ _ Hr' B1) as (L2 & HL2 & B2).
  eapply reserved_stays in HL2; [|apply B1|done|apply lookup_insert_eq].
  apply (book_retained _ _ B2) in HL2. rewrite <- Hid in HL2.
  erewrite dispatch_handshake by done.
  destruct (handshake_resume done c' gp h' L2 client' B2 Hc' Hv' Hlen _ HL2) as (_ & _ & He & Ha). done.
Qed.
End runs.

(** ** Examples *)

Definition ex_shake (cid name : Z) : GamePacket :=
  NewGamePacket ip4_zero ip4_zero TypeHandshake (Slice 900 (replicate 33 3 ++ replicate 16 cid ++ [name]) []).

Definition ex_id (cid : Z) : bytes := replicate 16 cid.

(** Client 1 connects and shakes hands. *)
Definition ex_online : Hub := (HandleWSMessage false 1 (ex_shake 7 104) (newClient 1 None None NewHub)).2.

Definition ex_trace : list label := [Tau; Attach (ex_id 7) [104] (Some ((10, 0, 6, 2), [104]))].

Lemma ex_id_offline cid h : clientMap h = ∅ → id_offline cid h.
Proof. intros Hm v c client. by rewrite Hm. Qed.

Lemma ex_run : orderly_run NewHub ex_trace ex_online.
Proof.
  eapply orderly_run_cons; [by apply step_connect|].
  eapply orderly_run_cons; [|constructor].
  eapply (step_handshake (newClient 1 None None NewHub) 1 false (ex_shake 7 104)); try done.
Qed.

(** The connection drops, another client takes an address meanwhile, and
    client 1 comes back on a new connection. *)
Definition ex_away : Hub := serverWS_done 1 1000 60 ex_online.
Definition ex_meanwhile : Hub := (HandleWSMessage false 2 (ex_shake 8 104) (newClient 2 None None ex_away)).2.
Definition ex_back : Hub := newClient 3 None None (cleanRetention_tick 1060 ex_meanwhile).

Definition ex_client : Client := default (mkClient 0 [] None None [] [] []) (hub_clients ex_online !! 1%nat).

(** Evaluate a closed goal. *)
Ltac ev := vm_compute; first [reflexivity | done | intros; congruence].

Lemma ex_run_back :
  orderly_run ex_away [Tau; Attach (ex_id 8) [104] (Some ((10, 0, 6, 3), numbered [104] 1)); Expire 1060; Tau] ex_back.
Proof.
  eapply orderly_run_cons; [apply (step_connect ex_away 2); ev|].
  eapply (orderly_run_cons _ _ ex_meanwhile).
  { replace (Some (10, 0, 6, 3, numbered [104] 1))
      with (attached 2 ex_meanwhile (HandleWSMessage false 2 (ex_shake 8 104) (newClient 2 None None ex_away)).1) by ev.
    apply (step_handshake (newClient 2 None None ex_away) 2 false (ex_shake 8 104)
      (mkClient 0 [] None None [] (replicate 32 0) (replicate 16 0))); [ev..|apply ex_id_offline; ev]. }
  eapply orderly_run_cons; [apply (step_tick _ 1060)|].
  eapply orderly_run_cons; [apply (step_connect _ 3); ev|]. apply orderly_run_nil.
Qed.

Lemma reconnect_restores_witness :
  (let r := HandleWSMessage false 3 (ex_shake 7 120) ex_back in
   r.1 = None ∧ attached 3 r.2 r.1 = Some ((10, 0, 6, 2), hostname ex_client)) ∧ hostname ex_client = [104].
Proof.
  split; [|reflexivity].
  apply (reconnect_restores ex_trace ex_online 1 ex_client
    (10, 0, 6, 2) 1000 60 [Tau; Attach (ex_id 8) [104] (Some ((10, 0, 6, 3), numbered [104] 1)); Expire 1060; Tau]
    ex_back 3 (mkClient 0 [] None None [] (replicate 32 0) (replicate 16 0)));
    [exact ex_run|ev|ev|ev|exact ex_run_back|repeat constructor; ev|ev|ev|ev|ev|ev].
Defined.
