(* ===== verification/Interleave.v ===== *)
(** Interleavings of the server's critical sections.

    The handshake and the disconnection of several clients run in goroutines
    of their own and interleave between their locked sections.  [sec_step] is
    one section, in any order and on any connection; the safety of address
    assignment holds under every interleaving, [Ledger] accounts for every
    address, and the examples at the end are schedules under which the stronger
    guarantees of the orderly runs of [Lease] are lost. *)

From stdpp Require Import base numbers list gmap option tactics relations.
From S2P Require Import Prelude Cipher Packet Stun Util Hub HubWs HubUdp HubFrame Lease.

Local Open Scope Z_scope.

(** ** Sections as steps *)

(** The hub, the address each connection holds, and the connections whose
    disconnection has begun. *)
Record world := mkWorld { w_hub : Hub; w_owner : gmap nat ip4; w_closed : gset nat }.

(** The address [c] holds after the assignment section. *)
Definition own (c : nat) (h' : Hub) (o : gmap nat ip4) : gmap nat ip4 :=
  match hub_clients h' !! c ≫= virtualIp with
  | Some v => <[c := v]> o
  | None => delete c o
  end.

Inductive sec_step : world → world → Prop :=
  | sec_new c h o k :
      hub_clients h !! c = None → sec_step (mkWorld h o k) (mkWorld (newClient c None None h) o k)
  | sec_identity c payload h o k : sec_step (mkWorld h o k) (mkWorld (setIdentity c payload h) o k)
  | sec_assign c name snapshot h o k :
      let h' := assignPlace c name snapshot h in
      sec_step (mkWorld h o k) (mkWorld h' (own c h' o) k)
  | sec_route c h o k : sec_step (mkWorld h o k) (mkWorld (addClient c h) o k)
  | sec_name n v h o k : sec_step (mkWorld h o k) (mkWorld (addDns n v h) o k)
  | sec_retain c now rt h o k :
      c ∉ k → sec_step (mkWorld h o k) (mkWorld (retainClient c now rt h) (delete c o) ({[c]} ∪ k))
  | sec_unroute c h o k : sec_step (mkWorld h o k) (mkWorld (removeClient c h) o k)
  | sec_tick now h o k : sec_step (mkWorld h o k) (mkWorld (cleanRetention_tick now h) o k)
  | sec_other h h' o k : same_book h h' → sec_step (mkWorld h o k) (mkWorld h' o k).

(** The whole handlers are sequences of these sections. *)
Lemma handleHandshake_sections done c gp h o k client :
  hub_clients h !! c = Some client → ∃ o', rtc sec_step (mkWorld h o k) (mkWorld (handleHandshake done c gp h).2 o' k).
Proof.
  intros Hc. unfold handleHandshake. case_match; [eexists; reflexivity|].
  set (p := sdata (Payload gp)). set (h1 := setIdentity c p h). set (h2 := assignPlace c (drop 49 p) (dnsMap h) h1).
  assert (rtc sec_step (mkWorld h o k) (mkWorld h2 (own c h2 o) k)) as Hr
    by (eapply rtc_l; [apply sec_identity|]; eapply rtc_once; apply sec_assign).
  destruct (hub_clients h2 !! c) as [client'|]; [|eauto].
  destruct (virtualIp client') as [v|]; [|eauto].
  eexists. eapply rtc_r; [|apply sec_other, same_book_reply].
  eapply rtc_r; [|apply sec_name]. eapply rtc_r; [exact Hr|apply sec_route].
Qed.

Lemma serverWS_done_sections c now rt h o k :
  c ∉ k → ∃ o' k', rtc sec_step (mkWorld h o k) (mkWorld (serverWS_done c now rt h) o' k').
Proof.
  intros Hk. unfold serverWS_done. destruct (hub_clients h !! c) as [client|]; [|by eexists _, _].
  destruct (virtualIp client); [|by eexists _, _].
  eexists _, _. eapply rtc_l; [by apply sec_retain|]. apply rtc_once, sec_unroute.
Qed.

(** ** Addresses are never shared *)

Record world_ok (w : world) : Prop := {
  ok_addresses : freed (w_hub w) ++ (map_to_list (w_owner w)).*2 ++ retained (w_hub w) ⊆+ addresses;
  ok_owner c client : hub_clients (w_hub w) !! c = Some client → c ∉ w_closed w →
    w_owner w !! c = virtualIp client;
  ok_dom c : hub_clients (w_hub w) !! c = None → w_owner w !! c = None;
}.

Lemma owner_insert (o : gmap nat ip4) c v : (map_to_list (<[c := v]> o)).*2 ⊆+ v :: (map_to_list o).*2.
Proof.
  rewrite <- insert_delete_eq, map_to_list_insert by apply lookup_delete_eq. simpl.
  apply submseteq_skip, fmap_submseteq, map_to_list_submseteq, delete_subseteq.
Qed.

Lemma owner_delete (o : gmap nat ip4) c : (map_to_list (delete c o)).*2 ⊆+ (map_to_list o).*2.
Proof. apply fmap_submseteq, map_to_list_submseteq, delete_subseteq. Qed.

Lemma owner_release (o : gmap nat ip4) c v :
  o !! c = Some v → v :: (map_to_list (delete c o)).*2 ≡ₚ (map_to_list o).*2.
Proof. intros Hc. by rewrite <- (map_to_list_delete o c v Hc). Qed.

Lemma retained_insert h cid oc :
  (λ e, oc_virtualIp e.2) <$> map_to_list (<[cid := oc]> (retentionMap h)) ⊆+ oc_virtualIp oc :: retained h.
Proof.
  rewrite <- insert_delete_eq, map_to_list_insert by apply lookup_delete_eq. simpl.
  apply submseteq_skip, fmap_submseteq, map_to_list_submseteq, delete_subseteq.
Qed.

Lemma retained_delete h cid oc :
  retentionMap h !! cid = Some oc →
  retained h ≡ₚ oc_virtualIp oc :: ((λ e, oc_virtualIp e.2) <$> map_to_list (delete cid (retentionMap h))).
Proof. intros Hr. unfold retained. by rewrite <- (map_to_list_delete _ _ _ Hr). Qed.

Lemma ok_assign c name snapshot h o k :
  let h' := assignPlace c name snapshot h in
  world_ok (mkWorld h o k) → world_ok (mkWorld h' (own c h' o) k).
Proof.
  intros h' [Ha Ho Hd]. simpl in *. unfold h', own, assignPlace.
  destruct (hub_clients h !! c) as [client|] eqn:Ec.
  2:{ rewrite Ec. simpl. rewrite delete_id by auto. done. }
  destruct (retentionMap h !! clientID client) as [oc|] eqn:Er.
  - simpl. rewrite lookup_insert_eq. simpl. split; simpl.
    + etrans; [|exact Ha]. unfold freed, retained. simpl. apply submseteq_app; [done|].
      rewrite (retained_delete h _ _ Er). etrans; [apply submseteq_app; [apply owner_insert|done]|].
      simpl. by rewrite Permutation_middle.
    + intros c' cl'. rewrite !lookup_insert. case_decide; [by intros [= <-]|]. apply Ho.
    + intros c'. rewrite !lookup_insert. case_decide; [done|]. apply Hd.
  - destruct (getIp_spec h) as [[Hf ->]|(l & x & Hf & ->)]; simpl; rewrite lookup_insert_eq; simpl; split; simpl.
    + etrans; [|exact Ha]. apply submseteq_app; [done|]. apply submseteq_app; [apply owner_delete|done].
    + intros c' cl'. rewrite lookup_insert, lookup_delete. case_decide; [by intros [= <-]|]. apply Ho.
    + intros c'. rewrite lookup_insert, lookup_delete. case_decide; [done|]. apply Hd.
    + etrans; [|exact Ha]. unfold freed, retained. simpl. rewrite Hf, fmap_app, <- app_assoc. simpl.
      apply submseteq_app; [done|]. etrans; [apply submseteq_app; [apply owner_insert|done]|]. done.
    + intros c' cl'. rewrite !lookup_insert. case_decide; [by intros [= <-]|]. apply Ho.
    + intros c'. rewrite !lookup_insert. case_decide; [done|]. apply Hd.
Qed.

Lemma ok_retain c now rt h o k :
  c ∉ k → world_ok (mkWorld h o k) → world_ok (mkWorld (retainClient c now rt h) (delete c o) ({[c]} ∪ k)).
Proof.
  intros Hk [Ha Ho Hd]. simpl in *. assert (hub_clients (retainClient c now rt h) = hub_clients h) as Ec
    by (unfold retainClient; by repeat case_match).
  split; simpl; rewrite ?Ec.
  - etrans; [|exact Ha]. unfold retainClient. destruct (hub_clients h !! c) as [client|] eqn:E.
    + specialize (Ho _ _ E Hk). destruct (virtualIp client) as [v|].
      * unfold freed, retained. simpl. apply submseteq_app; [done|].
        rewrite <- (owner_release o c v Ho). etrans; [apply submseteq_app; [done|apply retained_insert]|].
        simpl. by rewrite Permutation_middle.
      * apply submseteq_app; [done|]. apply submseteq_app; [apply owner_delete|done].
    + apply submseteq_app; [done|]. apply submseteq_app; [apply owner_delete|done].
  - intros c' client Hc' Hk'. apply not_elem_of_union in Hk' as [?%not_elem_of_singleton Hk'].
    rewrite lookup_delete_ne by done. by apply Ho.
  - intros c' Hc'. apply lookup_delete_None. auto.
Qed.

Lemma expire_list_addresses l h :
  NoDup l.*1 → (∀ e, e ∈ l → retentionMap h !! e.1 = Some e.2) → (∀ v, v ∈ retained h → v ∈ addresses) →
  freed (foldr expire h l) ++ retained (foldr expire h l) ≡ₚ freed h ++ retained h ∧
  (∀ cid, cid ∉ l.*1 → retentionMap (foldr expire h l) !! cid = retentionMap h !! cid) ∧
  hub_clients (foldr expire h l) = hub_clients h.
Proof.
  induction l as [|[cid oc] l IH]; simpl; [done|]. rewrite list.NoDup_cons. intros [Hn Hnd] Hin Hadr.
  destruct IH as (IHp & IHr & IHc); [done|intros; apply Hin; by right|done|].
  set (g := foldr expire h l) in *. destruct (releaseIp_frame (oc_virtualIp oc) g) as (_ & _ & Ec & _ & Er).
  assert (retentionMap h !! cid = Some oc) as Hoc by (apply (Hin (cid, oc)); by left).
  assert (oc_virtualIp oc ∈ retained h) as Hv
    by (apply list_elem_of_fmap; exists (cid, oc); by rewrite elem_of_map_to_list).
  split_and!.
  - rewrite <- IHp. unfold expire. simpl.
    change (freed (releaseIp (oc_virtualIp oc) g) ++
      ((λ e, oc_virtualIp e.2) <$> map_to_list (delete cid (retentionMap (releaseIp (oc_virtualIp oc) g))))
      ≡ₚ freed g ++ retained g).
    rewrite Er, releaseIp_freed by (by apply addresses_vip, Hadr).
    rewrite (retained_delete g cid oc) by (by rewrite IHr). solve_Permutation.
  - intros cid'. rewrite not_elem_of_cons. intros [Hne Hni]. rewrite Er, lookup_delete_ne by done. by apply IHr.
  - by rewrite Ec.
Qed.

Lemma ok_tick now h o k : world_ok (mkWorld h o k) → world_ok (mkWorld (cleanRetention_tick now h) o k).
Proof.
  intros [Ha Ho Hd]. simpl in *. unfold cleanRetention_tick.
  destruct (expire_list_addresses (map_to_list (filter (λ e, oc_expiry e.2 < now) (retentionMap h))) h)
    as (Hp & _ & Hc).
  - apply NoDup_fst_map_to_list.
  - intros [cid oc] [? _]%elem_of_map_to_list%map_lookup_filter_Some. done.
  - intros v Hv. eapply elem_of_submseteq; [|exact Ha]. set_solver.
  - split; simpl; rewrite ?Hc; try done. etrans; [|exact Ha]. apply Permutation_submseteq.
    etrans; [|etrans; [apply (Permutation_app_head (map_to_list o).*2), Hp|]]; solve_Permutation.
Qed.

Lemma ok_same h h' o k : same_book h h' → world_ok (mkWorld h o k) → world_ok (mkWorld h' o k).
Proof.
  intros (Hf & Hr & _ & _ & _ & Hp) [Ha Ho Hd]. simpl in *. split; simpl.
  - unfold freed, retained. by rewrite Hf, Hr.
  - intros c client Hc Hk. specialize (Hp c). rewrite Hc in Hp. destruct (hub_clients h !! c) as [old|] eqn:E; [|done].
    apply (inj Some) in Hp. unfold place in Hp. simplify_eq. rewrite (Ho _ _ E Hk). congruence.
  - intros c Hc. specialize (Hp c). rewrite Hc in Hp. apply Hd. by destruct (hub_clients h !! c).
Qed.

Lemma ok_frame h h' o k :
  freeIps h' = freeIps h → retentionMap h' = retentionMap h → hub_clients h' = hub_clients h →
  world_ok (mkWorld h o k) → world_ok (mkWorld h' o k).
Proof.
  intros Hf Hr Hc [Ha Ho Hd]. simpl in *. split; simpl; rewrite ?Hc; try done.
  unfold freed, retained. by rewrite Hf, Hr.
Qed.

Lemma sec_step_ok w w' : sec_step w w' → world_ok w → world_ok w'.
Proof.
  destruct 1 as [c h o k Hc|c payload h o k|c name snap h o k h'|c h o k|n v h o k|c now rt h o k Hk|c h o k|now h o k|h h' o k Hs].
  - intros [Ha Ho Hd]. simpl in *. split; simpl; [done| |].
    + intros c' client. rewrite lookup_insert. case_decide; [|apply Ho]. subst. intros [= <-] _. simpl. auto.
    + intros c'. rewrite lookup_insert. case_decide; [done|]. apply Hd.
  - intros [Ha Ho Hd]. simpl in *. split; [done| |]; cbn [w_hub w_owner w_closed].
    + intros c' client. rewrite lookup_setIdentity. case_decide; [|apply Ho].
      intros (old & Hold & ->)%fmap_Some Hk. by rewrite (Ho _ _ Hold Hk).
    + intros c'. rewrite lookup_setIdentity. case_decide; [|apply Hd]. intros ?%fmap_None. auto.
  - apply ok_assign.
  - apply ok_frame; unfold addClient; by repeat case_match.
  - by apply ok_frame.
  - by apply ok_retain.
  - apply ok_frame; unfold removeClient; by repeat case_match.
  - apply ok_tick.
  - by apply ok_same.
Qed.

Lemma world_init : world_ok (mkWorld NewHub ∅ ∅).
Proof. split; [|done|done]. change (addresses ++ [] ⊆+ addresses). by rewrite app_nil_r. Qed.

Lemma world_run w w' : rtc sec_step w w' → world_ok w → world_ok w'.
Proof. induction 1; eauto using sec_step_ok. Qed.

Lemma submseteq_NoDup {A} (l k : list A) : l ⊆+ k → NoDup k → NoDup l.
Proof. intros [k' ->]%submseteq_Permutation Hn. by apply list.NoDup_app in Hn as (? & _ & _). Qed.

Lemma owner_inj (w : world) c1 c2 v :
  world_ok w → w_owner w !! c1 = Some v → w_owner w !! c2 = Some v → c1 = c2.
Proof.
  intros [Ha _ _] H1 H2. destruct (decide (c1 = c2)) as [|Hne]; [done|exfalso].
  assert (NoDup (map_to_list (w_owner w)).*2) as Hn.
  { pose proof addresses_NoDup as Hn. apply (submseteq_NoDup _ _ Ha) in Hn.
    apply list.NoDup_app in Hn as (_ & _ & Hn). by apply list.NoDup_app in Hn as (Hn & _ & _). }
  rewrite <- (owner_release _ _ _ H1) in Hn. apply list.NoDup_cons in Hn as [Hn _]. apply Hn.
  apply list_elem_of_fmap. exists (c2, v). split; [done|]. apply elem_of_map_to_list.
  by rewrite lookup_delete_ne.
Qed.

(** C8: however the locked sections of handshakes, disconnections and expiry
    rounds interleave, also when clients repeat a handshake or share an
    identity, no two live connections hold the same virtual address, and an
    address that is held is neither in the free stack nor retained. *)
Theorem no_shared_address w c1 c2 client1 client2 v :
  rtc sec_step (mkWorld NewHub ∅ ∅) w →
  hub_clients (w_hub w) !! c1 = Some client1 → c1 ∉ w_closed w → virtualIp client1 = Some v →
  (v ∈ addresses ∧ v ∉ freed (w_hub w) ∧ v ∉ retained (w_hub w)) ∧
  (hub_clients (w_hub w) !! c2 = Some client2 → c2 ∉ w_closed w → virtualIp client2 = Some v → c1 = c2).
Proof.
  intros Hr Hc1 Hk1 Hv1. apply world_run in Hr; [|apply world_init].
  pose proof (ok_owner _ Hr _ _ Hc1 Hk1) as Ho1. rewrite Hv1 in Ho1. split.
  - pose proof (ok_addresses _ Hr) as Ha. pose proof addresses_NoDup as Hn.
    apply (submseteq_NoDup _ _ Ha) in Hn.
    assert (v ∈ (map_to_list (w_owner w)).*2) as Hv
      by (apply list_elem_of_fmap; exists (c1, v); by rewrite elem_of_map_to_list).
    apply list.NoDup_app in Hn as (_ & Hd1 & Hn). apply list.NoDup_app in Hn as (_ & Hd2 & _).
    split_and!; [eapply elem_of_submseteq; [|exact Ha]; set_solver| |by apply Hd2].
    intros Hf. apply (Hd1 _ Hf). set_solver.
  - intros Hc2 Hk2 Hv2. pose proof (ok_owner _ Hr _ _ Hc2 Hk2) as Ho2. rewrite Hv2 in Ho2.
    by eapply owner_inj.
Qed.

(** ** Schedules that break the stronger guarantees *)

(** Client 1 is online at 10.0.6.2; its connection drops and it reconnects as
    connection 2 between the two sections of the disconnection. *)
Definition fast_reconnect (h : Hub) : Hub :=
  let h := retainClient 1 1000 60 h in
  let h := newClient 2 None None h in
  let h := (HandleWSMessage false 2 (ex_shake 7 104) h).2 in
  removeClient 1 h.

(** The disconnection stores the retained place before it removes the
    route, and removes the route by address: a client that reconnects in
    between is online with its old address, and then loses its route. *)
Theorem fast_reconnect_unroutes :
  let h := fast_reconnect ex_online in
  (virtualIp <$> hub_clients h !! 2%nat) = Some (Some (10, 0, 6, 2)) ∧
  clientMap h !! (10, 0, 6, 2) = None ∧ retentionMap h = ∅.
Proof. vm_compute. auto. Qed.

(** Two connections with one identity, both dropped, and everything expired. *)
Definition shared_identity : Hub :=
  let h := newClient 2 None None ex_online in
  let h := (HandleWSMessage false 2 (ex_shake 7 104) h).2 in
  let h := serverWS_done 1 1000 60 h in
  let h := serverWS_done 2 1000 60 h in
  cleanRetention_tick 5000 h.

(** The retention table has one entry per client identity: when two
    connections with the same identity drop, the second entry replaces the
    first, whose address is never returned to the free stack. *)
Theorem shared_identity_leaks :
  let h := shared_identity in
  clientMap h = ∅ ∧ retentionMap h = ∅ ∧ length (freeIps h) = 252%nat ∧ (10, 0, 6, 2) ∉ freed h.
Proof.
  split_and!; [vm_compute; reflexivity..|].
  apply (bool_decide_unpack ((10, 0, 6, 2) ∉ freed shared_identity)). vm_compute. done.
Qed.

(** ** Example of two connections *)

Definition ex_payload7 : bytes := sdata (Payload (ex_shake 7 104)).
Definition ex_i1 : Hub := setIdentity 1 ex_payload7 (newClient 1 None None NewHub).
Definition ex_w1 : Hub := assignPlace 1 [104] ∅ ex_i1.
Definition ex_i2 : Hub := setIdentity 2 ex_payload7 (newClient 2 None None ex_w1).
Definition ex_w2 : Hub := assignPlace 2 [104] ∅ ex_i2.
Definition ex_o1 : gmap nat ip4 := own 1 ex_w1 ∅.
Definition ex_world : world := mkWorld ex_w2 (own 2 ex_w2 ex_o1) ∅.

Lemma ex_world_run : rtc sec_step (mkWorld NewHub ∅ ∅) ex_world.
Proof.
  eapply rtc_l; [apply (sec_new 1 NewHub ∅ ∅); ev|].
  eapply rtc_l; [exact (sec_identity 1 ex_payload7 _ ∅ ∅)|].
  apply rtc_l with (mkWorld ex_w1 ex_o1 ∅); [exact (sec_assign 1 [104] ∅ ex_i1 ∅ ∅)|].
  eapply rtc_l; [apply (sec_new 2 ex_w1 ex_o1 ∅); ev|].
  eapply rtc_l; [exact (sec_identity 2 ex_payload7 _ ex_o1 ∅)|].
  apply rtc_once. exact (sec_assign 2 [104] ∅ ex_i2 ex_o1 ∅).
Qed.

Definition ex_conn (c : nat) : Client := default (mkClient 0 [] None None [] [] []) (hub_clients ex_w2 !! c).

Lemma no_shared_address_witness :
  virtualIp (ex_conn 2) = Some (10, 0, 6, 3) ∧
  ((10, 0, 6, 2) ∈ addresses ∧ (10, 0, 6, 2) ∉ freed ex_w2 ∧ (10, 0, 6, 2) ∉ retained ex_w2).
Proof.
  split; [ev|].
  apply (no_shared_address ex_world 1 2 (ex_conn 1) (ex_conn 2) (10, 0, 6, 2) ex_world_run); [ev|ev|ev].
Defined.
