(* ===== verification/Ledger.v ===== *)
(** The ledger: what becomes of the server's addresses under every interleaving.

    An address is free, held by a connection, kept for an identity that went
    away, or lost.  [ledger_step] is an abstract account of how it moves between
    these; [sections_refine_ledger] shows that the locked sections of all
    connections, in any order and with any clients, follow it.  A lost address
    stays lost, which makes every way to lose one permanent. *)

From stdpp Require Import base numbers relations list gmap option tactics.
From S2P Require Import Prelude Cipher Packet Stun Util Hub HubWs HubUdp HubFrame Lease Interleave.

Local Open Scope Z_scope.

(** ** The abstract account *)

Inductive holding : Type :=
  | Held (c : nat)                              (** by a connection *)
  | Kept (cid name : bytes) (expiry : Z)        (** for an identity *)
  | Lost.

#[export] Instance holding_eq_dec : EqDecision holding.
Proof. solve_decision. Defined.

(** An address that is not in the ledger is free. *)
Abbreviation Ledger := (gmap ip4 holding) (only parsing).

(** The connection [c] no longer answers for what it held. *)
Definition abandon (c : nat) (L : Ledger) : Ledger := (λ x, if decide (x = Held c) then Lost else x) <$> L.

(** The identity [cid] no longer answers for what was kept for it. *)
Definition keptFor (cid : bytes) (x : holding) : bool := match x with Kept cid' _ _ => bool_decide (cid' = cid) | _ => false end.
Definition forget (cid : bytes) (L : Ledger) : Ledger := (λ x, if keptFor cid x then Lost else x) <$> L.

Definition stillKept (now : Z) (x : holding) : bool := match x with Kept _ _ e => now <=? e | _ => true end.

Inductive ledger_step : Ledger → Ledger → Prop :=
  | lg_grant L c cid v :                (** a free address, if none is kept *)
      v ∈ addresses → L !! v = None → (∀ u x, L !! u = Some x → keptFor cid x = false) →
      ledger_step L (<[v := Held c]> (abandon c L))
  | lg_resume L c cid name e v :        (** the address kept for the identity *)
      L !! v = Some (Kept cid name e) → ledger_step L (<[v := Held c]> (abandon c L))
  | lg_refuse L c :                     (** no address left *)
      (∀ v, v ∈ addresses → is_Some (L !! v)) → ledger_step L (abandon c L)
  | lg_keep L c cid name e v :          (** the connection goes away *)
      L !! v = Some (Held c) → ledger_step L (<[v := Kept cid name e]> (forget cid L))
  | lg_expire L now : ledger_step L (filter (λ e, stillKept now e.2 = true) L)
  | lg_tau L : ledger_step L L.

(** ** Lost addresses stay lost *)

Lemma lookup_abandon c L v : abandon c L !! v = (λ x, if decide (x = Held c) then Lost else x) <$> L !! v.
Proof. apply lookup_fmap. Qed.

Lemma lookup_forget cid L v : forget cid L !! v = (λ x, if keptFor cid x then Lost else x) <$> L !! v.
Proof. apply lookup_fmap. Qed.

Lemma lost_step L L' v : ledger_step L L' → L !! v = Some Lost → L' !! v = Some Lost.
Proof.
  destruct 1 as [L c cid w _ Hw _|L c cid name e w Hw|L c _|L c cid name e w Hw|L now|L]; intros Hv.
  - rewrite lookup_insert_ne, lookup_abandon, Hv by congruence. done.
  - rewrite lookup_insert_ne, lookup_abandon, Hv by congruence. done.
  - by rewrite lookup_abandon, Hv.
  - rewrite lookup_insert_ne, lookup_forget, Hv by congruence. done.
  - by apply map_lookup_filter_Some.
  - done.
Qed.

Lemma lost_forever L L' v : rtc ledger_step L L' → L !! v = Some Lost → L' !! v = Some Lost.
Proof. induction 1; eauto using lost_step. Qed.

(** ** The server's tables as a ledger *)

(** The free stack holds each free address once; the retention table is what is
    kept; and what a connection holds is its virtual address, as long as its
    disconnection has not begun. *)
Record ledger_of (w : world) (L : Ledger) : Prop := {
  lo_range v x : L !! v = Some x → v ∈ addresses;
  lo_stack : NoDup (freed (w_hub w));
  lo_free v : v ∈ freed (w_hub w) ↔ v ∈ addresses ∧ L !! v = None;
  lo_kept v cid name e : L !! v = Some (Kept cid name e) ↔ retentionMap (w_hub w) !! cid = Some (mkOffline v name e);
  lo_held v c : L !! v = Some (Held c) ↔ w_owner w !! c = Some v;
  lo_live c client : hub_clients (w_hub w) !! c = Some client → c ∉ w_closed w → w_owner w !! c = virtualIp client;
  lo_dom c : hub_clients (w_hub w) !! c = None → w_owner w !! c = None;
}.

Lemma ledger_init : ledger_of (mkWorld NewHub ∅ ∅) ∅.
Proof.
  split; simpl; try done.
  - apply addresses_NoDup.
  - intros v. change (v ∈ addresses ↔ v ∈ addresses ∧ (∅ : Ledger) !! v = None). rewrite lookup_empty. clear. by split; [|intros []].
Qed.

Section sections.
Implicit Types (h : Hub) (o : gmap nat ip4) (k : gset nat) (L : Ledger).

(** A step that changes neither the address tables nor who holds what. *)
Lemma ledger_same h h' o k L :
  freeIps h' = freeIps h → retentionMap h' = retentionMap h →
  (∀ c, virtualIp <$> hub_clients h' !! c = virtualIp <$> hub_clients h !! c) →
  ledger_of (mkWorld h o k) L → ledger_of (mkWorld h' o k) L.
Proof.
  intros Hf Hr Hc [Hrg Hs Hfr Hk Hh Hl Hd]. simpl in *. split; simpl; unfold freed in *; rewrite ?Hf, ?Hr; try done.
  - intros c client Hcl Hnk. specialize (Hc c). rewrite Hcl in Hc.
    destruct (hub_clients h !! c) as [cl|] eqn:E; [|done]. simpl in Hc. injection Hc as ->. by apply Hl.
  - intros c Hn. specialize (Hc c). rewrite Hn in Hc. apply Hd. by destruct (hub_clients h !! c).
Qed.

(** The clients after the assignment section. *)
Lemma live_insert h h' o k c cl x :
  hub_clients h' = <[c := set_place x (hostname cl) cl]> (hub_clients h) ∨
  (∃ name, hub_clients h' = <[c := set_place x name cl]> (hub_clients h)) →
  (∀ c client, hub_clients h !! c = Some client → c ∉ k → o !! c = virtualIp client) →
  (∀ c, hub_clients h !! c = None → o !! c = None) →
  let o' := match x with Some v => <[c := v]> o | None => delete c o end in
  (∀ c client, hub_clients h' !! c = Some client → c ∉ k → o' !! c = virtualIp client) ∧
  (∀ c, hub_clients h' !! c = None → o' !! c = None).
Proof.
  intros Hh Hl Hd. assert (∃ name, hub_clients h' = <[c := set_place x name cl]> (hub_clients h)) as [name ->] by naive_solver.
  simpl. split.
  - intros c' client. rewrite lookup_insert. case_decide as E.
    + intros [= <-] _. subst c'. simpl. destruct x; [apply lookup_insert_eq|apply lookup_delete_eq].
    + intros Hc Hk. destruct x; [rewrite lookup_insert_ne by done|rewrite lookup_delete_ne by done]; by apply Hl.
  - intros c'. rewrite lookup_insert. case_decide as E; [done|]. intros Hn.
    destruct x; [rewrite lookup_insert_ne by done|rewrite lookup_delete_ne by done]; by apply Hd.
Qed.

(** What [c] held before it is given [v], or nothing. *)
Lemma held_insert o c v L u c' :
  (∀ v c, L !! v = Some (Held c) ↔ o !! c = Some v) → (∀ c'', L !! v ≠ Some (Held c'')) →
  <[v := Held c]> (abandon c L) !! u = Some (Held c') ↔ <[c := v]> o !! c' = Some u.
Proof.
  intros Hh Hv. rewrite !lookup_insert, lookup_abandon. repeat case_decide; subst.
  - done.
  - split; [congruence|]. intros Ho. exfalso. by apply (Hv c'), Hh.
  - split; [|congruence]. intros (x & Hx & Hd)%fmap_Some. case_decide; congruence.
  - rewrite <- Hh, fmap_Some. split.
    + intros (x & Hx & Hd). case_decide; congruence.
    + intros Hx. exists (Held c'). split; [done|]. rewrite decide_False; congruence.
Qed.

Lemma abandon_kept c L u cid name e : abandon c L !! u = Some (Kept cid name e) ↔ L !! u = Some (Kept cid name e).
Proof.
  rewrite lookup_abandon, fmap_Some. split; [intros (x & Hx & Hd); case_decide; congruence|].
  intros Hx. exists (Kept cid name e). by rewrite decide_False.
Qed.

Lemma abandon_None c L u : abandon c L !! u = None ↔ L !! u = None.
Proof. rewrite lookup_abandon. apply fmap_None. Qed.

Lemma ledger_resume h o k L c cl oc :
  hub_clients h !! c = Some cl → retentionMap h !! clientID cl = Some oc → ledger_of (mkWorld h o k) L →
  let h' := set_retention (delete (clientID cl)) (set_clients (insert c (set_place (Some (oc_virtualIp oc)) (oc_hostname oc) cl)) h) in
  ledger_step L (<[oc_virtualIp oc := Held c]> (abandon c L)) ∧
  ledger_of (mkWorld h' (<[c := oc_virtualIp oc]> o) k) (<[oc_virtualIp oc := Held c]> (abandon c L)).
Proof.
  intros Hc Hr [Hrg Hs Hfr Hk Hh Hl Hd] h'. destruct oc as [v name e]. simpl in *. pose proof Hr as Hv. apply Hk in Hv.
  split; [by eapply lg_resume|].
  destruct (live_insert h h' o k c cl (Some v)) as [Hl' Hd']; [right; by eexists|done|done|].
  split; cbn [w_hub w_owner w_closed]; try done.
  - intros u x. rewrite lookup_insert. case_decide; [intros _; subst; by eapply Hrg|].
    rewrite lookup_abandon. intros (y & Hy & _)%fmap_Some. by eapply Hrg.
  - intros u. change (freed h') with (freed h). rewrite Hfr, lookup_insert. case_decide; [subst; naive_solver|].
    by rewrite abandon_None.
  - intros u cid n e'. simpl. rewrite lookup_insert, lookup_delete. case_decide as E.
    + subst u. split; [done|]. case_decide as E2; [done|]. intros Hx%Hk. congruence.
    + rewrite abandon_kept, Hk. case_decide as E2; [|done]. subst cid. split; [congruence|done].
  - intros u c'. apply held_insert; [done|]. intros c''. congruence.
Qed.

Lemma ledger_grant h o k L c cl l x name :
  hub_clients h !! c = Some cl → retentionMap h !! clientID cl = None → freeIps h = l ++ [x] → ledger_of (mkWorld h o k) L →
  let h' := set_clients (insert c (set_place (Some (vip_of x)) name cl)) (set_free l h) in
  ledger_step L (<[vip_of x := Held c]> (abandon c L)) ∧
  ledger_of (mkWorld h' (<[c := vip_of x]> o) k) (<[vip_of x := Held c]> (abandon c L)).
Proof.
  intros Hc Hr Hf [Hrg Hs Hfr Hk Hh Hl Hd] h'. simpl in *. set (v := vip_of x) in *.
  assert (freed h = (vip_of <$> l) ++ [v]) as Ef by (unfold freed; by rewrite Hf, fmap_app).
  rewrite Ef in Hs, Hfr. apply list.NoDup_app in Hs as (Hs & Hnv & _).
  destruct (proj1 (Hfr v)) as [Hva Hvn]; [set_solver|].
  assert (∀ u, u ∈ vip_of <$> l ↔ u ∈ (vip_of <$> l) ++ [v] ∧ u ≠ v) as Hin.
  { intros u. rewrite elem_of_app, list_elem_of_singleton. specialize (Hnv u). split; [|naive_solver].
    intros Hu. split; [by left|]. intros ->. apply (Hnv Hu). by apply list_elem_of_singleton. }
  split.
  { apply (lg_grant L c (clientID cl)); [done|done|]. intros u [c'|cid' n e|] Hu; try done. simpl.
    apply bool_decide_eq_false. intros ->. apply Hk in Hu. congruence. }
  destruct (live_insert h h' o k c cl (Some v)) as [Hl' Hd']; [right; by eexists|done|done|].
  split; cbn [w_hub w_owner w_closed]; try done.
  - intros u y. rewrite lookup_insert. case_decide; [intros _; by subst|].
    rewrite lookup_abandon. intros (z & Hz & _)%fmap_Some. by eapply Hrg.
  - intros u. change (freed h') with (vip_of <$> l). rewrite Hin, Hfr, lookup_insert. case_decide; [subst; naive_solver|].
    rewrite abandon_None. naive_solver.
  - intros u cid n e'. simpl. rewrite lookup_insert. case_decide as E.
    + subst u. split; [done|]. intros Hx%Hk. congruence.
    + by rewrite abandon_kept.
  - intros u c'. apply held_insert; [done|]. intros c''. congruence.
Qed.

Lemma ledger_refuse h o k L c cl name :
  hub_clients h !! c = Some cl → freeIps h = [] → ledger_of (mkWorld h o k) L →
  let h' := set_clients (insert c (set_place None name cl)) h in
  ledger_step L (abandon c L) ∧ ledger_of (mkWorld h' (delete c o) k) (abandon c L).
Proof.
  intros Hc Hf [Hrg Hs Hfr Hk Hh Hl Hd] h'. simpl in *.
  assert (∀ v, v ∈ addresses → is_Some (L !! v)) as Hall.
  { intros v Hv. destruct (L !! v) eqn:E; [by eexists|]. exfalso. assert (v ∈ freed h) as Hx by (by apply Hfr).
    unfold freed in Hx. rewrite Hf in Hx. by apply elem_of_nil in Hx. }
  split; [by apply lg_refuse|].
  destruct (live_insert h h' o k c cl None) as [Hl' Hd']; [right; by eexists|done|done|].
  split; cbn [w_hub w_owner w_closed]; try done.
  - intros u x. rewrite lookup_abandon. intros (y & Hy & _)%fmap_Some. by eapply Hrg.
  - intros u. by rewrite abandon_None.
  - intros u cid n e. by rewrite abandon_kept.
  - intros u c'. rewrite lookup_abandon, lookup_delete, fmap_Some. case_decide as E.
    + subst c'. split; [|done]. intros (x & Hx & Hdd). case_decide; congruence.
    + rewrite <- Hh. split; [intros (x & Hx & Hdd); case_decide; congruence|].
      intros Hx. exists (Held c'). split; [done|]. rewrite decide_False; congruence.
Qed.

Lemma ledger_assign c name snapshot h o k L :
  let h' := assignPlace c name snapshot h in
  ledger_of (mkWorld h o k) L → ∃ L', ledger_step L L' ∧ ledger_of (mkWorld h' (own c h' o) k) L' ∧
    ∀ cl v, hub_clients h !! c = Some cl → o !! c = Some v → L' !! v = Some Lost.
Proof.
  intros h' HL. assert (∀ v L', o !! c = Some v → (∀ u, L !! u = Some (Held c) → L' !! u = Some Lost) → L' !! v = Some Lost) as Hold.
  { intros v L' Ho Hu. apply Hu. by apply (lo_held _ _ HL). }
  subst h'. unfold own, assignPlace. destruct (hub_clients h !! c) as [cl|] eqn:Ec.
  2:{ exists L. split; [apply lg_tau|]. split; [|done]. rewrite Ec. simpl.
      rewrite delete_id by (by apply (lo_dom _ _ HL)). done. }
  assert (∀ v u, L !! u = Some (Held c) → L !! v ≠ Some (Held c) → <[v := Held c]> (abandon c L) !! u = Some Lost) as Hlost.
  { intros v u Hu Hv. rewrite lookup_insert_ne by congruence. by rewrite lookup_abandon, Hu; simpl; rewrite decide_True. }
  destruct (retentionMap h !! clientID cl) as [oc|] eqn:Er.
  - destruct (ledger_resume h o k L c cl oc Ec Er HL) as [Hs HL']. simpl. rewrite lookup_insert_eq. simpl.
    eexists. split; [exact Hs|]. split; [exact HL'|]. intros _ v _ Ho. eapply Hold; [done|]. intros u Hu. apply Hlost; [done|].
    destruct oc as [w n e]. apply (lo_kept _ _ HL) in Er. simpl. congruence.
  - destruct (getIp_spec h) as [[Hf ->]|(l & x & Hf & ->)]; cbn [hub_clients set_clients]; rewrite lookup_insert_eq; simpl.
    + destruct (ledger_refuse h o k L c cl (default [] (UniqueHostName name snapshot)) Ec Hf HL) as [Hs HL'].
      eexists. split; [exact Hs|]. split; [exact HL'|]. intros _ v _ Ho. eapply Hold; [done|]. intros u Hu.
      by rewrite lookup_abandon, Hu; simpl; rewrite decide_True.
    + destruct (ledger_grant h o k L c cl l x (default [] (UniqueHostName name snapshot)) Ec Er Hf HL) as [Hs HL'].
      eexists. split; [exact Hs|]. split; [exact HL'|]. intros _ v _ Ho. eapply Hold; [done|]. intros u Hu. apply Hlost; [done|].
      assert (vip_of x ∈ freed h) as Hx by (unfold freed; rewrite Hf, fmap_app; set_solver).
      apply (lo_free _ _ HL) in Hx as [_ Hx]. congruence.
Qed.

Lemma ledger_retain c now rt h o k L :
  c ∉ k → ledger_of (mkWorld h o k) L →
  ∃ L', ledger_step L L' ∧ ledger_of (mkWorld (retainClient c now rt h) (delete c o) ({[c]} ∪ k)) L'.
Proof.
  intros Hck HL. unfold retainClient.
  assert (o !! c = None → ledger_of (mkWorld h (delete c o) ({[c]} ∪ k)) L) as Hnone.
  { intros Ho. rewrite delete_id by done. destruct HL as [Hrg Hs Hfr Hk Hh Hl Hd]. split; try done.
    simpl in *. intros c' client Hc' Hk'. apply Hl; [done|set_solver]. }
  destruct (hub_clients h !! c) as [cl|] eqn:Ec; [|exists L; split; [apply lg_tau|apply Hnone; by apply (lo_dom _ _ HL)]].
  pose proof (lo_live _ _ HL c cl Ec Hck) as Ho. simpl in Ho.
  destruct (virtualIp cl) as [v|]; [|exists L; split; [apply lg_tau|by apply Hnone]].
  destruct HL as [Hrg Hs Hfr Hk Hh Hl Hd]. simpl in *. pose proof (proj2 (Hh v c) Ho) as Hv.
  exists (<[v := Kept (clientID cl) (hostname cl) (now + rt)]> (forget (clientID cl) L)). split; [by eapply lg_keep|].
  split; cbn [w_hub w_owner w_closed hub_clients retentionMap set_retention]; try done.
  - intros u x. rewrite lookup_insert. case_decide; [intros _; subst; by eapply Hrg|].
    rewrite lookup_forget. intros (y & Hy & _)%fmap_Some. by eapply Hrg.
  - intros u. change (freed (set_retention _ h)) with (freed h). rewrite Hfr, lookup_insert. case_decide; [subst; naive_solver|].
    rewrite lookup_forget. by rewrite fmap_None.
  - intros u cid n e. rewrite !lookup_insert. repeat case_decide; subst.
    + naive_solver.
    + split; [naive_solver|]. intros Hx%Hk. congruence.
    + split; [|naive_solver]. rewrite lookup_forget. intros (x & Hx & He)%fmap_Some.
      destruct x as [|cid' n' e'|]; simpl in He; [done| |done]. case_bool_decide; simplify_eq; congruence.
    + rewrite <- Hk, lookup_forget, fmap_Some. split.
      * intros (x & Hx & He). destruct x as [|cid' n' e'|]; simpl in He; [done| |done]. case_bool_decide; simplify_eq; congruence.
      * intros Hx. exists (Kept cid n e). split; [done|]. simpl. by rewrite bool_decide_false.
  - intros u c'. rewrite lookup_insert, lookup_delete. repeat case_decide; subst.
    + done.
    + split; [done|]. intros Hx%Hh. congruence.
    + split; [|done]. rewrite lookup_forget. intros (x & Hx & He)%fmap_Some.
      destruct x as [c''|cid' n' e'|]; simpl in He; simplify_eq; [|by case_match]. apply Hh in Hx. congruence.
    + rewrite <- Hh, lookup_forget, fmap_Some. split.
      * intros (x & Hx & He). destruct x as [c''|cid' n' e'|]; simpl in He; simplify_eq; [done|by case_match].
      * intros Hx. by exists (Held c').
  - intros c' client Hc' Hk'. rewrite lookup_delete_ne by set_solver. apply Hl; [done|set_solver].
  - intros c' Hc'. apply lookup_delete_None. right. by apply Hd.
Qed.

(** An expiry round, entry by entry. *)
Lemma expire_list_spec (l : list (bytes * offlineClient)) h :
  (∀ e, e ∈ l → oc_virtualIp e.2 ∈ addresses) →
  freed (foldr expire h l) ≡ₚ freed h ++ ((λ e, oc_virtualIp e.2) <$> l) ∧
  retentionMap (foldr expire h l) = foldr (λ e, delete e.1) (retentionMap h) l ∧ hub_clients (foldr expire h l) = hub_clients h.
Proof.
  induction l as [|[cid oc] l IH]; intros Hin; simpl; [by rewrite app_nil_r|].
  destruct IH as (IHf & IHr & IHc); [intros; apply Hin; by right|]. set (g := foldr expire h l) in *.
  destruct (releaseIp_frame (oc_virtualIp oc) g) as (_ & _ & Ec & _ & Er).
  split_and!.
  - change (freed (releaseIp (oc_virtualIp oc) g) ≡ₚ freed h ++ oc_virtualIp oc :: ((λ e, oc_virtualIp e.2) <$> l)).
    rewrite releaseIp_freed, IHf by (apply addresses_vip, (Hin (cid, oc)); by left). solve_Permutation.
  - by rewrite Er, IHr.
  - by rewrite Ec.
Qed.

Lemma lookup_deletes {A} (l : list (bytes * A)) (m : gmap bytes A) cid :
  foldr (λ e, delete e.1) m l !! cid = if decide (cid ∈ l.*1) then None else m !! cid.
Proof.
  induction l as [|[c x] l IH]; [done|]. cbn [foldr fst]. rewrite fmap_cons. cbn [fst].
  destruct (decide (cid = c)) as [->|Hne]; [rewrite lookup_delete_eq, decide_True by set_solver; done|].
  rewrite lookup_delete_ne, IH by done. repeat case_decide; set_solver.
Qed.

Lemma ledger_tick now h o k L :
  ledger_of (mkWorld h o k) L →
  ledger_of (mkWorld (cleanRetention_tick now h) o k) (filter (λ e, stillKept now e.2 = true) L).
Proof.
  intros [Hrg Hs Hfr Hk Hh Hl Hd]. simpl in *. unfold cleanRetention_tick.
  set (l := map_to_list (filter (λ e, oc_expiry e.2 < now) (retentionMap h))).
  assert (∀ cid oc, (cid, oc) ∈ l ↔ retentionMap h !! cid = Some oc ∧ oc_expiry oc < now) as Hl1
    by (intros; unfold l; rewrite elem_of_map_to_list, map_lookup_filter_Some; done).
  assert (∀ cid oc, retentionMap h !! cid = Some oc → L !! oc_virtualIp oc = Some (Kept cid (oc_hostname oc) (oc_expiry oc))) as Hkept
    by (intros cid [v n e] Hx; by apply Hk).
  destruct (expire_list_spec l h) as (Hf & Hr & Hc).
  { intros [cid oc] [Hx _]%Hl1. eapply Hrg, (Hkept cid). done. }
  assert (∀ cid, cid ∈ l.*1 ↔ ∃ oc, retentionMap h !! cid = Some oc ∧ oc_expiry oc < now) as Hkeys.
  { intros cid. rewrite list_elem_of_fmap. split; [intros ([c oc] & -> & Hx%Hl1); eauto|].
    intros (oc & Hx). exists (cid, oc). by rewrite Hl1. }
  assert (∀ v, v ∈ (λ e, oc_virtualIp e.2) <$> l ↔ ∃ cid n e, L !! v = Some (Kept cid n e) ∧ e < now) as Hgone.
  { intros v. rewrite list_elem_of_fmap. split.
    - intros ([cid [w n e]] & -> & [Hx He]%Hl1). exists cid, n, e. by apply Hk in Hx.
    - intros (cid & n & e & Hx & He). exists (cid, mkOffline v n e). split; [done|]. apply Hl1. split; [by apply Hk|done]. }
  split; cbn [w_hub w_owner w_closed]; rewrite ?Hc; try done.
  - intros v x [Hx _]%map_lookup_filter_Some. by eapply Hrg.
  - rewrite Hf. apply list.NoDup_app. split_and!; [done| |].
    + intros v [_ Hn]%Hfr (cid & n & e & Hx & _)%Hgone. congruence.
    + apply NoDup_fmap_2_strong; [|apply NoDup_map_to_list]. intros [c1 o1] [c2 o2] [H1 _]%Hl1 [H2 _]%Hl1 E. simpl in E.
      pose proof (Hkept _ _ H1) as L1. pose proof (Hkept _ _ H2) as L2. rewrite E in L1. rewrite L1 in L2. simplify_eq. congruence.
  - intros v. rewrite Hf, elem_of_app, Hfr, Hgone, map_lookup_filter_None. simpl. split.
    + intros [[Ha Hn]|(cid & n & e & Hx & He)]; [by auto|]. split; [by eapply Hrg|]. right. intros y Hy.
      rewrite Hx in Hy. simplify_eq. simpl. by rewrite (proj2 (Z.leb_gt _ _)).
    + intros [Ha [Hn|Hx]]; [by auto|]. destruct (L !! v) as [[|cid n e|]|] eqn:E; [by destruct (Hx _ eq_refl)| |by destruct (Hx _ eq_refl)|by auto].
      right. exists cid, n, e. split; [done|]. specialize (Hx _ eq_refl). simpl in Hx. destruct (Z.leb_spec now e); [done|lia].
  - intros v cid n e. rewrite map_lookup_filter_Some, Hk, Hr, lookup_deletes. simpl. case_decide as Hin.
    + split; [|done]. apply Hkeys in Hin as (oc & Hx & He). intros [Hy Hz]. rewrite Hx in Hy. simplify_eq. simpl in *. apply Z.leb_le in Hz. lia.
    + split; [naive_solver|]. intros Hx. split; [done|]. apply Z.leb_le. destruct (decide (e < now)); [|lia].
      exfalso. apply Hin, Hkeys. by exists (mkOffline v n e).
  - intros v c. rewrite map_lookup_filter_Some. simpl. rewrite <- Hh. naive_solver.
Qed.

(** ** Refinement *)

Lemma ledger_sim w w' L : sec_step w w' → ledger_of w L → ∃ L', ledger_step L L' ∧ ledger_of w' L'.
Proof.
  destruct 1 as [c h o k Hc|c payload h o k|c name snap h o k h'|c h o k|n v h o k|c now rt h o k Hk|c h o k|now h o k|h h' o k Hs];
    intros HL; assert (∀ w', ledger_of w' L → ∃ L', ledger_step L L' ∧ ledger_of w' L') as Htau by (intros w' Hw; exists L; split; [apply lg_tau|done]).
  - apply Htau. destruct HL as [Hrg Hs Hfr Hk Hh Hl Hd]. simpl in *. split; simpl; try done.
    + intros c' client. rewrite lookup_insert. case_decide; [|apply Hl]. subst. intros [= <-] _. simpl. auto.
    + intros c'. rewrite lookup_insert. case_decide; [done|]. apply Hd.
  - apply Htau, (ledger_same h); [done|done| |exact HL]. intros c'. rewrite lookup_setIdentity. case_decide; [|done].
    by destruct (hub_clients h !! c').
  - destruct (ledger_assign c name snap h o k L HL) as (L' & Hst & HL' & _). eauto.
  - apply Htau, (ledger_same h); [..|exact HL]; unfold addClient; by repeat case_match.
  - by apply Htau, (ledger_same h).
  - by apply ledger_retain.
  - apply Htau, (ledger_same h); [..|exact HL]; unfold removeClient; by repeat case_match.
  - eexists. split; [apply (lg_expire L now)|by apply ledger_tick].
  - destruct Hs as (Hf & Hr & _ & _ & _ & Hp). apply Htau, (ledger_same h); [done|done| |exact HL]. intros c. specialize (Hp c).
    destruct (hub_clients h' !! c), (hub_clients h !! c); simpl in *; try done. unfold place in Hp. simplify_eq. congruence.
Qed.

Lemma ledger_run_sim w w' L : rtc sec_step w w' → ledger_of w L → ∃ L', rtc ledger_step L L' ∧ ledger_of w' L'.
Proof.
  intros Hr. revert L. induction Hr as [w|w w1 w' Hst _ IH]; intros L HL; [by eexists|].
  destruct (ledger_sim _ _ _ Hst HL) as (L1 & H1 & HL1). destruct (IH L1 HL1) as (L' & H' & HL').
  exists L'. split; [by eapply rtc_l|done].
Qed.
End sections.

(** C2: the server accounts for its addresses as the ledger does, whatever its
    clients do and however their handshakes, disconnections and the expiry
    rounds interleave between locks: every address is free, held by one
    connection, kept for one identity or lost, and moves between these only as
    [ledger_step] says.  The free stack, the retention table and the addresses
    of the connections are at every moment exactly what the ledger records. *)
Theorem sections_refine_ledger w :
  rtc sec_step (mkWorld NewHub ∅ ∅) w → ∃ L, rtc ledger_step ∅ L ∧ ledger_of w L.
Proof. intros Hr. exact (ledger_run_sim _ _ _ Hr ledger_init). Qed.

(** C33: a second handshake on a connection loses its first address for good.  In
    every state of the server, if a connection that has an address reaches the
    assignment section again, then whatever happens afterwards, also after any
    number of expiry rounds, that address is never free, never kept and never
    held again. *)
Theorem second_handshake_loses_address h o k c client v name snapshot w' :
  rtc sec_step (mkWorld NewHub ∅ ∅) (mkWorld h o k) →
  hub_clients h !! c = Some client → c ∉ k → virtualIp client = Some v →
  let h' := assignPlace c name snapshot h in
  rtc sec_step (mkWorld h' (own c h' o) k) w' →
  v ∈ addresses ∧ v ∉ freed (w_hub w') ∧ v ∉ retained (w_hub w') ∧
  ∀ c' client', hub_clients (w_hub w') !! c' = Some client' → c' ∉ w_closed w' → virtualIp client' ≠ Some v.
Proof.
  intros Hr Hc Hk Hv h' Hr'. destruct (ledger_run_sim _ _ _ Hr ledger_init) as (L & _ & HL).
  pose proof (lo_live _ _ HL _ _ Hc Hk) as Ho. rewrite Hv in Ho. simpl in Ho.
  destruct (ledger_assign c name snapshot h o k L HL) as (L1 & _ & HL1 & Hlost).
  destruct (ledger_run_sim _ _ _ Hr' HL1) as (L2 & Hs2 & HL2).
  pose proof (lost_forever _ _ v Hs2 (Hlost _ _ Hc Ho)) as Hx. split_and!.
  - by eapply (lo_range _ _ HL2).
  - intros [_ Hn]%(lo_free _ _ HL2). congruence.
  - unfold retained. intros ([cid [u n e]] & Hu & Hin)%list_elem_of_fmap. simpl in Hu. subst u.
    apply elem_of_map_to_list, (lo_kept _ _ HL2) in Hin. congruence.
  - intros c' client' Hc' Hk' Hv'. pose proof (lo_live _ _ HL2 _ _ Hc' Hk') as Ho'. rewrite Hv' in Ho'.
    apply (lo_held _ _ HL2) in Ho'. congruence.
Qed.

(** The names an expiry round removes. *)
Lemma expire_list_dns (l : list (bytes * offlineClient)) h :
  dnsMap (foldr expire h l) = foldr (λ e, delete (oc_hostname e.2)) (dnsMap h) l.
Proof.
  induction l as [|[cid oc] l IH]; [done|]. simpl. rewrite <- IH. by destruct (oc_virtualIp oc) as [[[a b] c] x].
Qed.

Lemma deletes_None {A B K} `{Countable K} (f : B → K) (l : list B) (m : gmap K A) e : e ∈ l → foldr (λ e, delete (f e)) m l !! f e = None.
Proof.
  induction 1 as [e l|e e' l _ IH]; simpl; [apply lookup_delete_eq|]. apply lookup_delete_None. by right.
Qed.

(** C17: retained places do not last: in every state the server reaches, the first
    round of the clean-up after a place has expired returns its address to the
    free stack, forgets its entry and frees its host name, so that another
    client can be given them. *)
Theorem expired_place_freed w cid oc now :
  rtc sec_step (mkWorld NewHub ∅ ∅) w → retentionMap (w_hub w) !! cid = Some oc → oc_expiry oc < now →
  let h' := cleanRetention_tick now (w_hub w) in
  oc_virtualIp oc ∈ freed h' ∧ retentionMap h' !! cid = None ∧ dnsMap h' !! oc_hostname oc = None.
Proof.
  intros Hr Hcid Hnow. destruct (ledger_run_sim _ _ _ Hr ledger_init) as (L & _ & HL).
  destruct w as [h o k]. destruct oc as [v n e]. cbn [w_hub oc_virtualIp oc_hostname oc_expiry] in *.
  pose proof (ledger_tick now h o k L HL) as HL'. pose proof (proj2 (lo_kept _ _ HL v cid n e) Hcid) as Hv. split_and!.
  - apply (lo_free _ _ HL'). split; [by eapply (lo_range _ _ HL)|]. apply map_lookup_filter_None. right.
    intros x Hx. rewrite Hv in Hx. simplify_eq. simpl. by rewrite (proj2 (Z.leb_gt _ _)).
  - destruct (retentionMap (cleanRetention_tick now h) !! cid) as [[v' n' e']|] eqn:E; [|done].
    apply (lo_kept _ _ HL') in E. apply map_lookup_filter_Some in E as [E He]. apply (lo_kept _ _ HL) in E.
    simpl in E, He. rewrite Hcid in E. simplify_eq. apply Z.leb_le in He. lia.
  - unfold cleanRetention_tick. rewrite expire_list_dns.
    apply (deletes_None (λ e : bytes * offlineClient, oc_hostname e.2) _ _ (cid, mkOffline v n e)).
    by apply elem_of_map_to_list, map_lookup_filter_Some.
Qed.

(** ** Examples *)

(** The first of two connections goes away, and its place expires. *)
Definition ex_kept : world :=
  mkWorld (retainClient 1 1000 60 ex_w2) (delete 1%nat (w_owner ex_world)) ({[1%nat]} ∪ ∅).

Lemma expired_place_freed_witness : (10, 0, 6, 2) ∈ freed (cleanRetention_tick 2000 (w_hub ex_kept)).
Proof.
  refine (proj1 (expired_place_freed ex_kept (ex_id 7) (mkOffline (10, 0, 6, 2) [104] 1060) 2000 _ _ _)); [|ev|done].
  eapply rtc_r; [exact ex_world_run|]. apply (sec_retain 1 1000 60); set_solver.
Defined.

Lemma sections_refine_ledger_witness :
  ∃ L, rtc ledger_step ∅ L ∧ ledger_of ex_world L ∧ L !! (10, 0, 6, 2) = Some (Held 1) ∧ L !! (10, 0, 6, 3) = Some (Held 2).
Proof.
  destruct (sections_refine_ledger ex_world ex_world_run) as (L & Hs & HL). exists L. split; [exact Hs|]. split; [exact HL|].
  split; apply (lo_held _ _ HL); vm_compute; reflexivity.
Defined.

(** The first of the two connections shakes hands again, and goes away. *)
Definition ex_again : Hub := assignPlace 1 [104] ∅ ex_w2.
Definition ex_gone : world :=
  mkWorld (cleanRetention_tick 5000 (removeClient 1 (retainClient 1 1000 60 ex_again)))
    (delete 1%nat (own 1 ex_again (w_owner ex_world))) ({[1%nat]} ∪ ∅).

Lemma second_handshake_loses_address_witness :
  (10, 0, 6, 2) ∉ freed (w_hub ex_gone) ∧ (10, 0, 6, 4) ∈ freed (w_hub ex_gone).
Proof.
  split; [|apply (bool_decide_unpack ((10, 0, 6, 4) ∈ freed (w_hub ex_gone))); vm_compute; done].
  apply (second_handshake_loses_address ex_w2 (w_owner ex_world) ∅ 1 (ex_conn 1) (10, 0, 6, 2) [104] ∅ ex_gone ex_world_run);
    [ev|set_solver|ev|].
  eapply rtc_l; [apply (sec_retain 1 1000 60); set_solver|]. eapply rtc_l; [apply (sec_unroute 1)|]. apply rtc_once, (sec_tick 5000).
Defined.
