(* ===== verification/HubBuffers.v ===== *)
(** Buffer ownership on the server.

    The server passes pooled buffers between goroutines: from the UDP reader
    through the relay queue and the send queue back to the pool, and from the
    control handlers through the clients' control queues to the WebSocket
    writers.  [held] are the buffers in those queues; the invariant [owned] says
    that no array is in two of them or both queued and free. *)

From stdpp Require Import base numbers relations list gmap option tactics.
From S2P Require Import Prelude Cipher Packet PacketFacts Stun Util Hub HubWs HubUdp HubFrame Lease.

Local Open Scope Z_scope.

(** ** The buffers in the queues *)

Definition control_bufs (m : gmap nat Client) : list gslice :=
  map_to_list m ≫= λ e, Payload <$> controlChan e.2.

Definition held (h : Hub) : list gslice :=
  ((λ tp, RawData (tp_gp tp)) <$> transferChan h) ++ (pkt_data <$> packetChan h) ++ control_bufs (hub_clients h).

Definition hub_owned (extra : list gslice) (h : Hub) : Prop := owned (extra ++ held h) (bufPool h).

Lemma control_bufs_split m c cl :
  m !! c = Some cl → control_bufs m ≡ₚ (Payload <$> controlChan cl) ++ control_bufs (delete c m).
Proof. intros Hc. unfold control_bufs. by rewrite <- (map_to_list_delete m c cl Hc). Qed.

Lemma control_bufs_insert m c cl :
  control_bufs (<[c := cl]> m) ≡ₚ (Payload <$> controlChan cl) ++ control_bufs (delete c m).
Proof. rewrite (control_bufs_split _ c cl) by apply lookup_insert_eq. by rewrite delete_insert_eq. Qed.

(** Updates that leave a client's control queue alone. *)
Lemma control_bufs_same m c cl cl' :
  m !! c = Some cl → controlChan cl' = controlChan cl → control_bufs (<[c := cl']> m) ≡ₚ control_bufs m.
Proof. intros Hc Hq. by rewrite control_bufs_insert, Hq, <- control_bufs_split. Qed.

(** Dropping held buffers is always safe. *)
Lemma owned_app_drop l k p : owned (l ++ k) p → owned k p.
Proof. induction l as [|s l IH]; [done|]. intros Ho. apply IH. by eapply owned_drop. Qed.

Lemma owned_alloc b l p s p' : alloc b p = (s, p') → owned l p → owned (s :: l) p'.
Proof.
  unfold alloc. intros [= <- <-] Ho. eapply (owned_same_sid (Slice (pfresh p) (replicate 0 0) [])); [done|].
  by eapply (owned_make 0); [reflexivity|].
Qed.

Lemma owned_append s b p s' p' l : append s b p = (s', p') → owned (s :: l) p → owned (s' :: l) p'.
Proof.
  unfold append. case_match; intros He Ho.
  - simplify_eq. by eapply owned_same_sid.
  - eapply owned_alloc; [done|]. by eapply owned_drop.
Qed.

(** ** Control packets *)

Lemma owned_sendControl extra c gp h :
  hub_owned (Payload gp :: extra) h →
  let r := sendControl c gp h in
  if r.1 then hub_owned extra r.2 else hub_owned (Payload gp :: extra) r.2.
Proof.
  unfold sendControl. destruct (hub_clients h !! c) as [cl|] eqn:Hc; [|done].
  case_bool_decide; [|done]. simpl. unfold hub_owned, held. simpl.
  rewrite control_bufs_insert, (control_bufs_split _ _ _ Hc). simpl. rewrite fmap_app. simpl.
  intros Ho. eapply owned_sids; [|exact Ho]. apply fmap_Permutation. solve_Permutation.
Qed.

Lemma owned_trySend extra c gp h : hub_owned (Payload gp :: extra) h → hub_owned extra (trySendControl c gp h).
Proof.
  intros Ho. apply (owned_sendControl extra c) in Ho. unfold trySendControl.
  destruct (sendControl c gp h) as [[] h']; simpl in *; [done|]. by eapply owned_drop.
Qed.

Lemma owned_hub_alloc extra b h s h' : hub_alloc b h = (s, h') → hub_owned extra h → hub_owned (s :: extra) h'.
Proof.
  unfold hub_alloc. destruct (alloc b (bufPool h)) as [s' p] eqn:Ea. intros [= <- <-] Ho.
  unfold hub_owned in *. by eapply owned_alloc in Ea.
Qed.

Lemma owned_reply extra done c cl h : hub_owned extra h → hub_owned extra (handshakeReply done c cl h).
Proof.
  intros Ho. unfold handshakeReply. destruct (hub_alloc _ h) as [s h1] eqn:Ea.
  eapply owned_hub_alloc in Ea; [|exact Ho]. unfold selectSend. destruct done; [by eapply owned_drop|].
  pose proof (owned_sendControl extra c (NewGamePacket ip4_zero (vipKey cl) TypeHandshake s) h1 Ea) as Hs.
  destruct (sendControl _ _ _) as [[] h2]; simpl in *; [done|]. by eapply owned_drop.
Qed.

Lemma owned_noise extra done c gp h : hub_owned extra h → hub_owned extra (handleNoiseHandshake done c gp h).2.
Proof.
  intros Ho. unfold handleNoiseHandshake. destruct (clientMap h !! _) as [d|], (hub_clients h !! c) as [cl|]; try done.
  destruct (hub_clients h !! d) as [dcl|]; [|done].
  destruct (Get (bufPool h)) as [b p] eqn:Eg. apply owned_get with (2 := Ho) in Eg.
  destruct (append (reslice 0 b) _ p) as [b1 p1] eqn:E1.
  eapply owned_append in E1; [|eapply owned_same_sid; [|exact Eg]; done].
  destruct (append b1 _ p1) as [b2 p2] eqn:E2. eapply owned_append in E2; [|exact E1].
  assert (hub_owned (b2 :: extra) (set_pool p2 h)) as Ho2 by exact E2. unfold selectSend.
  destruct done; [by eapply owned_drop|].
  pose proof (owned_sendControl extra c
    (NewGamePacket (Destination gp) (vipKey cl) TypeNoiseResponse b2) (set_pool p2 h) Ho2) as Hs.
  destruct (sendControl _ _ _) as [[] h2]; simpl in *; [done|].
  apply owned_put. eapply owned_same_sid; [|exact Hs]. done.
Qed.

(** ** P2P scheduling *)

Lemma owned_sendCommand extra c s d a n h h' :
  sendCommand c s d a n h = Some h' → hub_owned extra h → hub_owned extra h'.
Proof.
  unfold sendCommand. destruct (UDPAddrPortToBytes a n) as [b|]; simpl; [|done]. intros [= <-] Ho.
  apply owned_trySend. by eapply owned_alloc.
Qed.

Lemma owned_check extra c s d h :
  hub_owned extra h → hub_owned extra (trySendControl c (NewGamePacket s d TypeP2PCheck nil_slice) h).
Proof. intros Ho. apply owned_trySend. simpl. by apply owned_nil_slice. Qed.

Lemma owned_command extra s d sc dc t h h' :
  handleP2PCommand s d sc dc t h = Some h' → hub_owned extra h → hub_owned extra h'.
Proof.
  unfold handleP2PCommand. intros Hr Ho.
  apply bind_Some in Hr as (h1 & H1 & Hr). apply bind_Some in Hr as (h2 & H2 & Hr).
  apply bind_Some in Hr as (h3 & H3 & Hr).
  assert (hub_owned extra h1) by (repeat case_match; simplify_eq; eauto using owned_sendCommand, owned_check).
  assert (hub_owned extra h2) by (repeat case_match; simplify_eq; eauto using owned_sendCommand, owned_check).
  assert (hub_owned extra h3) by (repeat case_match; simplify_eq; eauto using owned_sendCommand).
  repeat case_match; simplify_eq; eauto using owned_sendCommand.
Qed.

Lemma owned_task extra h h' : handleP2PTask_step h = Some h' → hub_owned extra h → hub_owned extra h'.
Proof.
  unfold handleP2PTask_step. destruct (p2pTaskChan h) as [|task rest]; [by intros [= <-]|].
  set (h1 := match Exist _ _ _ with Some _ => _ | None => _ end). intros Hr Ho.
  assert (hub_owned extra h1) as Ho1 by (subst h1; destruct (Exist _ _ _); exact Ho).
  clearbody h1.
  repeat case_match; simplify_eq; try done. by eapply owned_command.
Qed.

(** ** Data plane *)

Lemma owned_updateAddr extra c a h : hub_owned extra h → hub_owned extra (updateAddrCheck c a h).
Proof.
  unfold updateAddrCheck. destruct (hub_clients h !! c) as [cl|] eqn:Hc; [|done]. case_bool_decide; [done|].
  unfold hub_owned, held. simpl. by rewrite (control_bufs_same _ c cl).
Qed.

Lemma owned_forward extra done s d n tp h :
  hub_owned (RawData (tp_gp tp) :: extra) h →
  let r := forward done s d n tp h in
  if r.1 then hub_owned extra r.2 else hub_owned (RawData (tp_gp tp) :: extra) r.2.
Proof.
  intros Ho. unfold forward. destruct (clientMap h !! d) as [x|]; [|done].
  destruct (hub_clients h !! x) as [client|]; [|done].
  destruct (ifEstablish s d n (natType client) h) as [try h1] eqn:Ei.
  set (h2 := if try then _ else _).
  assert (hub_owned (RawData (tp_gp tp) :: extra) h2) as Ho2.
  { unfold ifEstablish, ifEstablish_act, newP2PTask in *. subst h2. repeat case_match; simplify_eq; exact Ho. }
  clearbody h2. destruct (dataAddr client) as [a|]; [|done]. destruct done; [by eapply owned_drop|].
  case_bool_decide; [|done]. unfold hub_owned, held in *. simpl in *. rewrite fmap_app. simpl.
  eapply owned_sids; [|exact Ho2]. apply fmap_Permutation. solve_Permutation.
Qed.

Lemma owned_transfer done h : hub_owned [] h → hub_owned [] (transfer_step done h).
Proof.
  intros Ho. unfold transfer_step. destruct (transferChan h) as [|tp rest] eqn:Et; [done|].
  assert (hub_owned [RawData (tp_gp tp)] (set_transfer rest h)) as Ho1
    by (unfold hub_owned, held in *; rewrite Et in Ho; exact Ho).
  set (h1 := match clientMap _ !! _ with Some _ => _ | None => _ end).
  assert (hub_owned [RawData (tp_gp tp)] h1) as Ho2
    by (subst h1; destruct (clientMap _ !! _); [by apply owned_updateAddr|done]).
  clearbody h1. set (r := match _ with Some _ => _ | None => _ end).
  assert (if r.1 then hub_owned [] r.2 else hub_owned [RawData (tp_gp tp)] r.2) as Hr.
  { subst r. destruct (_ ≫= _); [|done]. destruct (_ || _)%bool; [done|]. destruct (_ && _)%bool; [|done].
    exact (owned_forward [] _ _ _ _ _ _ Ho2). }
  destruct r as [[] h2]; simpl in *; [done|]. apply owned_put. eapply owned_same_sid; [|exact Hr]. done.
Qed.

(** The send batch returns its buffers. *)
Lemma owned_put_all (l : list packet) k p :
  owned ((pkt_data <$> l) ++ k) p → owned k (foldl (λ pl q, Put (reslice 0 (pkt_data q)) pl) p l).
Proof.
  revert p. induction l as [|q l IH]; intros p Ho; [done|]. simpl. apply IH. apply owned_put.
  eapply owned_same_sid; [|exact Ho]. done.
Qed.

Lemma owned_writeUdp h : hub_owned [] h → hub_owned [] (writeUdpPacket_step h).2.
Proof.
  unfold hub_owned, writeUdpPacket_step, held. simpl. intros Ho. apply owned_put_all.
  eapply owned_sids; [|exact Ho]. apply fmap_Permutation.
  rewrite <- (take_drop batchSize (packetChan h)) at 1. rewrite fmap_app. solve_Permutation.
Qed.

Section with_libs.
Context `{DnsLib, AEAD, LZ4}.

Lemma ParsePacket_owned p g content err g1 p1 l :
  ParsePacket p g content true None = (err, g1, p1) → RawData g = nil_slice → owned l p →
  match err with
  | Some _ => RawData g1 = nil_slice ∧ owned l p1
  | None => sid (Payload g1) = sid (RawData g1) ∧ owned (RawData g1 :: l) p1
  end.
Proof.
  intros Hp Hg Ho. destruct (decide (len content <= MaxPacketSize)) as [Hl|Hl]; last first.
  { unfold ParsePacket in Hp. rewrite (proj2 (Z.ltb_lt _ _)) in Hp by lia. by simplify_eq. }
  destruct (ParsePacket_unfold p g content true None Hl) as (d & p0 & _ & Hd & Heq).
  rewrite Heq in Hp. specialize (Hd _ Ho). unfold parse in Hp.
  destruct (parseHeader _ _) as [[[[? ?] ?] ?]|]; simplify_eq; [done|].
  split; [done|]. by apply owned_put.
Qed.

Lemma owned_buildDns extra raw r h resp h1 :
  buildDnsResponse r h = (resp, h1) → sid r = sid raw → hub_owned (raw :: extra) h →
  match resp with
  | Err _ => hub_owned (raw :: extra) h1
  | Ok s => (sid s = sid raw ∧ hub_owned (raw :: extra) h1) ∨ hub_owned (s :: raw :: extra) h1
  end.
Proof.
  unfold buildDnsResponse. intros Hb Hsid Ho. repeat case_match; simplify_eq; try done.
  - unfold append in *. case_match; simplify_eq; [by left|]. right. by eapply owned_alloc.
  - right. by eapply owned_hub_alloc.
Qed.

Lemma owned_answerDns extra g a h :
  sid (Payload g) = sid (RawData g) → hub_owned (RawData g :: extra) h →
  hub_owned (RawData g :: extra) (answerDns g a h).
Proof.
  intros Hsid Ho. unfold answerDns. destruct (buildDnsResponse (Payload g) h) as [resp h1] eqn:Eb.
  apply (owned_buildDns extra (RawData g)) in Eb; [|done|done]. destruct resp as [s|]; [|done].
  destruct (EncodePacket _ _ _ _ _) as [[[data g'] p] cs] eqn:Ee.
  pose proof (EncodePacket_payload _ _ _ _ _ _ _ _ Ee) as Hpl. simpl in Hpl.
  assert (owned (default nil_slice data :: RawData g :: extra ++ held h1) p) as Hd.
  { destruct Eb as [[Hs Hh]|Hh].
    - eapply EncodePacket_keeps in Ee; [|eapply owned_same_sid; [|exact Hh]; done].
      rewrite Hpl in Ee. eapply owned_sids; [|exact Ee]. simpl. by rewrite Hs.
    - eapply EncodePacket_keeps in Ee; [|exact Hh]. rewrite Hpl in Ee.
      eapply (owned_drop s). eapply owned_sids; [|exact Ee]. simpl. solve_Permutation. }
  case_bool_decide.
  - unfold hub_owned, held in *. simpl. rewrite fmap_app. simpl. eapply owned_sids; [|exact Hd].
    simpl. rewrite !fmap_app. simpl. solve_Permutation.
  - apply owned_put. eapply owned_same_sid; [|exact Hd]. done.
Qed.

Lemma owned_cleanUp extra g h : hub_owned (RawData g :: extra) h → hub_owned extra (cleanUp g h).
Proof. intros Ho. apply owned_put. eapply owned_same_sid; [|exact Ho]. done. Qed.

Lemma owned_listenUdp done a g payload h :
  RawData g = nil_slice → hub_owned [] h → hub_owned [] (listenUdp_datagram done a g payload h).
Proof.
  intros Hg Ho. unfold listenUdp_datagram. destruct (ParsePacket _ _ _ _ _) as [[err g1] p] eqn:Ep.
  apply ParsePacket_owned with (l := held h) in Ep; [|done|done]. destruct err.
  { destruct Ep as [Hn Hp]. apply owned_cleanUp. rewrite Hn. by apply owned_nil_slice. }
  destruct Ep as [Hsid Hp]. assert (hub_owned [RawData g1] (set_pool p h)) as Ho1 by exact Hp.
  destruct (_ =? TypePing).
  { apply owned_cleanUp. destruct (clientMap _ !! _); [by apply owned_updateAddr|done]. }
  destruct (_ =? TypeDnsRequest); [by apply owned_cleanUp, owned_answerDns|].
  destruct (_ =? TypeData); [|by apply owned_cleanUp]. destruct done; [by apply owned_cleanUp|].
  case_bool_decide; [|by apply owned_cleanUp].
  unfold hub_owned, held in *. simpl in *. rewrite fmap_app. simpl.
  eapply owned_sids; [|exact Ho1]. simpl. rewrite !fmap_app. simpl. solve_Permutation.
Qed.

Lemma owned_writePump wo co c h r out h' :
  writePump_step wo co c h = Some (r, out, h') → hub_owned [] h → hub_owned [] h'.
Proof.
  unfold writePump_step. intros Hs Ho. destruct (hub_clients h !! c) as [cl|] eqn:Hc; [|done].
  destruct (controlChan cl) as [|gp rest] eqn:Eq; [done|].
  set (h1 := set_clients (insert c (set_controlChan rest cl)) h) in *.
  assert (hub_owned [Payload gp] h1) as Ho1.
  { unfold hub_owned, held in *. simpl. rewrite control_bufs_insert.
    rewrite (control_bufs_split _ _ _ Hc), Eq in Ho. eapply owned_sids; [|exact Ho]. simpl.
    rewrite !fmap_app. simpl. rewrite !fmap_app. solve_Permutation. }
  destruct (PType gp =? TypePong); [simplify_eq; by eapply owned_drop|].
  destruct (negb wo); [simplify_eq; by eapply owned_drop|].
  destruct (EncodePacket _ _ _ _ _) as [[[data g'] p] cs] eqn:Ee.
  eapply EncodePacket_keeps in Ee; [|exact Ho1]. simplify_eq.
  assert (owned (Payload g' :: held h1) (Put (reslice 0 (default nil_slice data)) p)) as Hp
    by (apply owned_put; eapply owned_same_sid; [|exact Ee]; done).
  destruct (PType g' =? TypeNoiseResponse); [|by eapply owned_drop].
  apply owned_put. eapply owned_same_sid; [|exact Hp]. done.
Qed.

(** ** All steps *)

Lemma control_bufs_ext m m' :
  (∀ c, controlChan <$> m !! c = controlChan <$> m' !! c) → control_bufs m = control_bufs m'.
Proof.
  intros Heq. assert (∀ m, control_bufs m = map_to_list (controlChan <$> m) ≫= λ e, Payload <$> e.2) as Hf.
  { intros m0. unfold control_bufs. rewrite map_to_list_fmap, list_fmap_bind. apply list_bind_ext; [|done]. by intros [? ?]. }
  rewrite !Hf. f_equal. f_equal. apply map_eq. intros c. rewrite !lookup_fmap. apply Heq.
Qed.

(** Operations that touch neither queues nor the pool. *)
Lemma owned_frame extra h h' :
  transferChan h' = transferChan h → packetChan h' = packetChan h → bufPool h' = bufPool h →
  (∀ c, controlChan <$> hub_clients h' !! c = controlChan <$> hub_clients h !! c) →
  hub_owned extra h → hub_owned extra h'.
Proof.
  intros Ht Hp Hb Hc. unfold hub_owned, held. by rewrite Ht, Hp, Hb, (control_bufs_ext _ _ Hc).
Qed.

Lemma owned_identity c p h : hub_owned [] h → hub_owned [] (setIdentity c p h).
Proof.
  intros Ho. eapply owned_frame; [..|exact Ho]; try done. intros c'. rewrite lookup_setIdentity.
  case_decide; [|done]. by destruct (hub_clients h !! c').
Qed.

Lemma owned_assign c name snapshot h : hub_owned [] h → hub_owned [] (assignPlace c name snapshot h).
Proof.
  intros Ho. unfold assignPlace. destruct (hub_clients h !! c) as [cl|] eqn:Hc; [|done].
  destruct (retentionMap _ !! _) as [oc|]; [|destruct (getIp_spec h) as [[_ ->]|(l & x & _ & ->)]];
    (eapply owned_frame; [..|exact Ho]; try done);
    intros c'; simpl; rewrite lookup_insert; (case_decide; [|done]); subst; by rewrite Hc.
Qed.

Lemma owned_handshake done c gp h : hub_owned [] h → hub_owned [] (handleHandshake done c gp h).2.
Proof.
  intros Ho. unfold handleHandshake. case_match; [done|].
  set (p := sdata (Payload gp)). set (h2 := assignPlace c (drop 49 p) (dnsMap h) (setIdentity c p h)).
  assert (hub_owned [] h2) as Ho2 by (by apply owned_assign, owned_identity).
  clearbody h2. destruct (hub_clients h2 !! c) as [cl|] eqn:Hc; [|done]. destruct (virtualIp cl) as [v|]; [|done].
  apply owned_reply. eapply owned_frame; [..|exact Ho2]; unfold addClient; by rewrite Hc.
Qed.

Lemma owned_message done c gp h : hub_owned [] h → hub_owned [] (HandleWSMessage done c gp h).2.
Proof.
  intros Ho. unfold HandleWSMessage. destruct (wsHandlers h !! PType gp) as [[]|]; [| | | |done].
  - by apply owned_handshake.
  - by apply owned_noise.
  - unfold handleP2PEstablished. by repeat case_match.
  - unfold handleP2PClosed. by repeat case_match.
Qed.

Lemma owned_tick now h : hub_owned [] h → hub_owned [] (cleanRetention_tick now h).
Proof.
  unfold cleanRetention_tick. intros Ho. induction (map_to_list _) as [|e l IH]; [done|]. simpl.
  eapply owned_frame; [..|exact IH]; unfold expire; by destruct (oc_virtualIp e.2) as [[[a b] c] x].
Qed.

(** Any step of any goroutine, without restriction on what clients send or on how
    the sections of a handshake and of a disconnection interleave; a handler
    that nobody overtakes may also be one step. *)
Inductive hub_step : Hub → Hub → Prop :=
  | st_connect c h : hub_clients h !! c = None → hub_step h (newClient c None None h)
  | st_identity c payload h : hub_step h (setIdentity c payload h)
  | st_assign c name snapshot h : hub_step h (assignPlace c name snapshot h)
  | st_route c h : hub_step h (addClient c h)
  | st_name n v h : hub_step h (addDns n v h)
  | st_reply done c client h : hub_step h (handshakeReply done c client h)
  | st_message done c gp h : hub_step h (HandleWSMessage done c gp h).2
  | st_retain c now rt h : hub_step h (retainClient c now rt h)
  | st_unroute c h : hub_step h (removeClient c h)
  | st_tick now h : hub_step h (cleanRetention_tick now h)
  | st_transfer done h : hub_step h (transfer_step done h)
  | st_udp done a g payload h : RawData g = nil_slice → hub_step h (listenUdp_datagram done a g payload h)
  | st_check g a d g' h h' : listenCheck_datagram g a d h = (g', Some h') → hub_step h h'
  | st_task h h' : handleP2PTask_step h = Some h' → hub_step h h'
  | st_send h : hub_step h (writeUdpPacket_step h).2
  | st_write wo co c r out h h' : writePump_step wo co c h = Some (r, out, h') → hub_step h h'
  | st_ping c h h' : pingHandler c h = Some h' → hub_step h h'.

Lemma hub_step_owned h h' : hub_step h h' → hub_owned [] h → hub_owned [] h'.
Proof.
  destruct 1; intros Ho.
  - unfold hub_owned, held in *. simpl. rewrite control_bufs_insert, delete_id by done. done.
  - by apply owned_identity.
  - by apply owned_assign.
  - eapply owned_frame; [..|exact Ho]; unfold addClient; by repeat case_match.
  - eapply owned_frame; [..|exact Ho]; done.
  - by apply owned_reply.
  - by apply owned_message.
  - eapply owned_frame; [..|exact Ho]; unfold retainClient; by repeat case_match.
  - eapply owned_frame; [..|exact Ho]; unfold removeClient; by repeat case_match.
  - by apply owned_tick.
  - by apply owned_transfer.
  - by apply owned_listenUdp.
  - unfold listenCheck_datagram in *. destruct (ParseControl g d) as [err g1].
    repeat case_match; simplify_eq; try done. by eapply owned_sendCommand.
  - by eapply owned_task.
  - by apply owned_writeUdp.
  - by eapply owned_writePump.
  - unfold pingHandler in *.
    pose proof (owned_sendControl [] c (NewGamePacket ip4_zero ip4_zero TypePong nil_slice) h) as Hs.
    destruct (sendControl _ _ _) as [[] h1]; simplify_eq. apply Hs. simpl. by apply owned_nil_slice.
Qed.

(** C20: no buffer of the server is ever in two hands: in every state it
    reaches, whatever its clients send and in whatever order its goroutines
    run, the arrays of the packets in the relay queue and in the send queue, of
    the payloads in the clients' control queues, and of the free buffers in the
    pool are pairwise different, so that whoever takes a buffer from the pool
    can write it without anybody else seeing it. *)
Theorem server_buffers_owned h : rtc hub_step NewHub h → owned (held h) (bufPool h).
Proof.
  intros Hr. assert (∀ h0, rtc hub_step h0 h → hub_owned [] h0 → hub_owned [] h) as Hall.
  { clear Hr. induction 1; eauto using hub_step_owned. }
  apply (Hall NewHub Hr). unfold hub_owned, owned. simpl. split_and!; [constructor|constructor|lia].
Qed.
End with_libs.

Lemma server_buffers_owned_witness :
  owned (held ex_online) (bufPool ex_online) ∧ length (held ex_online) = 1%nat.
Proof.
  split; [|vm_compute; reflexivity]. apply (server_buffers_owned ex_online).
  eapply rtc_l; [apply (st_connect 1); reflexivity|]. apply rtc_once. apply (st_message false 1 (ex_shake 7 104)).
Defined.
