(* ===== verification/HubLoops.v ===== *)
(** The server's reading loops and the life of a connection: [readPump] and
    [serverWS] of [server_ws.go], the loops of [listenUdp] and [listenCheck] of
    [server_udp.go], over sequences of what the sockets deliver.

    The results connect the loops with the steps of [Lease]: a connection that
    shakes hands at most once, whatever else it sends, is an orderly run,
    and leaves no route behind.  A connection that shakes hands again and again
    takes every address, and one whose writer has died may never end. *)

From stdpp Require Import base numbers list gmap option tactics.
From S2P Require Import Prelude GoStd Cipher Packet PacketFacts Stun Util Hub HubWs HubUdp HubFrame Lease.

Local Open Scope Z_scope.

(** ** A connection *)

(** What [NextReader] and reading the message deliver. *)
Inductive wsRead : Type :=
  | WsTimeout                   (** a timeout of the connection *)
  | WsFailed                    (** any other error *)
  | WsOther                     (** a message that is not binary *)
  | WsStreamError               (** the message could not be read *)
  | WsMessage (msg : gslice)
  | WsPing.                     (** the ping handler ran *)

(** The reader: in its loop, waiting in the ping handler for room in the
    control channel, or returned. *)
Inductive reader : Type := Reading | Waiting | ReaderGone.

(** A connection: its reader with its packet object, whether the writer runs,
    and whether the connection's context is done. *)
Record conn := mkConn {
  cn_reader : reader;
  cn_gp : GamePacket;
  cn_writer : bool;
  cn_cancelled : bool;
}.

Definition newConn : conn := mkConn Reading zeroPacket true false.

(** A turn of [readPump]: what it reads, or another attempt of the ping handler
    to queue its answer. *)
Definition readPump (c : nat) (e : wsRead) (s : conn) (h : Hub) : conn * Hub :=
  match cn_reader s with
  | ReaderGone => (s, h)
  | Waiting =>
      match pingHandler c h with
      | None => (s, h)
      | Some h => (mkConn Reading (cn_gp s) (cn_writer s) (cn_cancelled s), h)
      end
  | Reading =>
      match e with
      | WsTimeout | WsOther | WsStreamError => (s, h)
      | WsFailed => (mkConn ReaderGone (cn_gp s) (cn_writer s) true, h)
      | WsPing =>
          match pingHandler c h with
          | None => (mkConn Waiting (cn_gp s) (cn_writer s) (cn_cancelled s), h)
          | Some h => (s, h)
          end
      | WsMessage msg =>
          match readPump_message false c (cn_gp s) msg h with
          | (Running, g, h) => (mkConn Reading g (cn_writer s) (cn_cancelled s), h)
          | (HubWs.Returned, g, h) => (mkConn ReaderGone g (cn_writer s) (cn_cancelled s), h)
          | (Cancelled, g, h) => (mkConn ReaderGone g (cn_writer s) true, h)
          end
      end
  end.

Section udp_loops.
Context `{DnsLib, AEAD, LZ4}.

(** A turn of [writePump]; an error when a message is finished ends it without
    cancelling the connection. *)
Definition writePump (c : nat) (writerOk closeOk : bool) (s : conn) (h : Hub) : conn * Hub :=
  if cn_writer s then
    match writePump_step writerOk closeOk c h with
    | None => (s, h)
    | Some (Running, _, h) => (s, h)
    | Some (HubWs.Returned, _, h) => (mkConn (cn_reader s) (cn_gp s) false (cn_cancelled s), h)
    | Some (Cancelled, _, h) => (mkConn (cn_reader s) (cn_gp s) false true, h)
    end
  else (s, h).

(** The turns of a connection: its two goroutines in any order, and the server
    that stops. *)
Inductive turn : Type :=
  | Reads (e : wsRead)
  | Writes (writerOk closeOk : bool)
  | Stopped.

Definition takeTurn (c : nat) (tn : turn) (s : conn) (h : Hub) : conn * Hub :=
  match tn with
  | Reads e => readPump c e s h
  | Writes wo co => writePump c wo co s h
  | Stopped => (mkConn (cn_reader s) (cn_gp s) (cn_writer s) true, h)
  end.

(** Turns until the connection's context is done. *)
Fixpoint pumps (c : nat) (turns : list turn) (s : conn) (h : Hub) : conn * Hub :=
  match turns with
  | [] => (s, h)
  | tn :: rest => if cn_cancelled s then (s, h) else let '(s, h) := takeTurn c tn s h in pumps c rest s h
  end.

(** [serverWS]: the request is upgraded, the goroutines run until the connection
    is cancelled, and its place is retained.  The first result says whether
    [serverWS] returned. *)
Definition serverWS (upgradeOk : bool) (c : nat) (turns : list turn) (now retentionTime : Z) (h : Hub) : bool * Hub :=
  if upgradeOk then
    let '(s, h) := pumps c turns newConn (newClient c None None h) in
    if cn_cancelled s then (true, serverWS_done c now retentionTime h) else (false, h)
  else (true, h).

(** ** listenUdp and listenCheck *)

(** A batch of the reading loop: an error, or the datagrams with their senders;
    each takes a packet object from [tpPool], whose buffer is nil. *)
Definition listenUdp_batch (batch : option (list (addrPort * bytes))) (h : Hub) : Hub :=
  match batch with
  | None => h
  | Some msgs => foldl (λ h m, listenUdp_datagram false (Some m.1) zeroPacket m.2 h) h msgs
  end.

Definition listenUdp (batches : list (option (list (addrPort * bytes)))) (h : Hub) : Hub :=
  foldl (λ h b, listenUdp_batch b h) h batches.

(** The loop of the check port; [None] is the panic on a sender whose address is
    not IPv4. *)
Fixpoint listenCheck (reads : list (option (addrPort * gslice))) (g : GamePacket) (h : Hub) : option Hub :=
  match reads with
  | [] => Some h
  | None :: rest => listenCheck rest g h
  | Some (addr, data) :: rest =>
      match listenCheck_datagram g addr data h with
      | (g, Some h) => listenCheck rest g h
      | (_, None) => None
      end
  end.

(** * Facts *)

(** ** UDP loops are runs *)

Lemma listenUdp_batch_run batch h : ∃ tr, orderly_run h tr (listenUdp_batch batch h) ∧ Forall (λ l, l = Tau) tr.
Proof.
  destruct batch as [msgs|]; [|exists []; split; constructor]. simpl.
  revert h. induction msgs as [|m msgs IH]; intros h; [exists []; split; constructor|]. simpl.
  destruct (IH (listenUdp_datagram false (Some m.1) zeroPacket m.2 h)) as (tr & Hr & Ht).
  exists (Tau :: tr). split; [|by constructor]. econstructor; [|exact Hr]. by apply step_udp.
Qed.

Lemma listenUdp_run batches h : ∃ tr, orderly_run h tr (listenUdp batches h) ∧ Forall (λ l, l = Tau) tr.
Proof.
  revert h. induction batches as [|b batches IH]; intros h; [exists []; split; constructor|]. simpl.
  destruct (listenUdp_batch_run b h) as (tr & Hr & Ht), (IH (listenUdp_batch b h)) as (tr' & Hr' & Ht').
  exists (tr ++ tr'). split; [by eapply orderly_run_app|by apply Forall_app].
Qed.

Lemma listenCheck_run reads g h h' :
  listenCheck reads g h = Some h' → ∃ tr, orderly_run h tr h' ∧ Forall (λ l, l = Tau) tr.
Proof.
  revert g h. induction reads as [|[[addr data]|] reads IH]; intros g h; simpl;
    [intros [= <-]; exists []; split; constructor| |apply IH].
  destruct (listenCheck_datagram g addr data h) as [g' [h1|]] eqn:E; [|done]. intros Hl.
  destruct (IH g' h1 Hl) as (tr & Hr & Ht). exists (Tau :: tr). split; [|by constructor].
  econstructor; [by eapply step_check|done].
Qed.

(** ** Connections *)

(** The connection [c] has no address yet, or the route of its address. *)
Definition seated (c : nat) (h : Hub) : Prop :=
  ∃ client, hub_clients h !! c = Some client ∧
    match virtualIp client with None => True | Some v => clientMap h !! v = Some c end.

Definition vacant (c : nat) (h : Hub) : Prop := ∃ client, hub_clients h !! c = Some client ∧ virtualIp client = None.

Lemma seated_same c h h' : same_book h h' → seated c h → seated c h'.
Proof.
  intros Hs (client & Hc & Hv). destruct (same_book_lookup _ _ _ _ Hs Hc) as (client' & Hc' & Hp).
  exists client'. split; [done|]. unfold place in Hp. pose proof Hs as (_ & _ & _ & -> & _). by simplify_eq; rewrite H2.
Qed.

Lemma vacant_same c h h' : same_book h h' → vacant c h → vacant c h'.
Proof.
  intros Hs (client & Hc & Hv). destruct (same_book_lookup _ _ _ _ Hs Hc) as (client' & Hc' & Hp).
  exists client'. split; [done|]. unfold place in Hp. congruence.
Qed.

Lemma vacant_seated c h : vacant c h → seated c h.
Proof. intros (client & Hc & Hv). exists client. by rewrite Hv. Qed.

Lemma handshake_seats done c gp h :
  vacant c h → seated c (handleHandshake done c gp h).2.
Proof.
  intros (client0 & Hc0 & Hv0). unfold handleHandshake. case_match; [exists client0; by rewrite Hv0|].
  set (h1 := setIdentity c _ h). set (h2 := assignPlace c _ _ h1).
  assert (∃ client, hub_clients h2 !! c = Some client) as [client Hc].
  { assert (is_Some (hub_clients h1 !! c)) as [cl Hcl]
      by (subst h1; rewrite lookup_setIdentity, decide_True, Hc0 by done; by eexists).
    subst h2. unfold assignPlace. rewrite Hcl. destruct (retentionMap h1 !! clientID cl).
    - simpl. rewrite lookup_insert_eq. by eexists.
    - destruct (getIp h1). simpl. rewrite lookup_insert_eq. by eexists. }
  clearbody h2. rewrite Hc. destruct (virtualIp client) as [v|] eqn:Hv; [|exists client; by rewrite Hv].
  eapply seated_same; [apply publish_book; [exact Hc|exact Hv]|]. exists client. split; [exact Hc|]. rewrite Hv.
  apply lookup_insert_eq.
Qed.

(** A message that shakes hands. *)
Definition isHandshake (e : wsRead) : bool :=
  match e with
  | WsMessage msg =>
      match parseHeader (sdata msg) payloadLengthPlaintext with
      | Ok (pType, _, _, _) => pType =? TypeHandshake
      | Err _ => false
      end
  | _ => false
  end.

(** The identity it carries. *)
Definition eventID (e : wsRead) : bytes :=
  match e with WsMessage msg => sub (drop HeaderLength (sdata msg)) 33 49 | _ => [] end.

Lemma ParseControl_fields g msg g' :
  ParseControl g msg = (None, g') →
  isHandshake (WsMessage msg) = (PType g' =? TypeHandshake) ∧ handshakeID g' = eventID (WsMessage msg).
Proof.
  unfold ParseControl, isHandshake. destruct (parseHeader _ _) as [[[[t d] sr] L]|]; [|done].
  intros [= <-]. done.
Qed.

(** A message that does not shake hands leaves the address book alone. *)
Lemma readPump_other g msg c h L r g' h' tr :
  orderly_run NewHub tr h → book h L → isHandshake (WsMessage msg) = false → readPump_message false c g msg h = (r, g', h') →
  same_book h h' ∧ ∃ tr', orderly_run h tr' h'.
Proof.
  intros Hrun B Hn. unfold readPump_message. destruct (ParseControl g msg) as [[e|] g1] eqn:Ep;
    [intros [= <- <- <-]; split; [done|exists []; constructor]|].
  destruct (ParseControl_fields _ _ _ Ep) as [Ht _]. rewrite Hn in Ht. symmetry in Ht. rewrite Ht.
  assert (PType g1 ≠ TypeHandshake) as Hne by (by apply Z.eqb_neq).
  destruct (hub_clients h !! c) as [client|]; [|intros [= <- <- <-]; split; [done|exists []; constructor]].
  destruct (negb false && _); [intros [= <- <- <-]; split; [done|exists []; constructor]|].
  pose proof (dispatch_other h L false c g1 B Hne) as Hs. pose proof (step_message h c false g1 Hne) as Hst.
  destruct (HandleWSMessage false c g1 h) as [err h1]. simpl in *. intros Hr.
  assert (h' = h1) as -> by (by destruct err; simplify_eq). split; [done|]. eexists. by apply orderly_run_one.
Qed.

Lemma ping_other c h h' : pingHandler c h = Some h' → same_book h h' ∧ ∃ tr', orderly_run h tr' h'.
Proof. intros Hp. split; [by eapply same_book_ping|]. eexists. apply orderly_run_one. by eapply step_ping. Qed.

Lemma id_offline_same cid h h' : same_book h h' → id_offline cid h → id_offline cid h'.
Proof.
  intros Hs Hoff v c client Hm Hc Hid. pose proof Hs as (_ & _ & _ & Hcm & _ & Hp). rewrite Hcm in Hm.
  specialize (Hp c). rewrite Hc in Hp. destruct (hub_clients h !! c) as [cl|] eqn:E; [|done].
  unfold place in Hp. simpl in Hp. injection Hp as _ _ He. apply (Hoff v c cl Hm E). congruence.
Qed.

(** A turn in which no handshake is read. *)
Definition turnID (tn : turn) : option bytes :=
  match tn with Reads e => if isHandshake e then Some (eventID e) else None | _ => None end.

Lemma turn_quiet c tn s h tr :
  orderly_run NewHub tr h → turnID tn = None → same_book h (takeTurn c tn s h).2 ∧ ∃ tr', orderly_run h tr' (takeTurn c tn s h).2.
Proof.
  intros Hrun Hq. assert (same_book h h ∧ ∃ tr', orderly_run h tr' h) as Hstay by (split; [done|exists []; constructor]).
  destruct (orderly_run_simulated _ _ _ _ Hrun book_init) as (L & _ & B).
  destruct tn as [e|wo co|]; simpl in *; [| |done].
  - unfold readPump. destruct (cn_reader s); [|destruct (pingHandler c h) as [h1|] eqn:Ep; [by eapply ping_other|done]|done].
    destruct e as [| | | |msg|]; try done.
    + destruct (readPump_message false c (cn_gp s) msg h) as [[r g1] h1] eqn:Em.
      destruct (isHandshake (WsMessage msg)) eqn:Eh; [done|].
      pose proof (readPump_other _ _ _ _ _ _ _ _ _ Hrun B Eh Em). by destruct r.
    + destruct (pingHandler c h) as [h1|] eqn:Ep; [by eapply ping_other|done].
  - unfold writePump. destruct (cn_writer s); [|done].
    destruct (writePump_step wo co c h) as [[[r out] h1]|] eqn:Ew; [|done].
    assert (same_book h h1 ∧ ∃ tr', orderly_run h tr' h1) as Hw
      by (split; [by eapply same_book_writePump|eexists; apply orderly_run_one; by eapply step_write]).
    by destruct r.
Qed.

(** What a connection does after its handshake, or before it. *)
Lemma pumps_quiet c turns s h tr :
  orderly_run NewHub tr h → Forall (λ tn, turnID tn = None) turns →
  let h' := (pumps c turns s h).2 in same_book h h' ∧ ∃ tr', orderly_run h tr' h'.
Proof.
  intros Hrun Hq. revert s h tr Hrun. induction Hq as [|tn turns Hn _ IH]; intros s h tr Hrun; simpl;
    [split; [done|exists []; constructor]|].
  destruct (cn_cancelled s); [split; [done|exists []; constructor]|].
  destruct (turn_quiet c tn s h tr Hrun Hn) as (Hs & tr1 & Hr1). destruct (takeTurn c tn s h) as [s1 h1]. simpl in *.
  destruct (IH s1 h1 (tr ++ tr1)) as (Hs2 & tr2 & Hr2); [by eapply orderly_run_app|].
  split; [by etrans|]. exists (tr1 ++ tr2). by eapply orderly_run_app.
Qed.

(** The handshake of a connection that has none yet. *)
Lemma readPump_first c g msg h tr r g' h' :
  orderly_run NewHub tr h → vacant c h → isHandshake (WsMessage msg) = true → id_offline (eventID (WsMessage msg)) h →
  readPump_message false c g msg h = (r, g', h') → seated c h' ∧ ∃ tr', orderly_run h tr' h'.
Proof.
  intros Hrun Hvac Hh Hoff. destruct Hvac as (client & Hc & Hv).
  destruct (orderly_run_simulated _ _ _ _ Hrun book_init) as (L & _ & B).
  unfold readPump_message. destruct (ParseControl g msg) as [[e|] g1] eqn:Ep.
  { intros [= <- <- <-]. split; [exists client; by rewrite Hv|]. exists []. constructor. }
  destruct (ParseControl_fields _ _ _ Ep) as [Ht Hid]. rewrite Hh in Ht. symmetry in Ht. rewrite Hc, Ht. simpl.
  apply Z.eqb_eq in Ht. rewrite <- Hid in Hoff.
  rewrite (dispatch_handshake h L false c g1 B Ht).
  pose proof (handshake_seats false c g1 h (ex_intro _ client (conj Hc Hv))) as Hse.
  assert (∃ tr', orderly_run h tr' (handleHandshake false c g1 h).2) as Htr.
  { rewrite <- (dispatch_handshake h L false c g1 B Ht).
    destruct (decide (len (sdata (Payload g1)) < 49)); eexists; apply orderly_run_one; [by apply step_short|].
    eapply step_handshake; [done|done|done|lia|done]. }
  destruct (handleHandshake false c g1 h) as [err h1]. simpl in *. intros Hr.
  assert (h' = h1) as -> by (by destruct err; simplify_eq). done.
Qed.

(** The turn with the handshake. *)
Lemma turn_first c tn s h tr cid :
  orderly_run NewHub tr h → vacant c h → turnID tn = Some cid → id_offline cid h →
  seated c (takeTurn c tn s h).2 ∧ ∃ tr', orderly_run h tr' (takeTurn c tn s h).2.
Proof.
  intros Hrun Hvac Ht Hoff. destruct tn as [e|wo co|]; try done. simpl in *.
  destruct (isHandshake e) eqn:Eh; [|done]. injection Ht as <-. destruct e as [| | | |msg|]; try done. unfold readPump.
  assert (seated c h ∧ ∃ tr', orderly_run h tr' h) as Hstay by (split; [by apply vacant_seated|exists []; constructor]).
  destruct (cn_reader s); [| |done].
  - destruct (readPump_message false c (cn_gp s) msg h) as [[r g1] h1] eqn:Em.
    pose proof (readPump_first c _ msg h tr r g1 h1 Hrun Hvac Eh Hoff Em). by destruct r.
  - destruct (pingHandler c h) as [h1|] eqn:Ep; [|done]. apply ping_other in Ep as [Hs Hr].
    split; [by eapply seated_same; [|apply Hstay]|done].
Qed.

(** At most one message shakes hands, with an identity that is not online. *)
Definition wellBehaved (turns : list turn) (h : Hub) : Prop :=
  (length (omap turnID turns) <= 1)%nat ∧ ∀ cid, cid ∈ omap turnID turns → id_offline cid h.

Lemma quiet_of_omap turns : omap turnID turns = [] → Forall (λ tn, turnID tn = None) turns.
Proof. induction turns as [|tn turns IH]; [constructor|]. simpl. destruct (turnID tn) eqn:E; [done|]. constructor; auto. Qed.

Lemma pumps_run c turns s h tr :
  orderly_run NewHub tr h → vacant c h → wellBehaved turns h →
  let h' := (pumps c turns s h).2 in seated c h' ∧ ∃ tr', orderly_run h tr' h'.
Proof.
  revert s h tr. induction turns as [|tn turns IH]; intros s h tr Hrun Hvac [Hone Hoff]; simpl.
  { split; [by apply vacant_seated|exists []; constructor]. }
  destruct (cn_cancelled s); [split; [by apply vacant_seated|exists []; constructor]|]. simpl in Hone, Hoff. destruct (turnID tn) as [cid|] eqn:Et.
  - destruct (turn_first c tn s h tr cid Hrun Hvac Et) as (Hse & tr1 & Hr1); [by apply Hoff; left|].
    destruct (takeTurn c tn s h) as [s1 h1]. simpl in *.
    destruct (pumps_quiet c turns s1 h1 (tr ++ tr1)) as (Hs & tr2 & Hr2);
      [by eapply orderly_run_app|apply quiet_of_omap, nil_length_inv;
        change (S (length (omap turnID turns)) <= 1)%nat in Hone; lia|].
    split; [by eapply seated_same|]. exists (tr1 ++ tr2). by eapply orderly_run_app.
  - destruct (turn_quiet c tn s h tr Hrun Et) as (Hs & tr1 & Hr1). destruct (takeTurn c tn s h) as [s1 h1]. simpl in *.
    destruct (IH s1 h1 (tr ++ tr1)) as (Hse & tr2 & Hr2); [by eapply orderly_run_app|by eapply vacant_same| |
      split; [done|exists (tr1 ++ tr2); by eapply orderly_run_app]].
    split; [done|]. intros cid Hin. eapply id_offline_same; [done|]. by apply Hoff.
Qed.

(** The end of a connection. *)
Lemma done_leaves c now rt tr h :
  orderly_run NewHub tr h → seated c h →
  (∃ tr', orderly_run h tr' (serverWS_done c now rt h)) ∧ ∀ v, clientMap (serverWS_done c now rt h) !! v ≠ Some c.
Proof.
  intros Hrun (client & Hc & Hv). destruct (orderly_run_simulated _ _ _ _ Hrun book_init) as (L & _ & B).
  destruct (virtualIp client) as [v|] eqn:Ev.
  - split; [eexists; apply orderly_run_one; by eapply step_disconnect|].
    intros w Hw. destruct (serverWS_done_eq c now rt h client v) as (tm & sl & He); [done|done|by eexists|].
    rewrite He in Hw. simpl in Hw. apply lookup_delete_Some in Hw as [Hne Hw].
    destruct (book_route _ _ B _ _ Hw) as (cl & Hcl & Hvip & _). congruence.
  - assert (serverWS_done c now rt h = h) as -> by (unfold serverWS_done; by rewrite Hc, Ev).
    split; [exists []; constructor|]. intros w Hw. destruct (book_route _ _ B _ _ Hw) as (cl & Hcl & Hvip & _). congruence.
Qed.

(** A connection is a run of the server, from the upgrade of its request through
    every turn of its reader and its writer to the retention of its place,
    provided it shakes hands at most once, with an identity that is not online;
    whatever the messages are, and whenever the connection ends, no route leads
    to it afterwards. *)
Theorem connection_leaves_no_route tr h c turns now rt :
  orderly_run NewHub tr h → hub_clients h !! c = None → wellBehaved turns h →
  let r := serverWS true c turns now rt h in
  (∃ tr', orderly_run NewHub (tr ++ tr') r.2) ∧ (r.1 = true → ∀ v, clientMap r.2 !! v ≠ Some c).
Proof.
  intros Hrun Hc [Hone Hoff]. unfold serverWS. set (h1 := newClient c None None h).
  assert (orderly_run NewHub (tr ++ [Tau]) h1) as Hrun1 by (eapply orderly_run_app; [done|]; by apply orderly_run_one, step_connect).
  destruct (pumps_run c turns newConn h1 (tr ++ [Tau])) as [Hse (tr2 & Hr2)]; [done| | |].
  { eexists. split; [apply lookup_insert_eq|done]. }
  { split; [done|]. intros cid Hin v c' cl Hm Hcl. simpl in Hcl. rewrite lookup_insert_ne in Hcl.
    - by eapply (Hoff cid Hin v c').
    - intros <-. destruct (orderly_run_simulated _ _ _ _ Hrun book_init) as (L & _ & B).
      destruct (book_route _ _ B _ _ Hm) as (cl' & Hcl' & _). congruence. }
  destruct (pumps c turns newConn h1) as [s h2]. simpl in *.
  assert (orderly_run NewHub ((tr ++ [Tau]) ++ tr2) h2) as Hrun2 by (by eapply orderly_run_app).
  destruct (cn_cancelled s).
  - destruct (done_leaves c now rt _ h2 Hrun2 Hse) as [(tr3 & Hr3) Hno]. split; [|done].
    exists ([Tau] ++ tr2 ++ tr3). rewrite !app_assoc. by eapply orderly_run_app.
  - split; [|done]. exists ([Tau] ++ tr2). by rewrite !app_assoc.
Qed.

(** A reader that waits for a dead writer waits for ever. *)
Lemma dead_writer_stuck c more s h :
  cn_reader s = Waiting → cn_writer s = false → cn_cancelled s = false →
  (λ client, length (controlChan client)) <$> hub_clients h !! c = Some controlCap → Stopped ∉ more →
  pumps c more s h = (s, h).
Proof.
  intros Hr Hw Hc (client & Hcl & Hfull)%fmap_Some. induction more as [|tn more IH]; intros Hm; [done|]. simpl. rewrite Hc.
  assert (takeTurn c tn s h = (s, h)) as ->; [|apply IH; set_solver].
  destruct tn as [e|wo co|]; simpl; [| |set_solver].
  - unfold readPump, pingHandler, sendControl. by rewrite Hr, Hcl, bool_decide_false by lia.
  - unfold writePump. by rewrite Hw.
Qed.

Lemma pumps_app c l k s h :
  pumps c (l ++ k) s h = let '(s1, h1) := pumps c l s h in if cn_cancelled s1 then (s1, h1) else pumps c k s1 h1.
Proof.
  revert s h. induction l as [|tn l IH]; intros s h; simpl.
  - destruct k; simpl; destruct (cn_cancelled s); done.
  - destruct (cn_cancelled s) eqn:E; [by rewrite E|]. destruct (takeTurn c tn s h) as [s1 h1]. apply IH.
Qed.

Lemma serverWS_stuck c l more now rt h s1 h1 :
  pumps c l newConn (newClient c None None h) = (s1, h1) →
  cn_reader s1 = Waiting → cn_writer s1 = false → cn_cancelled s1 = false →
  (λ client, length (controlChan client)) <$> hub_clients h1 !! c = Some controlCap → Stopped ∉ more →
  serverWS true c (l ++ more) now rt h = (false, h1).
Proof.
  intros Hp Hr Hw Hc Hcl Hm. unfold serverWS. rewrite pumps_app, Hp, Hc, dead_writer_stuck by done. by rewrite Hc.
Qed.
End udp_loops.

(** ** Repeated handshakes *)

Lemma tick_frees now h :
  (length (freeIps (cleanRetention_tick now h)) <= length (freeIps h) + size (retentionMap h))%nat.
Proof.
  unfold cleanRetention_tick. set (m := filter _ _).
  assert (size m <= size (retentionMap h))%nat as Hm by (apply map_subseteq_size, map_filter_subseteq).
  assert (∀ l, length (freeIps (foldr expire h l)) = (length l + length (freeIps h))%nat) as Hl.
  { intros l. induction l as [|e l IH]; [done|].
    change (length (freeIps (releaseIp (oc_virtualIp e.2) (foldr expire h l))) = (S (length l) + length (freeIps h))%nat).
    unfold releaseIp. destruct (oc_virtualIp e.2) as [[[a b] c] x]. cbn [freeIps set_free]. rewrite length_app, IH. simpl. lia. }
  rewrite Hl, length_map_to_list. lia.
Qed.

Lemma tick_frees_most now h m n :
  length (freeIps h) = m → size (retentionMap h) = n → (length (freeIps (cleanRetention_tick now h)) <= m + n)%nat.
Proof. intros <- <-. apply tick_frees. Qed.

(** A handshake of one client, and a connection that repeats it. *)
Definition ex_msg : wsRead :=
  WsMessage (Slice 5 (default [] (EncodePacketWithBuffer (ex_shake 7 104) [] true None).1.1) []).
Definition ex_greedy : Hub :=
  (serverWS true 1 (concat (replicate 253 [Reads ex_msg; Writes true true]) ++ [Reads WsFailed]) 1000 60 NewHub).2.

(** Example of what [Ledger.second_handshake_loses_address] means: a single
    connection that shakes hands 253 times and goes away leaves the server
    without free addresses and with 252 routes that lead nowhere, and the next
    clean-up frees one address at most. *)
Theorem repeated_handshakes_exhaust :
  freeIps ex_greedy = [] ∧ size (clientMap ex_greedy) = 252%nat ∧
  Forall (λ e, e.2 = 1%nat) (map_to_list (clientMap ex_greedy)) ∧
  ∀ now, (length (freeIps (cleanRetention_tick now ex_greedy)) <= 1)%nat.
Proof.
  split; [vm_compute; reflexivity|]. split; [vm_compute; reflexivity|]. split.
  - apply (bool_decide_unpack (Forall (λ e, e.2 = 1%nat) (map_to_list (clientMap ex_greedy)))). vm_compute. done.
  - intros now. apply (tick_frees_most now ex_greedy 0 1); vm_compute; reflexivity.
Qed.

(** ** A dead writer *)

(** A handshake whose reply cannot be finished, then seventeen pings. *)
Definition ex_dead : list turn := [Reads ex_msg; Writes true false] ++ replicate 17 (Reads WsPing).

(** C34: [writePump] returns without cancelling the connection when a message cannot
    be finished.  The reader then has nobody to take its answers to pings and
    waits for ever behind the sixteen the channel holds: whatever the
    connection does afterwards, short of stopping the server, it does not end,
    its address stays taken, and no clean-up ever frees it. *)
Theorem dead_writer_hangs :
  let h := (pumps 1 ex_dead newConn (newClient 1 None None NewHub)).2 in
  size (clientMap h) = 1%nat ∧
  (∀ more now rt, Stopped ∉ more → serverWS true 1 (ex_dead ++ more) now rt NewHub = (false, h)) ∧
  ∀ now, (length (freeIps (cleanRetention_tick now h)) <= 252)%nat.
Proof.
  intros h. split; [vm_compute; reflexivity|]. split.
  - intros more now rt Hm.
    apply (serverWS_stuck 1 ex_dead more now rt NewHub (pumps 1 ex_dead newConn (newClient 1 None None NewHub)).1 h);
      [apply surjective_pairing|vm_compute; reflexivity..|exact Hm].
  - intros now. apply (tick_frees_most now h 252 0); vm_compute; reflexivity.
Qed.

(** A connection that ends, its reader and writer taking turns. *)
Definition ex_turns : list turn :=
  [Reads WsPing; Writes true true; Reads ex_msg; Writes true true; Reads WsPing; Reads WsOther; Reads WsFailed].

Lemma connection_leaves_no_route_witness :
  let r := serverWS true 1 ex_turns 1000 60 NewHub in
  r.1 = true ∧ size (retentionMap r.2) = 1%nat ∧
  (∃ tr', orderly_run NewHub ([] ++ tr') r.2) ∧ (r.1 = true → ∀ v, clientMap r.2 !! v ≠ Some 1%nat).
Proof.
  split; [vm_compute; reflexivity|]. split; [vm_compute; reflexivity|].
  refine (connection_leaves_no_route [] NewHub 1 ex_turns 1000 60 _ _ _); [constructor|reflexivity|].
  split; [vm_compute; lia|]. intros cid _ v c client Hm. vm_compute in Hm. discriminate.
Defined.
