(* ===== verification/P2PFacts.v ===== *)
(** Correctness of the server's P2P scheduling ([server_p2p.go]): the number
    of attempts per pair is bounded as long as they are not decided at the same
    time, and the exact condition under which
    commands are sent, or the server process dies. *)

From stdpp Require Import base numbers list gmap option tactics.
From S2P Require Import Prelude Cipher Packet Stun Util Hub HubWs HubUdp Lease.

Local Open Scope Z_scope.

(** ** Bounded attempts *)

(** A step of the scheduling state of the pair with key [k], with the number
    of attempts (0 or 1) it starts for that pair.  Leaving aside the departure
    of a client, these are all operations that touch the tunnel table. *)
Inductive p2p_step (k : bytes) : Hub → nat → Hub → Prop :=
  | p2p_traffic src dst srcNat dstNat h b h' :
      ifEstablish src dst srcNat dstNat h = (b, h') →
      p2p_step k h (if b && bool_decide (makeKey src dst = k) then 1 else 0) h'
  | p2p_task h h' : handleP2PTask_step h = Some h' → p2p_step k h 0 h'
  | p2p_established c gp h : p2p_step k h 0 (handleP2PEstablished c gp h).2
  | p2p_closed c gp h : p2p_step k h 0 (handleP2PClosed c gp h).2
  | p2p_other h h' : hub_tm h' = hub_tm h → p2p_step k h 0 h'.

(** [p2p_run k h n a h']: [n] steps from [h] to [h'] with [a] attempts. *)
Inductive p2p_run (k : bytes) : Hub → nat → nat → Hub → Prop :=
  | p2p_run_nil h : p2p_run k h 0 0 h
  | p2p_run_snoc h n a h1 i h2 : p2p_run k h n a h1 → p2p_step k h1 i h2 → p2p_run k h (S n) (a + i) h2.

(** What the tunnel of the pair says about the attempts so far. *)
Definition attempts_ok (n a : nat) (t : option P2PTunnel) : Prop :=
  match t with
  | None => a = 0%nat
  | Some t =>
      0 <= RetryTimes t <= Z.of_nat n ∧ (a <= 6)%nat ∧
      Z.of_nat a <= RetryTimes t + (if Status t =? TunnelFailed then 0 else 1)
  end.

Lemma attempts_more n a t : attempts_ok n a t → attempts_ok (S n) a t.
Proof. destruct t; simpl; [|done]. lia. Qed.

Lemma attempts_retry n a t : Z.of_nat (S n) < 2 ^ 32 → attempts_ok n a (Some t) → attempts_ok (S n) a (Some (AddRetryTimes t)).
Proof.
  simpl. intros Hn (Hr & Ha & Hs). rewrite u32_small by lia. case_match; lia.
Qed.

Lemma lookup_addTunnel A B st tm k :
  AddTunnel A B st tm !! k =
    if decide (makeKey A B = k) then Some (default (mkP2PTunnel A B st 0 0) (tm !! k)) else tm !! k.
Proof.
  unfold AddTunnel. case_decide as Hk.
  - subst. destruct (tm !! makeKey A B) eqn:E; [by rewrite E|]. by rewrite lookup_insert_eq.
  - case_match; [done|]. by rewrite lookup_insert_ne.
Qed.

Lemma lookup_updateTunnel f A B tm k :
  updateTunnel f A B tm !! k = if decide (makeKey A B = k) then f <$> tm !! k else tm !! k.
Proof. unfold updateTunnel. rewrite lookup_alter. repeat case_decide; congruence. Qed.

Lemma sendControl_tm c gp h : hub_tm (sendControl c gp h).2 = hub_tm h.
Proof. unfold sendControl. by repeat case_match. Qed.

Lemma sendCommand_tm c s d a n h h' : sendCommand c s d a n h = Some h' → hub_tm h' = hub_tm h.
Proof.
  unfold sendCommand. destruct (UDPAddrPortToBytes a n); simpl; [|done]. intros [= <-].
  unfold trySendControl. by rewrite sendControl_tm.
Qed.

Lemma handleP2PCommand_tm s d sc dc t h h' : handleP2PCommand s d sc dc t h = Some h' → hub_tm h' = hub_tm h.
Proof.
  unfold handleP2PCommand. intros Hr.
  apply bind_Some in Hr as (h1 & H1 & Hr). apply bind_Some in Hr as (h2 & H2 & Hr).
  apply bind_Some in Hr as (h3 & H3 & Hr).
  assert (∀ c g h0 h1 c' s' d' a n, sendCommand c' s' d' a n (trySendControl c g h0) = Some h1 →
    hub_tm h1 = hub_tm h0) as Hpair
    by (intros; erewrite sendCommand_tm by done; apply sendControl_tm).
  assert (hub_tm h1 = hub_tm h) as <- by (repeat case_match; simplify_eq; eauto).
  assert (hub_tm h2 = hub_tm h1) as <- by (repeat case_match; simplify_eq; eauto).
  assert (hub_tm h3 = hub_tm h2) as <- by (repeat case_match; simplify_eq; eauto using sendCommand_tm).
  repeat case_match; simplify_eq; eauto using sendCommand_tm.
Qed.

Lemma handleP2PTask_tm h h' :
  handleP2PTask_step h = Some h' →
  hub_tm h' = hub_tm h ∨ ∃ A B, hub_tm h' = match Exist (hub_tm h) A B with
    | None => AddTunnel A B TunnelInit (hub_tm h) | Some _ => updateTunnel AddRetryTimes A B (hub_tm h) end.
Proof.
  unfold handleP2PTask_step. destruct (p2pTaskChan h) as [|task rest]; [intros [= <-]; by left|].
  intros Hr. right. exists (SrcVip task), (DstVip task). simpl in Hr.
  destruct (Exist (hub_tm h) (SrcVip task) (DstVip task)); simpl in Hr;
    repeat case_match; simplify_eq; try done; apply handleP2PCommand_tm in Hr; done.
Qed.

(** [ifEstablish] in one piece. *)
Lemma ifEstablish_eq src dst ns nd h :
  ifEstablish src dst ns nd h =
    if (ns <=? TypeUnknown) || (nd <=? TypeUnknown) then (false, h)
    else match Exist (hub_tm h) src dst with
         | None => (true, set_tm (AddTunnel src dst TunnelInit) h)
         | Some t => if (GetStatus t =? TunnelFailed) && (GetRetryTimes t <? 6)
                     then (true, set_tm (updateTunnel (ChangeStatus TunnelInit) src dst) h) else (false, h)
         end.
Proof. unfold ifEstablish, ifEstablish_check. by repeat case_match. Qed.

Lemma attempts_step k h i h' n a :
  p2p_step k h i h' → Z.of_nat (S n) < 2 ^ 32 →
  attempts_ok n a (hub_tm h !! k) → attempts_ok (S n) (a + i) (hub_tm h' !! k).
Proof.
  intros Hst Hn Hok. destruct Hst as [src dst ns nd h b h' He|h h' Ht|c gp h|c gp h|h h' ->];
    rewrite ?Nat.add_0_r; try by apply attempts_more.
  - rewrite ifEstablish_eq in He. case_match; simplify_eq/=; [rewrite Nat.add_0_r; by apply attempts_more|].
    unfold Exist in He. destruct (hub_tm h !! makeKey src dst) as [t|] eqn:E.
    + case_match eqn:G; simplify_eq/=; [|rewrite Nat.add_0_r; by apply attempts_more].
      rewrite lookup_updateTunnel. case_decide as Hk.
      * subst k. rewrite bool_decide_true, E in * by done. apply andb_true_iff in G as [G1%Z.eqb_eq G2%Z.ltb_lt].
        unfold GetStatus, GetRetryTimes in *. simpl in *. rewrite G1 in Hok. simpl in Hok. lia.
      * rewrite bool_decide_false, Nat.add_0_r by done. by apply attempts_more.
    + simplify_eq/=. rewrite lookup_addTunnel. case_decide as Hk.
      * subst k. rewrite bool_decide_true, E in * by done. simpl in *. subst. lia.
      * rewrite bool_decide_false, Nat.add_0_r by done. by apply attempts_more.
  - apply handleP2PTask_tm in Ht as [->|(A & B & ->)]; [by apply attempts_more|]. unfold Exist.
    destruct (hub_tm h !! makeKey A B) as [t|] eqn:E.
    + rewrite lookup_updateTunnel. case_decide as Hk; [|by apply attempts_more].
      subst k. rewrite E in *. by apply attempts_retry.
    + rewrite lookup_addTunnel. case_decide as Hk; [|by apply attempts_more].
      subst k. rewrite E in *. simpl in *. subst. lia.
  - unfold handleP2PEstablished, Exist. destruct (hub_clients h !! c) as [cl|]; [|by apply attempts_more].
    destruct (hub_tm h !! makeKey _ _) as [t|] eqn:E; [case_match eqn:G|]; simpl; [|by apply attempts_more|].
    + rewrite lookup_updateTunnel. case_decide as Hk; [|by apply attempts_more].
      subst k. rewrite E in *. bool_cases. simpl in *. unfold GetStatus in G. rewrite G in Hok. simpl in Hok. lia.
    + rewrite lookup_addTunnel. case_decide as Hk; [|by apply attempts_more].
      subst k. rewrite E in *. simpl in *. subst. lia.
  - unfold handleP2PClosed, Exist. destruct (hub_clients h !! c) as [cl|]; [|by apply attempts_more].
    destruct (hub_tm h !! makeKey _ _) as [t|] eqn:E; simpl; [|by apply attempts_more].
    rewrite !lookup_updateTunnel. case_decide as Hk; [|by apply attempts_more].
    subst k. rewrite E in *. simpl in *. rewrite u32_small by lia. case_match; lia.
Qed.

Lemma attempts_run k h n a h' :
  p2p_run k h n a h' → hub_tm h !! k = None → Z.of_nat n < 2 ^ 32 → attempts_ok n a (hub_tm h' !! k).
Proof.
  induction 1 as [h|h n a h1 i h2 Hr IH Hst]; intros Hk Hn; [by rewrite Hk|].
  eapply attempts_step; [exact Hst|done|]. apply IH; [done|lia].
Qed.

(** Between the first contact of two clients and the departure of one of
    them, hole punching is attempted at most six times for the pair, whatever
    the order of traffic, scheduled tasks and reports of the two clients, as long
    as [ifEstablish] and the handlers of the reports run one at a time (and for
    fewer than 2^32 events, after which the retry counter wraps). *)
Theorem p2p_attempts_bounded A B h n a h' :
  p2p_run (makeKey A B) h n a h' → Exist (hub_tm h) A B = None → Z.of_nat n < 2 ^ 32 → (a <= 6)%nat.
Proof.
  intros Hr Hk Hn. pose proof (attempts_run _ _ _ _ _ Hr Hk Hn) as Hok.
  destruct (hub_tm h' !! makeKey A B); simpl in Hok; lia.
Qed.

(** They do not: two goroutines run [transfer], and on first contact both can
    read the table before either writes.  Each then starts an attempt of its own. *)
Lemma simultaneous_attempts src dst ns nd h :
  ifEstablish_check src dst ns nd h = FirstAttempt →
  let r := ifEstablish_act FirstAttempt src dst h in
  let r' := ifEstablish_act (ifEstablish_check src dst ns nd h) src dst r.2 in
  r.1 = true ∧ r'.1 = true ∧ hub_tm r'.2 = hub_tm r.2 ∧ ifEstablish_check src dst ns nd r.2 = NoAttempt.
Proof.
  intros Hc. rewrite Hc. unfold ifEstablish_check in *. destruct (_ || _); [done|].
  destruct (Exist (hub_tm h) src dst) eqn:E; [by case_match|]. simpl. split_and!; try done.
  - unfold AddTunnel, Exist in *. by rewrite E, lookup_insert_eq.
  - rewrite Exist_add, decide_True, E by done. done.
Qed.

(** ** Commands *)

(** The NAT types for which the peer is told the address. *)
Definition punchable (nat_type : Z) : bool := (nat_type =? TypeSymmetric) || (nat_type =? TypeCone).

(** An IPv4 endpoint, the only kind a command can carry. *)
Definition is_v4 (a : option addrPort) : bool := match a with Some (V4 _, _) => true | _ => false end.

Definition v4 (a : ip4 * Z) : addrPort := (V4 a.1, a.2).

Lemma sendCommand_panics c s d a n h : sendCommand c s d a n h = None ↔ is_v4 a = false.
Proof. unfold sendCommand. by destruct a as [[[ip|ip] port]|]. Qed.

Lemma bind_panics {A B} (mx : option A) (f : A → option B) (P Q : Prop) :
  (mx = None ↔ P) → (∀ x, f x = None ↔ Q) → (mx ≫= f = None ↔ P ∨ Q).
Proof. intros HP HQ. destruct mx as [x|]; simpl; [rewrite HQ|]; naive_solver. Qed.

(** A guarded command panics if its guard holds and there is no IPv4 address. *)
Lemma guarded_panics (b : bool) c s d a n h (h0 : Hub) :
  (if b then sendCommand c s d a n h else Some h0) = None ↔ b = true ∧ is_v4 a = false.
Proof. destruct b; [rewrite sendCommand_panics|]; naive_solver. Qed.

(** A P2P task stops the server process exactly when a side whose NAT is
    cone or symmetric, so that its address must be announced, has not sent any
    UDP datagram yet or sends them over IPv6: converting such an address to four
    bytes panics. *)
Theorem handleP2PCommand_panics s d src dst task h :
  handleP2PCommand s d src dst task h = None ↔
    (punchable (natType src) = true ∧ is_v4 (dataAddr src) = false) ∨
    (punchable (natType dst) = true ∧ is_v4 (dataAddr dst) = false).
Proof.
  unfold handleP2PCommand. rewrite bind_panics; [|apply guarded_panics|intros h1; apply bind_panics;
    [apply guarded_panics|intros h2; apply bind_panics; [apply guarded_panics|intros h3; apply guarded_panics]]].
  unfold punchable. rewrite !orb_true_iff. naive_solver.
Qed.

(** What a queued control packet says. *)
Definition view (g : GamePacket) : ip4 * ip4 * Z * bytes :=
  (SourceVirtualIp g, Destination g, PType g, sdata (Payload g)).

Definition queue (h : Hub) (c : nat) : option (list (ip4 * ip4 * Z * bytes)) :=
  (λ cl, view <$> controlChan cl) <$> hub_clients h !! c.

(** The queues of two clients. *)
Definition queues (h : Hub) (s d : nat) qs qd : Prop := queue h s = Some qs ∧ queue h d = Some qd.

Lemma queues_sym h s d qs qd : queues h s d qs qd → queues h d s qd qs.
Proof. unfold queues. naive_solver. Qed.

Lemma queues_send s d c gp h qs qd :
  s ≠ d → c = s → queues h s d qs qd → (length qs < controlCap)%nat →
  queues (trySendControl c gp h) s d (qs ++ [view gp]) qd.
Proof.
  intros Hne -> [Hs Hd] Hl. unfold queues, queue, trySendControl, sendControl in *.
  destruct (hub_clients h !! s) as [cl|] eqn:E; [|done]. simpl in Hs. simplify_eq.
  rewrite length_fmap in Hl. rewrite bool_decide_true by done. simpl.
  rewrite lookup_insert_eq, lookup_insert_ne by done. simpl. by rewrite fmap_app.
Qed.

(** The bytes of an endpoint message. *)
Definition endpoint (a : ip4 * Z) (nat_type : Z) : bytes :=
  ip4_bytes a.1 ++ PutUint16 a.2 ++ [nat_type].

Lemma queues_command s d c src dst a n h qs qd :
  s ≠ d → c = s → queues h s d qs qd → (length qs < controlCap)%nat →
  ∃ h', sendCommand c src dst (Some (v4 a)) n h = Some h' ∧
    queues h' s d (qs ++ [(src, dst, TypeP2PCommand, endpoint a n)]) qd.
Proof.
  intros Hne -> Hq Hl. destruct a as [ip port]. unfold sendCommand. simpl. eexists. split; [done|].
  match goal with |- queues (trySendControl _ ?gp ?h1) _ _ _ _ =>
    exact (queues_send s d s gp h1 qs qd Hne eq_refl Hq Hl) end.
Qed.

(** The guarded stages of [handleP2PCommand]. *)
Lemma stage_command (b : bool) s d src dst a n h qs qd :
  s ≠ d → queues h s d qs qd → (b = true → length qs < controlCap)%nat →
  ∃ h', (if b then sendCommand s src dst (Some (v4 a)) n h else Some h) = Some h' ∧
    queues h' s d (qs ++ (if b then [(src, dst, TypeP2PCommand, endpoint a n)] else [])) qd.
Proof.
  intros Hne Hq Hl. destruct b; [by apply queues_command; auto|]. exists h. by rewrite app_nil_r.
Qed.

Lemma stage_probe (b : bool) s d gp src dst a n h qs qd :
  s ≠ d → queues h s d qs qd → (b = true → length qs < controlCap)%nat → (b = true → length qd < controlCap)%nat →
  ∃ h', (if b then sendCommand d src dst (Some (v4 a)) n (trySendControl s gp h) else Some h) = Some h' ∧
    queues h' s d (qs ++ (if b then [view gp] else []))
      (qd ++ (if b then [(src, dst, TypeP2PCommand, endpoint a n)] else [])).
Proof.
  intros Hne Hq Hs Hd. destruct b; [|exists h; by rewrite !app_nil_r].
  destruct (queues_command d s d src dst a n (trySendControl s gp h) qd (qs ++ [view gp])) as (h' & He & Hq');
    [done|done|by apply queues_sym, queues_send; auto|auto|]. exists h'. split; [done|by apply queues_sym].
Qed.

(** What a client is told: to probe, if its own NAT is symmetric, and the
    endpoint of a peer behind a cone or symmetric NAT. *)
Definition probe (self peer : ip4) (nat_type : Z) : list (ip4 * ip4 * Z * bytes) :=
  if nat_type =? TypeSymmetric then [(peer, self, TypeP2PCheck, [])] else [].
Definition announce (self peer : ip4) (a : ip4 * Z) (nat_type : Z) (types : Z → bool)
    : list (ip4 * ip4 * Z * bytes) :=
  if types nat_type then [(peer, self, TypeP2PCommand, endpoint a nat_type)] else [].

(** With both IPv4 addresses known and room in both queues, a P2P task makes
    the source and the destination each receive exactly what their NAT types
    call for: a request to probe if it is symmetric itself, and the endpoint
    of the other side if that is cone or symmetric; no other message. *)
Theorem p2p_commands_delivered s d src dst task h asrc adst :
  s ≠ d → hub_clients h !! s = Some src → hub_clients h !! d = Some dst →
  dataAddr src = Some (v4 asrc) → dataAddr dst = Some (v4 adst) →
  (length (controlChan src) + 2 <= controlCap)%nat → (length (controlChan dst) + 2 <= controlCap)%nat →
  ∃ h', handleP2PCommand s d src dst task h = Some h' ∧
    queue h' s = Some ((view <$> controlChan src) ++ probe (SrcVip task) (DstVip task) (natType src) ++
      announce (SrcVip task) (DstVip task) adst (natType dst) punchable) ∧
    queue h' d = Some ((view <$> controlChan dst) ++
      announce (DstVip task) (SrcVip task) asrc (natType src) (Z.eqb TypeSymmetric) ++
      probe (DstVip task) (SrcVip task) (natType dst) ++
      announce (DstVip task) (SrcVip task) asrc (natType src) (Z.eqb TypeCone)).
Proof.
  intros Hne Hs Hd As Ad Ls Ld. unfold handleP2PCommand. rewrite As, Ad.
  assert (queues h s d (view <$> controlChan src) (view <$> controlChan dst)) as Hq
    by (unfold queues, queue; by rewrite Hs, Hd).
  assert (∀ n, (n =? TypeSymmetric) = true → (n =? TypeCone) = false) as Hx
    by (unfold TypeSymmetric, TypeCone; intros; bool_cases; lia).
  destruct (stage_probe (natType src =? TypeSymmetric) s d (NewGamePacket (DstVip task) (SrcVip task) TypeP2PCheck nil_slice)
    (SrcVip task) (DstVip task) asrc (natType src) h _ _ Hne Hq) as (h1 & -> & Hq1);
    [rewrite length_fmap; lia..|]. simpl.
  destruct (stage_probe (natType dst =? TypeSymmetric) d s (NewGamePacket (SrcVip task) (DstVip task) TypeP2PCheck nil_slice)
    (DstVip task) (SrcVip task) adst (natType dst) h1 _ _ (not_eq_sym Hne) (queues_sym _ _ _ _ _ Hq1)) as (h2 & -> & Hq2);
    [rewrite length_app, length_fmap; case_match; simpl; lia..|]. simpl.
  destruct (stage_command (natType dst =? TypeCone) s d (DstVip task) (SrcVip task) adst (natType dst) h2 _ _
    Hne (queues_sym _ _ _ _ _ Hq2)) as (h3 & -> & Hq3).
  { intros Hc. rewrite !length_app, length_fmap. destruct (natType dst =? TypeSymmetric) eqn:E.
    - by rewrite (Hx _ E) in Hc.
    - case_match; simpl; lia. }
  simpl.
  destruct (stage_command (natType src =? TypeCone) d s (SrcVip task) (DstVip task) asrc (natType src) h3 _ _
    (not_eq_sym Hne) (queues_sym _ _ _ _ _ Hq3)) as (h4 & -> & [Hq4d Hq4s]).
  { intros Hc. rewrite !length_app, length_fmap. destruct (natType src =? TypeSymmetric) eqn:E.
    - by rewrite (Hx _ E) in Hc.
    - case_match; simpl; lia. }
  exists h4. split; [done|]. rewrite Hq4s, Hq4d. unfold probe, announce, punchable.
  rewrite (Z.eqb_sym TypeSymmetric), (Z.eqb_sym TypeCone), <- !app_assoc.
  split; [|done]. f_equal. f_equal. destruct (natType dst =? TypeSymmetric) eqn:E; [by rewrite (Hx _ E)|done].
Qed.

(** ** Examples *)

(** Two clients behind cone NATs, at 10.0.6.2 and 10.0.6.3, that have shaken
    hands and not sent any datagram. *)
Definition ex_two : Hub := (HandleWSMessage false 2 (ex_shake 8 105) (newClient 2 None None ex_online)).2.
Definition ex_A : ip4 := (10, 0, 6, 2).
Definition ex_B : ip4 := (10, 0, 6, 3).
Definition ex_addrA : addrPort := (V4 (1, 2, 3, 4), 4000).

(** A data packet of the first to the second. *)
Definition ex_datagram : bytes :=
  default [] (encode (NewGamePacket ex_A ex_B TypeData (Slice 901 [1; 2; 3] [])) [] false None).1.1.

Definition ex_received : Hub := listenUdp_datagram false (Some ex_addrA) zeroPacket ex_datagram ex_two.

(** One data packet stops the server: after two clients behind cone NATs
    have shaken hands, a packet of the first for the second, which has not
    sent a datagram yet, schedules a P2P task whose execution panics. *)
Theorem first_packet_stops_server :
  length (transferChan ex_received) = 1%nat ∧
  handleP2PTask_step (transfer_step false ex_received) = None.
Proof. split; vm_compute; reflexivity. Qed.

(** The close report of client 1 about 10.0.6.3, and one retry cycle. *)
Definition ex_close : GamePacket := NewGamePacket ex_A ex_B TypeP2PClosed nil_slice.
Definition ex_cycle (h : Hub) : Hub := (ifEstablish ex_A ex_B 3 3 (handleP2PClosed 1 ex_close h).2).2.

Lemma ex_cycle_run h n a h1 :
  p2p_run (makeKey ex_A ex_B) h n a h1 → (ifEstablish ex_A ex_B 3 3 (handleP2PClosed 1 ex_close h1).2).1 = true →
  p2p_run (makeKey ex_A ex_B) h (S (S n)) (a + 0 + 1) (ex_cycle h1).
Proof.
  intros Hr Hb. apply (p2p_run_snoc _ _ (S n) (a + 0)%nat (handleP2PClosed 1 ex_close h1).2 1).
  - eapply p2p_run_snoc; [exact Hr|apply p2p_closed].
  - unfold ex_cycle. destruct (ifEstablish _ _ _ _ _) as [b h2] eqn:E. simpl in Hb. subst b. simpl.
    exact (p2p_traffic (makeKey ex_A ex_B) _ _ _ _ _ true h2 E).
Qed.

Definition ex_tried : Hub := (ifEstablish ex_A ex_B 3 3 ex_two).2.

Definition ex_last : Hub := ex_cycle (ex_cycle (ex_cycle (ex_cycle (ex_cycle ex_tried)))).

Lemma ex_six_attempts : p2p_run (makeKey ex_A ex_B) ex_two 11 6 ex_last.
Proof.
  apply (ex_cycle_run ex_two 9 5); [|ev]. apply (ex_cycle_run ex_two 7 4); [|ev].
  apply (ex_cycle_run ex_two 5 3); [|ev]. apply (ex_cycle_run ex_two 3 2); [|ev].
  apply (ex_cycle_run ex_two 1 1); [|ev].
  apply (p2p_run_snoc _ _ 0 0 ex_two 1); [constructor|].
  exact (p2p_traffic (makeKey ex_A ex_B) ex_A ex_B 3 3 ex_two true ex_tried eq_refl).
Qed.

(** Six attempts do happen, and after them no more. *)
Lemma p2p_attempts_bounded_witness :
  (6 <= 6)%nat ∧ (ifEstablish ex_A ex_B 3 3 (handleP2PClosed 1 ex_close ex_last).2).1 = false.
Proof.
  split; [|vm_compute; reflexivity].
  exact (p2p_attempts_bounded ex_A ex_B ex_two 11 6 ex_last ex_six_attempts eq_refl eq_refl).
Defined.

Definition ex_src : Client := mkClient TypeSymmetric [] (Some ex_addrA) (Some ex_A) [104] [] [].
Definition ex_dst : Client := mkClient TypeCone [] (Some (V4 (5, 6, 7, 8), 5000)) (Some ex_B) [105] [] [].
Definition ex_task : P2PTask := mkP2PTask ex_B (Some (V4 (5, 6, 7, 8), 5000)) ex_A (Some ex_addrA).
Definition ex_pair : Hub := set_clients (λ _, <[1%nat := ex_src]> {[2%nat := ex_dst]}) ex_two.

Lemma p2p_commands_delivered_witness :
  ∃ h', handleP2PCommand 1 2 ex_src ex_dst ex_task ex_pair = Some h' ∧
    queue h' 1 = Some [(ex_B, ex_A, TypeP2PCheck, []); (ex_B, ex_A, TypeP2PCommand, [5; 6; 7; 8; 19; 136; 3])] ∧
    queue h' 2 = Some [(ex_A, ex_B, TypeP2PCommand, [1; 2; 3; 4; 15; 160; 4])].
Proof.
  apply (p2p_commands_delivered 1 2 ex_src ex_dst ex_task ex_pair ((1, 2, 3, 4), 4000) ((5, 6, 7, 8), 5000));
    [done|reflexivity|reflexivity|reflexivity|reflexivity|vm_compute; lia..].
Defined.
