(* ===== verification/ServerRun.v ===== *)
(** The server as a whole: what [Run] of [server.go] starts, and then every
    connection with its reader, its writer and the goroutine that serves it, the
    loops on the two UDP sockets, the relay, the senders, the P2P scheduler and
    the retention clock, in any interleaving.

    A handshake and a disconnection are not one step: a connection records how
    far its reader is in [handleHandshake] and how far [serverWS] is in taking
    the connection down, and other goroutines run in between.  Clients may send
    anything.  Every run follows the ledger of [Ledger.v], and the exact states
    in which the conversion of an endpoint can panic are known. *)

From stdpp Require Import base numbers relations list gmap option tactics.
From S2P Require Import Prelude GoStd Config Cipher Packet PacketFacts Stun Util Hub HubWs HubUdp HubFrame Lease Interleave Ledger.
From S2P Require Import HubBuffers HubLoops P2PFacts.

Local Open Scope Z_scope.

(** ** Start-up *)

(** The goroutines of the server, besides those of the connections. *)
Inductive service : Type := HttpServer | Cleaner | Relay | UdpWriter | P2PScheduler | CheckReader | UdpReader.

(** The calls that open sockets; [os] says which succeed. *)
Inductive netCall : Type := ResolveUDP (port : Z) | ListenUDP (port : Z) | ListenHTTP (port : Z).

(** [listenCheck] up to its loop; [None] is [log.Fatalf]. *)
Definition listenCheck_start (v : Vars) (os : netCall → bool) : option (list service) :=
  if os (ResolveUDP (CheckPort v)) && os (ListenUDP (CheckPort v)) then Some [CheckReader] else None.

(** [listenUdp] up to its loop: two relays, two senders for each of the [cpus]
    processors, the scheduler and the check port. *)
Definition listenUdp_start (v : Vars) (cpus : nat) (os : netCall → bool) : option (list service) :=
  if os (ResolveUDP (ServerPort v)) && os (ListenUDP (ServerPort v)) then
    r ← listenCheck_start v os;
    Some (replicate 2 Relay ++ replicate (cpus * 2) UdpWriter ++ [P2PScheduler] ++ r ++ [UdpReader])
  else None.

(** [Run]: the UDP side and the retention clock, then the HTTP server, which
    serves until it fails. *)
Definition Run (v : Vars) (cpus : nat) (os : netCall → bool) : option (list service) :=
  r ← listenUdp_start v cpus os;
  if os (ListenHTTP (ServerPort v)) then Some (r ++ [Cleaner; HttpServer]) else None.

(** ** The running server *)

(** How far a reader is in [handleHandshake]: the DNS table is loaded; the
    fields are copied; the section under [retentionMtx] is left; the route is
    added; the name is added. *)
Inductive shaking : Type :=
  | Loaded (payload : bytes) (snapshot : gmap bytes ip4)
  | Identified (name : bytes) (snapshot : gmap bytes ip4)
  | Assigned
  | Routed
  | Named.

(** How far [serverWS] is: waiting for the context, the place is retained, or
    returned. *)
Inductive serving : Type := Serving | Retained | Left.

(** The goroutines of one connection. *)
Record connection := mkConnection {
  cx_conn : conn;
  cx_shaking : option shaking;
  cx_serving : serving;
}.

Section server.
Context `{DnsLib, AEAD, LZ4}.

(** The hub, the connections, the next name for one, and the packet object of
    [listenCheck]. *)
Record server := mkServer {
  sr_hub : Hub;
  sr_conns : gmap nat connection;
  sr_next : nat;
  sr_check : GamePacket;
}.

Definition server_start : server := mkServer NewHub ∅ 0 zeroPacket.

(** A message that enters [handleHandshake] and passes its length check: the
    packet object after parsing. *)
Definition shakes (e : wsRead) (s : conn) : option GamePacket :=
  match cn_reader s, e with
  | Reading, WsMessage msg =>
      match ParseControl (cn_gp s) msg with
      | (None, g) => if (PType g =? TypeHandshake) && (49 <=? len (sdata (Payload g))) then Some g else None
      | _ => None
      end
  | _, _ => None
  end.

Definition set_cn_gp g (s : conn) : conn := mkConn (cn_reader s) g (cn_writer s) (cn_cancelled s).
(** The reader cancels the connection and returns. *)
Definition cancelled (s : conn) : conn := mkConn ReaderGone (cn_gp s) (cn_writer s) true.

(** The steps.  [rt] is the configured retention time. *)
Inductive server_step (rt : Z) : server → server → Prop :=
  (* serverWS *)
  | sv_accept h cs c g :
      server_step rt (mkServer h cs c g) (mkServer (newClient c None None h) (<[c := mkConnection newConn None Serving]> cs) (S c) g)
  | sv_retain c s v client now h cs n g :
      cs !! c = Some (mkConnection s v Serving) → cn_cancelled s = true →
      hub_clients h !! c = Some client → is_Some (virtualIp client) →
      server_step rt (mkServer h cs n g) (mkServer (retainClient c now rt h) (<[c := mkConnection s v Retained]> cs) n g)
  | sv_unroute c s v h cs n g :
      cs !! c = Some (mkConnection s v Retained) →
      server_step rt (mkServer h cs n g) (mkServer (removeClient c h) (<[c := mkConnection s v Left]> cs) n g)
  | sv_leave c s v client h cs n g :
      cs !! c = Some (mkConnection s v Serving) → cn_cancelled s = true →
      hub_clients h !! c = Some client → virtualIp client = None →
      server_step rt (mkServer h cs n g) (mkServer h (<[c := mkConnection s v Left]> cs) n g)
  (* writePump, and readPump but for handshakes *)
  | sv_turn tn c s s' v l h h' cs n g :
      cs !! c = Some (mkConnection s v l) →
      match tn with Reads e => v = None ∧ shakes e s = None | _ => True end →
      takeTurn c tn s h = (s', h') →
      server_step rt (mkServer h cs n g) (mkServer h' (<[c := mkConnection s' v l]> cs) n g)
  | sv_late c s l msg r g1 h h' cs n g :        (* the context was done during the message *)
      cs !! c = Some (mkConnection s None l) → cn_cancelled s = true → cn_reader s = Reading → shakes (WsMessage msg) s = None →
      readPump_message true c (cn_gp s) msg h = (r, g1, h') →
      server_step rt (mkServer h cs n g) (mkServer h' (<[c := mkConnection (mkConn ReaderGone g1 (cn_writer s) true) None l]> cs) n g)
  (* handleHandshake *)
  | sv_load c s l e gp h cs n g :
      cs !! c = Some (mkConnection s None l) → shakes e s = Some gp →
      server_step rt (mkServer h cs n g)
        (mkServer h (<[c := mkConnection (set_cn_gp gp s) (Some (Loaded (sdata (Payload gp)) (dnsMap h))) l]> cs) n g)
  | sv_identify c s l payload snapshot h cs n g :
      cs !! c = Some (mkConnection s (Some (Loaded payload snapshot)) l) →
      server_step rt (mkServer h cs n g)
        (mkServer (setIdentity c payload h) (<[c := mkConnection s (Some (Identified (drop 49 payload) snapshot)) l]> cs) n g)
  | sv_assign c s l name snapshot h cs n g :
      cs !! c = Some (mkConnection s (Some (Identified name snapshot)) l) →
      let h' := assignPlace c name snapshot h in
      server_step rt (mkServer h cs n g)
        (mkServer h' (<[c := match hub_clients h' !! c ≫= virtualIp with
                             | Some _ => mkConnection s (Some Assigned) l
                             | None => mkConnection (cancelled s) None l
                             end]> cs) n g)
  | sv_route c s l h cs n g :
      cs !! c = Some (mkConnection s (Some Assigned) l) →
      server_step rt (mkServer h cs n g) (mkServer (addClient c h) (<[c := mkConnection s (Some Routed) l]> cs) n g)
  | sv_name c s l client h cs n g :
      cs !! c = Some (mkConnection s (Some Routed) l) → hub_clients h !! c = Some client →
      server_step rt (mkServer h cs n g)
        (mkServer (addDns (hostname client) (vipKey client) h) (<[c := mkConnection s (Some Named) l]> cs) n g)
  | sv_reply c s l client done h cs n g :
      cs !! c = Some (mkConnection s (Some Named) l) → hub_clients h !! c = Some client →
      server_step rt (mkServer h cs n g) (mkServer (handshakeReply done c client h) (<[c := mkConnection s None l]> cs) n g)
  (* the services *)
  | sv_udp done a data h cs n g :
      server_step rt (mkServer h cs n g) (mkServer (listenUdp_datagram done (Some a) zeroPacket data h) cs n g)
  | sv_check addr data g' h' h cs n g :
      listenCheck_datagram g addr data h = (g', Some h') → server_step rt (mkServer h cs n g) (mkServer h' cs n g')
  | sv_relay done h cs n g : server_step rt (mkServer h cs n g) (mkServer (transfer_step done h) cs n g)
  | sv_write h cs n g : server_step rt (mkServer h cs n g) (mkServer (writeUdpPacket_step h).2 cs n g)
  | sv_p2p h h' cs n g : handleP2PTask_step h = Some h' → server_step rt (mkServer h cs n g) (mkServer h' cs n g)
  | sv_clean now h cs n g : server_step rt (mkServer h cs n g) (mkServer (cleanRetention_tick now h) cs n g).

(** A conversion of an endpoint panics: in the P2P scheduler at its next task, or
    in the reader of the check port at some datagram. *)
Inductive server_panics : server → Prop :=
  | panic_p2p h cs n g : handleP2PTask_step h = None → server_panics (mkServer h cs n g)
  | panic_check addr data g' h cs n g : listenCheck_datagram g addr data h = (g', None) → server_panics (mkServer h cs n g).

(** ** Steps of the server are sections *)

(** Turns that do not enter a handshake leave the address book alone. *)
Definition handled (h : Hub) : Prop := wsHandlers h = registerDefaultWSHandlers ∅.

Lemma dispatch_quiet done c gp h : handled h → PType gp ≠ TypeHandshake → same_book h (HandleWSMessage done c gp h).2.
Proof.
  intros Hh Ht. unfold HandleWSMessage. rewrite Hh. unfold registerDefaultWSHandlers, RegisterWSHandler.
  destruct (decide (PType gp = TypeP2PClosed)) as [->|?]; [apply same_book_closed|].
  destruct (decide (PType gp = TypeP2PEstablished)) as [->|?]; [apply same_book_established|].
  destruct (decide (PType gp = TypeNoiseHandshake)) as [->|?]; [apply same_book_noise|].
  rewrite !lookup_insert_ne by congruence. done.
Qed.

Lemma message_quiet done c s msg h r g1 h' :
  handled h → cn_reader s = Reading → shakes (WsMessage msg) s = None →
  readPump_message done c (cn_gp s) msg h = (r, g1, h') → same_book h h'.
Proof.
  intros Hh Hr Hs. unfold shakes in Hs. rewrite Hr in Hs. unfold readPump_message.
  destruct (ParseControl (cn_gp s) msg) as [[e|] g] eqn:Ep; [by intros [= <- <- <-]|].
  destruct (hub_clients h !! c) as [client|]; [|by intros [= <- <- <-]].
  destruct (negb (PType g =? TypeHandshake) && _); [by intros [= <- <- <-]|].
  destruct (PType g =? TypeHandshake) eqn:Et.
  - destruct (49 <=? len (sdata (Payload g))) eqn:El; [done|]. apply Z.eqb_eq in Et. apply Z.leb_gt in El.
    unfold HandleWSMessage. rewrite Hh, Et. change (registerDefaultWSHandlers ∅ !! TypeHandshake) with (Some HHandshake).
    cbn beta iota. unfold handleHandshake. rewrite (proj2 (Z.ltb_lt _ _)) by done. by intros [= <- <- <-].
  - apply Z.eqb_neq in Et. pose proof (dispatch_quiet done c g h Hh Et) as Hq.
    destruct (HandleWSMessage done c g h) as [err h1]. simpl in Hq. by destruct err; intros [= <- <- <-].
Qed.

Lemma turn_same tn c s s' h h' :
  handled h → match tn with Reads e => shakes e s = None | _ => True end → takeTurn c tn s h = (s', h') → same_book h h'.
Proof.
  intros Hh Hs. destruct tn as [e|wo co|]; simpl; [| |by intros [= <- <-]].
  - unfold readPump. destruct (cn_reader s) eqn:Er; [|destruct (pingHandler c h) eqn:Ep; [|by intros [= <- <-]]; intros [= <- <-]; by eapply same_book_ping|by intros [= <- <-]].
    destruct e as [| | | |msg|]; try (by intros [= <- <-]).
    + destruct (readPump_message false c (cn_gp s) msg h) as [[r g1] h1] eqn:Em.
      pose proof (message_quiet _ _ _ _ _ _ _ _ Hh Er Hs Em). by destruct r; intros [= <- <-].
    + destruct (pingHandler c h) as [h1|] eqn:Ep; intros [= <- <-]; [by eapply same_book_ping|done].
  - unfold writePump. destruct (cn_writer s); [|by intros [= <- <-]].
    destruct (writePump_step wo co c h) as [[[r out] h1]|] eqn:Ew; [|by intros [= <- <-]].
    apply same_book_writePump in Ew. by destruct r; intros [= <- <-].
Qed.

(** The connections whose disconnection has begun are the closed ones. *)
Record server_ok (w : server) (o : gmap nat ip4) (k : gset nat) : Prop := {
  so_run : rtc sec_step (mkWorld NewHub ∅ ∅) (mkWorld (sr_hub w) o k);
  so_handlers : handled (sr_hub w);
  so_names c : is_Some (hub_clients (sr_hub w) !! c) → (c < sr_next w)%nat;
  so_closed c s : c ∈ k → sr_conns w !! c = Some s → cx_serving s ≠ Serving;
  so_conns c : is_Some (sr_conns w !! c) → (c < sr_next w)%nat;
  so_marks c : c ∈ k → (c < sr_next w)%nat;
}.

(** No handler is replaced and no client object appears. *)
Definition keeps (h h' : Hub) : Prop :=
  wsHandlers h' = wsHandlers h ∧ ∀ c, is_Some (hub_clients h' !! c) → is_Some (hub_clients h !! c).

Lemma keeps_same h h' : same_book h h' → keeps h h'.
Proof.
  intros (_ & _ & _ & _ & Hh & Hp). split; [done|]. intros c [cl Hc]. specialize (Hp c). rewrite Hc in Hp.
  destruct (hub_clients h !! c); [by eexists|done].
Qed.

Lemma keeps_identity c p h : keeps h (setIdentity c p h).
Proof. split; [done|]. intros c'. rewrite lookup_setIdentity. case_decide; [|done]. by rewrite fmap_is_Some. Qed.

Lemma keeps_assign c name snapshot h : keeps h (assignPlace c name snapshot h).
Proof.
  unfold assignPlace. destruct (hub_clients h !! c) as [cl|] eqn:Ec; [|by split].
  destruct (retentionMap h !! clientID cl); [|destruct (getIp_spec h) as [[_ ->]|(l & x & _ & ->)]]; (split; [done|]);
    intros c'; simpl; rewrite lookup_insert; (case_decide; [subst|done]); intros _; by eexists.
Qed.

Lemma keeps_tick now h : keeps h (cleanRetention_tick now h).
Proof.
  unfold cleanRetention_tick. induction (map_to_list _) as [|e l [IHh IHc]]; [done|]. simpl.
  split; unfold expire; destruct (oc_virtualIp e.2) as [[[a b] c] x]; [by rewrite <- IHh|]. intros c' Hc'. by apply IHc.
Qed.

(** A step on behalf of the connection [c]. *)
Lemma ok_connection h h' o o' k k' cs c x x' n g :
  server_ok (mkServer h cs n g) o k → cs !! c = Some x → sec_step (mkWorld h o k) (mkWorld h' o' k') → keeps h h' →
  k' ⊆ {[c]} ∪ k → (c ∈ k' → cx_serving x' ≠ Serving) → server_ok (mkServer h' (<[c := x']> cs) n g) o' k'.
Proof.
  intros [Hr Hh Hl Hk Hcs Hm] Hc Hs [Hw Hd] Hsub Hx. simpl in *. assert (c < n)%nat as Hlt by (apply Hcs; by eexists).
  split; simpl.
  - by eapply rtc_r.
  - unfold handled in *. congruence.
  - intros c' Hc'. by apply Hl, Hd.
  - intros c' s Hc'. rewrite lookup_insert. case_decide as E; [intros [= <-]; subst; by apply Hx|].
    apply Hk. apply Hsub in Hc'. set_solver.
  - intros c'. rewrite lookup_insert. case_decide; [intros _; by subst|]. apply Hcs.
  - intros c' Hc'%Hsub. destruct (decide (c' = c)) as [->|]; [done|]. apply Hm. set_solver.
Qed.

(** One on which the connection stays as closed as it is. *)
Lemma ok_moves h h' o o' k cs c x x' n g :
  server_ok (mkServer h cs n g) o k → cs !! c = Some x → sec_step (mkWorld h o k) (mkWorld h' o' k) → keeps h h' →
  cx_serving x' = cx_serving x ∨ cx_serving x' ≠ Serving → server_ok (mkServer h' (<[c := x']> cs) n g) o' k.
Proof.
  intros Hok Hc Hs Hd Hx. eapply ok_connection; [done|done|done|done|set_solver|].
  intros Hin. pose proof (so_closed _ _ _ Hok c x Hin Hc). destruct Hx as [->|]; done.
Qed.

Lemma ok_quiet h h' o k cs n g g' :
  server_ok (mkServer h cs n g) o k → same_book h h' → server_ok (mkServer h' cs n g') o k.
Proof.
  intros [Hr Hh Hl Hk Hcs Hm] Hs. destruct (keeps_same _ _ Hs) as [Hw Hd]. split; simpl in *; try done.
  - eapply rtc_r; [done|]. by apply sec_other.
  - unfold handled in *. congruence.
  - intros c Hc. by apply Hl, Hd.
Qed.

Lemma ok_turn h h' o k cs c x x' n g :
  server_ok (mkServer h cs n g) o k → cs !! c = Some x → same_book h h' → cx_serving x' = cx_serving x ∨ cx_serving x' ≠ Serving →
  server_ok (mkServer h' (<[c := x']> cs) n g) o k.
Proof. intros Hok Hc Hs Hx. eapply ok_moves; [done|done|by apply sec_other|by apply keeps_same|done]. Qed.

Lemma accept_ok h cs c g o k :
  server_ok (mkServer h cs c g) o k →
  server_ok (mkServer (newClient c None None h) (<[c := mkConnection newConn None Serving]> cs) (S c) g) o k.
Proof.
  intros [Hr Hh Hl Hk Hcs Hm]. simpl in *. split; simpl.
  - eapply rtc_r; [done|]. apply sec_new. destruct (hub_clients h !! c) eqn:E; [|done].
    specialize (Hl c ltac:(by eexists)). lia.
  - done.
  - intros c'. rewrite lookup_insert. case_decide; [intros _; lia|]. intros Hc'%Hl. lia.
  - intros c' s Hc'. rewrite lookup_insert. case_decide; [subst; specialize (Hm _ Hc'); lia|]. by apply Hk.
  - intros c'. rewrite lookup_insert. case_decide; [intros _; lia|]. intros Hc'%Hcs. lia.
  - intros c' Hc'%Hm. lia.
Qed.

Lemma server_step_ok rt w w' o k : server_step rt w w' → server_ok w o k → ∃ o' k', server_ok w' o' k'.
Proof.
  destruct 1 as [h cs c g|c s v client now h cs n g Hc _ _ _|c s v h cs n g Hc|c s v client h cs n g Hc _ _ _|
    tn c s s' v l h h' cs n g Hc Htn Ht|c s l msg r g1 h h' cs n g Hc _ Hrd Hq Hm|c s l e gp h cs n g Hc _|
    c s l payload snap h cs n g Hc|c s l name snap h cs n g Hc h'|c s l h cs n g Hc|c s l client h cs n g Hc _|
    c s l client done h cs n g Hc _|done a data h cs n g|addr data g' h' h cs n g Hd|done h cs n g|h cs n g|h h' cs n g Ht|now h cs n g];
    intros Hok; pose proof (so_handlers _ _ _ Hok) as Hh; simpl in Hh.
  - exists o, k. by apply accept_ok.
  - assert (c ∉ k) as Hck by (intros Hin; by apply (so_closed _ _ _ Hok _ _ Hin Hc)).
    exists (delete c o), ({[c]} ∪ k). eapply ok_connection; [done|done|by apply sec_retain| |done|done].
    unfold retainClient. repeat case_match; by split.
  - exists o, k. eapply ok_moves; [done|done|apply sec_unroute| |by right]. unfold removeClient. repeat case_match; by split.
  - exists o, k. eapply ok_turn; [done|done|done|by right].
  - exists o, k. eapply ok_turn; [done|done| |by left]. eapply turn_same; [done| |done]. destruct tn; naive_solver.
  - exists o, k. eapply ok_turn; [done|done| |by left]. by eapply message_quiet.
  - exists o, k. eapply ok_turn; [done|done|done|by left].
  - exists o, k. eapply ok_moves; [done|done|apply sec_identity|apply keeps_identity|by left].
  - exists (own c h' o), k. eapply ok_moves; [done|done|apply sec_assign|apply keeps_assign|]. left. by case_match.
  - exists o, k. eapply ok_moves; [done|done|apply sec_route| |by left]. unfold addClient. case_match; by split.
  - exists o, k. eapply ok_moves; [done|done|apply sec_name|by split|by left].
  - exists o, k. eapply ok_turn; [done|done|apply same_book_reply|by left].
  - exists o, k. eapply ok_quiet; [done|apply same_book_listenUdp].
  - exists o, k. eapply ok_quiet; [done|by eapply same_book_listenCheck].
  - exists o, k. eapply ok_quiet; [done|apply same_book_transfer_step].
  - exists o, k. eapply ok_quiet; [done|apply same_book_writeUdp].
  - exists o, k. eapply ok_quiet; [done|by eapply same_book_task].
  - exists o, k. destruct Hok as [Hr _ Hl Hk Hcs Hm]. destruct (keeps_tick now h) as [Hw Hdm]. split; simpl in *; try done.
    + eapply rtc_r; [done|apply sec_tick].
    + unfold handled in *. congruence.
    + intros c Hc. by apply Hl, Hdm.
Qed.

Lemma server_run_ok rt w : rtc (server_step rt) server_start w → ∃ o k, server_ok w o k.
Proof.
  intros Hr. assert (server_ok server_start ∅ ∅) as Hok
    by (split; simpl; [done|done|by intros c []|done|by intros c []|done]).
  revert Hok. generalize (∅ : gmap nat ip4) as o, (∅ : gset nat) as k.
  induction Hr as [w|w w1 w' Hs _ IH]; intros o k Hok; [by exists o, k|].
  destruct (server_step_ok _ _ _ _ _ Hs Hok) as (o1 & k1 & Hok1). by eapply IH.
Qed.

(** C3: the whole server follows the ledger.  In every interleaving of its
    connections (readers, writers and the goroutines that serve them, between
    any two of whose locked sections others may run) and its services, and
    whatever clients send, also repeated handshakes and shared identities, each
    address is free, held, kept or lost as the ledger says; in particular no
    two connections that are being served have the same address, and none of
    their addresses is free or kept for somebody else. *)
Theorem server_follows_ledger rt w :
  rtc (server_step rt) server_start w →
  ∃ o k L, rtc ledger_step ∅ L ∧ ledger_of (mkWorld (sr_hub w) o k) L ∧
    (∀ c s, sr_conns w !! c = Some s → cx_serving s = Serving → c ∉ k) ∧
    ∀ c s client v, sr_conns w !! c = Some s → cx_serving s = Serving → hub_clients (sr_hub w) !! c = Some client →
      virtualIp client = Some v ↔ L !! v = Some (Held c).
Proof.
  intros Hr. destruct (server_run_ok _ _ Hr) as (o & k & Hok).
  destruct (ledger_run_sim _ _ _ (so_run _ _ _ Hok) ledger_init) as (L & HL & Hof).
  assert (∀ c s, sr_conns w !! c = Some s → cx_serving s = Serving → c ∉ k) as Hk.
  { intros c s Hc Hs Hin. by apply (so_closed _ _ _ Hok c s Hin Hc). }
  exists o, k, L. split_and!; try done. intros c s client v Hc Hs Hcl.
  pose proof (lo_live _ _ Hof c client Hcl (Hk c s Hc Hs)) as Ho. simpl in Ho. by rewrite (lo_held _ _ Hof), <- Ho.
Qed.

(** A task of the scheduler panics where its commands do. *)
Lemma task_panics h :
  handleP2PTask_step h = None ↔
    ∃ task rest s d sc dc, p2pTaskChan h = task :: rest ∧ clientMap h !! SrcVip task = Some s ∧
      clientMap h !! DstVip task = Some d ∧ hub_clients h !! s = Some sc ∧ hub_clients h !! d = Some dc ∧
      ((punchable (natType sc) = true ∧ is_v4 (dataAddr sc) = false) ∨ (punchable (natType dc) = true ∧ is_v4 (dataAddr dc) = false)).
Proof.
  unfold handleP2PTask_step. destruct (p2pTaskChan h) as [|task rest]; [naive_solver|].
  destruct (Exist (hub_tm (set_tasks rest h)) (SrcVip task) (DstVip task)); cbn [clientMap hub_clients set_tm set_tasks].
  all: destruct (clientMap h !! SrcVip task) as [s|] eqn:Es; [|naive_solver].
  all: destruct (clientMap h !! DstVip task) as [d|] eqn:Ed; [|naive_solver].
  all: destruct (hub_clients h !! s) as [sc|] eqn:Esc; [|naive_solver].
  all: destruct (hub_clients h !! d) as [dc|] eqn:Edc; [|naive_solver].
  all: rewrite handleP2PCommand_panics; split; [intros Hx; exists task, rest, s, d, sc, dc; by split_and!|naive_solver].
Qed.

(** A datagram on the check port panics if it comes over IPv6 and names two online
    clients with a tunnel between them. *)
Lemma check_panics g addr data h g' :
  listenCheck_datagram g addr data h = (g', None) →
  ∃ src dst s d, is_Some (Exist (hub_tm h) src dst) ∧ clientMap h !! src = Some s ∧ clientMap h !! dst = Some d ∧
    is_Some (hub_clients h !! s) ∧ ∃ v6 port, addr = (V6 v6, port).
Proof.
  unfold listenCheck_datagram. destruct (ParseControl g data) as [[e|] g1]; [done|]. destruct (PType g1 =? TypeP2PCheck); [|done].
  destruct (Exist _ _ _) eqn:Ex; [|done]. destruct (clientMap h !! SourceVirtualIp g1) as [s|] eqn:Es; [|done].
  destruct (clientMap h !! Destination g1) as [d|] eqn:Ed; [|done]. destruct (hub_clients h !! s) as [cl|] eqn:Ec; [|done].
  intros [= _ Hp]. apply sendCommand_panics in Hp. destruct addr as [[a|v6] port]; [done|].
  exists (SourceVirtualIp g1), (Destination g1), s, d. rewrite Ex, Ec. split_and!; eauto.
Qed.

(** The datagram that does it. *)
Definition checkBytes (src dst : ip4) : bytes :=
  default [] (EncodePacketWithBuffer (NewGamePacket src dst TypeP2PCheck nil_slice) [] true None).1.1.

Lemma checkBytes_parsed src dst g :
  ∃ g', ParseControl g (Slice 1 (checkBytes src dst) []) = (None, g') ∧ SourceVirtualIp g' = src ∧ Destination g' = dst ∧
    PType g' = TypeP2PCheck.
Proof.
  unfold checkBytes, EncodePacketWithBuffer. set (gp := NewGamePacket src dst TypeP2PCheck nil_slice).
  destruct (encode gp [] true None) as [[out g1] c1] eqn:He. rewrite encode_some in He by done.
  destruct (plain_roundtrip (Pool [] 1 0) gp g true true None (default [] out) g1 c1 (Slice 1 (default [] out) []))
    as [_ (g3 & Hp & Hs & Hd & Ht & _)]; [by left|by left| |done|by exists g3].
  rewrite encode_some by done. by simplify_eq.
Qed.

(** C21: exactly when a conversion of an endpoint to four bytes can panic, in
    whatever state the server is.  Either the next P2P task is between two online clients one of which has announced a cone or
    symmetric NAT and has no IPv4 endpoint, because it has not sent a datagram
    yet or sends over IPv6; or two online clients have a tunnel, and then any
    host can stop the server with one IPv6 datagram to the check port. *)
Theorem server_panics_iff w :
  server_panics w ↔
    (∃ task rest s d sc dc, p2pTaskChan (sr_hub w) = task :: rest ∧
      clientMap (sr_hub w) !! SrcVip task = Some s ∧ clientMap (sr_hub w) !! DstVip task = Some d ∧
      hub_clients (sr_hub w) !! s = Some sc ∧ hub_clients (sr_hub w) !! d = Some dc ∧
      ((punchable (natType sc) = true ∧ is_v4 (dataAddr sc) = false) ∨
       (punchable (natType dc) = true ∧ is_v4 (dataAddr dc) = false))) ∨
    (∃ src dst s d, is_Some (Exist (hub_tm (sr_hub w)) src dst) ∧ clientMap (sr_hub w) !! src = Some s ∧
      clientMap (sr_hub w) !! dst = Some d ∧ is_Some (hub_clients (sr_hub w) !! s)).
Proof.
  destruct w as [h cs n g]. simpl. split.
  - inversion 1 as [? ? ? ? Hp|addr data g' ? ? ? ? Hp]; subst; [left; by apply task_panics|right].
    apply check_panics in Hp as (src & dst & s & d & Ht & Hs & Hd & Hc & _). by exists src, dst, s, d.
  - intros [Ht|(src & dst & s & d & [tn Ht] & Hs & Hd & [cl Hc])]; [by apply panic_p2p, task_panics|].
    destruct (checkBytes_parsed src dst g) as (g' & Hp & Es & Ed & Et).
    apply (panic_check (V6 [], 0) (Slice 1 (checkBytes src dst) []) g'). unfold listenCheck_datagram.
    rewrite Hp, Et, Es, Ed, Ht, Hs, Hd, Hc. done.
Qed.

(** ** Examples *)

(** What happens in the examples, and the state after it. *)
Inductive action : Type :=
  | Accepts | Turns (c : nat) (tn : turn) | Advances (c : nat) | Closes (c : nat) (now : Z).

Definition advance (c : nat) (w : server) : option server :=
  let '(mkServer h cs n g) := w in
  match cs !! c with
  | Some (mkConnection s (Some p) l) =>
      let to h p := Some (mkServer h (<[c := mkConnection s p l]> cs) n g) in
      match p, hub_clients h !! c with
      | Loaded payload snapshot, _ => to (setIdentity c payload h) (Some (Identified (drop 49 payload) snapshot))
      | Identified name snapshot, _ =>
          let h' := assignPlace c name snapshot h in
          Some (mkServer h' (<[c := match hub_clients h' !! c ≫= virtualIp with
                                    | Some _ => mkConnection s (Some Assigned) l
                                    | None => mkConnection (cancelled s) None l
                                    end]> cs) n g)
      | Assigned, _ => to (addClient c h) (Some Routed)
      | Routed, Some client => to (addDns (hostname client) (vipKey client) h) (Some Named)
      | Named, Some client => to (handshakeReply false c client h) None
      | _, None => None
      end
  | _ => None
  end.

Definition act (a : action) (w : server) : option server :=
  let '(mkServer h cs n g) := w in
  match a with
  | Accepts => Some (mkServer (newClient n None None h) (<[n := mkConnection newConn None Serving]> cs) (S n) g)
  | Turns c tn =>
      '(mkConnection s v l) ← cs !! c;
      match tn, v with
      | Reads e, None =>
          match shakes e s with
          | Some gp => Some (mkServer h (<[c := mkConnection (set_cn_gp gp s) (Some (Loaded (sdata (Payload gp)) (dnsMap h))) l]> cs) n g)
          | None => let r := takeTurn c tn s h in Some (mkServer r.2 (<[c := mkConnection r.1 v l]> cs) n g)
          end
      | Reads _, Some _ => None
      | _, _ => let r := takeTurn c tn s h in Some (mkServer r.2 (<[c := mkConnection r.1 v l]> cs) n g)
      end
  | Advances c => advance c w
  | Closes c now =>
      '(mkConnection s v l) ← cs !! c;
      match l, hub_clients h !! c ≫= virtualIp with
      | Serving, Some _ => if cn_cancelled s then Some (mkServer (retainClient c now 60 h) (<[c := mkConnection s v Retained]> cs) n g) else None
      | Retained, _ => Some (mkServer (removeClient c h) (<[c := mkConnection s v Left]> cs) n g)
      | _, _ => None
      end
  end.

Lemma advance_step c w w' : advance c w = Some w' → server_step 60 w w'.
Proof.
  destruct w as [h cs n g]. unfold advance. destruct (cs !! c) as [[s [p|] l]|] eqn:Hc; [|done..].
  destruct p; [| |intros [= <-]; by constructor| |].
  - intros [= <-]. by eapply sv_identify.
  - intros [= <-]. by eapply sv_assign.
  - destruct (hub_clients h !! c) eqn:E; [|done]. intros [= <-]. by eapply sv_name.
  - destruct (hub_clients h !! c) eqn:E; [|done]. intros [= <-]. by eapply sv_reply.
Qed.

Lemma act_step a w w' : act a w = Some w' → server_step 60 w w'.
Proof.
  destruct w as [h cs n g]. destruct a as [|c tn|c|c now]; [| |apply advance_step|]; simpl.
  - intros [= <-]. apply sv_accept.
  - destruct (cs !! c) as [[s v l]|] eqn:Hc; [|done]. simpl.
    assert (∀ w', match tn with Reads e => v = None ∧ shakes e s = None | _ => True end →
      Some (mkServer (takeTurn c tn s h).2 (<[c := mkConnection (takeTurn c tn s h).1 v l]> cs) n g) = Some w' →
      server_step 60 (mkServer h cs n g) w') as Hturn
      by (intros w1 Hq [= <-]; eapply sv_turn; [done|done|apply surjective_pairing]).
    destruct tn as [e|wo co|]; [|by apply Hturn..]. destruct v as [p|]; [done|].
    destruct (shakes e s) as [gp|] eqn:Es; [|by apply Hturn]. intros [= <-]. by eapply sv_load.
  - destruct (cs !! c) as [[s v l]|] eqn:Hc; [|done]. simpl. destruct l; [| |by destruct (hub_clients h !! c ≫= virtualIp)].
    + destruct (hub_clients h !! c) as [client|] eqn:E; simpl; [|done]. destruct (virtualIp client) eqn:Ev; [|done].
      destruct (cn_cancelled s) eqn:Ec; [|done]. intros [= <-]. eapply sv_retain; [done|done|done|by eexists].
    + intros [= <-]. by eapply sv_unroute.
Qed.

Fixpoint acts (l : list action) (w : server) : option server :=
  match l with [] => Some w | a :: l => w ← act a w; acts l w end.

Lemma acts_run l w w' : acts l w = Some w' → rtc (server_step 60) w w'.
Proof.
  revert w. induction l as [|a l IH]; intros w; simpl; [intros [= <-]; constructor|].
  intros (w1 & Ha & Hl)%bind_Some. eapply rtc_l; [by eapply act_step|by apply IH].
Qed.
End server.

(** Two clients shake hands at the same time; the first shakes hands again, and
    goes away while the second finishes. *)
Definition ex_overlap : list action :=
  [Accepts; Accepts; Turns 0 (Reads ex_msg); Turns 1 (Reads ex_msg); Advances 0; Advances 1; Advances 0; Advances 1;
   Advances 0; Advances 0; Advances 0; Turns 0 (Reads ex_msg); Advances 0; Advances 0; Turns 0 Stopped; Closes 0 1000; Advances 1].
Definition ex_overlapped : server := default server_start (acts ex_overlap server_start).

Lemma server_follows_ledger_witness :
  ∃ o k L, rtc ledger_step ∅ L ∧ ledger_of (mkWorld (sr_hub ex_overlapped) o k) L ∧
    L !! (10, 0, 6, 3) = Some (Held 1) ∧ size (retentionMap (sr_hub ex_overlapped)) = 1%nat ∧
    length (freeIps (sr_hub ex_overlapped)) = 250%nat.
Proof.
  destruct (server_follows_ledger 60 ex_overlapped) as (o & k & L & HL & Hof & _ & Hh).
  { apply (acts_run ex_overlap). vm_compute. reflexivity. }
  exists o, k, L. split; [exact HL|]. split; [exact Hof|]. split; [|split; vm_compute; reflexivity].
  apply (Hh 1%nat (default (mkConnection newConn None Left) (sr_conns ex_overlapped !! 1%nat))
    (default ex_src (hub_clients (sr_hub ex_overlapped) !! 1%nat))); vm_compute; reflexivity.
Defined.

(** Two clients that shake hands at the same time and ask for the same name get
    it both: each chose it from the table it loaded before the other was
    added. *)
Definition ex_together : list action :=
  [Accepts; Accepts; Turns 0 (Reads ex_msg); Turns 1 (Reads ex_msg)] ++ replicate 5 (Advances 0) ++ replicate 5 (Advances 1).
Definition ex_twins : server := default server_start (acts ex_together server_start).

Example concurrent_names_clash :
  rtc (server_step 60) server_start ex_twins ∧
  (λ c, (virtualIp c, hostname c)) <$> hub_clients (sr_hub ex_twins) !! 0%nat = Some (Some (10, 0, 6, 2), [104]) ∧
  (λ c, (virtualIp c, hostname c)) <$> hub_clients (sr_hub ex_twins) !! 1%nat = Some (Some (10, 0, 6, 3), [104]) ∧
  dnsMap (sr_hub ex_twins) !! [104] = Some (10, 0, 6, 3).
Proof.
  split; [apply (acts_run ex_together); vm_compute; reflexivity|]. split; [vm_compute; reflexivity|]. split; vm_compute; reflexivity.
Qed.
