(* ===== verification/RelayFacts.v ===== *)
(** Correctness of the server's relay: [transfer] against a reference
    definition of where a packet goes, a datagram followed through the three
    stages of the server, and the DNS responder. *)

From stdpp Require Import base numbers list gmap option strings tactics.
From S2P Require Import Prelude GoStd Cipher Packet PacketFacts Stun Util Hub HubWs HubUdp HubFrame Lease P2PFacts.

Local Open Scope Z_scope.

(** ** Where a packet goes *)

(** Routes lead to existing client objects (part of [book]). *)
Definition routes_exist (h : Hub) : Prop := ∀ v c, clientMap h !! v = Some c → is_Some (hub_clients h !! c).

(** The reference: the source must be online, the destination an online
    client's address with a known endpoint, and not the broadcast address.  The
    sender's own endpoint is the one its packet came from. *)
Definition deliver_to (h : Hub) (tp : transferPacket) : option addrPort :=
  s ← clientMap h !! SourceVirtualIp (tp_gp tp);
  d ← clientMap h !! Destination (tp_gp tp);
  if subnetContains (Destination (tp_gp tp)) && negb (lastByte (Destination (tp_gp tp)) =? 255)
  then if decide (d = s) then tp_srcAddr tp else hub_clients h !! d ≫= dataAddr
  else None.

Lemma subnet_unicast a : subnetContains a = true → IsMulticast a = false ∧ IsLoopback a = false.
Proof.
  destruct a as [[[a0 a1] a2] a3]. unfold subnetContains, IsMulticast, IsLoopback. simpl. intros. bool_cases. by subst.
Qed.

Lemma updateAddr_lookup c a h c' :
  hub_clients (updateAddrCheck c a h) !! c' =
    (if decide (c' = c) then set_dataAddr a <$> hub_clients h !! c else hub_clients h !! c').
Proof.
  unfold updateAddrCheck. destruct (hub_clients h !! c) as [cl|] eqn:E; simpl.
  - case_bool_decide as Ha; simpl.
    + case_decide; [|done]. subst. rewrite E. simpl. by destruct cl.
    + rewrite lookup_insert. repeat case_decide; congruence.
  - case_decide; congruence.
Qed.

Lemma updateAddr_frame c a h :
  clientMap (updateAddrCheck c a h) = clientMap h ∧ packetChan (updateAddrCheck c a h) = packetChan h ∧
  transferChan (updateAddrCheck c a h) = transferChan h ∧ bufPool (updateAddrCheck c a h) = bufPool h.
Proof. unfold updateAddrCheck. by repeat case_match. Qed.

(** The scheduler touches neither queues of packets, nor buffers, nor clients. *)
Lemma schedule_frame done src dst ns nd sa da h :
  let r := ifEstablish src dst ns nd h in
  let h' := if r.1 then newP2PTask done src dst sa da r.2 else r.2 in
  packetChan h' = packetChan h ∧ transferChan h' = transferChan h ∧ bufPool h' = bufPool h ∧
  hub_clients h' = hub_clients h ∧ clientMap h' = clientMap h.
Proof. unfold ifEstablish, ifEstablish_act, newP2PTask. by repeat case_match. Qed.

(** What the unicast case does to the queues. *)
Lemma forward_spec src dst n tp h d client :
  clientMap h !! dst = Some d → hub_clients h !! d = Some client →
  let r := forward false src dst n tp h in
  transferChan r.2 = transferChan h ∧ bufPool r.2 = bufPool h ∧ hub_clients r.2 = hub_clients h ∧
  match dataAddr client with
  | Some a =>
      if decide (length (packetChan h) < packetCap)%nat
      then r.1 = true ∧ packetChan r.2 = packetChan h ++ [mkPacket (RawData (tp_gp tp)) false (Some a)]
      else r.1 = false ∧ packetChan r.2 = packetChan h
  | None => r.1 = false ∧ packetChan r.2 = packetChan h
  end.
Proof.
  intros Hd Hc. unfold forward. rewrite Hd, Hc.
  pose proof (schedule_frame false src dst n (natType client) (tp_srcAddr tp) (dataAddr client) h) as Hf.
  destruct (ifEstablish _ _ _ _ _) as [try h1]. simpl in Hf.
  set (h2 := if try then _ else _) in *. destruct Hf as (Ep & Et & Eb & Ec & _).
  destruct (dataAddr client) as [a|]; simpl; [|by rewrite Ep, Et, Eb].
  rewrite Ep. case_bool_decide; simpl; [rewrite decide_True by done|rewrite decide_False by done];
    by rewrite ?Et, ?Eb, ?Ep.
Qed.

Lemma transfer_step_spec h tp rest :
  transferChan h = tp :: rest → routes_exist h →
  let h' := transfer_step false h in
  transferChan h' = rest ∧
  (match deliver_to h tp with
   | Some a =>
       if decide (length (packetChan h) < packetCap)%nat
       then packetChan h' = packetChan h ++ [mkPacket (RawData (tp_gp tp)) false (Some a)] ∧ bufPool h' = bufPool h
       else packetChan h' = packetChan h ∧ bufPool h' = Put (reslice 0 (RawData (tp_gp tp))) (bufPool h)
   | None => packetChan h' = packetChan h ∧ bufPool h' = Put (reslice 0 (RawData (tp_gp tp))) (bufPool h)
   end) ∧
  (∀ c, hub_clients h' !! c =
    if decide (clientMap h !! SourceVirtualIp (tp_gp tp) = Some c)
    then set_dataAddr (tp_srcAddr tp) <$> hub_clients h !! c else hub_clients h !! c).
Proof.
  intros Ht Hex. unfold transfer_step, deliver_to. rewrite Ht. simpl.
  destruct (clientMap h !! SourceVirtualIp (tp_gp tp)) as [s|] eqn:Es; simpl.
  2:{ split_and!; try done. }
  set (h1 := updateAddrCheck s (tp_srcAddr tp) (set_transfer rest h)).
  destruct (updateAddr_frame s (tp_srcAddr tp) (set_transfer rest h)) as (Em & Ep & Etr & Eb).
  fold h1 in Em, Ep, Etr, Eb. simpl in Em, Ep, Etr, Eb.
  assert (∀ c, hub_clients h1 !! c = if decide (Some s = Some c) then set_dataAddr (tp_srcAddr tp) <$> hub_clients h !! c
    else hub_clients h !! c) as Hcl.
  { intros c. unfold h1. rewrite updateAddr_lookup. simpl. repeat case_decide; congruence. }
  destruct (Hex _ _ Es) as [scl Hscl].
  rewrite (Hcl s), decide_True, Hscl by done. simpl.
  set (dst := Destination (tp_gp tp)).
  destruct (subnetContains dst) eqn:Esub; simpl.
  - destruct (subnet_unicast _ Esub) as [-> ->]. rewrite orb_false_r. simpl.
    destruct (lastByte dst =? 255) eqn:El; simpl.
    { rewrite Etr, Ep, Eb. by destruct (clientMap h !! dst). }
    destruct (clientMap h !! dst) as [d|] eqn:Ed; simpl; last first.
    { unfold forward. rewrite Em, Ed. simpl. by rewrite Etr, Ep, Eb. }
    destruct (Hex _ _ Ed) as [dcl Hdcl].
    assert (∃ dcl', hub_clients h1 !! d = Some dcl' ∧
      dataAddr dcl' = if decide (d = s) then tp_srcAddr tp else dataAddr dcl) as (dcl' & Hd' & Ha).
    { rewrite (Hcl d), Hdcl. simpl. repeat case_decide; simplify_eq; eauto. }
    pose proof (forward_spec (SourceVirtualIp (tp_gp tp)) dst (natType scl) tp h1 d dcl') as Hfw.
    rewrite Em in Hfw. specialize (Hfw Ed Hd'). rewrite Ha, Ep, Etr, Eb in Hfw.
    rewrite Hdcl. cbn [mbind option_bind].
    destruct (forward _ _ _ _ _ _) as [consume h2]. simpl in Hfw. destruct Hfw as (F1 & F2 & F3 & F4).
    rewrite <- F3 in Hcl.
    destruct (if decide (d = s) then tp_srcAddr tp else dataAddr dcl) as [a|]; [case_decide|];
      destruct F4 as [-> F4]; simpl; rewrite ?F1, ?F2, ?F4; done.
  - assert (∀ b : bool, (if b then (false, h1) else (false, h1)) = (false, h1)) as -> by (by intros []). simpl.
    rewrite Etr, Ep, Eb. by destruct (clientMap h !! dst).
Qed.

(** [transfer] implements the reference: a packet is queued, with its bytes
    untouched, for exactly the endpoint [deliver_to] names, as long as the queue
    has room; otherwise its buffer goes back to the pool, once.  In both cases
    the sender's endpoint is brought up to date and no other client changes. *)
Theorem transfer_reference h tp rest :
  transferChan h = tp :: rest → routes_exist h →
  let h' := transfer_step false h in
  transferChan h' = rest ∧
  (match deliver_to h tp with
   | Some a =>
       if decide (length (packetChan h) < packetCap)%nat
       then packetChan h' = packetChan h ++ [mkPacket (RawData (tp_gp tp)) false (Some a)] ∧ bufPool h' = bufPool h
       else packetChan h' = packetChan h ∧ bufPool h' = Put (reslice 0 (RawData (tp_gp tp))) (bufPool h)
   | None => packetChan h' = packetChan h ∧ bufPool h' = Put (reslice 0 (RawData (tp_gp tp))) (bufPool h)
   end) ∧
  (∀ c, hub_clients h' !! c =
    if decide (clientMap h !! SourceVirtualIp (tp_gp tp) = Some c)
    then set_dataAddr (tp_srcAddr tp) <$> hub_clients h !! c else hub_clients h !! c).
Proof. apply transfer_step_spec. Qed.

(** ** A datagram through the server *)

(** A client's own names resolve: [name.et.] is looked up as [name]. *)
Lemma getDns_suffix (name : bytes) h :
  (46 ∉ name)%Z → getDns (name ++ string_bytes ".et.") (string_bytes ".et") h = dnsMap h !! name.
Proof.
  intros Hn. unfold getDns. f_equal. change (string_bytes ".et" ++ [46]) with [46; 101; 116; 46].
  change (string_bytes ".et.") with [46; 101; 116; 46].
  induction name as [|x name IH]; [done|]. apply not_elem_of_cons in Hn as [Hx Hn]. simpl.
  rewrite bool_decide_false by (intros [=]; congruence). f_equal. by apply IH.
Qed.

Section relay.
Context `{DnsLib, AEAD, LZ4}.

(** A data packet enters the relay queue with its bytes as received. *)
Lemma ParsePacket_relay p g payload t dst src L :
  parseHeader payload payloadLengthDataCompat = Ok (t, dst, src, L) → bitclear t FlagCompress = TypeData →
  ∃ g' p', ParsePacket p g payload true None = (None, g', p') ∧
    gp_src g' = src ∧ gp_dst g' = dst ∧ PType g' = t ∧ sdata (RawData g') = payload.
Proof.
  intros Hh Ht. pose proof (parseHeader_inv _ _ _ _ _ _ Hh) as (Hl & Hmax & _ & H2 & _).
  destruct (ParsePacket_unfold p g payload true None Hmax) as (d & p1 & Hd & _ & ->).
  unfold parse. assert (parse_mode (sdata d) None = payloadLengthDataCompat) as ->.
  { unfold parse_mode. rewrite Hd, H2. simpl. rewrite Ht, Z.eqb_refl, andb_true_r.
    by rewrite (proj2 (Z.ltb_lt _ _)) by (unfold len; unfold HeaderLength, NonceSize in Hl; lia). }
  rewrite Hd, Hh. eexists _, _. split_and!; try done.
Qed.

(** A parsed data packet, received, relayed and sent with empty queues. *)
Lemma relay_parsed a g payload h g' p' s d client b :
  ParsePacket (bufPool h) g payload true None = (None, g', p') →
  bitclear (PType g') FlagCompress = TypeData → sdata (RawData g') = payload →
  transferChan h = [] → packetChan h = [] → routes_exist h →
  clientMap h !! gp_src g' = Some s → clientMap h !! gp_dst g' = Some d → s ≠ d →
  subnetContains (gp_dst g') = true → lastByte (gp_dst g') ≠ 255 →
  hub_clients h !! d = Some client → dataAddr client = Some b →
  let h' := transfer_step false (listenUdp_datagram false a g payload h) in
  (writeUdpPacket_step h').1 = [(payload, b)] ∧ packetChan (writeUdpPacket_step h').2 = [].
Proof.
  intros Hp Ht Er Htr Hpk Hex Hs Hd Hne Hsub Hlast Hc Hb.
  unfold listenUdp_datagram. rewrite Hp, Ht. simpl. rewrite Htr. simpl.
  set (h1 := set_transfer _ _).
  destruct (transfer_step_spec h1 (mkTransfer g' a) []) as (_ & Hq & _); [done|exact Hex|].
  assert (deliver_to h1 (mkTransfer g' a) = Some b) as Hto.
  { unfold deliver_to, SourceVirtualIp, Destination. simpl. rewrite Hs, Hd. simpl.
    rewrite Hsub. rewrite (proj2 (Z.eqb_neq _ _)) by done. simpl. rewrite decide_False by done.
    by rewrite Hc. }
  rewrite Hto in Hq. simpl in Hq. rewrite Hpk in Hq. rewrite decide_True in Hq by (simpl; unfold packetCap; lia).
  destruct Hq as [Hq _]. simpl in Hq. unfold writeUdpPacket_step. rewrite Hq. simpl.
  unfold packetMessages. simpl. by rewrite Er.
Qed.

(** C15: the server relays data unchanged: a data datagram from an online client
    for another online client whose endpoint is known, received, relayed and
    sent with empty queues, leaves the server as one datagram with the very
    bytes that came in, for the endpoint of the destination; the payload is
    never decrypted or altered on the way. *)
Theorem relay_unchanged a g payload h t dst src L s d client b :
  parseHeader payload payloadLengthDataCompat = Ok (t, dst, src, L) → bitclear t FlagCompress = TypeData →
  transferChan h = [] → packetChan h = [] → routes_exist h →
  clientMap h !! src = Some s → clientMap h !! dst = Some d → s ≠ d →
  subnetContains dst = true → lastByte dst ≠ 255 →
  hub_clients h !! d = Some client → dataAddr client = Some b →
  let h' := transfer_step false (listenUdp_datagram false a g payload h) in
  (writeUdpPacket_step h').1 = [(payload, b)] ∧ packetChan (writeUdpPacket_step h').2 = [].
Proof.
  intros Hh Ht Htr Hpk Hex Hs Hd Hne Hsub Hlast Hc Hb.
  destruct (ParsePacket_relay (bufPool h) g payload t dst src L Hh Ht) as (g' & p' & Hp & <- & <- & <- & Er).
  by eapply relay_parsed.
Qed.

(** ** DNS *)

(** A request for a known host name, with the port bytes in front. *)
Lemma dns_known r h msg n name more ip rr data :
  2 <= slen r → dns_Unpack (drop 2 (sdata r)) = Some msg → dns_Questions msg = name :: more →
  46 ∉ n → name = n ++ string_bytes ".et." → dnsMap h !! n = Some ip →
  dns_New (name ++ string_bytes " 60 IN A " ++ ipString ip) = Some rr →
  dns_Pack (dns_AddAnswer rr (dns_SetAuthoritative (dns_SetReply msg))) = Some data →
  ∃ s p', buildDnsResponse r h = (Ok s, set_pool p' h) ∧ sdata s = take 2 (sdata r) ++ data.
Proof.
  intros Hl Hu Hq Hn -> Hip Hrr Hpack. unfold buildDnsResponse.
  rewrite (proj2 (Z.ltb_ge _ _)), Hu, Hq, getDns_suffix, Hip, Hrr, Hpack by done.
  destruct (append _ _ _) as [s p] eqn:Ea. eexists _, _. split; [done|].
  unfold append, alloc in Ea. simpl in Ea.
  assert (take 2 (sdata r ++ stail r) = take 2 (sdata r)) as <- by (apply take_app_le; unfold slen, len in Hl; lia).
  by case_match; simplify_eq.
Qed.

(** The DNS responder: a request whose first question is [n.et.] for the
    host name [n] of a client is answered with that client's address, with the
    requester's two port bytes in front; for an unknown host name the packed
    NXDOMAIN answer is sent without the port bytes. *)
Theorem dns_answers r h msg n name more :
  2 <= slen r → dns_Unpack (drop 2 (sdata r)) = Some msg → dns_Questions msg = name :: more →
  46 ∉ n → name = n ++ string_bytes ".et." →
  let reply := dns_SetAuthoritative (dns_SetReply msg) in
  (∀ ip rr data,
     dnsMap h !! n = Some ip →
     dns_New (name ++ string_bytes " 60 IN A " ++ ipString ip) = Some rr →
     dns_Pack (dns_AddAnswer rr reply) = Some data →
     ∃ s h', buildDnsResponse r h = (Ok s, h') ∧ sdata s = take 2 (sdata r) ++ data) ∧
  (∀ data,
     dnsMap h !! n = None →
     dns_Pack (dns_SetRcode RcodeNameError reply) = Some data →
     ∃ s h', buildDnsResponse r h = (Ok s, h') ∧ sdata s = data).
Proof.
  intros Hl Hu Hq Hn Hname reply. subst reply. split.
  - intros ip rr data Hip Hrr Hpack. edestruct dns_known as (s & p' & Hb & Hd); [done..|]. eauto.
  - intros data Hip Hpack. unfold buildDnsResponse. subst name.
    rewrite (proj2 (Z.ltb_ge _ _)), Hu, Hq, getDns_suffix, Hip, Hpack by done. eexists _, _. done.
Qed.
End relay.

(** ** Examples *)

(** The destination has announced its endpoint. *)
Definition ex_known : Hub := updateAddrCheck 2 (Some (V4 (5, 6, 7, 8), 5000)) ex_two.

Lemma routes_exist_book h L : book h L → routes_exist h.
Proof. intros B v c Hv. destruct (book_route _ _ B _ _ Hv) as (client & -> & _). eauto. Qed.

Lemma routes_exist_same h h' : same_book h h' → routes_exist h → routes_exist h'.
Proof.
  intros Hs Hex v c. pose proof Hs as (_ & _ & _ & -> & _). intros Hv. destruct (Hex v c Hv) as [cl Hc].
  destruct (same_book_lookup _ _ _ _ Hs Hc) as (cl' & -> & _). eauto.
Qed.

Lemma ex_two_routes : routes_exist ex_two.
Proof.
  assert (map_Forall (λ _ c, is_Some (hub_clients ex_two !! c)) (clientMap ex_two)) as Hm; [|exact Hm].
  apply (bool_decide_unpack (map_Forall (λ _ c, is_Some (hub_clients ex_two !! c)) (clientMap ex_two))).
  vm_compute. done.
Qed.

Lemma transfer_reference_witness :
  transferChan (transfer_step false ex_received) = [] ∧
  (packetChan (transfer_step false ex_received) = [] ∧ deliver_to ex_received
    (default (mkTransfer zeroPacket None) (transferChan ex_received !! 0%nat)) = None).
Proof.
  destruct (transfer_reference ex_received (default (mkTransfer zeroPacket None) (transferChan ex_received !! 0%nat)) [])
    as (Ht & Hq & _); [ev|eapply routes_exist_same; [apply same_book_listenUdp|exact ex_two_routes]|].
  assert (deliver_to ex_received (default (mkTransfer zeroPacket None) (transferChan ex_received !! 0%nat)) = None) as Hd
    by (vm_compute; reflexivity).
  rewrite Hd in Hq. split; [exact Ht|]. split; [|exact Hd]. rewrite (proj1 Hq). vm_compute. reflexivity.
Defined.

Lemma relay_unchanged_witness :
  let h' := transfer_step false (listenUdp_datagram false (Some ex_addrA) zeroPacket ex_datagram ex_known) in
  (writeUdpPacket_step h').1 = [(ex_datagram, (V4 (5, 6, 7, 8), 5000))] ∧ packetChan (writeUdpPacket_step h').2 = [].
Proof.
  apply (relay_unchanged (Some ex_addrA) zeroPacket ex_datagram ex_known TypeData ex_B ex_A 19 1 2
    (default ex_dst (hub_clients ex_known !! 2%nat)));
    [ev..|eapply routes_exist_same; [apply same_book_updateAddr|exact ex_two_routes]|ev|ev|done|ev|done|ev|ev].
Defined.

Definition ex_query (n : bytes) : gslice := Slice 902 ([200; 33] ++ n ++ string_bytes ".et.") [].

(** The second client is called [i] (byte 105); nobody is called [z] (122). *)
Lemma dns_answers_witness :
  (∃ s h', buildDnsResponse (ex_query [105]) ex_two = (Ok s, h') ∧
     sdata s = [200; 33; 0] ++ ([105] ++ string_bytes ".et. 60 IN A 10.0.6.3")) ∧
  (∃ s h', buildDnsResponse (ex_query [122]) ex_two = (Ok s, h') ∧ sdata s = [3]).
Proof.
  split.
  - destruct (@dns_answers toy_dns (ex_query [105]) ex_two ([[105] ++ string_bytes ".et."], 0, []) [105] ([105] ++ string_bytes ".et.") [])
      as [Hk _]; [ev|ev|ev|set_solver|ev|].
    apply (Hk (10, 0, 6, 3) ([105] ++ string_bytes ".et. 60 IN A 10.0.6.3")); ev.
  - destruct (@dns_answers toy_dns (ex_query [122]) ex_two ([[122] ++ string_bytes ".et."], 0, []) [122] ([122] ++ string_bytes ".et.") [])
      as [_ Hu]; [ev|ev|ev|set_solver|ev|].
    apply (Hu [3]); ev.
Defined.
