(* ===== verification/Client.v ===== *)
(** The client's state and control plane: [internal/transport/client.go],
    [client_control.go] and [client_p2p.go].

    The state of [ClientTransport] is one record; a definition is one
    iteration of a goroutine's loop (one message, one datagram, one tick, one
    batch).  Sockets are inputs and outputs: datagrams and WebSocket messages
    written are returned in order, and [wr] says for which addresses
    [WriteToUDP] succeeds. *)

From stdpp Require Import base numbers list gmap option tactics.
From S2P Require Import Prelude Cipher Packet Stun Util Noise Hub HubWs HubUdp.

Local Open Scope Z_scope.

(** ** State *)

(** [ui/performance.go]: the values of the status word. *)
Definition INIT : Z := 0.
Definition TESTNAT : Z := 1.
Definition CONNECT : Z := 2.
Definition INTINETWORK : Z := 3.
Definition RUNNING : Z := 4.
Definition RECONNECTING : Z := 5.
Definition CLOSING : Z := 6.

(** How an iteration ends: the loop goes on, the goroutine waits on a full
    channel, it returns, or it panics. *)
Inductive flow (A : Type) : Type :=
  | Next (a : A)
  | Blocks
  | Stops
  | Panics.
Arguments Next {A} a.
Arguments Blocks {A}.
Arguments Stops {A}.
Arguments Panics {A}.

(** A datagram and where it is sent. *)
Abbreviation datagram := (bytes * addrPort)%type (only parsing).

Section client.
Context `{AEAD, LZ4, Noise}.

(** [FromTun] is the [tunChan] of the Noise manager: the source passes the
    same channel to both. *)
Record ClientTransport := mkTransport {
  ct_natType : Z;
  sendPacketCount : Z;
  recvPacketCount : Z;
  ct_status : Z;
  sendBytes : Z;
  recvBytes : Z;
  FromNet : list gslice;                (** capacity 64 *)
  ControlSendChan : list GamePacket;    (** capacity 16 *)
  serverAddr : addrPort;
  checkAddr : addrPort;
  p2pRouter : gmap ip4 P2PStatus;
  localIp : option ip4;
  ct_pool : pool;
  noiseMgr : NoiseManager;
  deviceIp : option ip4;                (** address of the open TUN device *)
}.

Definition fromNetCap : nat := 64.
Definition controlSendCap : nat := 16.

(** The client's queue of packets read from the TUN device. *)
Definition FromTun (t : ClientTransport) : list gslice := tunChan (noiseMgr t).

(** Field updates. *)
Definition set_counts ns nr bs br (t : ClientTransport) : ClientTransport :=
  mkTransport (ct_natType t) ns nr (ct_status t) bs br (FromNet t) (ControlSendChan t) (serverAddr t) (checkAddr t)
    (p2pRouter t) (localIp t) (ct_pool t) (noiseMgr t) (deviceIp t).
Definition set_status n (t : ClientTransport) : ClientTransport :=
  mkTransport (ct_natType t) (sendPacketCount t) (recvPacketCount t) n (sendBytes t) (recvBytes t) (FromNet t)
    (ControlSendChan t) (serverAddr t) (checkAddr t) (p2pRouter t) (localIp t) (ct_pool t) (noiseMgr t) (deviceIp t).
Definition set_natType n (t : ClientTransport) : ClientTransport :=
  mkTransport n (sendPacketCount t) (recvPacketCount t) (ct_status t) (sendBytes t) (recvBytes t) (FromNet t)
    (ControlSendChan t) (serverAddr t) (checkAddr t) (p2pRouter t) (localIp t) (ct_pool t) (noiseMgr t) (deviceIp t).
Definition set_FromNet l (t : ClientTransport) : ClientTransport :=
  mkTransport (ct_natType t) (sendPacketCount t) (recvPacketCount t) (ct_status t) (sendBytes t) (recvBytes t) l
    (ControlSendChan t) (serverAddr t) (checkAddr t) (p2pRouter t) (localIp t) (ct_pool t) (noiseMgr t) (deviceIp t).
Definition set_ControlSend l (t : ClientTransport) : ClientTransport :=
  mkTransport (ct_natType t) (sendPacketCount t) (recvPacketCount t) (ct_status t) (sendBytes t) (recvBytes t)
    (FromNet t) l (serverAddr t) (checkAddr t) (p2pRouter t) (localIp t) (ct_pool t) (noiseMgr t) (deviceIp t).
Definition set_p2p f (t : ClientTransport) : ClientTransport :=
  mkTransport (ct_natType t) (sendPacketCount t) (recvPacketCount t) (ct_status t) (sendBytes t) (recvBytes t)
    (FromNet t) (ControlSendChan t) (serverAddr t) (checkAddr t) (f (p2pRouter t)) (localIp t) (ct_pool t)
    (noiseMgr t) (deviceIp t).
Definition set_localIp ip dev (t : ClientTransport) : ClientTransport :=
  mkTransport (ct_natType t) (sendPacketCount t) (recvPacketCount t) (ct_status t) (sendBytes t) (recvBytes t)
    (FromNet t) (ControlSendChan t) (serverAddr t) (checkAddr t) (p2pRouter t) ip (ct_pool t) (noiseMgr t) dev.
Definition set_ct_pool p (t : ClientTransport) : ClientTransport :=
  mkTransport (ct_natType t) (sendPacketCount t) (recvPacketCount t) (ct_status t) (sendBytes t) (recvBytes t)
    (FromNet t) (ControlSendChan t) (serverAddr t) (checkAddr t) (p2pRouter t) (localIp t) p (noiseMgr t) (deviceIp t).
Definition set_noise m (t : ClientTransport) : ClientTransport :=
  mkTransport (ct_natType t) (sendPacketCount t) (recvPacketCount t) (ct_status t) (sendBytes t) (recvBytes t)
    (FromNet t) (ControlSendChan t) (serverAddr t) (checkAddr t) (p2pRouter t) (localIp t) (ct_pool t) m (deviceIp t).
Definition set_FromTun l (t : ClientTransport) : ClientTransport :=
  let m := noiseMgr t in
  set_noise (mkManager l (myVip m) (staticPriv m) (staticPub m) (sessions m) (nm_random m)) t.

(** Writing through the session pointer [GetSession] returned. *)
Definition updateSession (vip : ip4) (f : NoiseSession → NoiseSession) (t : ClientTransport) : ClientTransport :=
  set_noise (set_sessions (alter f vip) (noiseMgr t)) t.

Definition NewTransport (priv : bytes) (random : Z) : ClientTransport :=
  mkTransport 0 0 0 INIT 0 0 [] [] (V4 ip4_zero, 0) (V4 ip4_zero, 0) ∅ None (Pool [] 1 2048)
    (NewNoiseManager priv random) None.

(** [util.IpToKey(t.localIp)]. *)
Definition localKey (t : ClientTransport) : ip4 := default ip4_zero (localIp t).

(** [t.device.Dns()]: the first address of the device's network. *)
Definition Dns (t : ClientTransport) : ip4 :=
  match deviceIp t with
  | Some (a, b, c, _) => (a, b, c, 1)
  | None => ip4_zero
  end.

(** A packet that is encoded, written once and recycled. *)
Definition encodeOnce (control : bool) (gp : GamePacket) (t : ClientTransport) : bytes * ClientTransport :=
  let '(data, _, p, _) := EncodePacket (ct_pool t) gp control false None in
  let data := default nil_slice data in
  (sdata data, set_ct_pool (Put (reslice 0 data) p) t).

(** [select { case t.ControlSendChan <- gp: default: }] *)
Definition tryControl (gp : GamePacket) (t : ClientTransport) : ClientTransport :=
  if bool_decide (length (ControlSendChan t) < controlSendCap)%nat
  then set_ControlSend (ControlSendChan t ++ [gp]) t else t.

(** ** client_p2p.go *)

Definition addP2P (now : Z) (vIp : ip4) (addr : UDPAddr) (nat_type : Z) (t : ClientTransport) : ClientTransport :=
  set_p2p (insert vIp (SetDstAddr addr (mkP2PStatus nat_type None now false))) t.

Definition removeP2P (vIp : ip4) (t : ClientTransport) : ClientTransport :=
  let t := set_p2p (delete vIp) t in
  tryControl (NewGamePacket (localKey t) vIp TypeP2PClosed nil_slice) t.

(** The writes of a loop that stops at the first failure. *)
Fixpoint writes (wr : addrPort → bool) (data : bytes) (l : list addrPort) : list datagram :=
  match l with
  | [] => []
  | a :: r => if wr a then (data, a) :: writes wr data r else []
  end.

(** [for i := -100; i < 200; i++] *)
Definition punchPorts (a : addrPort) : list addrPort :=
  (λ i, (a.1, a.2 + Z.of_nat i - 100)) <$> seq 0 300.

(** Every entry of the table has an address: [addP2P] stores one. *)
Definition punch (wr : addrPort → bool) (data : bytes) (status : P2PStatus) : list datagram :=
  match ua_addr <$> GetDstAddr status with
  | None => []
  | Some a =>
      if DstNatType status =? TypeCone then writes wr data [a]
      else if DstNatType status =? TypeSymmetric then writes wr data (punchPorts a)
      else []
  end.

(** One entry of a tick of [handleP2P]. *)
Definition handleP2P_entry (wr : addrPort → bool) (now : Z) (pingData : bytes) (e : ip4 * P2PStatus)
    (st : list datagram * ClientTransport) : list datagram * ClientTransport :=
  let '(out, t) := st in
  let '(vIp, status) := e in
  if IsTimeout now 10 status then (out, removeP2P vIp t)
  else if Established status then
    match ua_addr <$> GetDstAddr status with
    | Some a => (out ++ writes wr pingData [a], t)
    | None => (out, t)
    end
  else (out ++ punch wr pingData status, t).

(** [NewGamePacket(...).EncodePacketWithBuffer(buf, true, nil)] of a packet
    without payload, from an empty buffer. *)
Definition encodeControl (gp : GamePacket) : bytes := default [] (EncodePacketWithBuffer gp [] true None).1.1.

(** The clock is read for each entry, and punching a symmetric peer takes
    seconds: [now] is what the clock says when the loop comes to a peer. *)
Definition handleP2P_tick (wr : addrPort → bool) (now : ip4 → Z) (t : ClientTransport) : list datagram * ClientTransport :=
  let pingData := encodeControl (NewGamePacket (localKey t) ip4_zero TypePing nil_slice) in
  foldl (λ st e, handleP2P_entry wr (now e.1) pingData e st) ([], t) (map_to_list (p2pRouter t)).

Definition checkP2P (wr : addrPort → bool) (dst : ip4) (t : ClientTransport) : list datagram * ClientTransport :=
  let '(data, t) := encodeOnce true (NewGamePacket (localKey t) dst TypeP2PCheck nil_slice) t in
  (writes wr data [checkAddr t], t).

(** ** client_control.go *)

(** The handshake request. *)
Definition handshakePayload (clientID deviceName : bytes) (t : ClientTransport) : bytes :=
  [ct_natType t] ++ GetPublicKey (noiseMgr t) ++ clientID ++ deviceName.

(** [handshake]: the message written, then the reply parsed; [reply] is what
    the WebSocket delivered, [None] for an error of the socket. *)
Definition handshake (clientID deviceName : bytes) (reply : option bytes) (t : ClientTransport)
    : bytes * res GamePacket * ClientTransport :=
  let '(payload, p) := alloc (handshakePayload clientID deviceName t) (ct_pool t) in
  let g := NewGamePacket ip4_zero ip4_zero TypeHandshake payload in
  let '(data, g, p, _) := EncodePacket p g true false None in
  let data := default nil_slice data in
  let p := Put (reslice 0 data) p in
  match reply with
  | None => (sdata data, Err ErrIO, set_ct_pool p t)
  | Some content =>
      let '(err, g, p) := ParsePacket p g content true None in
      (sdata data, match err with Some e => Err e | None => Ok g end, set_ct_pool p t)
  end.

(** One tick of [heartbeat]; the control packet is sent blocking. *)
Definition heartbeat_tick (wr : addrPort → bool) (done : bool) (t : ClientTransport)
    : flow (list datagram * ClientTransport) :=
  let beat := NewGamePacket (localKey t) ip4_zero TypePing nil_slice in
  if done then Stops
  else if bool_decide (length (ControlSendChan t) < controlSendCap)%nat then
    let t := set_ControlSend (ControlSendChan t ++ [beat]) t in
    if wr (serverAddr t) then Next ([(encodeControl beat, serverAddr t)], t) else Stops
  else Blocks.

(** ** client_udp.go: initiateNoise *)

Definition initiateNoise (wr : addrPort → bool) (now : Z) (remoteVip : ip4) (remotePub : bytes) (firstPayload : gslice)
    (t : ClientTransport) : list datagram * ClientTransport :=
  let '(out, m) := HandshakeInit now remoteVip remotePub firstPayload (noiseMgr t) in
  let t := set_noise m t in
  match out with
  | None => ([], t)
  | Some handshakeData =>
      let '(s, p) := alloc handshakeData (ct_pool t) in
      let '(data, t) := encodeOnce true (NewGamePacket (localKey t) remoteVip TypeData s) (set_ct_pool p t) in
      (writes wr data [serverAddr t], t)
  end.

(** Reading a message into the array of [msg] changes the IP of every address
    that is a part of that array: the one a command left there, behind the
    header.  (The packet a key answer left there changes as well; that is not
    followed.) *)
Definition overwriteAddr (msg : gslice) (a : UDPAddr) : UDPAddr :=
  match ua_addr a with
  | (V4 ip, port) =>
      if bool_decide (ua_array a = Some (sid msg)) then
        let new := sub (sdata msg) HeaderLength (HeaderLength + 4) in
        mkUDPAddr (V4 (to_ip4 (new ++ drop (length new) (ip4_bytes ip))), port) (ua_array a)
      else a
  | _ => a
  end.

Definition overwritePeers (msg : gslice) (t : ClientTransport) : ClientTransport :=
  set_p2p (fmap (λ s, mkP2PStatus (DstNatType s) (overwriteAddr msg <$> dstAddr s) (LastSeen s) (Established s))) t.

(** One binary message in [controlRecv]; [g] is the packet object the loop
    reuses, [msg] the loop's read buffer with the message. *)
Definition controlRecv_message (wr : addrPort → bool) (now : Z) (g : GamePacket) (msg : gslice) (t : ClientTransport)
    : GamePacket * list datagram * ClientTransport :=
  let t := overwritePeers msg t in
  let '(err, g) := ParseControl g msg in
  match err with
  | Some _ => (g, [], t)
  | None =>
      if PType g =? TypeNoiseResponse then
        if slen (Payload g) <? 32 then (g, [], t)
        else
          let remotePub := take 32 (sdata (Payload g)) in
          let pendingData := slice_from 32 (Payload g) in
          let '(out, t) := initiateNoise wr now (SourceVirtualIp g) remotePub pendingData t in (g, out, t)
      else if PType g =? TypeP2PCheck then
        let '(out, t) := checkP2P wr (SourceVirtualIp g) t in (g, out, t)
      else if PType g =? TypeP2PCommand then
        if slen (Payload g) <? 7 then (g, [], t)
        else (g, [], addP2P now (SourceVirtualIp g) (BytesToIP (reslice 6 (Payload g)))
                       (default 0 (sdata (Payload g) !! 6%nat)) t)
      else (g, [], t)
  end.

(** What [NextReader] and [ReadFrom] deliver. *)
Inductive wsIn : Type :=
  | InError                     (** an error of the connection *)
  | InOther                     (** a message that is not binary *)
  | InBroken (msg : gslice)     (** the message could not be read to its end *)
  | InBinary (msg : gslice).

(** [controlRecv]: [None] is the cancelled context; a message is in the array
    of the loop's read buffer, which is a new one only when the buffer grows.
    The datagrams sent, the error returned (or [None] when
    the events run out first), and the transport. *)
Fixpoint controlRecv (wr : addrPort → bool) (now : Z) (events : list (option wsIn)) (g : GamePacket)
    (t : ClientTransport) : list datagram * option (res unit) * ClientTransport :=
  match events with
  | [] => ([], None, t)
  | None :: _ => ([], Some (Ok tt), t)
  | Some InError :: _ => ([], Some (Err ErrIO), t)
  | Some InOther :: rest => controlRecv wr now rest g t
  | Some (InBroken msg) :: rest => controlRecv wr now rest g (overwritePeers msg t)
  | Some (InBinary msg) :: rest =>
      let '(g, out, t) := controlRecv_message wr now g msg t in
      let '(out', r, t) := controlRecv wr now rest g t in (out ++ out', r, t)
  end.

(** What [controlSend] writes on the WebSocket. *)
Inductive ctlOut : Type := CtlPing | CtlBinary (data : bytes).

(** One message in [controlSend]; [ok] is the result of the write. *)
Definition controlSend_step (ok : bool) (t : ClientTransport) : flow (ctlOut * ClientTransport) :=
  match ControlSendChan t with
  | [] => Blocks
  | gp :: rest =>
      let t := set_ControlSend rest t in
      if PType gp =? TypePing then (if ok then Next (CtlPing, t) else Stops)
      else
        let '(data, t) := encodeOnce true gp t in
        if ok then Next (CtlBinary data, t) else Stops
  end.
End client.
