(* ===== verification/ClientUdp.v ===== *)
(** The client's data plane: [packetSend] and [packetRecv] of [client_udp.go],
    one iteration of the packet loops of [internal/tun/device_linux.go], and the
    back-off of the reconnection loop of [client.go]. *)

From stdpp Require Import base numbers list gmap option tactics.
From S2P Require Import Prelude Cipher Packet Stun Util Noise Hub HubWs HubUdp Client.

Local Open Scope Z_scope.

Section client_udp.
Context `{AEAD, LZ4, Noise}.

(** ** packetSend *)

(** What one sending goroutine keeps: its packet object and its DNS buffer. *)
Record worker := mkWorker { w_gp : GamePacket; dnsBuffer : gslice }.

(** [p[i]] *)
Definition byteAt (p : bytes) (i : nat) : Z := default 0 (p !! i).

(** The header length field of an IPv4 packet, in bytes. *)
Definition ihl (p : bytes) : Z := Z.land (byteAt p 0) 0x0F * 4.

Definition isDNS (p : bytes) (dns : ip4) : bool :=
  (ihl p + 8 <=? len p) && (20 <=? ihl p) && (Z.shiftr (byteAt p 0) 4 =? 4) && (byteAt p 9 =? 17) &&
  bool_decide (to_ip4 (sub p 16 20) = dns) &&
  (Uint16 (sub p (Z.to_nat (ihl p) + 2) (Z.to_nat (ihl p) + 4)) =? 53).

(** The sender's cipher state after [EncodePacket] used it. *)
Definition set_sender (cs : option CipherState) (s : NoiseSession) : NoiseSession :=
  set_cipher (mkCipher (Recver (s_cipher s)) cs (cipher_status (s_cipher s))) (s_hs s) s.

(** Where data for [dst] goes: straight to an established peer, else to the
    server. *)
Definition nextHop (dst : ip4) (t : ClientTransport) : option addrPort :=
  match p2pRouter t !! dst with
  | None => Some (serverAddr t)
  | Some status => if Established status then ua_addr <$> GetDstAddr status else Some (serverAddr t)
  end.

(** The write and the two buffers put back at the end of an iteration. *)
Definition sendData (wr : addrPort → bool) (dst : ip4) (gp : GamePacket) (data : gslice) (t : ClientTransport)
    : list datagram * ClientTransport :=
  let p := Put (reslice 0 data) (Put (reslice 0 (Payload gp)) (ct_pool t)) in
  let t := set_ct_pool p t in
  match nextHop dst t with
  | Some a =>
      if wr a
      then ([(sdata data, a)],
            set_counts (sendPacketCount t) (recvPacketCount t) (u64 (sendBytes t + slen data)) (recvBytes t) t)
      else ([], t)
  | None => ([], t)
  end.

(** One packet of a batch.  [done]: the [ctx.Done()] case of the blocking
    send was taken. *)
Definition packetSend_one (wr : addrPort → bool) (done enableCompress : bool) (now : Z) (p : gslice)
    (w : worker) (t : ClientTransport) : flow (list datagram * worker * ClientTransport) :=
  let dstIp := to_ip4 (sub (sdata p) 16 20) in
  if isDNS (sdata p) (Dns t) then
    let n := Z.to_nat (ihl (sdata p)) in
    let srcPort := Uint16 (sub (sdata p) n (n + 2)) in
    let '(buf, pl) := append (reslice 0 (dnsBuffer w)) (PutUint16 srcPort) (ct_pool t) in
    let '(buf, pl) := append buf (drop (n + 8) (sdata p)) pl in
    let gp := Reset (w_gp w) (localKey t) dstIp TypeDnsRequest buf in
    let '(data, gp, pl, _) := EncodePacket pl gp false false None in
    let '(out, t) := sendData wr dstIp gp (default nil_slice data) (set_ct_pool pl t) in
    Next (out, mkWorker gp buf, t)
  else if negb (lastByte dstIp =? 255) then
    match GetSession (noiseMgr t) dstIp with
    | None =>
        let query := NewGamePacket (localKey t) dstIp TypeNoiseHandshake p in
        if done then Stops
        else if bool_decide (length (ControlSendChan t) < controlSendCap)%nat
        then Next ([], w, set_ControlSend (ControlSendChan t ++ [query]) t)
        else Blocks
    | Some session =>
        if negb (IsReady (s_cipher session)) then Next ([], w, updateSession dstIp (AddPendingData p) t)
        else
          let gp := Reset (w_gp w) (localKey t) dstIp TypeData p in
          let '(data, gp, pl, cs) := EncodePacket (ct_pool t) gp false enableCompress (Sender (s_cipher session)) in
          let t := updateSession dstIp (λ s, set_sender cs (session_UpdateLastSeen now s)) (set_ct_pool pl t) in
          let '(out, t) := sendData wr dstIp gp (default nil_slice data) t in
          Next (out, mkWorker gp (dnsBuffer w), t)
    end
  else
    let gp := Reset (w_gp w) (localKey t) dstIp TypeData p in
    let '(data, gp, pl, _) := EncodePacket (ct_pool t) gp false false None in
    let '(out, t) := sendData wr dstIp gp (default nil_slice data) (set_ct_pool pl t) in
    Next (out, mkWorker gp (dnsBuffer w), t).

Definition sendBatchSize : nat := 32.

(** The batch drained from [FromTun]: packets under 20 bytes are skipped. *)
Fixpoint drain (room : nat) (l : list gslice) : list gslice * list gslice :=
  match room, l with
  | S room', p :: r =>
      if slen p <? 20 then drain room r
      else let '(batch, rest) := drain room' r in (p :: batch, rest)
  | _, _ => ([], l)
  end.

Fixpoint packetSend_all (wr : addrPort → bool) (done enableCompress : bool) (now : Z) (batch : list gslice)
    (w : worker) (t : ClientTransport) : flow (list datagram * worker * ClientTransport) :=
  match batch with
  | [] => Next ([], w, t)
  | p :: r =>
      match packetSend_one wr done enableCompress now p w t with
      | Next (out, w, t) =>
          match packetSend_all wr done enableCompress now r w t with
          | Next (out', w, t) => Next (out ++ out', w, t)
          | Blocks => Blocks | Stops => Stops | Panics => Panics
          end
      | Blocks => Blocks | Stops => Stops | Panics => Panics
      end
  end.

(** One round of [packetSend]; a short first packet is dropped and the round
    ends. *)
Definition packetSend_step (wr : addrPort → bool) (done enableCompress : bool) (now : Z)
    (w : worker) (t : ClientTransport) : flow (list datagram * worker * ClientTransport) :=
  match FromTun t with
  | [] => Blocks
  | pr :: r =>
      if slen pr <? 20 then Next ([], w, set_FromTun r t)
      else
        let '(batch, rest) := drain (sendBatchSize - 1) r in
        let batch := pr :: batch in
        match packetSend_all wr done enableCompress now batch w (set_FromTun rest t) with
        | Next (out, w, t) =>
            Next (out, w, set_counts (u64 (sendPacketCount t + len batch)) (recvPacketCount t) (sendBytes t) (recvBytes t) t)
        | Blocks => Blocks | Stops => Stops | Panics => Panics
        end
  end.

(** ** packetRecv *)

Definition putRaw (gp : GamePacket) (t : ClientTransport) : ClientTransport :=
  set_ct_pool (Put (reslice 0 (RawData gp)) (ct_pool t)) t.

(** What a datagram causes: datagrams sent, and packets written to the TUN
    device by [SendDNS]. *)
Record effects := mkEffects { e_udp : list datagram; e_dns : list bytes }.

(** The [TypeData] case. *)
Definition recvData (wr : addrPort → bool) (done : bool) (now : Z) (addr : addrPort) (gp : GamePacket)
    (t : ClientTransport) : flow (effects * ClientTransport) :=
  let srcVip := SourceVirtualIp gp in
  let '(r, m) := HandleNoisePacket now srcVip (sdata (Payload gp)) (noiseMgr t) in
  let t := set_noise m t in
  match r with
  | NPanic => Panics
  | NErr _ => Next (mkEffects [] [], putRaw gp t)
  | NRet _ (Some response) =>
      let '(s, p) := alloc response (ct_pool t) in
      let '(data, t) := encodeOnce false (NewGamePacket (localKey t) srcVip TypeData s) (set_ct_pool p t) in
      Next (mkEffects (writes wr data [addr]) [], putRaw gp t)
  | NRet None None => Next (mkEffects [] [], putRaw gp t)
  | NRet (Some session) None =>
      let '(err, gp, p) := DecryptParse (ct_pool t) gp (Recver (s_cipher session)) in
      let t := set_ct_pool p t in
      match err with
      | Some _ => Next (mkEffects [] [], putRaw gp t)
      | None =>
          let t := updateSession srcVip (session_UpdateLastSeen now) t in
          if done then Stops
          else if bool_decide (length (FromNet t) < fromNetCap)%nat
          then Next (mkEffects [] [], set_FromNet (FromNet t ++ [RawData gp]) t)
          else Next (mkEffects [] [], putRaw gp t)
      end
  end.

(** One datagram in [packetRecv]. *)
Definition packetRecv_datagram (wr : addrPort → bool) (done : bool) (now : Z) (addr : addrPort) (content : bytes)
    (t : ClientTransport) : flow (effects * ClientTransport) :=
  let t := set_counts (sendPacketCount t) (u64 (recvPacketCount t + 1)) (sendBytes t)
             (u64 (recvBytes t + len content)) t in
  let '(err, gp, p) := ParsePacket (ct_pool t) zeroPacket content true None in
  let t := set_ct_pool p t in
  match err with
  | Some _ => Next (mkEffects [] [], t)
  | None =>
      let rawPType := bitclear (PType gp) FlagCompress in
      let srcVIp := SourceVirtualIp gp in
      if rawPType =? TypeData then recvData wr done now addr gp t
      else if rawPType =? TypePing then
        let t := set_p2p (alter (SetDstAddr (fresh_addr addr)) srcVIp) t in
        let pong := encodeControl (NewGamePacket (localKey t) ip4_zero TypePong nil_slice) in
        Next (mkEffects (writes wr pong [addr]) [], putRaw gp t)
      else if rawPType =? TypePong then
        match p2pRouter t !! srcVIp with
        | None => Next (mkEffects [] [], putRaw gp t)
        | Some _ =>
            let t := set_p2p (alter (λ s, UpdateLastSeen now true (SetDstAddr (fresh_addr addr) s)) srcVIp) t in
            let t := putRaw gp t in
            if done then Stops
            else Next (mkEffects [] [], tryControl (NewGamePacket (localKey t) srcVIp TypeP2PEstablished nil_slice) t)
        end
      else if rawPType =? TypeDnsResponse then
        match BuildDNSResponse (sdata (Payload gp)) (localKey t) (Dns t) with
        | Err _ => Next (mkEffects [] [], putRaw gp t)
        | Ok dnsBuf => Next (mkEffects [] [dnsBuf], putRaw gp t)
        end
      else Next (mkEffects [] [], t)
  end.

(** What [ReadFromUDP] delivers: the read deadline passed, the socket failed, or
    a datagram came at time [now]. *)
Inductive udpIn : Type :=
  | UdpTimeout
  | UdpFailed
  | UdpDatagram (now : Z) (addr : addrPort) (content : bytes).

(** [packetRecv]: [None] is the cancelled context.  What it wrote, its result (or
    [None] when the events run out first), and the transport. *)
Fixpoint packetRecv (wr : addrPort → bool) (events : list (option udpIn)) (t : ClientTransport)
    : flow (effects * option (res unit) * ClientTransport) :=
  match events with
  | [] => Next (mkEffects [] [], None, t)
  | None :: _ => Next (mkEffects [] [], Some (Ok tt), t)
  | Some UdpTimeout :: rest => packetRecv wr rest t
  | Some UdpFailed :: _ => Next (mkEffects [] [], Some (Err ErrIO), t)
  | Some (UdpDatagram now addr content) :: rest =>
      match packetRecv_datagram wr false now addr content t with
      | Next (e, t) =>
          match packetRecv wr rest t with
          | Next (e', r, t) => Next (mkEffects (e_udp e ++ e_udp e') (e_dns e ++ e_dns e'), r, t)
          | Blocks => Blocks | Stops => Stops | Panics => Panics
          end
      | Blocks => Blocks | Stops => Stops | Panics => Panics
      end
  end.

(** ** The TUN device *)

(** The filter of [tunRecv]: broadcast, multicast, or the device's own /24. *)
Definition tunAccepts (dev dst : ip4) : bool :=
  let '(n0, n1, n2, _) := dev in
  let '(d0, d1, d2, d3) := dst in
  bool_decide (dst = (255, 255, 255, 255)) || (d3 =? 255) || IsMulticast dst ||
  ((d0 =? n0) && (d1 =? n1) && (d2 =? n2) && negb (IsLoopback dst)).

Definition fromTunCap : nat := 256.

(** One packet read by [tunRecv]; [content] is what the device delivered. *)
Definition tunRecv_packet (done : bool) (content : bytes) (t : ClientTransport) : flow ClientTransport :=
  match deviceIp t with
  | None => Blocks
  | Some dev =>
      let '(buf, p) := Get (ct_pool t) in
      let '(buf, p) := if scap buf <? 2048 then make 2048 (Put buf p) else (buf, p) in
      let buf := reslice (Z.to_nat (scap buf)) buf in
      let content := take (Z.to_nat (scap buf)) content in
      let packet := written buf content in
      let t' := set_ct_pool p t in
      let drop_it := Next (set_ct_pool (Put (reslice 0 packet) p) t) in
      if (slen packet <? 20) || negb (Z.shiftr (byteAt content 0) 4 =? 4) then drop_it
      else if tunAccepts dev (to_ip4 (sub content 16 20)) then
        if done then Stops
        else if bool_decide (length (FromTun t) < fromTunCap)%nat
        then Next (set_FromTun (FromTun t ++ [packet]) t')
        else drop_it
      else drop_it
  end.

(** One packet in [tunSend]: what is written to the device, and the buffer
    recycled. *)
Definition tunSend_step (t : ClientTransport) : flow (option bytes * ClientTransport) :=
  match FromNet t with
  | [] => Blocks
  | payload :: rest =>
      let out := if Z.of_nat HeaderLength <? slen payload then Some (drop HeaderLength (sdata payload)) else None in
      let t := set_FromNet rest t in
      Next (out, set_ct_pool (Put (reslice 0 payload) (ct_pool t)) t)
  end.

(** ** client.go: the reconnection loop *)

(** [1 << uint(n)] on a 64-bit [int], and the product with [time.Second]. *)
Definition i64 (z : Z) : Z := (z + 2 ^ 63) mod 2 ^ 64 - 2 ^ 63.

(** The wait, in seconds, and the timer's duration in nanoseconds. *)
Definition waitSeconds (retryCount : Z) : Z :=
  let waitSec := i64 (Z.shiftl 1 retryCount) in
  if 30 <? waitSec then 30 else waitSec.
Definition waitDuration (retryCount : Z) : Z := i64 (waitSeconds retryCount * 1000000000).

Definition backoffWait (retryCount : Z) (t : ClientTransport) : Z * Z * ClientTransport :=
  let retryCount := i64 (retryCount + 1) in
  (waitDuration retryCount, retryCount, set_status RECONNECTING t).

(** The result of an iteration's attempt to connect and shake hands. *)
Inductive attempt : Type :=
  | ConnectFailed
  | HandshakeFailed
  | Connected (reply : GamePacket).

(** Step A of the loop: probing the NAT type, if P2P is enabled. *)
Definition probeNat (enableP2P : bool) (nat : res Z) (t : ClientTransport) : ClientTransport :=
  if enableP2P then
    let t := set_status TESTNAT t in
    match nat with Ok n => set_natType n t | Err _ => t end
  else set_natType TypeUnknown t.

(** Step C: a new virtual address replaces the TUN device. *)
Definition syncVirtualIp (reply : GamePacket) (t : ClientTransport) : ClientTransport :=
  let newVip := Destination reply in
  let t :=
    if bool_decide (localIp t = Some newVip) then t
    else
      let t := set_localIp (Some newVip) (Some newVip) t in
      set_noise (SetVirtualIp newVip (noiseMgr t)) t in
  set_ct_pool (Put (reslice 0 (RawData reply)) (ct_pool t)) t.

(** One iteration up to the session: the wait before the next one, if the
    attempt failed, and the retry counter. *)
Definition reconnect_step (enableP2P : bool) (nat : res Z) (a : attempt) (retryCount : Z) (t : ClientTransport)
    : option Z * Z * ClientTransport :=
  let t := set_status CONNECT (probeNat enableP2P nat t) in
  match a with
  | ConnectFailed => let '(d, r, t) := backoffWait retryCount t in (Some d, r, t)
  | HandshakeFailed => let '(d, r, t) := backoffWait retryCount (set_status INTINETWORK t) in (Some d, r, t)
  | Connected reply => (None, 0, set_status RUNNING (syncVirtualIp reply (set_status INTINETWORK t)))
  end.

(** The session ended with an error. *)
Definition session_lost (t : ClientTransport) : ClientTransport := set_status RECONNECTING t.
End client_udp.
