(* ===== verification/Tun.v ===== *)
(** The TUN devices: [internal/tun] for Linux ([device_linux.go]) and Windows
    ([device_windows.go]), behind the interface [Device] of [interface.go].

    Setting a device up is a sequence of calls to the operating system; [setup]
    records them in order and stops at a panic.  The packet loops work on the
    client's queues: [tunRecv_packet] and [tunSend_step] of [ClientUdp] are
    one iteration of the Linux loops, this file adds the whole loops of both
    platforms.  [TunFacts] has the contract both keep. *)

From stdpp Require Import base numbers list gmap option strings tactics.
From S2P Require Import Prelude GoStd Cipher Packet PacketFacts Stun Util Noise Hub HubWs HubUdp Client ClientUdp.

Local Open Scope Z_scope.

(** ** Calls to the operating system *)

Inductive oscall : Type :=
  | OpenTun                                   (** [os.OpenFile] on /dev/net/tun *)
  | TunSetIff (name : bytes) (flags : Z)      (** the ioctl with its request *)
  | CloseTun                                  (** [fd.Close()] *)
  | InitWintun                                (** [InitWintunDLL()] *)
  | CreateAdapter (name tunnelType : bytes)
  | StartSession (capacity : Z)
  | EndSession
  | CloseAdapter
  | Exec (argv : list bytes).                 (** a command run to its end *)

#[export] Instance oscall_eq_dec : EqDecision oscall.
Proof. solve_decision. Defined.

(** Code that makes calls: [os] says which succeed; the result is [None] after
    a panic, with the calls made so far. *)
Definition setup (A : Type) : Type := (oscall → bool) → option A * list oscall.

Definition ret {A} (a : A) : setup A := λ _, (Some a, []).
Definition panic {A} : setup A := λ _, (None, []).
Definition call (c : oscall) : setup bool := λ os, (Some (os c), [c]).
Definition bind {A B} (m : setup A) (f : A → setup B) : setup B := λ os,
  match m os with
  | (None, l) => (None, l)
  | (Some a, l) => let '(b, k) := f a os in (b, l ++ k)
  end.

Declare Scope setup_scope.
Notation "x <-- m ;; k" := (bind m (λ x, k)) (at level 60, m at level 59, right associativity) : setup_scope.
Notation "m ;;; k" := (bind m (λ _, k)) (at level 60, right associativity) : setup_scope.
Local Open Scope setup_scope.

(** [if err := call(); err != nil { cleanup; panic(...) }] *)
Definition must (c : oscall) (cleanup : setup bool) : setup unit :=
  ok <-- call c ;; if ok : bool then ret tt else cleanup ;;; panic.

(** The fields that describe a device; the handles are the calls made. *)
Record Tun := mkTun {
  tun_DeviceName : bytes;
  tun_Ip : ip4;
  tun_DnsIp : ip4;
  tun_Subnet : ip4 * ip4;                     (** address and mask *)
  tun_domain : bytes;
}.

Definition dnsOf (ip : ip4) : ip4 := let '(a, b, c, _) := ip in (a, b, c, 1).
Definition mask24 : ip4 := (255, 255, 255, 0).
Definition networkOf (ip : ip4) : ip4 := let '(a, b, c, _) := ip in (a, b, c, 0).

Definition newTun (name domain : bytes) (ip : ip4) : Tun :=
  mkTun name ip (dnsOf ip) (networkOf ip, mask24) domain.

(** ** device_linux.go *)

Definition IFF_TUN : Z := 0x0001.
Definition IFF_NO_PI : Z := 0x1000.

(** [copy(ifr.name[:], name)] into a [[16]byte]. *)
Definition ifrName (name : bytes) : bytes := take 16 (name ++ replicate 16 0).

(** A leading point of the domain is removed. *)
Definition cleanDomain (domain : bytes) : bytes :=
  match domain with c :: r => if c =? 46 then r else domain | [] => [] end.

Definition cmd (l : list string) : list bytes := string_bytes <$> l.

Definition NewTun_linux (name domain : bytes) (ip : ip4) : setup Tun :=
  must OpenTun (ret true) ;;;
  must (TunSetIff (ifrName name) (Z.lor IFF_TUN IFF_NO_PI)) (call CloseTun) ;;;
  must (Exec (cmd ["ip"; "addr"; "add"] ++ [ipString ip ++ string_bytes "/24"; string_bytes "dev"; name])) (call CloseTun) ;;;
  must (Exec (cmd ["ip"; "link"; "set"; "dev"] ++ [name] ++ cmd ["mtu"; "1280"; "up"])) (call CloseTun) ;;;
  must (Exec (cmd ["resolvectl"; "dns"] ++ [name; ipString (dnsOf ip)])) (ret true) ;;;
  must (Exec (cmd ["resolvectl"; "domain"] ++ [name; [126] ++ cleanDomain domain])) (ret true) ;;;
  call (Exec (cmd ["resolvectl"; "flush-caches"])) ;;;
  ret (newTun name domain ip).

(** Whether an error is returned. *)
Definition Close_linux (t : Tun) : setup bool :=
  call (Exec (cmd ["resolvectl"; "revert"] ++ [tun_DeviceName t])) ;;; call CloseTun.

(** ** device_windows.go *)

Definition powershell (script : bytes) : oscall := Exec (cmd ["powershell"; "-Command"] ++ [script]).

Definition clearCmd (domain : bytes) : bytes :=
  string_bytes "Get-DnsClientNrptRule | Where-Object {$_.Namespace -eq '" ++ domain ++
  string_bytes "'} | Remove-DnsClientNrptRule -ErrorAction SilentlyContinue -Force".

Definition setupDnsNrpt (domain dnsServer : bytes) : setup unit :=
  call (powershell (clearCmd domain)) ;;;
  must (powershell (string_bytes "Add-DnsClientNrptRule -Namespace '" ++ domain ++
          string_bytes "' -NameServers '" ++ dnsServer ++ [39])) (ret true).

(** The script that marks the network as private. *)
Definition profileCmd (name : bytes) : bytes :=
  string_bytes "[Console]::OutputEncoding = [System.Text.Encoding]::UTF8; Set-NetConnectionProfile -InterfaceAlias '" ++
  name ++ string_bytes "' -NetworkCategory Private".

(** A failed [InitWintunDLL] ends the process with [log.Fatal]. *)
Definition NewTun_windows (name domain : bytes) (ip : ip4) : setup Tun :=
  must InitWintun (ret true) ;;;
  must (CreateAdapter name (string_bytes "Wintun")) (ret true) ;;;
  must (StartSession 0x800000) (ret true) ;;;
  must (Exec (cmd ["netsh"; "interface"; "ip"; "set"; "address"] ++ [name] ++ cmd ["static"] ++
          [ipString ip; ipString mask24])) (ret true) ;;;
  must (Exec (cmd ["netsh"; "interface"; "ipv4"; "set"; "subinterface"] ++ [name] ++
          cmd ["mtu=1280"; "store=persistent"])) (ret true) ;;;
  must (powershell (profileCmd name)) (ret true) ;;;
  setupDnsNrpt domain (ipString (dnsOf ip)) ;;;
  ret (newTun name domain ip).

Definition Close_windows (t : Tun) : setup bool :=
  call (powershell (clearCmd (tun_domain t))) ;;; call EndSession ;;; call CloseAdapter.

(** ** The packet loops *)

Section loops.
Context `{AEAD, LZ4, Noise}.

(** What a read of the device delivers. *)
Inductive tunRead : Type :=
  | ReadPacket (content : bytes)
  | ReadClosed          (** the device was closed *)
  | ReadError           (** any other error *)
  | ReadNothing (waitOk : bool).  (** Windows: the ring is empty; the wait for it *)

(** One round of the Linux loop; [ended]: the context was done when the round
    began.  On an error the buffer goes back. *)
Definition tunRecv_linux (ended done : bool) (r : tunRead) (t : ClientTransport) : flow ClientTransport :=
  if ended then Stops else
  match r with
  | ReadPacket content => tunRecv_packet done content t
  | ReadClosed => Stops
  | ReadError | ReadNothing _ =>
      let '(buf, p) := Get (ct_pool t) in
      let '(buf, p) := if scap buf <? 2048 then make 2048 (Put buf p) else (buf, p) in
      Next (set_ct_pool (Put (reslice 0 buf) p) t)
  end.

(** The tests both loops make on a packet. *)
Definition tunWanted (dev : ip4) (content : bytes) : bool :=
  (20 <=? len content) && (Z.shiftr (byteAt content 0) 4 =? 4) && tunAccepts dev (to_ip4 (sub content 16 20)).

(** One round of the Windows loop: the packet is copied out of the ring only
    when it is wanted. *)
Definition tunRecv_windows (ended done : bool) (r : tunRead) (t : ClientTransport) : flow ClientTransport :=
  if ended then Stops else
  match deviceIp t, r with
  | None, _ => Blocks
  | _, ReadNothing waitOk => if waitOk then Next t else Stops
  | _, (ReadClosed | ReadError) => Next t
  | Some dev, ReadPacket packet =>
      let packetLen := len packet in
      if (packetLen <? 20) || negb (Z.shiftr (byteAt packet 0) 4 =? 4) then Next t
      else if tunAccepts dev (to_ip4 (sub packet 16 20)) then
        let '(buf, p) := Get (ct_pool t) in
        let '(buf, p) := if scap buf <? packetLen then make (length packet) (Put buf p) else (buf, p) in
        let buf := slice_copy (reslice (length packet) buf) packet in
        if done then Stops
        else if bool_decide (length (FromTun t) < fromTunCap)%nat
        then Next (set_FromTun (FromTun t ++ [buf]) (set_ct_pool p t))
        else Next (set_ct_pool (Put (reslice 0 buf) p) t)
      else Next t
  end.

Definition tunBatchSize : nat := 64.

Definition longEnough (payload : gslice) : bool := Z.of_nat HeaderLength <? slen payload.

(** The drain loop: up to [room] long payloads; short ones are dropped. *)
Fixpoint tunDrain (room : nat) (l : list gslice) : list gslice * list gslice :=
  match room, l with
  | S room', p :: r =>
      if longEnough p then let '(batch, rest) := tunDrain room' r in (p :: batch, rest) else tunDrain room r
  | _, _ => ([], l)
  end.

(** Writing the batch: [ok n] says whether the ring has room for a packet of
    [n] bytes; every buffer of the batch is recycled. *)
Fixpoint tunWriteAll (ok : Z → bool) (batch : list gslice) (p : pool) : list bytes * pool :=
  match batch with
  | [] => ([], p)
  | b :: r =>
      let data := drop HeaderLength (sdata b) in
      let '(out, p) := tunWriteAll ok r (Put (reslice 0 b) p) in
      (if ok (len data) then data :: out else out, p)
  end.

(** One round of the Windows [tunSend]; [ended]: the context is done, and this
    case of the [select] is taken. *)
Definition tunSend_windows (ended : bool) (ok : Z → bool) (t : ClientTransport) : flow (list bytes * ClientTransport) :=
  if ended then Stops else
  match FromNet t with
  | [] => Blocks
  | payload :: rest =>
      if longEnough payload then
        let '(batch, rest) := tunDrain (tunBatchSize - 1) rest in
        let '(out, p) := tunWriteAll ok (payload :: batch) (ct_pool t) in
        Next (out, set_ct_pool p (set_FromNet rest t))
      else Next ([], set_FromNet rest t)
  end.

(** One round of the Linux [tunSend]; [ok n] says whether the write succeeds. *)
Definition tunSend_linux (ended : bool) (ok : Z → bool) (t : ClientTransport) : flow (list bytes * ClientTransport) :=
  if ended then Stops else
  match tunSend_step t with
  | Next (Some data, t) => Next (if ok (len data) then [data] else [], t)
  | Next (None, t) => Next ([], t)
  | Blocks => Blocks | Stops => Stops | Panics => Panics
  end.

(** [SendDNS]: what reaches the device. *)
Definition SendDNS (ok : Z → bool) (resp : bytes) : bool * list bytes :=
  if ok (len resp) then (true, [resp]) else (false, []).

(** ** interface.go *)

(** The interface [Device] over the fields both devices share: the loops that
    [Start] runs, [Close] with the call that gives the device back, and [LUID];
    [Name] and [Dns] read the fields. *)
Class Device := {
  dev_tunRecv : bool → bool → tunRead → ClientTransport → flow ClientTransport;
  dev_tunSend : bool → (Z → bool) → ClientTransport → flow (list bytes * ClientTransport);
  dev_NewTun : bytes → bytes → ip4 → setup Tun;      (** the platform's [NewTun] *)
  dev_Close : Tun → setup bool;
  dev_release : oscall;
  dev_LUID : Z;
}.

Definition dev_Name (t : Tun) : bytes := tun_DeviceName t.
Definition dev_Dns (t : Tun) : ip4 := tun_DnsIp t.

(** Linux has no such number. *)
Definition linuxDevice : Device := {|
  dev_tunRecv := tunRecv_linux; dev_tunSend := tunSend_linux; dev_NewTun := NewTun_linux; dev_Close := Close_linux;
  dev_release := CloseTun; dev_LUID := 0;
|}.

(** [luid] is the adapter's. *)
Definition windowsDevice (luid : Z) : Device := {|
  dev_tunRecv := tunRecv_windows; dev_tunSend := tunSend_windows; dev_NewTun := NewTun_windows; dev_Close := Close_windows;
  dev_release := CloseAdapter; dev_LUID := luid;
|}.
End loops.
