(* ===== verification/TunFacts.v ===== *)
(** Facts about the TUN devices: both platforms keep the contract [TunDevice],
    interface names always fit, what happens to packets when a device is
    replaced, and how a started device ends, for every device that keeps
    [DeviceLaws]. *)

From stdpp Require Import base numbers relations list gmap option strings tactics.
From S2P Require Import Prelude GoStd Config Cipher Packet PacketFacts Stun Util Noise NoiseFacts Hub HubWs HubUdp Lease.
From S2P Require Import Client ClientUdp Tun.

Local Open Scope Z_scope.

Section devices.
Context `{AEAD, LZ4, Noise}.

(** ** The contract *)

(** Rounds of a sending loop, until it waits. *)
Fixpoint send_rounds (send : ClientTransport → flow (list bytes * ClientTransport)) (n : nat) (t : ClientTransport)
    : list bytes * ClientTransport :=
  match n with
  | O => ([], t)
  | S n' =>
      match send t with
      | Next (out, t) => let '(out', t) := send_rounds send n' t in (out ++ out', t)
      | _ => ([], t)
      end
  end.

(** What a queue of payloads puts on the device: the packet behind the header
    of every payload that has one and that the device takes. *)
Definition tun_packets (ok : Z → bool) (l : list gslice) : list bytes :=
  filter (λ d, ok (len d) = true) ((λ b, drop HeaderLength (sdata b)) <$> filter (λ b, longEnough b = true) l).

Definition tun_owned (extra : list gslice) (t : ClientTransport) : Prop :=
  owned (FromTun t ++ FromNet t ++ extra) (ct_pool t).

Class TunDevice (recv : bool → bytes → ClientTransport → flow ClientTransport)
    (send : bool → (Z → bool) → ClientTransport → flow (list bytes * ClientTransport)) : Prop := {
  device_ends : ∀ content ok t, recv true content t = Stops ∧ send true ok t = Stops;
  device_recv : ∀ content dev t, deviceIp t = Some dev → len content <= 2048 →
    ∃ t', recv false content t = Next t' ∧
      sdata <$> FromTun t' = (sdata <$> FromTun t) ++
        (if tunWanted dev content && bool_decide (length (FromTun t) < fromTunCap)%nat then [content] else []) ∧
      FromNet t' = FromNet t ∧ (∀ extra, tun_owned extra t → tun_owned extra t');
  device_send : ∀ ok n t, (length (FromNet t) <= n)%nat →
    (send_rounds (send false ok) n t).1 = tun_packets ok (FromNet t) ∧ FromNet (send_rounds (send false ok) n t).2 = [] ∧
    FromTun (send_rounds (send false ok) n t).2 = FromTun t ∧
    (∀ extra, tun_owned extra t → tun_owned extra (send_rounds (send false ok) n t).2);
}.

(** ** Receiving *)

Lemma tun_owned_put extra s t p :
  owned (s :: FromTun t ++ FromNet t ++ extra) p → tun_owned extra (set_ct_pool (Put (reslice 0 s) p) t).
Proof. intros Ho. apply owned_put. eapply owned_same_sid; [|exact Ho]. done. Qed.

Lemma tun_owned_push extra s s' t p :
  sid s = sid s' → owned (s :: FromTun t ++ FromNet t ++ extra) p →
  tun_owned extra (set_FromTun (FromTun t ++ [s']) (set_ct_pool p t)).
Proof.
  intros Hs Ho. unfold tun_owned, FromTun. simpl. eapply owned_sids; [|exact Ho].
  rewrite !fmap_app. simpl. rewrite Hs. unfold FromTun. rewrite !fmap_app. solve_Permutation.
Qed.

(** A pooled buffer of at least [n] bytes, as both loops obtain one. *)
Lemma get_room n m p buf p' buf' p'' held :
  Get p = (buf, p') → (if scap buf <? n then make m (Put buf p') else (buf, p')) = (buf', p'') → n <= Z.of_nat m →
  n <= scap buf' ∧ (owned held p → owned (buf' :: held) p'').
Proof.
  intros Hg Hm Hn. case_match; bool_cases; simplify_eq.
  - unfold make in Hm. simplify_eq. split; [unfold scap, len; simpl; rewrite length_replicate; lia|].
    intros Ho. eapply owned_make; [reflexivity|]. apply owned_put. by eapply owned_get.
  - split; [done|]. intros Ho. by eapply owned_get.
Qed.

Lemma tunWanted_split dev content :
  tunWanted dev content =
  negb ((len content <? 20) || negb (Z.shiftr (byteAt content 0) 4 =? 4)) && tunAccepts dev (to_ip4 (sub content 16 20)).
Proof.
  unfold tunWanted. rewrite negb_orb, negb_involutive. by rewrite Z.leb_antisym.
Qed.

Lemma recv_linux content dev t :
  deviceIp t = Some dev → len content <= 2048 →
  ∃ t', tunRecv_linux false false (ReadPacket content) t = Next t' ∧
    sdata <$> FromTun t' = (sdata <$> FromTun t) ++
      (if tunWanted dev content && bool_decide (length (FromTun t) < fromTunCap)%nat then [content] else []) ∧
    FromNet t' = FromNet t ∧ (∀ extra, tun_owned extra t → tun_owned extra t').
Proof.
  intros Hdev Hlen. unfold tunRecv_linux, tunRecv_packet. rewrite Hdev.
  destruct (Get (ct_pool t)) as [buf0 p0] eqn:Eg.
  destruct (if scap buf0 <? 2048 then _ else _) as [buf p] eqn:Em.
  set (c := take (Z.to_nat (scap (reslice (Z.to_nat (scap buf)) buf))) content).
  destruct (get_room 2048 2048 _ _ _ _ _ [] Eg Em ltac:(lia)) as [Hcap _].
  assert (c = content) as -> by (subst c; apply take_ge; unfold scap, reslice, len in *; simpl;
    rewrite <- Nat2Z.inj_add, <- length_app, take_drop, length_app; lia).
  assert (∀ extra, tun_owned extra t → owned (buf :: FromTun t ++ FromNet t ++ extra) p) as Hown
    by (intros extra Ho; eapply (get_room 2048 2048); [exact Eg|exact Em|lia|exact Ho]).
  rewrite tunWanted_split. change (slen (written _ content)) with (len content).
  destruct ((len content <? 20) || _); cbn [negb andb]; [|destruct (tunAccepts _ _); cbn [andb]; [case_bool_decide|]];
    (eexists; split; [done|]; rewrite ?app_nil_r; split_and!); try done.
  1,4,5: intros extra Ho; apply tun_owned_put; eapply owned_same_sid; [|by apply Hown]; done.
  - unfold FromTun; simpl. by rewrite fmap_app.
  - intros extra Ho. eapply tun_owned_push; [|by apply Hown]. done.
Qed.

Lemma recv_windows content dev t :
  deviceIp t = Some dev →
  ∃ t', tunRecv_windows false false (ReadPacket content) t = Next t' ∧
    sdata <$> FromTun t' = (sdata <$> FromTun t) ++
      (if tunWanted dev content && bool_decide (length (FromTun t) < fromTunCap)%nat then [content] else []) ∧
    FromNet t' = FromNet t ∧ (∀ extra, tun_owned extra t → tun_owned extra t').
Proof.
  intros Hdev. unfold tunRecv_windows. rewrite Hdev, tunWanted_split.
  destruct ((len content <? 20) || _); cbn [negb andb]; [exists t; rewrite app_nil_r; auto|].
  destruct (tunAccepts _ _); cbn [andb]; [|exists t; rewrite app_nil_r; auto].
  destruct (Get (ct_pool t)) as [buf0 p0] eqn:Eg.
  destruct (if scap buf0 <? len content then _ else _) as [buf p] eqn:Em.
  pose proof (get_room _ _ _ _ _ _ _ [] Eg Em ltac:(unfold len; lia)) as [Hcap _].
  assert (∀ extra, tun_owned extra t → owned (buf :: FromTun t ++ FromNet t ++ extra) p) as Hown
    by (intros extra Ho; eapply get_room; [exact Eg|exact Em|unfold len; lia|exact Ho]).
  case_bool_decide; (eexists; split; [done|]; rewrite ?app_nil_r; split_and!); try done.
  - pose proof (reslice_copy buf content Hcap) as Hrc. unfold FromTun. cbn -[slice_copy reslice].
    rewrite fmap_app. f_equal. cbn -[slice_copy reslice]. by rewrite Hrc.
  - intros extra Ho. eapply tun_owned_push; [|by apply Hown]. done.
  - intros extra Ho. apply tun_owned_put. eapply owned_same_sid; [|by apply Hown]. done.
Qed.

(** ** Sending *)

Lemma send_linux ok n t :
  (length (FromNet t) <= n)%nat →
  (send_rounds (tunSend_linux false ok) n t).1 = tun_packets ok (FromNet t) ∧ FromNet (send_rounds (tunSend_linux false ok) n t).2 = [] ∧
  FromTun (send_rounds (tunSend_linux false ok) n t).2 = FromTun t ∧
  (∀ extra, tun_owned extra t → tun_owned extra (send_rounds (tunSend_linux false ok) n t).2).
Proof.
  revert t. induction n as [|n IH]; intros t Hn.
  { destruct (FromNet t) eqn:E; [|simpl in Hn; lia]. simpl. by rewrite E. }
  cbn [send_rounds]. unfold tunSend_linux at 1 3 5 7, tunSend_step.
  destruct (FromNet t) as [|b rest] eqn:E; [simpl; by rewrite E|].
  set (t1 := set_ct_pool (Put (reslice 0 b) (ct_pool (set_FromNet rest t))) (set_FromNet rest t)).
  destruct (IH t1) as (Ho & Hf & Ht & Hw); [simpl in *; lia|]. change (FromNet t1) with rest in Ho.
  assert (∀ extra, tun_owned extra t → tun_owned extra t1) as Hown.
  { intros extra. unfold tun_owned. rewrite E. intros Hx. apply owned_put. eapply owned_sids; [|exact Hx].
    change (FromTun t1) with (FromTun t). change (FromNet t1) with rest. rewrite !fmap_app. simpl.
    rewrite ?fmap_app. solve_Permutation. }
  unfold tun_packets. rewrite filter_cons. fold (longEnough b). destruct (longEnough b) eqn:El.
  - rewrite decide_True by done. rewrite fmap_cons, filter_cons.
    destruct (send_rounds _ n t1) as [out t2]; simpl in *. subst out.
    split_and!; [by destruct (ok _)|done|done|auto].
  - rewrite decide_False by done. destruct (send_rounds _ n t1) as [out t2]; simpl in *. subst out.
    split_and!; [done|done|done|auto].
Qed.

(** The drain loop takes the long payloads in order and drops the others. *)
Lemma tunDrain_spec room l batch rest :
  tunDrain room l = (batch, rest) →
  (length rest <= length l)%nat ∧ (length batch <= room)%nat ∧ Forall (λ b, longEnough b = true) batch ∧
  filter (λ b, longEnough b = true) l = batch ++ filter (λ b, longEnough b = true) rest ∧
  ∃ skipped, l ≡ₚ batch ++ skipped ++ rest.
Proof.
  revert room batch rest. induction l as [|p l IH]; intros [|room] batch rest; simpl;
    try (intros [= <- <-]; split_and!; [simpl; lia|simpl; lia|constructor|done|by exists []]).
  destruct (longEnough p) eqn:Ep.
  - destruct (tunDrain room l) as [b r] eqn:Ed. intros [= <- <-].
    apply IH in Ed as (H1' & H2' & H3' & H4' & sk & H5'). rewrite filter_cons, decide_True by done. rewrite H4'.
    split_and!; [lia|simpl; lia|by constructor|done|]. exists sk. by rewrite H5'.
  - intros Ed. apply IH in Ed as (H1' & H2' & H3' & H4' & sk & H5').
    rewrite filter_cons, decide_False by (by rewrite Ep). split_and!; [lia|done|done|done|].
    exists (p :: sk). rewrite H5'. solve_Permutation.
Qed.

Lemma tunWriteAll_spec ok batch p :
  (tunWriteAll ok batch p).1 = filter (λ d, ok (len d) = true) ((λ b, drop HeaderLength (sdata b)) <$> batch) ∧
  (∀ held, owned (batch ++ held) p → owned held (tunWriteAll ok batch p).2).
Proof.
  revert p. induction batch as [|b r IH]; intros p; [done|]. cbn [tunWriteAll].
  destruct (IH (Put (reslice 0 b) p)) as [Ho Hw]. destruct (tunWriteAll ok r _) as [out p'].
  rewrite fmap_cons, filter_cons. simpl in *. subst out. split; [by destruct (ok _)|].
  intros held Hx. apply Hw, owned_put. eapply owned_same_sid; [|exact Hx]. done.
Qed.

(** Dropping queued payloads does not disturb ownership. *)
Lemma owned_skip l skipped held p : owned (l ++ skipped ++ held) p → owned (l ++ held) p.
Proof.
  intros Ho. induction skipped as [|s sk IH]; [done|]. apply IH. eapply (owned_drop s).
  eapply owned_sids; [|exact Ho]. apply fmap_Permutation. simpl. solve_Permutation.
Qed.

(** One round of the Windows loop on a non-empty queue. *)
Lemma send_windows_round ok t b l :
  FromNet t = b :: l →
  ∃ out rest t', tunSend_windows false ok t = Next (out, t') ∧ FromNet t' = rest ∧ (length rest <= length l)%nat ∧
    tun_packets ok (FromNet t) = out ++ tun_packets ok rest ∧ FromTun t' = FromTun t ∧
    (∀ extra, tun_owned extra t → tun_owned extra t').
Proof.
  intros E. unfold tunSend_windows. rewrite E. unfold tun_packets, tun_owned. rewrite E, filter_cons.
  destruct (longEnough b) eqn:Eb.
  - destruct (tunDrain _ l) as [batch rest] eqn:Ed. apply tunDrain_spec in Ed as (Hl & _ & _ & Hf & sk & Hp).
    destruct (tunWriteAll_spec ok (b :: batch) (ct_pool t)) as [Ho Hw].
    destruct (tunWriteAll ok (b :: batch) (ct_pool t)) as [out p]. simpl in Ho, Hw.
    exists out, rest. eexists. split; [done|]. split_and!; [done|done| |done|].
    + rewrite decide_True by done. rewrite Hf. change (b :: batch ++ ?l) with ((b :: batch) ++ l).
      by rewrite fmap_app, list.filter_app, Ho.
    + intros extra Hx. apply Hw. eapply (owned_skip (b :: batch) sk). eapply owned_sids; [|exact Hx].
      apply fmap_Permutation. change (FromNet (set_ct_pool p (set_FromNet rest t))) with rest.
      change (FromTun (set_ct_pool p (set_FromNet rest t))) with (FromTun t). rewrite Hp. simpl. solve_Permutation.
  - exists [], l. eexists. split; [done|]. rewrite decide_False by done. split_and!; [done|lia|done|done|].
    intros extra Hx. eapply (owned_drop b). eapply owned_sids; [|exact Hx]. apply fmap_Permutation. simpl.
    change (FromTun (set_FromNet l t)) with (FromTun t). solve_Permutation.
Qed.

Lemma send_windows ok n t :
  (length (FromNet t) <= n)%nat →
  (send_rounds (tunSend_windows false ok) n t).1 = tun_packets ok (FromNet t) ∧ FromNet (send_rounds (tunSend_windows false ok) n t).2 = [] ∧
  FromTun (send_rounds (tunSend_windows false ok) n t).2 = FromTun t ∧
  (∀ extra, tun_owned extra t → tun_owned extra (send_rounds (tunSend_windows false ok) n t).2).
Proof.
  revert t. induction n as [|n IH]; intros t Hn.
  { destruct (FromNet t) eqn:E; [|simpl in Hn; lia]. simpl. by rewrite E. }
  cbn [send_rounds]. destruct (FromNet t) as [|b l] eqn:E.
  { unfold tunSend_windows. rewrite E. simpl. by rewrite E. }
  destruct (send_windows_round ok t b l E) as (out & rest & t1 & -> & Hr & Hl & Hp & Ht & Hw).
  destruct (IH t1) as (Ho & Hf & Ht' & Hw'); [rewrite Hr; simpl in Hn; lia|].
  destruct (send_rounds _ n t1) as [out' t2]. simpl in *.
  rewrite <- E, Hp, Ho, Hr, Ht', Ht. split_and!; [done|done|done|auto].
Qed.

#[export] Instance linux_device : TunDevice (λ e c, tunRecv_linux e false (ReadPacket c)) tunSend_linux.
Proof. split; [done|intros; by apply recv_linux|intros; by apply send_linux]. Qed.

#[export] Instance windows_device : TunDevice (λ e c, tunRecv_windows e false (ReadPacket c)) tunSend_windows.
Proof. split; [done|intros; by apply recv_windows|intros; by apply send_windows]. Qed.

(** Any two devices that keep the contract treat the client alike. *)
Lemma devices_agree recv send recv' send' `{TunDevice recv send, TunDevice recv' send'} ok n content dev t :
  deviceIp t = Some dev → len content <= 2048 → (length (FromNet t) <= n)%nat →
  ∃ t1 t2, recv false content t = Next t1 ∧ recv' false content t = Next t2 ∧ sdata <$> FromTun t1 = sdata <$> FromTun t2 ∧
    (send_rounds (send false ok) n t).1 = (send_rounds (send' false ok) n t).1.
Proof.
  intros Hd Hc Hn. destruct (device_recv (recv := recv) (send := send) content dev t Hd Hc) as (t1 & Hr1 & Hq1 & _).
  destruct (device_recv (recv := recv') (send := send') content dev t Hd Hc) as (t2 & Hr2 & Hq2 & _).
  destruct (device_send (recv := recv) (send := send) ok n t Hn) as [-> _].
  destruct (device_send (recv := recv') (send := send') ok n t Hn) as [-> _].
  exists t1, t2. split_and!; [done|done|congruence|done].
Qed.

(** C18: the Linux and the Windows device treat the client alike.  A packet of at
    most 2048 bytes is queued for the network under the same condition and
    with the same bytes, and emptying the queue of received payloads writes
    the same packets in the same order, one by one on Linux and in batches on
    Windows: the packet behind the header of every payload that has one.  Both
    keep pooled buffers apart. *)
Theorem platforms_agree ok n content dev t :
  deviceIp t = Some dev → len content <= 2048 → (length (FromNet t) <= n)%nat →
  ∃ tl tw, tunRecv_linux false false (ReadPacket content) t = Next tl ∧ tunRecv_windows false false (ReadPacket content) t = Next tw ∧
    sdata <$> FromTun tl = sdata <$> FromTun tw ∧
    (send_rounds (tunSend_linux false ok) n t).1 = (send_rounds (tunSend_windows false ok) n t).1 ∧
    (send_rounds (tunSend_windows false ok) n t).1 = tun_packets ok (FromNet t) ∧
    (∀ extra, tun_owned extra t → tun_owned extra tl ∧ tun_owned extra tw ∧
       tun_owned extra (send_rounds (tunSend_linux false ok) n t).2 ∧ tun_owned extra (send_rounds (tunSend_windows false ok) n t).2).
Proof.
  intros Hd Hc Hn. destruct (recv_linux content dev t Hd Hc) as (tl & Hl & Hql & _ & Hol).
  destruct (recv_windows content dev t Hd) as (tw & Hw & Hqw & _ & How).
  destruct (send_linux ok n t Hn) as (Hsl & _ & _ & Hxl). destruct (send_windows ok n t Hn) as (Hsw & _ & _ & Hxw).
  exists tl, tw. split_and!; try congruence; auto.
Qed.

(** ** Several devices on one queue *)

(** The sending goroutines of all devices opened so far: each runs until the
    program ends, and the flag says whether its device is still open. *)
Abbreviation senders := (list bool) (only parsing).

(** A new address: the device is closed, a new one opened and its loops started. *)
Definition replaceDevice (l : senders) : senders := ((λ _, false) <$> l) ++ [true].

(** The sender [i] takes the next payload: a write to a closed device fails. *)
Inductive senders_step (l : senders) : ClientTransport → list bytes → ClientTransport → Prop :=
  | sender_takes i open t out t' : l !! i = Some open → tunSend_linux false (λ _, open) t = Next (out, t') → senders_step l t out t'.

Inductive senders_run (l : senders) : ClientTransport → list bytes → ClientTransport → Prop :=
  | senders_done t : senders_run l t [] t
  | senders_more t out t1 out' t2 : senders_step l t out t1 → senders_run l t1 out' t2 → senders_run l t (out ++ out') t2.

Lemma senders_run_open l t out t' :
  Forall (λ b, b = true) l → senders_run l t out t' →
  tun_packets (λ _, true) (FromNet t) = out ++ tun_packets (λ _, true) (FromNet t').
Proof.
  intros Hl. induction 1 as [t|t out t1 out' t2 Hs _ IH]; [done|].
  destruct Hs as [i open t out t1 Hi Hs]. rewrite Forall_lookup in Hl. specialize (Hl _ _ Hi). subst open.
  unfold tunSend_linux, tunSend_step in Hs. destruct (FromNet t) as [|b r] eqn:E; [done|].
  unfold tun_packets at 1. rewrite filter_cons. fold (longEnough b) in Hs.
  destruct (longEnough b) eqn:Eb; simplify_eq; rewrite <- app_assoc || idtac.
  - rewrite decide_True by done. rewrite fmap_cons, filter_cons, decide_True by done. simpl. f_equal. by rewrite <- IH.
  - rewrite decide_False by done. by rewrite <- IH.
Qed.

Lemma replaced_takes l t b r :
  l ≠ [] → FromNet t = b :: r → longEnough b = true → ∃ t', senders_step (replaceDevice l) t [] t' ∧ FromNet t' = r.
Proof.
  intros Hne E Eb. destruct l as [|x l]; [done|]. eexists. split.
  - eapply (sender_takes _ 0 false); [done|]. unfold tunSend_linux, tunSend_step. rewrite E. fold (longEnough b).
    by rewrite Eb.
  - done.
Qed.

(** As long as no device has been replaced, every received packet is written to
    the device, in order.  Once a new address has replaced the device, the
    goroutine of the closed one still takes packets from the shared queue:
    there is a run in which all queued packets are taken and none is
    written. *)
Theorem replaced_device_steals l t :
  (∀ out t', senders_run [true] t out t' → FromNet t' = [] → out = tun_packets (λ _, true) (FromNet t)) ∧
  (l ≠ [] → Forall (λ b, longEnough b = true) (FromNet t) →
     ∃ t', senders_run (replaceDevice l) t [] t' ∧ FromNet t' = []).
Proof.
  split.
  - intros out t' Hr Hn. apply senders_run_open in Hr; [|by repeat constructor].
    rewrite Hn in Hr. change (tun_packets _ []) with (@nil bytes) in Hr. by rewrite app_nil_r in Hr.
  - intros Hne. remember (FromNet t) as q eqn:E. revert t E. induction q as [|b r IH]; intros t E Hf.
    + exists t. split; [constructor|done].
    + apply Forall_cons_1 in Hf as [Hb Hf]. destruct (replaced_takes l t b r Hne) as (t1 & Hs & Hn); [done|done|].
      destruct (IH t1) as (t2 & Hr & Hn2); [done|done|]. exists t2. split; [|done].
      by apply (senders_more _ t [] t1 [] t2).
Qed.

(** ** Start *)

(** A started device: whether the context is done, which of the two loops
    runs, whether the device is closed, whether [Start] is past its [select] and
    whether it has returned; the transport, and the calls made to close. *)
Record StartState := mkStart {
  ru_ended : bool;
  ru_send : bool;
  ru_recv : bool;
  ru_closed : bool;
  ru_awake : bool;
  ru_returned : bool;
  ru_t : ClientTransport;
  ru_calls : list oscall;
}.

(** What [Start] relies on: the loops end when the program does, the sender not
    before, and [Close] gives the device back. *)
Class DeviceLaws {D : Device} : Prop := {
  dev_sender_stops ended ok t : dev_tunSend ended ok t = Stops → ended = true;
  dev_sender_ends ok t : dev_tunSend true ok t = Stops;
  dev_receiver_ends done r t : dev_tunRecv true done r t = Stops;
  dev_released dev os : dev_release ∈ (dev_Close dev os).2;
}.

#[export] Instance linuxDevice_laws : DeviceLaws (D := linuxDevice).
Proof.
  split; simpl; try done.
  - intros ended ok t. unfold tunSend_linux, tunSend_step. destruct ended; [done|]. by repeat case_match.
  - intros dev os. right. by left.
Qed.

#[export] Instance windowsDevice_laws luid : DeviceLaws (D := windowsDevice luid).
Proof.
  split; simpl; try done.
  - intros ended ok t. unfold tunSend_windows. destruct ended; [done|]. by repeat case_match.
  - intros dev os. do 2 right. by left.
Qed.

Section start.
Context `{DL : DeviceLaws}.

Definition started_device (t : ClientTransport) : StartState := mkStart false true true false false false t [].

(** Steps of [Start] and its goroutines.  A closed device takes no writes and
    its reads report that it is closed; [replaceDevice] closes it from outside;
    the rest of the client works on the transport. *)
Inductive Start_step (dev : Tun) : StartState → StartState → Prop :=
  | start_cancel e snd rcv c a ret t l : Start_step dev (mkStart e snd rcv c a ret t l) (mkStart true snd rcv c a ret t l)
  | start_other e snd rcv c a ret t t' l : Start_step dev (mkStart e snd rcv c a ret t l) (mkStart e snd rcv c a ret t' l)
  | start_replaced os e snd rcv c a ret t l :
      Start_step dev (mkStart e snd rcv c a ret t l) (mkStart e snd rcv true a ret t (l ++ (dev_Close dev os).2))
  | start_sends ok out e rcv c a ret t t' l :
      dev_tunSend false ok t = Next (out, t') → (c = true → ∀ n, ok n = false) →
      Start_step dev (mkStart e true rcv c a ret t l) (mkStart e true rcv c a ret t' l)
  | start_sender_ends ok e rcv c a ret t l :
      dev_tunSend e ok t = Stops → Start_step dev (mkStart e true rcv c a ret t l) (mkStart e false rcv c a ret t l)
  | start_receives r e snd a ret t t' l :
      dev_tunRecv false false r t = Next t' → r ≠ ReadClosed →
      Start_step dev (mkStart e snd true false a ret t l) (mkStart e snd true false a ret t' l)
  | start_receiver_ends r done e snd c a ret t l :
      dev_tunRecv e done r t = Stops → (r = ReadClosed → c = true) → (done = true → e = true) →
      Start_step dev (mkStart e snd true c a ret t l) (mkStart e snd false c a ret t l)
  | start_close os snd rcv c ret t l :
      Start_step dev (mkStart true snd rcv c false ret t l) (mkStart true snd rcv true true ret t (l ++ (dev_Close dev os).2))
  | start_return e c t l :
      Start_step dev (mkStart e false false c true false t l) (mkStart e false false c true true t l).

Definition running_inv (s : StartState) : Prop :=
  (ru_awake s = true → ru_ended s = true ∧ ru_closed s = true) ∧
  (ru_returned s = true → ru_awake s = true ∧ ru_send s = false ∧ ru_recv s = false) ∧
  (ru_send s = false → ru_ended s = true) ∧
  (ru_closed s = true → dev_release ∈ ru_calls s).

Lemma running_step dev s s' : Start_step dev s s' → running_inv s → running_inv s'.
Proof.
  pose proof (dev_released dev) as Hc. unfold running_inv.
  destruct 1 as [| | | |? ? ? ? ? ? ? ? Hs| | | |]; simpl; rewrite ?elem_of_app.
  5: apply dev_sender_stops in Hs. all: naive_solver.
Qed.

(** Once the program ends, [Start] can always return, within four steps; when
    it has returned the device is closed and neither loop runs.  While the
    program runs, the sending loop runs on, even on a device that was closed. *)
Lemma Start_ends dev t s :
  rtc (Start_step dev) (started_device t) s →
  (ru_send s = false → ru_ended s = true) ∧
  (ru_returned s = true → dev_release ∈ ru_calls s ∧ ru_send s = false ∧ ru_recv s = false) ∧
  (ru_ended s = true → ∃ n s', (n <= 4)%nat ∧ nsteps (Start_step dev) n s s' ∧ ru_returned s' = true).
Proof.
  intros Hr. assert (running_inv s) as Hi.
  { assert (running_inv (started_device t)) as Hstart by (unfold running_inv; naive_solver).
    revert Hstart. clear -Hr DL. induction Hr; eauto using running_step. }
  split_and!; [unfold running_inv in Hi; naive_solver..|].
  destruct s as [e snd rcv c a ret t' l]. simpl. intros ->.
  destruct ret; [exists 0%nat; eexists; split_and!; [lia|constructor|done]|].
  assert (∃ n s1, (n <= 1)%nat ∧ nsteps (Start_step dev) n (mkStart true snd rcv c a false t' l) s1 ∧
    ∃ c' l', s1 = mkStart true snd rcv c' true false t' l') as (n1 & s1 & Hn1 & Hs1 & c1 & l1 & ->).
  { destruct a; [exists 0%nat; eexists; split_and!; [lia|constructor|eauto]|].
    exists 1%nat. eexists. split_and!; [lia|apply nsteps_once, (start_close _ (λ _, true))|eauto]. }
  assert (∃ n, (n <= 1)%nat ∧ nsteps (Start_step dev) n (mkStart true snd rcv c1 true false t' l1)
    (mkStart true false rcv c1 true false t' l1)) as (n2 & Hn2 & Hs2).
  { destruct snd; [exists 1%nat; split; [lia|apply nsteps_once, (start_sender_ends _ (λ _, true)), dev_sender_ends]|].
    exists 0%nat. split; [lia|constructor]. }
  assert (∃ n, (n <= 1)%nat ∧ nsteps (Start_step dev) n (mkStart true false rcv c1 true false t' l1)
    (mkStart true false false c1 true false t' l1)) as (n3 & Hn3 & Hs3).
  { destruct rcv; [exists 1%nat; split; [lia|by apply nsteps_once, (start_receiver_ends _ ReadError false); [apply dev_receiver_ends|..]]|].
    exists 0%nat. split; [lia|constructor]. }
  exists (n1 + (n2 + (n3 + 1)))%nat. eexists. split_and!; [lia| |].
  - eapply nsteps_trans; [exact Hs1|]. eapply nsteps_trans; [exact Hs2|]. eapply nsteps_trans; [exact Hs3|].
    apply nsteps_once, start_return.
  - done.
Qed.

(** A device that was replaced is closed a second time when the program ends. *)
Lemma replaced_closed_twice dev t :
  ∃ s, rtc (Start_step dev) (started_device t) s ∧ ru_returned s = true ∧
    (2 <= length (filter (λ c, c = dev_release) (ru_calls s)))%nat.
Proof.
  assert (1 <= length (filter (λ c, c = dev_release) (dev_Close dev (λ _, true)).2))%nat as Hc.
  { destruct (filter _ _) eqn:E; [|simpl; lia]. exfalso. eapply not_elem_of_nil. rewrite <- E.
    apply list_elem_of_filter. split; [done|apply dev_released]. }
  eexists. split_and!.
  - eapply rtc_l; [apply (start_replaced _ (λ _, true))|]. eapply rtc_l; [apply start_cancel|].
    eapply rtc_l; [apply (start_close _ (λ _, true))|]. eapply rtc_l; [apply (start_sender_ends _ (λ _, true)), dev_sender_ends|].
    eapply rtc_l; [by apply (start_receiver_ends _ ReadError false); [apply dev_receiver_ends|..]|]. apply rtc_once, start_return.
  - done.
  - simpl. rewrite list.filter_app, length_app. lia.
Qed.

End start.
End devices.

(** ** Interface names *)

Lemma Itoa_short k : (k < 1000)%nat → (length (Itoa k) <= 3)%nat.
Proof.
  intros Hk. assert (forallb (λ i, length (Itoa i) <=? 3)%nat (seq 0 1000) = true) as Hall by (vm_compute; reflexivity).
  rewrite forallb_forall in Hall. apply Nat.leb_le, Hall, in_seq. lia.
Qed.

Lemma unique_from_bound {A} (fuel i : nat) (h : bytes) (m : gmap bytes A) (name : bytes) :
  unique_from fuel i h m = Some name → ∃ k, (k < i + fuel)%nat ∧ name = numbered h k.
Proof.
  revert i. induction fuel as [|fuel IH]; intros i; simpl; [done|]. case_match.
  - intros (k & Hk & ->)%IH. exists k. split; [lia|done].
  - intros [= <-]. exists i. split; [lia|done].
Qed.

Lemma UniqueHostName_length {A} (h : bytes) (m : gmap bytes A) (name : bytes) :
  UniqueHostName h m = Some name → (size m < 998)%nat → (length name <= length h + 4)%nat.
Proof.
  unfold UniqueHostName. case_match; [|intros [= <-]; lia].
  intros (k & Hk & ->)%unique_from_bound Hs. unfold numbered. rewrite !length_app.
  pose proof (Itoa_short k ltac:(lia)). simpl. lia.
Qed.

(** There are no more names than addresses. *)
Lemma book_names h L : book h L → (size (dnsMap h) <= 253)%nat.
Proof.
  intros B. set (l := (map_to_list (dnsMap h)).*2).
  assert (NoDup l) as Hnd.
  { apply NoDup_fmap_2_strong; [|apply NoDup_map_to_list]. intros [n v] [n' v'] Hn Hn' Hv. simpl in Hv. subst v'.
    apply elem_of_map_to_list in Hn, Hn'. apply (book_dns _ _ B) in Hn as (x & Hx & <-), Hn' as (y & Hy & <-).
    by simplify_eq. }
  assert (l ⊆+ addresses) as Hsub.
  { apply NoDup_submseteq; [done|]. intros v Hv. apply list_elem_of_fmap in Hv as ([n w] & -> & Hn).
    apply elem_of_map_to_list, (book_dns _ _ B) in Hn as (x & Hx & _). by eapply book_in_addresses. }
  apply submseteq_length in Hsub. subst l. by rewrite length_fmap, length_map_to_list in Hsub.
Qed.

Lemma ifrName_fits name : (length name <= 16)%nat → ifrName name = name ++ replicate (16 - length name) 0.
Proof. intros Hl. unfold ifrName. rewrite take_app, take_ge by lia. f_equal. by rewrite take_replicate, Nat.min_l by lia. Qed.

Section names.
Context `{DnsLib, AEAD, LZ4, Toml}.

End names.

(** ** Setting a device up *)

Definition is_resolvectl (c : oscall) : Prop := ∃ args, c = Exec (string_bytes "resolvectl" :: args).

(** Whatever calls fail, the Linux set-up succeeds after seven calls that never
    close the device, or ends with the failed opening, with the closed device,
    or with a failed call of resolvectl, which alone leaves the device open. *)
Lemma linux_setup_cleanup name domain ip os :
  match NewTun_linux name domain ip os with
  | (Some tun, tr) => tun = newTun name domain ip ∧ length tr = 7%nat ∧ CloseTun ∉ tr
  | (None, tr) =>
      (tr = [OpenTun] ∧ os OpenTun = false) ∨ list.last tr = Some CloseTun ∨
      (∃ c, list.last tr = Some c ∧ is_resolvectl c ∧ os c = false ∧ CloseTun ∉ tr)
  end.
Proof.
  unfold NewTun_linux, bind, must, call, bind.
  repeat match goal with |- context [os ?c] => let E := fresh "E" in destruct (os c) eqn:E; simpl end.
  all: first
    [ split_and!; [done|done|]; intros Hin; by repeat (apply elem_of_cons in Hin as [Hin|Hin]; [done|]); apply not_elem_of_nil in Hin
    | by left
    | right; left; done
    | right; right; eexists; split_and!; [done|by eexists|done|]; intros Hin;
      by repeat (apply elem_of_cons in Hin as [Hin|Hin]; [done|]); apply not_elem_of_nil in Hin ].
Qed.

(** A device that was set up is closed by [Close]. *)
Lemma close_linux_closes t os : list.last (Close_linux t os).2 = Some CloseTun.
Proof. done. Qed.

(** A client at 10.0.6.2 with two payloads received, one without a packet. *)
Definition ex_client : ClientTransport :=
  set_FromNet [Slice 5 (replicate 21 0 ++ [69; 1]) []; Slice 6 (replicate 21 0) []; Slice 7 (replicate 21 0 ++ [69; 2]) []]
    (set_localIp (Some (10, 0, 6, 2)) (Some (10, 0, 6, 2)) (NewTransport [1] 100)).

(** An IPv4 packet for 10.0.6.3. *)
Definition ex_content : bytes := [69] ++ replicate 15 0 ++ [10; 0; 6; 3].

Lemma platforms_agree_witness :
  ∃ tl tw, tunRecv_linux false false (ReadPacket ex_content) ex_client = Next tl ∧
    tunRecv_windows false false (ReadPacket ex_content) ex_client = Next tw ∧
    sdata <$> FromTun tl = sdata <$> FromTun tw ∧
    (send_rounds (tunSend_linux false (λ _, true)) 3 ex_client).1 = (send_rounds (tunSend_windows false (λ _, true)) 3 ex_client).1 ∧
    (send_rounds (tunSend_windows false (λ _, true)) 3 ex_client).1 = [[69; 1]; [69; 2]].
Proof.
  destruct (platforms_agree (λ _, true) 3 ex_content (10, 0, 6, 2) ex_client) as (tl & tw & Hl & Hw & Hq & Hs & Hp & _);
    [reflexivity|vm_compute; discriminate|simpl; lia|].
  exists tl, tw. split; [exact Hl|]. split; [exact Hw|]. split; [exact Hq|]. split; [exact Hs|].
  rewrite Hp. vm_compute. reflexivity.
Defined.

Definition ex_loaded : option configPanic * Vars * Files :=
  @InitConfig ex_toml (string_bytes "1s") [] (ex_random 7) zeroVars ex_files.

