(* ===== verification/ClientFacts.v ===== *)
(** Correctness of the client: a packet followed from one TUN device to the
    other through the server, the reconnection back-off, peer-to-peer upkeep,
    and what the sending loop does with its buffers and with the first packet
    for a new peer. *)

From stdpp Require Import base numbers list gmap option tactics.
From S2P Require Import Prelude Cipher Packet PacketFacts Stun Util Noise NoiseFacts Hub HubWs HubUdp Lease P2PFacts RelayFacts.
From S2P Require Import Client ClientUdp.

Local Open Scope Z_scope.

(** ** Reconnection *)

Lemma i64_small z : - 2 ^ 63 <= z < 2 ^ 63 → i64 z = z.
Proof. intros. unfold i64. rewrite Z.mod_small by lia. lia. Qed.

Lemma i64_shift n : 64 <= n → i64 (Z.shiftl 1 n) = 0.
Proof.
  intros Hn. unfold i64. rewrite Z.shiftl_1_l. replace n with (64 + (n - 64)) by lia.
  rewrite Z.pow_add_r, Z.mul_comm, Z.add_comm, Z.mod_add by lia. done.
Qed.

(** The timer of the [n]-th consecutive failure. *)
Lemma waitDuration_spec n :
  1 <= n → waitDuration n = if decide (n < 63) then Z.min (2 ^ n) 30 * 1000000000 else 0.
Proof.
  intros Hn. case_decide as Hn63.
  - assert (1 <= 2 ^ n < 2 ^ 63) as Hp
      by (split; [apply (Z.pow_le_mono_r 2 0); lia|apply Z.pow_lt_mono_r; lia]).
    unfold waitDuration, waitSeconds. rewrite Z.shiftl_1_l, (i64_small (2 ^ n)) by lia.
    destruct (30 <? 2 ^ n) eqn:E; bool_cases.
    + rewrite Z.min_r, i64_small by lia. done.
    + rewrite Z.min_l, i64_small by lia. done.
  - destruct (decide (n = 63)) as [->|]; [reflexivity|].
    unfold waitDuration, waitSeconds. rewrite i64_shift by lia. reflexivity.
Qed.

Section clients.
Context `{AEADLaws, LZ4Laws, Noise}.

(** [n] iterations in a row whose attempts fail, and their waits. *)
Fixpoint failures (enableP2P : bool) (nat : res Z) (attempts : list bool) (retryCount : Z) (t : ClientTransport)
    : list Z * Z * ClientTransport :=
  match attempts with
  | [] => ([], retryCount, t)
  | connected :: r =>
      let '(d, retryCount, t) :=
        reconnect_step enableP2P nat (if connected then HandshakeFailed else ConnectFailed) retryCount t in
      let '(ds, retryCount, t) := failures enableP2P nat r retryCount t in
      (default 0 d :: ds, retryCount, t)
  end.

Lemma failures_waits enableP2P nat attempts c t :
  0 <= c → c + len attempts < 2 ^ 62 →
  (failures enableP2P nat attempts c t).1 =
    ((λ i, waitDuration (c + Z.of_nat i)) <$> seq 1 (length attempts), c + len attempts).
Proof.
  revert c t. induction attempts as [|b attempts IH]; intros c t Hc Hb.
  - unfold len. simpl. f_equal. lia.
  - assert (len (b :: attempts) = 1 + len attempts) as Hl by (unfold len; simpl; lia). rewrite Hl in *.
    pose proof (len_nonneg attempts). simpl.
    assert (∃ t', reconnect_step enableP2P nat (if b then HandshakeFailed else ConnectFailed) c t =
      (Some (waitDuration (c + 1)), c + 1, t')) as [t' ->]
      by (destruct b; unfold reconnect_step, backoffWait; rewrite i64_small by lia; eauto).
    specialize (IH (c + 1) t' ltac:(lia) ltac:(lia)).
    destruct (failures enableP2P nat attempts (c + 1) t') as [[ds c'] t'']. simpl in *. simplify_eq.
    f_equal; [|lia]. f_equal. rewrite <- (fmap_S_seq 1), <- list_fmap_compose. apply list_fmap_ext.
    intros i x _. simpl. f_equal. lia.
Qed.

(** C28: the reconnection back-off: in a row of failed attempts, to connect or
    to shake hands, the wait before attempt number [i + 1] is 2, 4, 8, 16 and
    then 30 seconds, but only up to the 62nd failure: from the 63rd on the
    shift overflows and the client retries without any wait. *)
Theorem backoff_schedule enableP2P nat attempts t i d :
  len attempts < 2 ^ 62 →
  (failures enableP2P nat attempts 0 t).1.1 !! i = Some d →
  d = if decide (Z.of_nat i < 62) then Z.min (2 ^ (Z.of_nat i + 1)) 30 * 1000000000 else 0.
Proof.
  intros Hb Hd. rewrite (failures_waits _ _ _ 0) in Hd by lia. simpl in Hd.
  apply list_lookup_fmap_Some in Hd as (j & -> & Hj).
  apply lookup_seq in Hj as [-> _]. rewrite waitDuration_spec by lia.
  replace (Z.of_nat (1 + i)) with (Z.of_nat i + 1) by lia.
  repeat case_decide; lia || done.
Qed.

(** ** From TUN to TUN *)

(** A packet for a peer with a ready session is sealed and handed to the
    socket once. *)
Lemma packetSend_ready wr comp now p w t dst session cs a :
  to_ip4 (sub (sdata p) 16 20) = dst → isDNS (sdata p) (Dns t) = false → lastByte dst ≠ 255 →
  slen p <= MaxPayloadSize → GetSession (noiseMgr t) dst = Some session →
  IsReady (s_cipher session) = true → Sender (s_cipher session) = Some cs →
  nextHop dst t = Some a → wr a = true →
  ∃ data g' pl cs' w' t',
    EncodePacket (ct_pool t) (Reset (w_gp w) (localKey t) dst TypeData p) false comp (Some cs) =
      (Some data, g', pl, cs') ∧
    packetSend_one wr false comp now p w t = Next ([(sdata data, a)], w', t').
Proof.
  intros Hdst Hdns Hlast Hs Hses Hr Hcs Hhop Hwr. unfold packetSend_one. rewrite Hdns, Hdst, Hses, Hr, Hcs.
  rewrite (proj2 (Z.eqb_neq _ _)) by done. cbn [negb].
  destruct (EncodePacket_total (ct_pool t) (Reset (w_gp w) (localKey t) dst TypeData p) false comp (Some cs))
    as (data & g' & pl & cs' & He); [exact Hs|]. rewrite He. exists data, g', pl, cs'.
  unfold sendData. change (nextHop dst _) with (nextHop dst t). rewrite Hhop, Hwr. eauto.
Qed.

(** The receiving end of a sealed packet. *)
Lemma packetRecv_ready wr now from content t session rs g1 g2 q1 q2 :
  ParsePacket (ct_pool t) zeroPacket content true None = (None, g1, q1) →
  bitclear (PType g1) FlagCompress = TypeData →
  GetSession (noiseMgr t) (gp_src g1) = Some session → IsReady (s_cipher session) = true →
  Recver (s_cipher session) = Some rs → DecryptParse q1 g1 (Some rs) = (None, g2, q2) →
  (length (FromNet t) < fromNetCap)%nat →
  ∃ t', packetRecv_datagram wr false now from content t = Next (mkEffects [] [], t') ∧
    FromNet t' = FromNet t ++ [RawData g2] ∧
    GetSession (noiseMgr t') (gp_src g1) = Some (session_UpdateLastSeen now session).
Proof.
  intros Hp Ht Hses Hr Hrs Hd Hroom. unfold packetRecv_datagram. cbn [ct_pool set_counts]. rewrite Hp, Ht.
  cbn [Z.eqb TypeData Pos.eqb]. unfold recvData, HandleNoisePacket. cbn [noiseMgr set_ct_pool set_counts].
  unfold SourceVirtualIp. rewrite Hses, Hr. cbn [ct_pool set_ct_pool set_noise]. rewrite Hrs, Hd.
  cbn [FromNet updateSession set_noise set_ct_pool set_counts]. rewrite bool_decide_true by done.
  eexists. split; [done|]. split; [done|]. unfold GetSession in *. cbn -[lookup]. by rewrite lookup_alter_eq, Hses.
Qed.

(** C1: end to end: with a ready Noise session on both sides and both clients
    online, an IP packet read from the first client's TUN device for the second
    leaves it sealed, crosses the server as one datagram with the same bytes,
    is opened by the second client, and what that client writes to its TUN
    device begins with the very IP packet; it is followed by nothing, or by 16
    more bytes when the packet was sealed without compression. *)
Theorem tun_to_tun wr comp now p w tA vipB sA cs h s d client from b wr' now' tB sB rs :
  (* the sender *)
  to_ip4 (sub (sdata p) 16 20) = vipB → isDNS (sdata p) (Dns tA) = false → lastByte vipB ≠ 255 →
  slen p <= MaxPayloadSize → GetSession (noiseMgr tA) vipB = Some sA →
  IsReady (s_cipher sA) = true → Sender (s_cipher sA) = Some cs →
  nextHop vipB tA = Some (serverAddr tA) → wr (serverAddr tA) = true →
  (* the server *)
  transferChan h = [] → packetChan h = [] → routes_exist h →
  clientMap h !! localKey tA = Some s → clientMap h !! vipB = Some d → s ≠ d → subnetContains vipB = true →
  hub_clients h !! d = Some client → dataAddr client = Some b →
  (* the receiver *)
  GetSession (noiseMgr tB) (localKey tA) = Some sB → IsReady (s_cipher sB) = true →
  Recver (s_cipher sB) = Some rs → cs_key rs = cs_key cs → FromNet tB = [] →
  ∃ wire w' tA' tB' tB'' rest,
    packetSend_one wr false comp now p w tA = Next ([(wire, serverAddr tA)], w', tA') ∧
    (∀ g, (writeUdpPacket_step (transfer_step false (listenUdp_datagram false from g wire h))).1 = [(wire, b)]) ∧
    packetRecv_datagram wr' false now' (serverAddr tB) wire tB = Next (mkEffects [] [], tB') ∧
    tunSend_step tB' = Next (Some (sdata p ++ rest), tB'') ∧ (length rest = 0 ∨ length rest = 16)%nat.
Proof.
  intros Hdst Hdns Hlast Hs HsA HrA Hcs Hhop Hwr Htr Hpk Hex Hra Hrb Hne Hsub Hcl Hb HsB HrB Hrs Hk Hfn.
  destruct (packetSend_ready wr comp now p w tA vipB sA cs (serverAddr tA))
    as (data & g' & pl & cs' & w' & tA' & He & Hsend); [done..|].
  set (g := Reset (w_gp w) (localKey tA) vipB TypeData p) in *.
  assert (PType g = TypeData) as Htype by done.
  destruct (data_delivered _ g comp cs data g' pl cs' (ct_pool tB) zeroPacket rs Htype Hk He)
    as (g1 & q1 & g2 & q2 & Hp1 & Hsrc & Hdst1 & Ht1 & Hraw1 & Hdec & Hpl & rest & Hraw & Hrl & Hhl).
  destruct (packetRecv_ready wr' now' (serverAddr tB) (sdata data) tB sB rs g1 g2 q1 q2)
    as (tB' & Hrecv & HFN & _); [done|done|by rewrite Hsrc|done|done|done|rewrite Hfn; simpl; unfold fromNetCap; lia|].
  rewrite Hfn in HFN. simpl in HFN.
  eexists (sdata data), w', tA', tB', _, rest. split; [exact Hsend|]. split; [|split; [exact Hrecv|split]].
  - intros g0. destruct (data_delivered _ g comp cs data g' pl cs' (bufPool h) g0 rs Htype Hk He)
      as (gs & ps & _ & _ & Hps & Hss & Hds & Hts & Hrs' & _).
    eapply relay_parsed; try done; rewrite ?Hss, ?Hds; done.
  - unfold tunSend_step. rewrite HFN.
    assert (drop HeaderLength (sdata (RawData g2)) = sdata p ++ rest) as Hdrop
      by (rewrite Hraw, drop_app_length' by done; done).
    assert (Z.of_nat HeaderLength < slen (RawData g2)) as Hlen.
    { unfold slen. rewrite Hraw, len_app. unfold len at 1. rewrite Hhl.
      cut (0 < len (sdata (Payload g) ++ rest)); [lia|]. rewrite len_app. pose proof (len_nonneg rest).
      cut (0 < len (sdata p)); [simpl; lia|]. destruct (sdata p) eqn:E; [|unfold len; simpl; lia].
      exfalso. by rewrite <- Hdst in Hsub. }
    rewrite (proj2 (Z.ltb_lt _ _)) by exact Hlen. rewrite Hdrop. done.
  - rewrite Hrl. case_bool_decide; auto.
Qed.

(** ** The first packet for a new peer *)

(** The IP packet that makes a client look for a peer's key is not sealed:
    it is queued as the payload of the request to the server, and the control
    connection carries its bytes in the clear. *)
Theorem first_packet_in_clear wr comp now p w t dst :
  to_ip4 (sub (sdata p) 16 20) = dst → isDNS (sdata p) (Dns t) = false → lastByte dst ≠ 255 →
  slen p <= MaxPayloadSize → GetSession (noiseMgr t) dst = None → ControlSendChan t = [] →
  ∃ t1 data t2,
    packetSend_one wr false comp now p w t = Next ([], w, t1) ∧
    controlSend_step true t1 = Next (CtlBinary data, t2) ∧ drop HeaderLength data = sdata p.
Proof.
  intros Hdst Hdns Hlast Hs Hses Hch. unfold packetSend_one. rewrite Hdns, Hdst, Hses.
  rewrite (proj2 (Z.eqb_neq _ _)) by done. cbn [negb]. rewrite Hch. simpl.
  set (query := NewGamePacket (localKey t) dst TypeNoiseHandshake p).
  set (t1 := set_ControlSend [query] t). exists t1. unfold controlSend_step, encodeOnce.
  change (ControlSendChan t1) with [query]. cbn beta iota. change (PType query =? TypePing) with false.
  destruct (EncodePacket_total (ct_pool (set_ControlSend [] t1)) query true false None) as (data & g' & pl & cs' & He);
    [exact Hs|]. rewrite He. eexists _, _. split; [done|]. split; [done|].
  change (default nil_slice (Some data)) with data.
  apply EncodePacket_inv in He as (_ & g1 & Heq & _ & Hg & _ & Hd). simpl in Heq. subst g1 g'.
  rewrite Hd, header_drop. apply len_wire_body_plain. by left.
Qed.

(** Starting a handshake replaces whatever session the peer had.  A
    completed session is lost, and so are the packets that waited in an
    unfinished one; the new session is unfinished and queues one packet. *)
Lemma HandshakeInit_replaces now vip pub pl m out m' :
  HandshakeInit now vip pub pl m = (out, m') →
  ∃ s, GetSession m' vip = Some s ∧ IsReady (s_cipher s) = false ∧ pendingChan s = [pl] ∧
    tunChan m' = tunChan m ∧ ∀ v, v ≠ vip → GetSession m' v = GetSession m v.
Proof.
  unfold HandshakeInit, draw. destruct (WriteMessage _ _) as [o hs]. intros [= <- <-].
  eexists. split; [apply lookup_insert_eq|]. split_and!; try done. intros v Hv. by apply lookup_insert_ne.
Qed.

(** The session [initiateNoise] starts. *)
Lemma initiateNoise_session wr now vip pub pl t out t' :
  initiateNoise wr now vip pub pl t = (out, t') →
  ∃ s, GetSession (noiseMgr t') vip = Some s ∧ IsReady (s_cipher s) = false ∧ pendingChan s = [pl] ∧
    tunChan (noiseMgr t') = tunChan (noiseMgr t) ∧
    ∀ v, v ≠ vip → GetSession (noiseMgr t') v = GetSession (noiseMgr t) v.
Proof.
  unfold initiateNoise, encodeOnce. destruct (HandshakeInit _ _ _ _ _) as [o m] eqn:Eh. intros Hi.
  apply HandshakeInit_replaces in Eh. repeat case_match; simplify_eq; exact Eh.
Qed.

(** The reply with a peer's key replaces whatever session the peer had by an
    unfinished one, so that a completed session and the packets waiting in it
    are lost.  The one packet that waits in the new session is not a copy: it
    lies in the array of the control connection's read buffer, which the next
    control message overwrites. *)
Theorem key_reply_restarts wr now g msg t g1 g' out t' :
  ParseControl g msg = (None, g1) → PType g1 = TypeNoiseResponse → 32 <= slen (Payload g1) →
  controlRecv_message wr now g msg t = (g', out, t') →
  ∃ s q, GetSession (noiseMgr t') (SourceVirtualIp g1) = Some s ∧ IsReady (s_cipher s) = false ∧
    pendingChan s = [q] ∧ sid q = sid msg ∧ sdata q = drop (HeaderLength + 32) (sdata msg) ∧
    tunChan (noiseMgr t') = tunChan (noiseMgr t) ∧
    ∀ v, v ≠ SourceVirtualIp g1 → GetSession (noiseMgr t') v = GetSession (noiseMgr t) v.
Proof.
  intros Hp Ht Hl. unfold controlRecv_message. rewrite Hp, Ht. cbn [Z.eqb].
  rewrite (proj2 (Z.ltb_ge _ _)) by exact Hl.
  destruct (initiateNoise _ _ _ _ _ _) as [o t1] eqn:Ei. intros [= <- <- <-].
  destruct (initiateNoise_session _ _ _ _ _ _ _ _ Ei) as (s & Hs & Hr & Hq & Htun & Ho).
  exists s, (slice_from 32 (Payload g1)). split_and!; try done.
  all: unfold ParseControl in Hp; destruct (parseHeader _ _) as [[[[? ?] ?] ?]|]; [|done]; injection Hp as <-; simpl;
    rewrite ?drop_drop; done.
Qed.

(** ** The DNS buffer *)

Lemma append_sid s b p s' p' :
  append s b p = (s', p') → (sid s ≠ 0)%nat → (0 < pfresh p)%nat → (sid s' ≠ 0)%nat ∧ (0 < pfresh p')%nat.
Proof. unfold append, alloc. case_match; intros [= <- <-]; simpl; lia. Qed.

(** C32: after a DNS request the buffer it was built in is in two hands: the
    sending goroutine keeps it for the next request, and it is also free in the
    pool, from which any other goroutine may take it. *)
Theorem dns_buffer_shared wr comp now p w t out w' t' :
  isDNS (sdata p) (Dns t) = true → (sid (dnsBuffer w) ≠ 0)%nat → (0 < pfresh (ct_pool t))%nat →
  packetSend_one wr false comp now p w t = Next (out, w', t') →
  (∃ s, s ∈ pfree (ct_pool t') ∧ sid s = sid (dnsBuffer w')) ∧ ¬ owned [dnsBuffer w'] (ct_pool t').
Proof.
  intros Hdns Hsid Hfr. unfold packetSend_one. rewrite Hdns.
  destruct (append (reslice 0 (dnsBuffer w)) _ _) as [b1 p1] eqn:E1.
  apply append_sid in E1 as [Hs1 Hf1]; [|done|done].
  destruct (append b1 _ _) as [buf pl] eqn:E2. apply append_sid in E2 as [Hs2 _]; [|done|done].
  destruct (EncodePacket pl _ false false None) as [[[data gp] pl'] cs] eqn:Ee.
  apply EncodePacket_payload in Ee. simpl in Ee.
  destruct (sendData _ _ _ _ _) as [o t1] eqn:Es. intros [= <- <- <-]. simpl.
  assert (ct_pool t1 = Put (reslice 0 (default nil_slice data)) (Put (reslice 0 (Payload gp)) pl')) as Hpool.
  { unfold sendData in Es. by repeat case_match; simplify_eq. }
  rewrite Hpool, Ee. split; [exists (reslice 0 buf); split; [right; left|done]|].
  unfold owned. simpl. intros [Hn _]. rewrite !ids_cons in Hn. simpl in Hn. rewrite !(decide_False (P := sid buf = 0%nat)) in Hn by done.
  apply list.NoDup_cons in Hn as [Hn _]. apply Hn. set_solver.
Qed.

(** ** Peer-to-peer upkeep *)

(** The datagrams and the report a table entry calls for. *)
Definition entry_datagrams (wr : addrPort → bool) (now : ip4 → Z) (ping : bytes) (e : ip4 * P2PStatus) : list datagram :=
  if IsTimeout (now e.1) 10 e.2 then []
  else if Established e.2 then match ua_addr <$> GetDstAddr e.2 with Some a => writes wr ping [a] | None => [] end
  else punch wr ping e.2.

Definition entry_report (now : ip4 → Z) (self : ip4) (e : ip4 * P2PStatus) : list GamePacket :=
  if IsTimeout (now e.1) 10 e.2 then [NewGamePacket self e.1 TypeP2PClosed nil_slice] else [].

Lemma tryControl_take gp t q :
  ControlSendChan t = take controlSendCap q →
  ControlSendChan (tryControl gp t) = take controlSendCap (q ++ [gp]).
Proof.
  intros Hq. unfold tryControl. rewrite Hq. case_bool_decide as Hl; rewrite length_take in Hl.
  - cbn [ControlSendChan set_ControlSend]. rewrite !(take_ge q), take_ge; [done|rewrite length_app; simpl|]; lia.
  - rewrite Hq. by rewrite take_app_le by lia.
Qed.

Lemma handleP2P_fold wr now ping l out t q :
  ControlSendChan t = take controlSendCap q →
  let r := foldl (λ st e, handleP2P_entry wr (now e.1) ping e st) (out, t) l in
  r.1 = out ++ (l ≫= entry_datagrams wr now ping) ∧
  ControlSendChan r.2 = take controlSendCap (q ++ (l ≫= entry_report now (localKey t))) ∧
  ∀ v, p2pRouter r.2 !! v =
    if decide (v ∈ (filter (λ e, IsTimeout (now e.1) 10 e.2 = true) l).*1) then None else p2pRouter t !! v.
Proof.
  revert out t q. induction l as [|[v0 s0] l IH]; intros out t q Hq.
  { simpl. rewrite !app_nil_r. split_and!; try done. }
  rewrite !bind_cons. cbn [foldl fst].
  destruct (handleP2P_entry wr (now v0) ping (v0, s0) (out, t)) as [out1 t1] eqn:E.
  assert (out1 = out ++ entry_datagrams wr now ping (v0, s0) ∧
    ControlSendChan t1 = take controlSendCap (q ++ entry_report now (localKey t) (v0, s0)) ∧
    localKey t1 = localKey t ∧
    p2pRouter t1 = if IsTimeout (now v0) 10 s0 then delete v0 (p2pRouter t) else p2pRouter t) as (-> & Hq1 & Hk & Hr).
  { unfold handleP2P_entry, entry_datagrams, entry_report in *. simpl. destruct (IsTimeout (now v0) 10 s0).
    - simplify_eq. rewrite app_nil_r. split_and!; [done| | |].
      + by apply (tryControl_take _ (set_p2p (delete v0) t)).
      + unfold removeP2P, tryControl. by case_bool_decide.
      + unfold removeP2P, tryControl. by case_bool_decide.
    - rewrite app_nil_r. destruct (Established s0); [destruct (ua_addr <$> GetDstAddr s0)|]; simplify_eq; by rewrite ?app_nil_r. }
  destruct (IH (out ++ entry_datagrams wr now ping (v0, s0)) t1 (q ++ entry_report now (localKey t) (v0, s0)) Hq1)
    as (IH1 & IH2 & IH3).
  split_and!.
  - by rewrite IH1, <- app_assoc.
  - by rewrite IH2, <- app_assoc, Hk.
  - intros v. rewrite IH3, Hr, filter_cons. simpl. destruct (IsTimeout (now v0) 10 s0).
    + rewrite (decide_True (P := true = true)) by done. simpl. rewrite lookup_delete.
      repeat case_decide; set_solver.
    + by rewrite (decide_False (P := false = true)).
Qed.

(** A tick of the peer table changes the transport by removals only. *)
Lemma handleP2P_ind (P : ClientTransport → Prop) wr now t :
  P t → (∀ v t, P t → P (removeP2P v t)) → P (handleP2P_tick wr now t).2.
Proof.
  intros Ht Hrm. unfold handleP2P_tick.
  generalize (encodeControl (NewGamePacket (localKey t) ip4_zero TypePing nil_slice)) as ping.
  generalize (map_to_list (p2pRouter t)) as l, (@nil (bytes * addrPort)) as out. intros l out ping.
  revert t out Ht. induction l as [|[v s] l IH]; intros t out Ht; [done|]. cbn [foldl fst].
  destruct (handleP2P_entry wr (now v) ping (v, s) (out, t)) as [o t1] eqn:He. apply IH. unfold handleP2P_entry in He.
  destruct (IsTimeout (now v) 10 s); [simplify_eq; by apply Hrm|by repeat case_match; simplify_eq].
Qed.

(** C27: a tick of the client's peer table: exactly the peers silent for more
    than ten seconds when the loop comes to them are dropped, each is reported to the server as closed as
    long as the control queue has room, established peers get one ping, and the
    others are punched according to their NAT type. *)
Theorem p2p_tick_exact wr now t :
  (length (ControlSendChan t) <= controlSendCap)%nat →
  let r := handleP2P_tick wr now t in
  let ping := encodeControl (NewGamePacket (localKey t) ip4_zero TypePing nil_slice) in
  p2pRouter r.2 = filter (λ e, IsTimeout (now e.1) 10 e.2 = false) (p2pRouter t) ∧
  r.1 = map_to_list (p2pRouter t) ≫= entry_datagrams wr now ping ∧
  ControlSendChan r.2 =
    take controlSendCap (ControlSendChan t ++ (map_to_list (p2pRouter t) ≫= entry_report now (localKey t))).
Proof.
  intros Hl r ping. destruct (handleP2P_fold wr now ping (map_to_list (p2pRouter t)) [] t (ControlSendChan t))
    as (Ho & Hq & Hr); [by rewrite take_ge|]. split_and!; [|exact Ho|exact Hq].
  apply map_eq. intros v. unfold r, handleP2P_tick. rewrite Hr. case_decide as Hv.
  - apply list_elem_of_fmap in Hv as ([v' s'] & -> & [Ht Hin]%list_elem_of_filter).
    apply elem_of_map_to_list in Hin. symmetry. apply map_lookup_filter_None. right.
    intros x Hx. simpl in *. simplify_eq. by rewrite Ht.
  - destruct (p2pRouter t !! v) as [s0|] eqn:E; symmetry.
    + apply map_lookup_filter_Some. split; [done|]. simpl. apply not_true_is_false. intros Ht. apply Hv.
      apply list_elem_of_fmap. exists (v, s0). split; [done|]. apply list_elem_of_filter. by rewrite elem_of_map_to_list.
    + apply map_lookup_filter_None. by left.
Qed.
End clients.

(** ** Examples *)

(** Two clients with a finished key exchange, and the hub of [RelayFacts]. *)
Definition ex_base (vip : ip4) : ClientTransport := set_localIp (Some vip) (Some vip) (NewTransport [1] 100).
Definition ex_session (vip : ip4) (recv send : bytes) : NoiseSession :=
  mkSession vip (mkCipher (Some (mkCipherState recv 0)) (Some (mkCipherState send 0)) CipherReady) None true 0 [] true.
Definition ex_peer (self vip : ip4) (recv send : bytes) : ClientTransport :=
  set_noise (SetSession vip (ex_session vip recv send) (noiseMgr (ex_base self))) (ex_base self).
Definition ex_tA : ClientTransport := ex_peer P2PFacts.ex_A ex_B [1] [2].
Definition ex_tB : ClientTransport := ex_peer ex_B P2PFacts.ex_A [2] [1].

(** An IP packet to 10.0.6.3, and a DNS request to 10.0.6.1. *)
Definition ex_ip : gslice :=
  Slice 950 ([0x45; 0; 0; 22; 0; 0; 0; 0; 64; 1; 0; 0] ++ [10; 0; 6; 2] ++ [10; 0; 6; 3] ++ [8; 0]) [].
Definition ex_dns : gslice :=
  Slice 951 ([0x45; 0; 0; 30; 0; 0; 0; 0; 64; 17; 0; 0] ++ [10; 0; 6; 2] ++ [10; 0; 6; 1] ++
    [200; 33; 0; 53; 0; 10; 0; 0] ++ [1; 2]) [].
Definition ex_worker : worker := mkWorker zeroPacket (Slice 960 [] (replicate 64 0)).

Lemma tun_to_tun_witness :
  ∃ wire w' tA' tB' tB'' rest,
    packetSend_one (λ _, true) false false 5 ex_ip ex_worker ex_tA = Next ([(wire, serverAddr ex_tA)], w', tA') ∧
    (∀ g, (writeUdpPacket_step (transfer_step false (listenUdp_datagram false (Some ex_addrA) g wire ex_known))).1 =
       [(wire, (V4 (5, 6, 7, 8), 5000))]) ∧
    packetRecv_datagram (λ _, true) false 6 (serverAddr ex_tB) wire ex_tB = Next (mkEffects [] [], tB') ∧
    tunSend_step tB' = Next (Some (sdata ex_ip ++ rest), tB'') ∧ (length rest = 0 ∨ length rest = 16)%nat.
Proof.
  apply (tun_to_tun (λ _, true) false 5 ex_ip ex_worker ex_tA ex_B (ex_session ex_B [1] [2]) (mkCipherState [2] 0)
    ex_known 1 2 (default ex_dst (hub_clients ex_known !! 2%nat)) (Some ex_addrA) (V4 (5, 6, 7, 8), 5000)
    (λ _, true) 6 ex_tB (ex_session P2PFacts.ex_A [2] [1]) (mkCipherState [2] 0));
    [reflexivity|reflexivity|done|done|reflexivity|reflexivity|reflexivity|reflexivity|reflexivity|ev|ev| |
     ev|ev|done|ev|ev|ev|reflexivity..].
  eapply routes_exist_same; [apply HubFrame.same_book_updateAddr|exact ex_two_routes].
Defined.

Lemma first_packet_in_clear_witness :
  ∃ t1 data t2,
    packetSend_one (λ _, true) false false 5 ex_ip ex_worker (ex_base P2PFacts.ex_A) = Next ([], ex_worker, t1) ∧
    controlSend_step true t1 = Next (CtlBinary data, t2) ∧ drop HeaderLength data = sdata ex_ip.
Proof.
  apply (first_packet_in_clear (λ _, true) false 5 ex_ip ex_worker (ex_base P2PFacts.ex_A) ex_B); try reflexivity; done.
Defined.

Definition ex_asked : flow (list datagram * worker * ClientTransport) :=
  packetSend_one (λ _, true) false false 5 ex_dns ex_worker ex_tA.
Definition ex_asked_worker : worker := match ex_asked with Next (_, w, _) => w | _ => ex_worker end.
Definition ex_asked_state : ClientTransport := match ex_asked with Next (_, _, t) => t | _ => ex_tA end.

Lemma dns_buffer_shared_witness : ¬ owned [dnsBuffer ex_asked_worker] (ct_pool ex_asked_state).
Proof.
  refine (proj2 (dns_buffer_shared (λ _, true) false 5 ex_dns ex_worker ex_tA
    (match ex_asked with Next (o, _, _) => o | _ => [] end) ex_asked_worker ex_asked_state _ _ _ _));
    [reflexivity|done|simpl; lia|reflexivity].
Defined.

Lemma backoff_schedule_witness :
  (failures true (Ok TypeCone) (replicate 64 false) 0 (NewTransport [1] 100)).1.1 !! 62%nat = Some 0 ∧ 0 = 0.
Proof.
  split; [vm_compute; reflexivity|].
  exact (backoff_schedule true (Ok TypeCone) (replicate 64 false) (NewTransport [1] 100) 62 0 eq_refl eq_refl).
Defined.

(** One silent and one fresh peer. *)
Definition ex_table : ClientTransport :=
  addP2P 100 ex_B (fresh_addr (V4 (5, 6, 7, 8), 5000)) TypeCone (addP2P 80 (10, 0, 6, 4) (fresh_addr (V4 (9, 9, 9, 9), 9)) TypeCone (ex_base P2PFacts.ex_A)).

Lemma p2p_tick_exact_witness :
  p2pRouter (handleP2P_tick (λ _, true) (λ _, 100) ex_table).2 =
    filter (λ e, IsTimeout 100 10 e.2 = false) (p2pRouter ex_table) ∧
  p2pRouter (handleP2P_tick (λ _, true) (λ _, 100) ex_table).2 !! (10, 0, 6, 4) = None.
Proof.
  destruct (p2p_tick_exact (λ _, true) (λ _, 100) ex_table) as [Hr _]; [simpl; unfold controlSendCap; lia|].
  split; [exact Hr|]. rewrite Hr. reflexivity.
Defined.
