(* ===== verification/Link.v ===== *)
(** The link between two clients with a finished Noise session: a batch leaves
    the sender packet by packet, under consecutive nonces; whatever the network
    makes of the order and number of the datagrams, the receiver delivers
    exactly what arrives, in the order of arrival. *)

From stdpp Require Import base numbers list gmap option tactics.
From S2P Require Import Prelude Cipher Packet PacketFacts Stun Util Noise NoiseFacts Hub HubWs HubUdp P2PFacts RelayFacts.
From S2P Require Import Client ClientUdp ClientFacts.

Local Open Scope Z_scope.

Section link.
Context `{AEADLaws, LZ4Laws, Noise}.

(** [wire] carries the packet [p], sealed under [key] with the nonce [n]. *)
Definition carries (comp : bool) (src dst : ip4) (key : bytes) (n : Z) (p : gslice) (wire : bytes) : Prop :=
  ∃ pool g0 data g' p' c',
    EncodePacket pool (Reset g0 src dst TypeData p) false comp (Some (mkCipherState key n)) = (Some data, g', p', c') ∧
    wire = sdata data.

(** A packet [packetSend] can carry to [dst]. *)
Definition carriable (dst dns : ip4) (p : gslice) : Prop :=
  to_ip4 (sub (sdata p) 16 20) = dst ∧ isDNS (sdata p) dns = false ∧ slen p <= MaxPayloadSize.

(** A client ready to send to [dst] through [a]: its session's key and next
    nonce. *)
Record ready_to_send (dst : ip4) (a : addrPort) (key : bytes) (n : Z) (t : ClientTransport) : Prop := {
  rs_session : ∃ s, GetSession (noiseMgr t) dst = Some s ∧ IsReady (s_cipher s) = true ∧
    Sender (s_cipher s) = Some (mkCipherState key n);
  rs_hop : nextHop dst t = Some a;
}.

Lemma send_ready wr comp now p w t dst a key n :
  ready_to_send dst a key n t → carriable dst (Dns t) p → lastByte dst ≠ 255 → wr a = true →
  ∃ wire w' t', packetSend_one wr false comp now p w t = Next ([(wire, a)], w', t') ∧
    carries comp (localKey t) dst key n p wire ∧ ready_to_send dst a key (u64 (n + 1)) t' ∧
    localKey t' = localKey t ∧ Dns t' = Dns t.
Proof.
  intros [(s & Hs & Hr & Hcs) Hhop] (Hdst & Hdns & Hsz) Hlast Hwr. unfold packetSend_one. rewrite Hdns, Hdst, Hs, Hr, Hcs.
  rewrite (proj2 (Z.eqb_neq _ _)) by done. cbn [negb].
  destruct (EncodePacket_total (ct_pool t) (Reset (w_gp w) (localKey t) dst TypeData p) false comp (Some (mkCipherState key n)))
    as (data & g' & pl & cs' & He); [exact Hsz|]. rewrite He.
  unfold sendData. change (nextHop dst _) with (nextHop dst t). rewrite Hhop, Hwr.
  eexists _, _, _. split; [done|]. split; [eexists _, _, _, _, _, _; by split|].
  apply EncodePacket_inv in He as (_ & g1 & _ & _ & _ & -> & _).
  split; [split; [|done]|done]. unfold GetSession in *. cbn -[lookup u64]. rewrite lookup_alter_eq, Hs.
  eexists. split; [done|]. split; [exact Hr|done].
Qed.

(** A batch of them. *)
Lemma send_ready_all wr comp now dst a key ps : ∀ w t n,
  ready_to_send dst a key n t → Forall (carriable dst (Dns t)) ps → lastByte dst ≠ 255 → wr a = true →
  ∃ wires w' t', packetSend_all wr false comp now ps w t = Next ((λ x, (x, a)) <$> wires, w', t') ∧
    length wires = length ps ∧
    ∀ i p wire, ps !! i = Some p → wires !! i = Some wire →
      ∃ k, carries comp (localKey t) dst key k p wire ∧ u64 k = u64 (n + Z.of_nat i).
Proof.
  induction ps as [|p ps IH]; intros w t n Ht Hps Hlast Hwr; [exists [], w, t; done|].
  apply Forall_cons_1 in Hps as [Hp Hps].
  destruct (send_ready wr comp now p w t dst a key n Ht Hp Hlast Hwr) as (wire & w1 & t1 & Hs & Hc & Ht1 & Hl & Hd).
  destruct (IH w1 t1 _ Ht1) as (wires & w' & t' & Ha & Hlen & Hall); [by rewrite Hd|done|done|].
  exists (wire :: wires), w', t'. cbn [packetSend_all]. rewrite Hs, Ha. split; [done|]. split; [by simpl; rewrite Hlen|].
  intros [|i] q x Hq Hx; simplify_eq/=.
  - exists n. split; [done|]. f_equal. lia.
  - destruct (Hall i q x Hq Hx) as (k & Hk & Hn). exists k. rewrite <- Hl. split; [done|]. rewrite Hn.
    unfold u64. rewrite Zplus_mod_idemp_l. f_equal. lia.
Qed.

(** A client that opens what comes from [src] under [key]. *)
Definition ready_to_receive (src : ip4) (key : bytes) (t : ClientTransport) : Prop :=
  ∃ s rs, GetSession (noiseMgr t) src = Some s ∧ IsReady (s_cipher s) = true ∧ Recver (s_cipher s) = Some rs ∧ cs_key rs = key.

(** The buffer queued for the TUN device holds the IP packet [p] behind the
    header, and nothing or the 16 bytes of the tag after it. *)
Definition holds_packet (p b : gslice) : Prop :=
  ∃ rest, drop HeaderLength (sdata b) = sdata p ++ rest ∧ (length rest = 0 ∨ length rest = 16)%nat.

Lemma receive_one wr now from comp src dst key n p wire t :
  ready_to_receive src key t → carries comp src dst key n p wire → (length (FromNet t) < fromNetCap)%nat →
  ∃ t' b, packetRecv_datagram wr false now from wire t = Next (mkEffects [] [], t') ∧
    FromNet t' = FromNet t ++ [b] ∧ holds_packet p b ∧ ready_to_receive src key t'.
Proof.
  intros (s & rs & Hs & Hr & Hrs & Hk) (pool & g0 & data & g' & p' & c' & He & ->) Hroom.
  destruct (data_delivered _ (Reset g0 src dst TypeData p) comp (mkCipherState key n) data g' p' c' (ct_pool t) zeroPacket rs eq_refl Hk He)
    as (g1 & q1 & g2 & q2 & Hp1 & Hsrc & _ & Ht1 & _ & Hdec & _ & rest & Hraw & Hrl & Hhl).
  change (gp_src (Reset g0 src dst TypeData p)) with src in Hsrc.
  destruct (packetRecv_ready wr now from (sdata data) t s rs g1 g2 q1 q2) as (t' & Hrecv & HFN & Hses);
    [done|done|by rewrite Hsrc|done|done|done|done|].
  exists t', (RawData g2). split; [done|]. split; [done|]. split.
  - exists rest. split; [by rewrite Hraw, drop_app_length' by done|]. rewrite Hrl. case_bool_decide; auto.
  - exists (session_UpdateLastSeen now s), rs. rewrite <- Hsrc. split; [exact Hses|done].
Qed.

(** The [i]-th of the datagrams comes in. *)
Definition arrives (now : Z) (from : addrPort) (wires : list bytes) (i : nat) : option udpIn :=
  Some (UdpDatagram now from (default [] (wires !! i))).

(** C12: the data plane is a datagram service.  A batch for one peer leaves as one
    datagram per packet, and whichever of them arrive, in whatever order and
    however often, are all opened and delivered, in the order of arrival, up to
    the capacity of the queue to the TUN device.  Loss and reordering never
    break a session; the same fact says that a datagram sent again by an
    attacker is delivered again. *)
Theorem any_arrival_delivered wr comp now ps w tA vipB a key n wr' now' from tB :
  ready_to_send vipB a key n tA → Forall (carriable vipB (Dns tA)) ps → lastByte vipB ≠ 255 → wr a = true →
  ready_to_receive (localKey tA) key tB →
  ∃ wires w' tA',
    packetSend_all wr false comp now ps w tA = Next ((λ x, (x, a)) <$> wires, w', tA') ∧ length wires = length ps ∧
    ∀ arrivals, Forall (λ i, i < length ps)%nat arrivals → (length (FromNet tB) + length arrivals <= fromNetCap)%nat →
    ∃ tB' bufs,
      packetRecv wr' (arrives now' from wires <$> arrivals) tB = Next (mkEffects [] [], None, tB') ∧
      FromNet tB' = FromNet tB ++ bufs ∧
      Forall2 (λ i b, ∃ p, ps !! i = Some p ∧ holds_packet p b) arrivals bufs.
Proof.
  intros Ha Hps Hlast Hwr Hb. destruct (send_ready_all wr comp now vipB a key ps w tA n Ha Hps Hlast Hwr)
    as (wires & w' & tA' & Hs & Hlen & Hall).
  exists wires, w', tA'. split; [done|]. split; [done|]. intros arrivals. revert tB Hb.
  induction arrivals as [|i arr IH]; intros tB Hb Hi Hroom.
  { exists tB, []. rewrite app_nil_r. done. }
  apply Forall_cons_1 in Hi as [Hi Harr]. simpl in Hroom.
  destruct (lookup_lt_is_Some_2 ps i Hi) as [p Hp]. destruct (lookup_lt_is_Some_2 wires i) as [wire Hw]; [lia|].
  destruct (Hall i p wire Hp Hw) as (k & Hc & _).
  destruct (receive_one wr' now' from comp _ _ _ _ _ _ tB Hb Hc) as (t1 & b & Hr & Hfn & Hh & Hb1); [lia|].
  destruct (IH t1 Hb1 Harr) as (tB' & bufs & Hra & Hf & Hall2); [rewrite Hfn, length_app; simpl; lia|].
  exists tB', (b :: bufs). rewrite fmap_cons. unfold arrives at 1. rewrite Hw. simpl. rewrite Hr, Hra. split; [done|]. split.
  - by rewrite Hf, Hfn, <- app_assoc.
  - constructor; [eauto|done].
Qed.
End link.

(** ** Example: three packets; the third arrives first, the first twice, the
    second never. *)

Definition ex_packets : list gslice := [ex_ip; ex_ip; ex_ip].
Definition ex_arrivals : list nat := [2; 0; 0]%nat.

Lemma any_arrival_delivered_witness :
  ∃ (wires : list bytes) tB' bufs,
    packetRecv (λ _, true) (arrives 6 (serverAddr ex_tB) wires <$> ex_arrivals) ex_tB = Next (mkEffects [] [], None, tB') ∧
    FromNet tB' = bufs ∧ length bufs = 3%nat ∧ Forall (holds_packet ex_ip) bufs.
Proof.
  destruct (any_arrival_delivered (λ _, true) false 5 ex_packets ex_worker ex_tA ex_B (serverAddr ex_tA) [2] 0 (λ _, true) 6
    (serverAddr ex_tB) ex_tB) as (wires & w' & tA' & _ & _ & Hall).
  - split; [|reflexivity]. exists (ex_session ex_B [1] [2]). done.
  - repeat constructor; vm_compute; done.
  - done.
  - done.
  - exists (ex_session P2PFacts.ex_A [2] [1]), (mkCipherState [2] 0). done.
  - destruct (Hall ex_arrivals) as (tB' & bufs & Hr & Hf & Hb); [repeat constructor|simpl; unfold fromNetCap; lia|].
    exists wires, tB', bufs. split; [exact Hr|]. split; [exact Hf|].
    split; [by rewrite <- (Forall2_length Hb)|]. clear Hr Hf. remember ex_arrivals as l eqn:El.
    assert (∀ i p, ex_packets !! i = Some p → p = ex_ip) as He by (intros i p Hi; repeat (destruct i as [|i]; [by injection Hi|]); discriminate).
    clear El. induction Hb as [|i b l bufs (p & Hp & Hh) _ IH]; constructor; [|exact IH]. by rewrite <- (He _ _ Hp).
Defined.
