(* ===== verification/ControlPath.v ===== *)
(** The control connection end to end: what one side encodes the other parses,
    and how a client joins the network.

    The client's handshake request reaches the server's reader, the server
    assigns a place and answers, and the client takes its address and name from
    the answer: both sides then agree on all of it. *)

From stdpp Require Import base numbers list gmap option tactics.
From S2P Require Import Prelude Cipher Packet PacketFacts Stun Util Noise NoiseFacts Hub HubWs HubUdp HubFrame Lease HubLoops P2PFacts.
From S2P Require Import Client ClientUdp ClientFacts Tun TunFacts.

Local Open Scope Z_scope.

Section control.
Context `{AEAD, LZ4}.

(** ** Messages *)

(** The bytes [data] are parsed, by either parser and whatever its state, into a
    packet that says [v]. *)
Definition says (data : bytes) (v : ip4 * ip4 * Z * bytes) : Prop :=
  (∀ g0 msg, sdata msg = data → ∃ g3, ParseControl g0 msg = (None, g3) ∧
    gp_src g3 = v.1.1.1 ∧ gp_dst g3 = v.1.1.2 ∧ PType g3 = v.1.2 ∧ sdata (Payload g3) = v.2) ∧
  (∀ p g0, ∃ g2 p2, ParsePacket p g0 data true None = (None, g2, p2) ∧
    gp_src g2 = v.1.1.1 ∧ gp_dst g2 = v.1.1.2 ∧ PType g2 = v.1.2 ∧ sdata (Payload g2) = v.2 ∧ sdata (RawData g2) = data).

Lemma encoded_says p g control data g' p' c' :
  flag_ok (PType g) → EncodePacket p g control false None = (Some data, g', p', c') → says (sdata data) (view g).
Proof.
  intros Hf He. apply EncodePacket_inv in He as (Hs & g1 & -> & _ & -> & _ & Hd).
  assert (∀ q g0 msg, sdata msg = sdata data → _) as Hrt by (intros q g0 msg Hm;
    exact (plain_roundtrip q g g0 true control None (sdata data) (with_length g) None msg Hf (or_intror eq_refl)
      ltac:(by rewrite encode_some, Hd) Hm)).
  split.
  - intros g0 msg Hm. destruct (Hrt p g0 msg Hm) as [_ (g3 & Hp & Hs3 & Hd3 & Ht3 & _ & Hl3)]. by exists g3.
  - intros q g0. destruct (Hrt q g0 data eq_refl) as [(g2 & p2 & Hp & Hs2 & Hd2 & Ht2 & _ & Hl2 & Hr2) _]. by exists g2, p2.
Qed.

(** The server's side: the first packet in a client's queue leaves as a message. *)
Lemma writePump_sends c h client gp rest :
  hub_clients h !! c = Some client → controlChan client = gp :: rest → PType gp ≠ TypePong → flag_ok (PType gp) →
  slen (Payload gp) <= MaxPayloadSize →
  ∃ data h', writePump_step true true c h = Some (Running, [WsBinary data], h') ∧ hub_tm h' = hub_tm h ∧
    hub_clients h' !! c = Some (set_controlChan rest client) ∧ says data (view gp).
Proof.
  intros Hc Hq Ht Hf Hs. unfold writePump_step. rewrite Hc, Hq, (proj2 (Z.eqb_neq _ _)) by done. cbn [negb].
  set (h1 := set_clients _ h). destruct (EncodePacket_total (bufPool h1) gp true false None) as (data & g' & p' & c' & He); [done|].
  rewrite He. eexists _, _. split; [done|]. split; [done|]. split; [apply lookup_insert_eq|by eapply encoded_says].
Qed.

(** The first queued packet, by what it says. *)
Lemma queue_sends h c src dst ty pl :
  queue h c = Some [(src, dst, ty, pl)] → ty ≠ TypePong → flag_ok ty → len pl <= MaxPayloadSize →
  ∃ data h', writePump_step true true c h = Some (Running, [WsBinary data], h') ∧ hub_tm h' = hub_tm h ∧ same_book h h' ∧
    (∀ client, hub_clients h !! c = Some client → ∃ client', hub_clients h' !! c = Some client' ∧ place client' = place client ∧
      natType client' = natType client ∧ noisePublicKey client' = noisePublicKey client) ∧
    says data (src, dst, ty, pl).
Proof.
  intros (client & Hc & Hq)%fmap_Some Ht Hf Hl. symmetry in Hq. apply fmap_cons_inv in Hq as (gp & l & Hv & Hl0 & Hq).
  symmetry in Hl0. apply fmap_nil_inv in Hl0 as ->. rewrite Hv. unfold view in Hv. simplify_eq.
  destruct (writePump_sends c h client gp [] Hc Hq Ht Hf Hl) as (data & h' & Hw & Htm & Hc' & Hp). exists data, h'.
  split; [done|]. split; [done|]. split; [by eapply same_book_writePump|]. split; [|exact Hp].
  intros cl Hcl. simplify_eq. eexists. by split.
Qed.

(** ** The server's side of a handshake *)

(** There is a place for [id]. *)
Definition has_place (id : bytes) (h : Hub) : Prop := freeIps h ≠ [] ∨ is_Some (retentionMap h !! id).

(** The name the server answers with fits a packet. *)
Definition name_fits (id name : bytes) (h : Hub) : Prop :=
  len name + 4 <= MaxPayloadSize ∧
  ∀ oc, retentionMap h !! id = Some oc → len (oc_hostname oc) <= MaxPayloadSize.

Lemma assigned c gp h cl0 :
  let payload := sdata (Payload gp) in
  let cl1 := set_identity (default 0 (payload !! 0%nat)) (sub payload 1 33) (sub payload 33 49) cl0 in
  hub_clients h !! c = Some cl0 → has_place (sub payload 33 49) h → name_fits (sub payload 33 49) (drop 49 payload) h → (size (dnsMap h) < 998)%nat →
  ∃ v host, hub_clients (assignPlace c (drop 49 payload) (dnsMap h) (setIdentity c payload h)) !! c =
    Some (set_place (Some v) host cl1) ∧ len host <= MaxPayloadSize.
Proof.
  intros payload cl1 Hc Hpl (Hn & Hr) Hsz. unfold assignPlace. rewrite lookup_setIdentity, decide_True, Hc by done. simpl.
  fold payload. destruct (retentionMap h !! sub payload 33 49) as [oc|] eqn:Er.
  - exists (oc_virtualIp oc), (oc_hostname oc). split; [apply lookup_insert_eq|by apply Hr].
  - destruct Hpl as [Hf|[? ?]]; [|congruence].
    destruct (getIp_spec (setIdentity c payload h)) as [[Hf' _]|(l & x & _ & ->)]; [done|].
    destruct (UniqueHostName (drop 49 payload) (dnsMap h)) as [host|] eqn:Eu.
    + exists (vip_of x), host. split; [apply lookup_insert_eq|]. apply UniqueHostName_length in Eu; [|done]. unfold len in *. lia.
    + exists (vip_of x), []. split; [apply lookup_insert_eq|done].
Qed.

Lemma handshake_answers c gp h cl0 :
  let payload := sdata (Payload gp) in
  hub_clients h !! c = Some cl0 → controlChan cl0 = [] → 49 <= len payload →
  has_place (sub payload 33 49) h → name_fits (sub payload 33 49) (drop 49 payload) h → (size (dnsMap h) < 998)%nat →
  let r := handleHandshake false c gp h in
  r.1 = None ∧ ∃ v host client, hub_clients r.2 !! c = Some client ∧ len host <= MaxPayloadSize ∧
    place client = (Some v, host, sub payload 33 49) ∧ natType client = default 0 (payload !! 0%nat) ∧
    noisePublicKey client = sub payload 1 33 ∧ view <$> controlChan client = [(ip4_zero, v, TypeHandshake, host)] ∧
    clientMap r.2 !! v = Some c ∧ dnsMap r.2 !! host = Some v.
Proof.
  intros payload Hc Hq Hl Hpl Hn Hsz. destruct (assigned c gp h cl0 Hc Hpl Hn Hsz) as (v & host & Ha & Hh).
  unfold handleHandshake. fold payload in Ha |- *. rewrite (proj2 (Z.ltb_ge _ _)) by done. cbv zeta.
  set (h2 := assignPlace _ _ _ _) in *. clearbody h2. rewrite Ha. cbn [virtualIp set_place hostname].
  unfold addClient. rewrite Ha. unfold handshakeReply, hub_alloc, alloc, selectSend, sendControl.
  cbn [hub_clients set_pool set_router set_dns addDns vipKey virtualIp set_place]. rewrite Ha.
  cbn [controlChan set_place set_identity]. rewrite Hq. simpl. split; [done|].
  exists v, host. eexists. split; [apply lookup_insert_eq|]. split_and!; try done; apply lookup_insert_eq.
Qed.
End control.

Section join.
Context `{DnsLib, AEAD, LZ4, Noise}.

(** ** The client's side *)

(** The request does not depend on the answer, and says what the client is. *)
Lemma handshake_request id name reply t :
  49 + len name <= MaxPayloadSize → length (GetPublicKey (noiseMgr t)) = 32%nat → length id = 16%nat →
  let r := handshake id name reply t in
  r.1.1 = (handshake id name None t).1.1 ∧ says r.1.1 (ip4_zero, ip4_zero, TypeHandshake, handshakePayload id name t).
Proof.
  intros Hl Hk Hi. unfold handshake, alloc. set (pl := Slice _ _ _).
  destruct (EncodePacket_total (Pool (pfree (ct_pool t)) (S (pfresh (ct_pool t))) (pnew (ct_pool t)))
    (NewGamePacket ip4_zero ip4_zero TypeHandshake pl) true false None) as (data & g' & p' & c' & He).
  { unfold slen, len in *. simpl. rewrite !length_app. lia. }
  rewrite He. assert (says (sdata data) (ip4_zero, ip4_zero, TypeHandshake, handshakePayload id name t)) as Hs
    by (change (ip4_zero, ip4_zero, TypeHandshake, handshakePayload id name t)
          with (view (NewGamePacket ip4_zero ip4_zero TypeHandshake pl)); eapply encoded_says; [by left|exact He]).
  destruct reply as [content|]; [|done]. by destruct (ParsePacket _ _ content true None) as [[[e|] g2] p2].
Qed.

(** An answer gives the client its address and its name. *)
Lemma handshake_takes id name reply t v host :
  says reply (ip4_zero, v, TypeHandshake, host) →
  ∃ w gp t', handshake id name (Some reply) t = (w, Ok gp, t') ∧ sdata (Payload gp) = host ∧
    localIp (syncVirtualIp gp t') = Some v.
Proof.
  intros [_ Hp]. unfold handshake, alloc. destruct (EncodePacket _ _ _ _ _) as [[[d g'] p'] c'].
  destruct (Hp (Put (reslice 0 (default nil_slice d)) p') g') as (g2 & p2 & -> & _ & Hd & _ & Hpl & _).
  eexists _, g2, _. split; [done|]. split; [exact Hpl|]. unfold syncVirtualIp, Destination. rewrite Hd. simpl.
  case_bool_decide; done.
Qed.

(** The fields of the request, as the server takes them apart. *)
Lemma request_fields id name t :
  length (GetPublicKey (noiseMgr t)) = 32%nat → length id = 16%nat →
  let payload := handshakePayload id name t in
  default 0 (payload !! 0%nat) = ct_natType t ∧ sub payload 1 33 = GetPublicKey (noiseMgr t) ∧ sub payload 33 49 = id ∧
  drop 49 payload = name ∧ 49 <= len payload.
Proof.
  intros Hk Hi. unfold handshakePayload. set (k := GetPublicKey _) in *. clearbody k.
  assert (drop 32 (k ++ id ++ name) = id ++ name) as Hd1 by (by rewrite drop_app_length').
  assert (drop 48 (k ++ id ++ name) = name) as Hd2
    by (change 48%nat with (32 + 16)%nat; by rewrite <- drop_drop, Hd1, drop_app_length').
  change (sub ([ct_natType t] ++ k ++ id ++ name) 1 33) with (take 32 (k ++ id ++ name)).
  change (sub ([ct_natType t] ++ k ++ id ++ name) 33 49) with (take 16 (drop 32 (k ++ id ++ name))).
  change (drop 49 ([ct_natType t] ++ k ++ id ++ name)) with (drop 48 (k ++ id ++ name)).
  rewrite Hd1, Hd2, !take_app_length' by done. split_and!; try done. unfold len. rewrite !length_app. simpl. lia.
Qed.

(** C5: joining the network.  The request a client writes when it connects, read by
    the server on a new connection, is answered when there is an address left
    or a place kept for the client; the client takes its address from the
    answer, and then both sides agree: the server routes that address to this
    connection, resolves the name in the answer to it, and knows the client's
    identity, NAT type and public key as the client has them. *)
Theorem join_network tr h c cl0 g msg id name t :
  (* the server *)
  orderly_run NewHub tr h → hub_clients h !! c = Some cl0 → controlChan cl0 = [] →
  has_place id h → name_fits id name h →
  (* the client *)
  length (GetPublicKey (noiseMgr t)) = 32%nat → length id = 16%nat → 49 + len name <= MaxPayloadSize →
  sdata msg = (handshake id name None t).1.1 →
  ∃ g1 h1 reply h2 gp t' v client,
    readPump_message false c g msg h = (Running, g1, h1) ∧
    writePump_step true true c h1 = Some (Running, [WsBinary reply], h2) ∧
    handshake id name (Some reply) t = (sdata msg, Ok gp, t') ∧ localIp (syncVirtualIp gp t') = Some v ∧
    clientMap h2 !! v = Some c ∧ dnsMap h2 !! sdata (Payload gp) = Some v ∧
    hub_clients h2 !! c = Some client ∧ place client = (Some v, sdata (Payload gp), id) ∧
    natType client = ct_natType t ∧ noisePublicKey client = GetPublicKey (noiseMgr t).
Proof.
  intros Hrun Hc Hq Hpl Hn Hk Hi Hl Hm. destruct (orderly_run_simulated _ _ _ _ Hrun book_init) as (L & _ & B).
  destruct (handshake_request id name None t Hl Hk Hi) as [_ [Hparse _]].
  destruct (Hparse g msg Hm) as (g3 & Hp & _ & _ & Hty & Hpay). cbn [fst snd] in Hty, Hpay.
  destruct (request_fields id name t Hk Hi) as (Fn & Fk & Fi & Fd & Fl).
  destruct (handshake_answers c g3 h cl0) as [He (v & host & client & Hcl & Hh & Hplace & Hnat & Hkey & Hqueue & Hm2 & Hd2)];
    [done|done|by rewrite Hpay|by rewrite Hpay, Fi|by rewrite Hpay, Fi, Fd|pose proof (book_names _ _ B); lia|].
  rewrite Hpay in *. rewrite Fn in Hnat. rewrite Fk in Hkey. rewrite Fi in Hplace.
  assert (readPump_message false c g msg h = (Running, g3, (handleHandshake false c g3 h).2)) as Hread.
  { unfold readPump_message. rewrite Hp, Hc, Hty. simpl. rewrite (dispatch_handshake h L false c g3 B Hty).
    destruct (handleHandshake false c g3 h) as [err h1]. simpl in He. by subst err. }
  set (h1 := (handleHandshake false c g3 h).2) in *. clearbody h1.
  assert (queue h1 c = Some [(ip4_zero, v, TypeHandshake, host)]) as Hq1 by (unfold queue; rewrite Hcl; by simpl; rewrite Hqueue).
  destruct (queue_sends _ _ _ _ _ _ Hq1) as (reply & h2 & Hw & _ & Hsb & Hkeep & Hsays); [done|by left|done|].
  destruct (handshake_takes id name reply t v host Hsays) as (w & gp & t' & Hsh & Hhost & Hip).
  assert (w = sdata msg) as ->
    by (rewrite Hm, <- (proj1 (handshake_request id name (Some reply) t Hl Hk Hi)), Hsh; done).
  pose proof Hsb as (_ & _ & Hdns & Hmap & _). destruct (Hkeep client Hcl) as (client' & Hcl' & Hpl' & Hn' & Hk').
  exists g3, h1, reply, h2, gp, t', v, client'. rewrite Hhost, Hmap, Hdns. split_and!; try done; congruence.
Qed.
End join.

(** ** Example: the first client of a new server. *)

Definition ex_new_hub : Hub := newClient 1 None None NewHub.
Definition ex_joining : ClientTransport := NewTransport (replicate 31 1) 100.
Definition ex_request : bytes := (handshake (ex_id 7) [104] None ex_joining).1.1.

Lemma join_network_witness :
  ∃ g1 h1 reply h2 gp t' v,
    readPump_message false 1 zeroPacket (Slice 5 ex_request []) ex_new_hub = (Running, g1, h1) ∧
    writePump_step true true 1 h1 = Some (Running, [WsBinary reply], h2) ∧
    handshake (ex_id 7) [104] (Some reply) ex_joining = (ex_request, Ok gp, t') ∧
    localIp (syncVirtualIp gp t') = Some v ∧ clientMap h2 !! v = Some 1%nat ∧ dnsMap h2 !! sdata (Payload gp) = Some v.
Proof.
  destruct (join_network [Tau] ex_new_hub 1 (default (mkClient 0 [] None None [] [] []) (hub_clients ex_new_hub !! 1%nat)) zeroPacket
    (Slice 5 ex_request []) (ex_id 7) [104] ex_joining)
    as (g1 & h1 & reply & h2 & gp & t' & v & client & Hr & Hw & Hh & Hv & Hm & Hd & _).
  - apply orderly_run_one. by apply step_connect.
  - reflexivity.
  - reflexivity.
  - left. vm_compute. discriminate.
  - split; [vm_compute; discriminate|]. intros oc Ho. vm_compute in Ho. discriminate.
  - reflexivity.
  - reflexivity.
  - vm_compute. discriminate.
  - reflexivity.
  - exists g1, h1, reply, h2, gp, t', v. split; [exact Hr|]. split; [exact Hw|]. split; [exact Hh|].
    split; [exact Hv|]. split; [exact Hm|]. exact Hd.
Defined.
