(* ===== verification/P2PPath.v ===== *)
(** The direct path between two clients behind cone NATs, from the server's
    decision to the first packet that no longer passes through the server.

    The scheduler tells each side the endpoint of the other; the command
    crosses the control connection; the client's timer pings the endpoint; the
    peer answers; the answer makes the endpoint the next hop and is reported,
    and the server marks the tunnel connected.  Then what can go wrong on that
    path: endpoints that share the read buffer, and datagrams that carry no
    proof of their sender. *)

From stdpp Require Import base numbers list gmap option tactics.
From S2P Require Import Prelude Cipher Packet PacketFacts Stun Util Noise NoiseFacts Hub HubWs HubUdp HubFrame Lease P2PFacts.
From S2P Require Import Client ClientUdp ClientFacts ControlPath Link.

Local Open Scope Z_scope.

Section path.
Context `{AEAD, LZ4, Noise}.

(** A packet encoded into a buffer of the caller. *)
Lemma control_says g :
  flag_ok (PType g) → slen (Payload g) <= MaxPayloadSize → says (encodeControl g) (view g).
Proof.
  intros Hf Hs. unfold encodeControl, EncodePacketWithBuffer. destruct (encode g [] true None) as [[out g1] c1] eqn:He.
  rewrite encode_some in He by done. assert (encode g [] true None = (Some (default [] out), g1, c1)) as He'
    by (rewrite encode_some by done; by simplify_eq).
  pose proof (λ p g0 d, plain_roundtrip p g g0 true true None _ _ _ d Hf (or_introl eq_refl) He') as Hrt. split.
  - intros g0 msg Hm. destruct (Hrt (Pool [] 1 0) g0 msg Hm) as [_ (g3 & Hp & Hs3 & Hd3 & Ht3 & _ & Hl3)]. by exists g3.
  - intros p g0. destruct (Hrt p g0 (Slice 0 (default [] out) []) eq_refl) as [(g2 & p2 & Hp & Hs2 & Hd2 & Ht2 & _ & Hl2 & Hr2) _].
    by exists g2, p2.
Qed.

(** A packet without payload, as the clients send pings and pongs. *)
Lemma bare_parsed src dst ty p g0 :
  bitclear ty FlagCompress = ty → flag_ok ty →
  ∃ g2 p2, ParsePacket p g0 (encodeControl (NewGamePacket src dst ty nil_slice)) true None = (None, g2, p2) ∧
    gp_src g2 = src ∧ gp_dst g2 = dst ∧ PType g2 = ty.
Proof.
  intros Hb Hf. set (g := NewGamePacket src dst ty nil_slice). assert (PType g = ty) as Ety by exact Hb.
  destruct (control_says g) as [_ Hrt]; [by rewrite Ety|done|].
  destruct (Hrt p g0) as (g2 & p2 & Hp & Hs & Hd & Ht & _). exists g2, p2. by rewrite <- Ety.
Qed.

(** The payload of a control message is a part of the buffer it is read into. *)
Lemma payload_in_buffer g msg g3 : ParseControl g msg = (None, g3) → sid (Payload g3) = sid msg.
Proof. unfold ParseControl. intros. repeat case_match; by simplify_eq. Qed.

(** The client's side of a command. *)
Lemma command_enters wr now g msg t g3 peer a nat_type :
  ParseControl g msg = (None, g3) → gp_src g3 = peer → PType g3 = TypeP2PCommand → sdata (Payload g3) = endpoint a nat_type →
  0 <= a.2 < 65536 →
  controlRecv_message wr now g msg t =
    (g3, [], addP2P now peer (mkUDPAddr (v4 a) (Some (sid msg))) nat_type (overwritePeers msg t)).
Proof.
  intros Hp Hs Ht Hpl Ha. pose proof (payload_in_buffer _ _ _ Hp) as Hid. unfold controlRecv_message. rewrite Hp, Ht.
  destruct a as [ip port]. simpl in Ha.
  destruct (endpoint_roundtrip ip port nat_type Ha) as (_ & _ & buf & Hb & Hl & Hr & H6). unfold UDPAddrPortToBytes in Hb.
  assert (sdata (Payload g3) = buf) as Hbuf by (rewrite Hpl; injection Hb as <-; done).
  change (TypeP2PCommand =? TypeNoiseResponse) with false. change (TypeP2PCommand =? TypeP2PCheck) with false.
  change (TypeP2PCommand =? TypeP2PCommand) with true. cbn beta iota. unfold slen. rewrite Hbuf.
  rewrite (proj2 (Z.ltb_ge _ _)) by (unfold len; lia). rewrite Hr, H6 by (simpl; rewrite Hbuf, take_app_le by lia; done). simpl. unfold SourceVirtualIp. by rewrite Hs, Hid.
Qed.

(** ** Ping and pong *)

Definition pingBytes (self : ip4) : bytes := encodeControl (NewGamePacket self ip4_zero TypePing nil_slice).
Definition pongBytes (self : ip4) : bytes := encodeControl (NewGamePacket self ip4_zero TypePong nil_slice).

(** The timer pings an endpoint that is not established yet, and keeps it. *)
Lemma tick_pings wr now t vip s a :
  (length (ControlSendChan t) <= controlSendCap)%nat → p2pRouter t !! vip = Some s →
  IsTimeout (now vip) 10 s = false → Established s = false → DstNatType s = TypeCone → ua_addr <$> GetDstAddr s = Some a → wr a = true →
  (pingBytes (localKey t), a) ∈ (handleP2P_tick wr now t).1 ∧ p2pRouter (handleP2P_tick wr now t).2 !! vip = Some s.
Proof.
  intros Hl Hs Hto He Hn Ha Hw. unfold handleP2P_tick. fold (pingBytes (localKey t)).
  destruct (handleP2P_fold wr now (pingBytes (localKey t)) (map_to_list (p2pRouter t)) [] t (ControlSendChan t)) as (-> & _ & Hr);
    [by rewrite take_ge|]. split.
  - simpl. apply list_elem_of_bind. exists (vip, s). split; [|by apply elem_of_map_to_list].
    unfold entry_datagrams, punch. simpl. rewrite Hto, He, Ha, Hn. simpl. rewrite Hw. by left.
  - rewrite Hr, decide_False; [done|]. intros ([v s'] & -> & [Ht Hin]%list_elem_of_filter)%list_elem_of_fmap.
    apply elem_of_map_to_list in Hin. simpl in *. congruence.
Qed.

(** A ping is answered to where it came from, whoever sent it. *)
Lemma ping_answered wr now from self t :
  wr from = true → ∃ t', packetRecv_datagram wr false now from (pingBytes self) t = Next (mkEffects [(pongBytes (localKey t), from)] [], t') ∧
    p2pRouter t' = alter (SetDstAddr (fresh_addr from)) self (p2pRouter t).
Proof.
  intros Hw. unfold packetRecv_datagram. set (t0 := set_counts _ _ _ _ t).
  destruct (bare_parsed self ip4_zero TypePing (ct_pool t0) zeroPacket) as (g2 & p2 & Hp & Hs & _ & Ht); [done|by left|].
  unfold pingBytes at 1. rewrite Hp, Ht. unfold SourceVirtualIp. rewrite Hs.
  change (bitclear TypePing FlagCompress =? TypeData) with false. change (bitclear TypePing FlagCompress =? TypePing) with true.
  cbn beta iota. fold (pongBytes (localKey t)). simpl. rewrite Hw. eexists. split; [done|]. done.
Qed.

(** A pong makes where it came from the peer's endpoint, and the path direct. *)
Lemma pong_establishes wr now from peer s t :
  p2pRouter t !! peer = Some s →
  ∃ t', packetRecv_datagram wr false now from (pongBytes peer) t = Next (mkEffects [] [], t') ∧
    p2pRouter t' = alter (λ s, UpdateLastSeen now true (SetDstAddr (fresh_addr from) s)) peer (p2pRouter t) ∧
    nextHop peer t' = Some from ∧ noiseMgr t' = noiseMgr t ∧ localKey t' = localKey t ∧ Dns t' = Dns t ∧
    ((length (ControlSendChan t) < controlSendCap)%nat →
      ControlSendChan t' = ControlSendChan t ++ [NewGamePacket (localKey t) peer TypeP2PEstablished nil_slice]).
Proof.
  intros Hpeer. unfold packetRecv_datagram. set (t0 := set_counts _ _ _ _ t).
  destruct (bare_parsed peer ip4_zero TypePong (ct_pool t0) zeroPacket) as (g2 & p2 & Hp & Hs & _ & Ht); [done|by left|].
  unfold pongBytes at 1. rewrite Hp, Ht. unfold SourceVirtualIp. rewrite Hs.
  change (bitclear TypePong FlagCompress =? TypeData) with false. change (bitclear TypePong FlagCompress =? TypePing) with false.
  change (bitclear TypePong FlagCompress =? TypePong) with true. cbn beta iota.
  change (p2pRouter (set_ct_pool p2 t0)) with (p2pRouter t). rewrite Hpeer. eexists. split; [done|].
  set (t1 := putRaw _ _). assert (p2pRouter t1 = alter (λ s, UpdateLastSeen now true (SetDstAddr (fresh_addr from) s)) peer (p2pRouter t)) as Hr by done.
  unfold tryControl, nextHop. change (ControlSendChan t1) with (ControlSendChan t).
  case_bool_decide as Hl; simpl; rewrite lookup_alter_eq, Hpeer; simpl; split_and!; try done.
Qed.

(** ** The server's task *)

(** The tunnel between two addresses is being set up, or not known yet. *)
Definition opening (A B : ip4) (h : Hub) : Prop :=
  match Exist (hub_tm h) A B with None => True | Some t => GetStatus t = TunnelInit end.

Lemma task_commands h task rest s d sc dc a b :
  p2pTaskChan h = task :: rest → clientMap h !! SrcVip task = Some s → clientMap h !! DstVip task = Some d → s ≠ d →
  hub_clients h !! s = Some sc → hub_clients h !! d = Some dc → natType sc = TypeCone → natType dc = TypeCone →
  dataAddr sc = Some (v4 a) → dataAddr dc = Some (v4 b) → controlChan sc = [] → controlChan dc = [] →
  opening (SrcVip task) (DstVip task) h →
  ∃ h1, handleP2PTask_step h = Some h1 ∧ opening (SrcVip task) (DstVip task) h1 ∧
    queue h1 s = Some [(DstVip task, SrcVip task, TypeP2PCommand, endpoint b TypeCone)] ∧
    queue h1 d = Some [(SrcVip task, DstVip task, TypeP2PCommand, endpoint a TypeCone)].
Proof.
  intros Ht Hs Hd Hne Hsc Hdc Ns Nd As Ad Qs Qd Ho. unfold handleP2PTask_step. rewrite Ht. cbn zeta.
  set (h0 := match Exist _ _ _ with Some _ => _ | None => _ end).
  assert (clientMap h0 = clientMap h ∧ hub_clients h0 = hub_clients h ∧ opening (SrcVip task) (DstVip task) h0) as (Hm & Hc & Ho0).
  { subst h0. unfold opening, Exist in *. cbn [hub_tm set_tasks]. destruct (hub_tm h !! _) as [t|] eqn:E; simpl.
    - rewrite lookup_updateTunnel, decide_True, E by done. done.
    - rewrite lookup_addTunnel, decide_True, E by done. done. }
  clearbody h0. rewrite Hm, Hs, Hd, Hc, Hsc, Hdc.
  destruct (p2p_commands_delivered s d sc dc task h0 a b) as (h1 & Hr & Hqs & Hqd);
    [done|by rewrite Hc|by rewrite Hc|done|done|rewrite Qs; simpl; unfold controlCap; lia|rewrite Qd; simpl; unfold controlCap; lia|].
  exists h1. split; [done|]. split; [unfold opening; by rewrite (handleP2PCommand_tm _ _ _ _ _ _ _ Hr)|].
  rewrite Hqs, Hqd, Qs, Qd, Ns, Nd. done.
Qed.

(** The report of the client that got the pong. *)
Lemma report_connects h c client A B gp :
  hub_clients h !! c = Some client → virtualIp client = Some A → gp_dst gp = B → opening A B h →
  GetStatus <$> Exist (hub_tm (handleP2PEstablished c gp h).2) A B = Some TunnelConnected.
Proof.
  intros Hc Hv Hd Ho. unfold handleP2PEstablished, vipKey, Destination. rewrite Hc, Hv, Hd. simpl.
  unfold opening, Exist in *. destruct (hub_tm h !! makeKey A B) as [t|] eqn:E; simpl.
  - rewrite Ho, Z.eqb_refl. simpl. rewrite lookup_updateTunnel, decide_True, E by done. done.
  - rewrite lookup_addTunnel, decide_True, E by done. done.
Qed.

(** ** From the task to the direct path *)

Lemma tick_noise wr now t :
  let t' := (handleP2P_tick wr now t).2 in
  noiseMgr t' = noiseMgr t ∧ localKey t' = localKey t ∧ Dns t' = Dns t ∧ serverAddr t' = serverAddr t.
Proof.
  apply (handleP2P_ind (λ t', noiseMgr t' = noiseMgr t ∧ localKey t' = localKey t ∧ Dns t' = Dns t ∧ serverAddr t' = serverAddr t));
    [done|]. intros v t1 Ht1. unfold removeP2P, tryControl. by case_bool_decide.
Qed.

(** C11: the direct path.  Two online clients behind cone NATs, for whom the server
    has scheduled a P2P task: the server queues a command for the first; the
    message it becomes makes the first client ping the endpoint of the second;
    the second answers the ping; and the answer makes that endpoint the next hop
    of the first, so that a client ready to send to the peer through the server
    is from then on ready to send under the same key and nonce straight to it.
    The report this queues makes the server mark the tunnel connected. *)
Theorem direct_path h task rest s d sc dc a b wr wr' now1 now2 now2' now3 tA tB :
  (* the server *)
  p2pTaskChan h = task :: rest → clientMap h !! SrcVip task = Some s → clientMap h !! DstVip task = Some d → s ≠ d →
  hub_clients h !! s = Some sc → hub_clients h !! d = Some dc → virtualIp sc = Some (SrcVip task) →
  natType sc = TypeCone → natType dc = TypeCone → dataAddr sc = Some (v4 a) → dataAddr dc = Some (v4 b) →
  controlChan sc = [] → controlChan dc = [] → opening (SrcVip task) (DstVip task) h → 0 <= b.2 < 65536 →
  (* the clients *)
  localKey tA = SrcVip task → localKey tB = DstVip task → (length (ControlSendChan tA) <= controlSendCap)%nat →
  wr (v4 b) = true → wr' (v4 a) = true → now2 (DstVip task) - now1 <= 10 →
  ∃ h1 cmd h2,
    handleP2PTask_step h = Some h1 ∧ writePump_step true true s h1 = Some (Running, [WsBinary cmd], h2) ∧
    ∀ g msg, sdata msg = cmd → ∃ g' tA1 tB' tA3,
      controlRecv_message wr now1 g msg tA = (g', [], tA1) ∧
      (pingBytes (SrcVip task), v4 b) ∈ (handleP2P_tick wr now2 tA1).1 ∧
      packetRecv_datagram wr' false now2' (v4 a) (pingBytes (SrcVip task)) tB =
        Next (mkEffects [(pongBytes (DstVip task), v4 a)] [], tB') ∧
      packetRecv_datagram wr false now3 (v4 b) (pongBytes (DstVip task)) (handleP2P_tick wr now2 tA1).2 =
        Next (mkEffects [] [], tA3) ∧
      (∀ via key n, ready_to_send (DstVip task) via key n tA → ready_to_send (DstVip task) (v4 b) key n tA3) ∧
      ((length (ControlSendChan (handleP2P_tick wr now2 tA1).2) < controlSendCap)%nat →
        ∃ q, ControlSendChan tA3 = q ++ [NewGamePacket (SrcVip task) (DstVip task) TypeP2PEstablished nil_slice]) ∧
      ∀ gp, gp_dst gp = DstVip task →
        GetStatus <$> Exist (hub_tm (handleP2PEstablished s gp h2).2) (SrcVip task) (DstVip task) = Some TunnelConnected.
Proof.
  intros Ht Hs Hd Hne Hsc Hdc Hv Ns Nd As Ad Qs Qd Ho Hb HA HB Hl Hw Hw' Hnow.
  destruct (task_commands h task rest s d sc dc a b) as (h1 & Hr & Ho1 & Hq & _); [done..|].
  destruct (queue_sends _ _ _ _ _ _ Hq) as (cmd & h2 & Hw2 & Htm & Hbk & _ & Hparse & _); [done|by left|by destruct b as [[[[] ?] ?] ?]|].
  exists h1, cmd, h2. split; [done|]. split; [done|]. intros g msg Hm.
  destruct (Hparse g msg Hm) as (g3 & Hp & Hsrc & _ & Hty & Hpl). cbn [fst snd] in *.
  pose proof (command_enters wr now1 g msg tA g3 _ b TypeCone Hp Hsrc Hty Hpl Hb) as Hcr.
  set (ub := mkUDPAddr (v4 b) (Some (sid msg))) in *. set (tA1 := addP2P now1 (DstVip task) ub TypeCone (overwritePeers msg tA)) in *.
  assert (p2pRouter tA1 !! DstVip task = Some (mkP2PStatus TypeCone (Some ub) now1 false)) as Hent by apply lookup_insert_eq.
  destruct (tick_pings wr now2 tA1 (DstVip task) _ (v4 b) Hl Hent) as [Hping Hkeep];
    [apply Z.ltb_ge; simpl; lia|done|done|done|done|]. change (localKey tA1) with (localKey tA) in Hping. rewrite HA in Hping.
  destruct (ping_answered wr' now2' (v4 a) (SrcVip task) tB Hw') as (tB' & Hans & _). rewrite HB in Hans.
  destruct (pong_establishes wr now3 (v4 b) (DstVip task) _ (handleP2P_tick wr now2 tA1).2 Hkeep) as (tA3 & Hpong & _ & Hhop & Hnm & _ & _ & Hrep).
  exists g3, tA1, tB', tA3. destruct (tick_noise wr now2 tA1) as (Htn & Htk & _).
  change (localKey tA1) with (localKey tA) in Htk. rewrite Htk, HA in Hrep. split_and!; [done|done|done|done| | |].
  - intros via key n [Hses _]. split; [|done]. rewrite Hnm, Htn. exact Hses.
  - intros Hroom. eexists. exact (Hrep Hroom).
  - intros gp Hgp. assert (same_book h h2) as Hsb by (etrans; [by eapply same_book_task|done]).
    destruct (same_book_lookup _ _ _ _ Hsb Hsc) as (sc2 & Hsc2 & Hpl2).
    eapply report_connects; [done|unfold place in Hpl2; congruence|done|]. unfold opening. rewrite Htm. exact Ho1.
Qed.

(** ** Addresses that share the read buffer *)

(** The endpoint the table holds for a peer. *)
Definition peerAddr (vip : ip4) (t : ClientTransport) : option addrPort :=
  ua_addr <$> (p2pRouter t !! vip ≫= GetDstAddr).

Lemma peerAddr_added now vip addr n t : peerAddr vip (addP2P now vip addr n t) = Some (ua_addr addr).
Proof. unfold peerAddr, addP2P. simpl. by rewrite lookup_insert_eq. Qed.

(** The next command read into the same array. *)
Lemma overwritten g msg g3 a1 a2 n2 i :
  ParseControl g msg = (None, g3) → sdata (Payload g3) = endpoint a2 n2 → i = sid msg →
  overwriteAddr msg (mkUDPAddr (v4 a1) (Some i)) = mkUDPAddr (v4 (a2.1, a1.2)) (Some i).
Proof.
  intros Hp Hpl ->. unfold overwriteAddr, v4. cbn [ua_addr ua_array]. rewrite bool_decide_true by done. cbv zeta.
  assert (sub (sdata msg) HeaderLength (HeaderLength + 4) = ip4_bytes a2.1) as ->; [|by destruct a2 as [[[[??]?]?]?]].
  assert (drop HeaderLength (sdata msg) = endpoint a2 n2) as Hd.
  { rewrite <- Hpl. unfold ParseControl in Hp. repeat case_match; by simplify_eq. }
  unfold sub. rewrite Hd. by destruct a2 as [[[[??]?]?]?].
Qed.

(** C37: the endpoint a command brings is not copied out of the buffer of the
    control connection's reader.  A command for a second peer, read into the same
    array, changes the endpoint held for the first: it becomes the IP of the
    second peer with the port of the first, and the timer pings that endpoint,
    where nobody listens. *)
Theorem next_command_diverts wr now1 now2 g msg1 msg2 t p1 p2 me a1 a2 n1 n2 :
  says (sdata msg1) (p1, me, TypeP2PCommand, endpoint a1 n1) → says (sdata msg2) (p2, me, TypeP2PCommand, endpoint a2 n2) →
  sid msg2 = sid msg1 → p1 ≠ p2 → 0 <= a1.2 < 65536 → 0 <= a2.2 < 65536 →
  ∃ g1 t1 g2 t2,
    controlRecv_message wr now1 g msg1 t = (g1, [], t1) ∧ peerAddr p1 t1 = Some (v4 a1) ∧
    controlRecv_message wr now2 g1 msg2 t1 = (g2, [], t2) ∧ peerAddr p2 t2 = Some (v4 a2) ∧
    peerAddr p1 t2 = Some (v4 (a2.1, a1.2)) ∧
    ∀ wr' now3, n1 = TypeCone → now3 p1 - now1 <= 10 → wr' (v4 (a2.1, a1.2)) = true →
      (length (ControlSendChan t) <= controlSendCap)%nat →
      (pingBytes (localKey t), v4 (a2.1, a1.2)) ∈ (handleP2P_tick wr' now3 t2).1.
Proof.
  intros [H1' _] [H2' _] Hid Hne Ha1 Ha2.
  destruct (H1' g msg1 eq_refl) as (g1 & Hp1 & Hs1 & _ & Ht1 & Hpl1). destruct (H2' g1 msg2 eq_refl) as (g2 & Hp2 & Hs2 & _ & Ht2 & Hpl2).
  cbn [fst snd] in *.
  pose proof (command_enters wr now1 g msg1 t g1 _ a1 n1 Hp1 Hs1 Ht1 Hpl1 Ha1) as Hr1. set (t1 := addP2P _ _ _ _ _) in Hr1.
  pose proof (command_enters wr now2 g1 msg2 t1 g2 _ a2 n2 Hp2 Hs2 Ht2 Hpl2 Ha2) as Hr2. set (t2 := addP2P _ _ _ _ _) in Hr2.
  assert (p2pRouter t2 !! p1 = Some (mkP2PStatus n1 (Some (mkUDPAddr (v4 (a2.1, a1.2)) (Some (sid msg1)))) now1 false)) as Hent.
  { unfold t2, addP2P, overwritePeers. simpl. rewrite lookup_insert_ne, lookup_fmap by done. unfold t1, addP2P. simpl.
    rewrite lookup_insert_eq. simpl. by erewrite overwritten by done. }
  exists g1, t1, g2, t2. split; [exact Hr1|]. split; [apply peerAddr_added|]. split; [exact Hr2|].
  split; [apply peerAddr_added|]. split; [unfold peerAddr; by rewrite Hent|].
  intros wr' now3 Hn Hnow Hw Hl. eapply (tick_pings wr' now3 t2 p1); [exact Hl|exact Hent|apply Z.ltb_ge; simpl; lia|done..].
Qed.

(** ** Addresses are taken on trust *)

(** C36: pings and pongs carry no proof of their sender.  A datagram from any address
    that names a peer in its header moves the next hop of an established path to
    that address, on the client; and on the server it moves the address to which
    a client's traffic is delivered.  What is then sent there is sealed, but it
    no longer reaches its receiver. *)
Theorem forged_ping_redirects `{DnsLib} wr now x peer s t h c client g :
  wr x = true → p2pRouter t !! peer = Some s → Established s = true →
  clientMap h !! peer = Some c → hub_clients h !! c = Some client →
  (∃ e t', packetRecv_datagram wr false now x (pingBytes peer) t = Next (e, t') ∧ nextHop peer t' = Some x) ∧
  dataAddr <$> hub_clients (listenUdp_datagram false (Some x) g (pingBytes peer) h) !! c = Some (Some x).
Proof.
  intros Hw Hs He Hm Hc. split.
  - destruct (ping_answered wr now x peer t Hw) as (t' & Hr & Hp). eexists _, t'. split; [exact Hr|].
    unfold nextHop. rewrite Hp, lookup_alter_eq, Hs. simpl. by rewrite He.
  - unfold listenUdp_datagram. destruct (bare_parsed peer ip4_zero TypePing (bufPool h) g) as (g2 & p2 & Hp & Hsrc & _ & Ht);
      [done|by left|]. unfold pingBytes. rewrite Hp, Ht. unfold SourceVirtualIp. rewrite Hsrc.
    change (bitclear TypePing FlagCompress =? TypePing) with true. cbn beta iota. cbn [clientMap set_pool]. rewrite Hm.
    unfold cleanUp, updateAddrCheck. cbn [hub_clients set_pool]. rewrite Hc.
    case_bool_decide as Ha; simpl; [by rewrite Hc; simpl; rewrite Ha|by rewrite lookup_insert_eq].
Qed.
(** A data packet without payload, in the clear. *)
Definition emptyData (src dst : ip4) : bytes := encodeControl (NewGamePacket src dst TypeData nil_slice).

Lemma empty_parsed src dst p g0 :
  ∃ g p1, ParsePacket p g0 (emptyData src dst) true None = (None, g, p1) ∧ gp_src g = src ∧ PType g = TypeData ∧ Length g = 0.
Proof.
  unfold emptyData, encodeControl, EncodePacketWithBuffer. set (g := NewGamePacket src dst TypeData nil_slice).
  assert (encode g [] true None = (Some (default [] (encode g [] true None).1.1), with_length g, None)) as He by (by rewrite encode_some).
  destruct (plain_roundtrip p g g0 true true None _ _ _ (Slice 0 (default [] (encode g [] true None).1.1) [])
    (or_introl eq_refl) (or_introl eq_refl) He eq_refl) as [(g2 & p2 & Hp & Hs & _ & Ht & HL & _) _].
  exists g2, p2. done.
Qed.

(** C38: a session is kept alive by anybody.  A bare header with the type of a data
    packet and the address of a peer with a finished session, sent from any
    address, is accepted without a key: the session counts as just used, so that
    the sweeper keeps it, and the empty packet takes a place in the queue to the
    TUN device. *)
Theorem forged_header_refreshes wr now x peer dst s rs t :
  GetSession (noiseMgr t) peer = Some s → IsReady (s_cipher s) = true → Recver (s_cipher s) = Some rs →
  (length (FromNet t) < fromNetCap)%nat →
  ∃ t' raw, packetRecv_datagram wr false now x (emptyData peer dst) t = Next (mkEffects [] [], t') ∧
    FromNet t' = FromNet t ++ [raw] ∧ GetSession (noiseMgr t') peer = Some (session_UpdateLastSeen now s) ∧
    ∀ later, later - now <= 10 → is_Some (GetSession (CheckSession_tick later (noiseMgr t')) peer).
Proof.
  intros Hs Hr Hrs Hroom. destruct (empty_parsed peer dst (ct_pool t) zeroPacket) as (g & p1 & Hp & Hsrc & Ht & HL).
  destruct (packetRecv_ready wr now x (emptyData peer dst) t s rs g g p1 p1) as (t' & Hrecv & Hfn & Hses);
    [done|by rewrite Ht|by rewrite Hsrc|done|done| |done|].
  - unfold DecryptParse, decryptRaw. rewrite HL. simpl. by rewrite Ht.
  - rewrite Hsrc in Hses. exists t', (RawData g). split_and!; [done..|]. intros later Hl.
    exists (session_UpdateLastSeen now s). unfold CheckSession_tick, sweepSessions, GetSession in *. simpl.
    apply map_lookup_filter_Some. split; [done|]. simpl. apply Z.ltb_ge. simpl. lia.
Qed.
End path.

(** ** Examples *)

(** Two online clients behind cone NATs, a scheduled task, and their clients. *)
Definition ex_atA : ip4 * Z := (1, 2, 3, 4, 4000)%Z.
Definition ex_atB : ip4 * Z := (5, 6, 7, 8, 5000)%Z.
Definition ex_addrB : addrPort := v4 ex_atB.
Definition ex_cone (v : ip4) (a : addrPort) : Client := mkClient TypeCone [] (Some a) (Some v) [104] [] [].
Definition ex_ready : Hub :=
  set_tasks [ex_task] (set_clients (λ _, <[1%nat := ex_cone P2PFacts.ex_A ex_addrA]> {[2%nat := ex_cone ex_B ex_addrB]}) ex_two).

Lemma ex_tA_ready : ready_to_send ex_B (serverAddr ex_tA) [2] 0 ex_tA.
Proof. split; [|reflexivity]. exists (ex_session ex_B [1] [2]). done. Qed.

Lemma direct_path_witness :
  ∃ h1 cmd h2, handleP2PTask_step ex_ready = Some h1 ∧ writePump_step true true 1 h1 = Some (Running, [WsBinary cmd], h2) ∧
  ∃ g' tA1 tA3, controlRecv_message (λ _, true) 100 zeroPacket (Slice 7 cmd []) ex_tA = (g', [], tA1) ∧
    packetRecv_datagram (λ _, true) false 102 ex_addrB (pongBytes ex_B) (handleP2P_tick (λ _, true) (λ _, 101) tA1).2 =
      Next (mkEffects [] [], tA3) ∧
    ready_to_send ex_B (serverAddr ex_tA) [2] 0 ex_tA ∧ ready_to_send ex_B ex_addrB [2] 0 tA3.
Proof.
  destruct (direct_path ex_ready ex_task [] 1 2 (ex_cone P2PFacts.ex_A ex_addrA) (ex_cone ex_B ex_addrB) ex_atA ex_atB
    (λ _, true) (λ _, true) 100 (λ _, 101) 101 102 ex_tA ex_tB) as (h1 & cmd & h2 & Hr & Hw & Hall);
    [ev..|simpl; lia|reflexivity|reflexivity|simpl; unfold controlSendCap; lia|done|done|lia|].
  exists h1, cmd, h2. split; [exact Hr|]. split; [exact Hw|].
  destruct (Hall zeroPacket (Slice 7 cmd []) eq_refl) as (g' & tA1 & tB' & tA3 & Hc & _ & _ & Hp & Hd & _).
  exists g', tA1, tA3. split; [exact Hc|]. split; [exact Hp|]. split; [exact ex_tA_ready|]. exact (Hd _ _ _ ex_tA_ready).
Defined.

(** A peer reached directly, and the same peer online at the server. *)
Definition ex_direct : ClientTransport :=
  set_p2p (insert ex_B (mkP2PStatus TypeCone (Some (fresh_addr ex_addrB)) 100 true)) ex_tA.

Lemma forged_ping_redirects_witness :
  nextHop ex_B ex_direct = Some ex_addrB ∧
  ∃ e t', packetRecv_datagram (λ _, true) false 101 (V4 (66, 6, 6, 6), 666) (pingBytes ex_B) ex_direct = Next (e, t') ∧
    nextHop ex_B t' = Some (V4 (66, 6, 6, 6), 666).
Proof.
  split; [reflexivity|].
  refine (proj1 (forged_ping_redirects (λ _, true) 101 (V4 (66, 6, 6, 6), 666) ex_B (mkP2PStatus TypeCone (Some (fresh_addr ex_addrB)) 100 true)
    ex_direct ex_ready 2 (ex_cone ex_B ex_addrB) zeroPacket _ _ _ _ _)); [done|reflexivity|done|ev|ev].
Defined.

(** Two commands in the reader's array. *)
Definition ex_commandPacket (peer : ip4) (a : ip4 * Z) : GamePacket :=
  NewGamePacket peer P2PFacts.ex_A TypeP2PCommand (Slice 3 (endpoint a TypeCone) []).
Definition ex_command (peer : ip4) (a : ip4 * Z) : bytes := encodeControl (ex_commandPacket peer a).

Lemma ex_command_says peer a : says (ex_command peer a) (peer, P2PFacts.ex_A, TypeP2PCommand, endpoint a TypeCone).
Proof. apply (control_says (ex_commandPacket peer a)); [by left|by destruct a as [[[[??]?]?]?]]. Qed.

Lemma next_command_diverts_witness :
  ∃ g1 t1 g2 t2,
    controlRecv_message (λ _, true) 100 zeroPacket (Slice 7 (ex_command ex_B ex_atB) []) ex_tA = (g1, [], t1) ∧
    controlRecv_message (λ _, true) 101 g1 (Slice 7 (ex_command (10, 0, 6, 9) (9, 9, 9, 9, 9999)) []) t1 = (g2, [], t2) ∧
    peerAddr ex_B t1 = Some (V4 (5, 6, 7, 8), 5000) ∧ peerAddr ex_B t2 = Some (V4 (9, 9, 9, 9), 5000).
Proof.
  destruct (next_command_diverts (λ _, true) 100 101 zeroPacket (Slice 7 (ex_command ex_B ex_atB) [])
    (Slice 7 (ex_command (10, 0, 6, 9) (9, 9, 9, 9, 9999)) []) ex_tA ex_B (10, 0, 6, 9) P2PFacts.ex_A ex_atB (9, 9, 9, 9, 9999)
    TypeCone TypeCone) as (g1 & t1 & g2 & t2 & Hr1 & Ha1 & Hr2 & _ & Ha2 & _);
    [apply ex_command_says|apply ex_command_says|reflexivity|discriminate|simpl; lia|simpl; lia|].
  exists g1, t1, g2, t2. split; [exact Hr1|]. split; [exact Hr2|]. split; [exact Ha1|exact Ha2].
Defined.

(** Client A with a finished session to B, and a header sent from nowhere. *)
Lemma forged_header_refreshes_witness :
  ∃ t' raw, packetRecv_datagram (λ _, true) false 101 (V4 (66, 6, 6, 6), 666) (emptyData ex_B ip4_zero) ex_tA = Next (mkEffects [] [], t') ∧
    FromNet t' = [raw] ∧ is_Some (GetSession (CheckSession_tick 111 (noiseMgr t')) ex_B).
Proof.
  destruct (forged_header_refreshes (λ _, true) 101 (V4 (66, 6, 6, 6), 666) ex_B ip4_zero (ex_session ex_B [1] [2])
    (mkCipherState [1] 0) ex_tA) as (t' & raw & Hr & Hf & _ & Hk);
    [reflexivity|reflexivity|reflexivity|simpl; unfold fromNetCap; lia|].
  exists t', raw. split; [exact Hr|]. split; [exact Hf|]. apply Hk. lia.
Defined.
