(* ===== verification/DnsPath.v ===== *)
(** A host name looked up from the TUN device of a client: the request leaves
    the device as an IP packet, crosses to the server as a datagram, is
    answered from the server's DNS table, comes back, and enters the device as
    an IP packet again. *)

From stdpp Require Import base numbers list gmap option strings tactics.
From S2P Require Import Prelude GoStd Cipher Packet PacketFacts Stun Util Noise NoiseFacts Hub HubWs HubUdp Lease P2PFacts RelayFacts.
From S2P Require Import Client ClientUdp ClientFacts.

Local Open Scope Z_scope.

Lemma append_data s b p : sdata (append s b p).1 = sdata s ++ b.
Proof. unfold append, alloc. by case_match. Qed.

Section dns.
Context `{DnsLib, AEAD, LZ4, Noise}.

(** A packet encoded in the clear is parsed with its addresses, type and payload. *)
Lemma plain_delivered p g control data g' p' c' q g0 :
  flag_ok (PType g) → EncodePacket p g control false None = (Some data, g', p', c') →
  ∃ g2 q2, ParsePacket q g0 (sdata data) true None = (None, g2, q2) ∧
    gp_src g2 = gp_src g ∧ gp_dst g2 = gp_dst g ∧ PType g2 = PType g ∧ sdata (Payload g2) = sdata (Payload g).
Proof.
  intros Hf He. apply EncodePacket_inv in He as (Hs & g1 & -> & _ & -> & _ & Hd).
  rewrite len_wire_body_plain in Hd by (by right). change (Payload (with_length g)) with (Payload g) in Hd.
  pose proof (len_nonneg (sdata (Payload g))). unfold slen in Hs.
  assert (len (sdata data) <= MaxPacketSize) as Hwl.
  { rewrite Hd, len_app. unfold len at 1. rewrite header_bytes_length.
    unfold MaxPacketSize, MaxPayloadSize, AuthenticationTagLength in *. lia. }
  destruct (ParsePacket_unfold q g0 (sdata data) true None Hwl) as (b & p1 & Hb & _ & ->).
  rewrite (parse_plain (with_length g) b true (fst (next_nonce None)) g0 (sdata (Payload g)));
    [|by rewrite Hb|apply payloadLengthField_range|done|unfold MaxPayloadSize, AuthenticationTagLength in Hs; lia|
     apply validPayloadLength_plain; [unfold slen; lia|apply parse_mode_plain]].
  eexists _, _. split_and!; try done. cbn [Payload slice_from sdata set_RawData]. rewrite Hb, Hd. apply header_drop.
Qed.

(** The request a client sends for a DNS packet. *)
Lemma packetSend_dns wr comp now p w t :
  isDNS (sdata p) (Dns t) = true → slen p <= MaxPayloadSize →
  nextHop (Dns t) t = Some (serverAddr t) → wr (serverAddr t) = true →
  let n := Z.to_nat (ihl (sdata p)) in
  ∃ pl buf data g' pl' cs t',
    sdata buf = PutUint16 (Uint16 (sub (sdata p) n (n + 2))) ++ drop (n + 8) (sdata p) ∧
    EncodePacket pl (Reset (w_gp w) (localKey t) (Dns t) TypeDnsRequest buf) false false None = (Some data, g', pl', cs) ∧
    packetSend_one wr false comp now p w t = Next ([(sdata data, serverAddr t)], mkWorker g' buf, t') ∧
    localKey t' = localKey t ∧ Dns t' = Dns t.
Proof.
  intros Hdns Hs Hhop Hwr n. unfold packetSend_one. rewrite Hdns.
  assert (to_ip4 (sub (sdata p) 16 20) = Dns t) as ->
    by (unfold isDNS in Hdns; bool_cases; done).
  assert (8 <= len (sdata p) - ihl (sdata p) ∧ 20 <= ihl (sdata p)) as [Hl8 Hihl]
    by (unfold isDNS in Hdns; bool_cases; lia).
  destruct (append (reslice 0 (dnsBuffer w)) _ _) as [b1 p1] eqn:E1.
  destruct (append b1 _ p1) as [buf pl] eqn:E2.
  assert (sdata buf = PutUint16 (Uint16 (sub (sdata p) n (n + 2))) ++ drop (n + 8) (sdata p)) as Hbuf.
  { replace buf with (append b1 (drop (n + 8) (sdata p)) p1).1 by (subst n; by rewrite E2).
    rewrite append_data. f_equal. replace b1 with (append (reslice 0 (dnsBuffer w))
      (PutUint16 (Uint16 (sub (sdata p) n (n + 2)))) (ct_pool t)).1 by (subst n; by rewrite E1). by rewrite append_data. }
  destruct (EncodePacket_total pl (Reset (w_gp w) (localKey t) (Dns t) TypeDnsRequest buf) false false None)
    as (data & g' & pl' & cs & He).
  { unfold slen in *. simpl. rewrite Hbuf, len_app. unfold len in *. rewrite length_drop. simpl. subst n. lia. }
  rewrite He. unfold sendData. change (nextHop _ _) with (nextHop (Dns t) t). rewrite Hhop. simpl. rewrite Hwr.
  exists pl, buf, data, g', pl', cs. eexists. split_and!; done.
Qed.
(** The server's answer to a parsed request, sent at once. *)
Lemma server_answers from wire g0 h g1 p1 resp p2 :
  ParsePacket (bufPool h) g0 wire true None = (None, g1, p1) → PType g1 = TypeDnsRequest → packetChan h = [] →
  buildDnsResponse (Payload g1) (set_pool p1 h) = (Ok resp, set_pool p2 (set_pool p1 h)) → slen resp <= MaxPayloadSize →
  ∃ pl data g' pl' cs,
    EncodePacket pl (NewGamePacket ip4_zero (gp_src g1) TypeDnsResponse resp) false false None = (Some data, g', pl', cs) ∧
    (writeUdpPacket_step (listenUdp_datagram false (Some from) g0 wire h)).1 = [(sdata data, from)].
Proof.
  intros Hp Ht Hq Hb Hs. unfold listenUdp_datagram. rewrite Hp, Ht.
  change (bitclear TypeDnsRequest FlagCompress =? TypePing) with false.
  change (bitclear TypeDnsRequest FlagCompress =? TypeDnsRequest) with true. cbn beta iota.
  unfold answerDns. rewrite Hb.
  destruct (EncodePacket_total (bufPool (set_pool p2 (set_pool p1 h)))
    (NewGamePacket ip4_zero (SourceVirtualIp g1) TypeDnsResponse resp) false false None) as (data & g' & pl' & cs & He); [done|].
  rewrite He. eexists _, data, g', pl', cs. split; [exact He|].
  unfold writeUdpPacket_step, cleanUp. simpl. rewrite Hq. simpl. done.
Qed.

(** The client's treatment of the answer. *)
Lemma packetRecv_dns wr now from content t g1 q1 pkt :
  ParsePacket (ct_pool t) zeroPacket content true None = (None, g1, q1) → PType g1 = TypeDnsResponse →
  BuildDNSResponse (sdata (Payload g1)) (localKey t) (Dns t) = Ok pkt →
  ∃ t', packetRecv_datagram wr false now from content t = Next (mkEffects [] [pkt], t').
Proof.
  intros Hp Ht Hb. unfold packetRecv_datagram. cbn [ct_pool set_counts]. rewrite Hp, Ht.
  change (bitclear TypeDnsResponse FlagCompress =? TypeData) with false.
  change (bitclear TypeDnsResponse FlagCompress =? TypePing) with false.
  change (bitclear TypeDnsResponse FlagCompress =? TypePong) with false.
  change (bitclear TypeDnsResponse FlagCompress =? TypeDnsResponse) with true. cbn beta iota.
  change (localKey (set_ct_pool _ _)) with (localKey t). change (Dns (set_ct_pool _ _)) with (Dns t).
  rewrite Hb. eauto.
Qed.

Lemma BuildDNSResponse_carries port data ip dns :
  ∃ pkt, BuildDNSResponse (PutUint16 port ++ data) ip dns = Ok pkt ∧ drop 28 pkt = data ∧
    sub pkt 12 16 = ip4_bytes dns ∧ sub pkt 16 20 = ip4_bytes ip ∧ sub pkt 22 24 = PutUint16 port.
Proof.
  unfold BuildDNSResponse. assert ((len (PutUint16 port ++ data) <? 2) = false) as ->
    by (apply Z.ltb_ge; rewrite len_app; unfold len; simpl; lia).
  eexists. split; [done|]. destruct dns as [[[? ?] ?] ?], ip as [[[? ?] ?] ?].
  change (sub (PutUint16 port ++ data) 0 2) with (PutUint16 port). change (drop 2 (PutUint16 port ++ data)) with data.
  split_and!; try done. exact (PutUint16_Uint16 _ _ [] (u8_is_byte _) (u8_is_byte _)).
Qed.

(** C13: a name looked up end to end: a DNS packet read from a client's TUN device, for
    the first address of its network and port 53, leaves the client as one
    datagram to the server; when it asks for the name of a client the server
    knows, the server answers the sender with one datagram, and what the
    client then writes to its TUN device is an IP packet from the DNS address
    to its own, for the port the question came from, that carries exactly the
    answer the library packed with that client's address. *)
Theorem dns_lookup wr comp now p w t h from g0 msg name more n ip rr data wr' now' :
  (* the request *)
  isDNS (sdata p) (Dns t) = true → slen p <= MaxPayloadSize →
  nextHop (Dns t) t = Some (serverAddr t) → wr (serverAddr t) = true →
  dns_Unpack (drop (Z.to_nat (ihl (sdata p)) + 8) (sdata p)) = Some msg → dns_Questions msg = name :: more →
  (* the server *)
  packetChan h = [] → 46 ∉ n → name = n ++ string_bytes ".et." → dnsMap h !! n = Some ip →
  dns_New (name ++ string_bytes " 60 IN A " ++ ipString ip) = Some rr →
  dns_Pack (dns_AddAnswer rr (dns_SetAuthoritative (dns_SetReply msg))) = Some data →
  2 + len data <= MaxPayloadSize →
  ∃ wire w' t' reply t'' pkt,
    packetSend_one wr false comp now p w t = Next ([(wire, serverAddr t)], w', t') ∧
    (writeUdpPacket_step (listenUdp_datagram false (Some from) g0 wire h)).1 = [(reply, from)] ∧
    packetRecv_datagram wr' false now' (serverAddr t) reply t' = Next (mkEffects [] [pkt], t'') ∧
    drop 28 pkt = data ∧ sub pkt 12 16 = ip4_bytes (Dns t) ∧ sub pkt 16 20 = ip4_bytes (localKey t) ∧
    let i := Z.to_nat (ihl (sdata p)) in sub pkt 22 24 = PutUint16 (Uint16 (sub (sdata p) i (i + 2))).
Proof.
  intros Hdns Hs Hhop Hwr Hun Hqu Hpk Hn Hname Hip Hrr Hpack Hlen.
  set (i := Z.to_nat (ihl (sdata p))) in *. set (port := Uint16 (sub (sdata p) i (i + 2))).
  destruct (packetSend_dns wr comp now p w t Hdns Hs Hhop Hwr) as (pl & buf & wire & g' & pl' & cs & t' & Hbuf & He & Hsend & Hk & Hd).
  fold i in Hbuf. fold port in Hbuf.
  destruct (plain_delivered pl (Reset (w_gp w) (localKey t) (Dns t) TypeDnsRequest buf) false wire g' pl' cs (bufPool h) g0)
    as (g1 & q1 & Hp1 & Hs1 & _ & Ht1 & Hpl1); [by left|exact He|].
  change (sdata (Payload (Reset _ _ _ _ buf))) with (sdata buf) in Hpl1. rewrite Hbuf in Hpl1.
  destruct (dns_known (Payload g1) (set_pool q1 h) msg n name more ip rr data) as (resp & p2 & Hb & Hresp);
    [unfold slen; rewrite Hpl1, len_app; unfold len; simpl; lia|by rewrite Hpl1|done..|].
  rewrite Hpl1 in Hresp. change (take 2 (PutUint16 port ++ _)) with (PutUint16 port) in Hresp.
  destruct (server_answers from (sdata wire) g0 h g1 q1 resp p2) as (pl2 & rdata & g2 & pl2' & cs2 & He2 & Hout);
    [done|done|done|done|unfold slen; rewrite Hresp, len_app; unfold len at 1; simpl; lia|].
  destruct (plain_delivered pl2 (NewGamePacket ip4_zero (gp_src g1) TypeDnsResponse resp) false rdata g2 pl2' cs2 (ct_pool t') zeroPacket)
    as (g3 & q3 & Hp3 & _ & _ & Ht3 & Hpl3); [by left|exact He2|].
  change (sdata (Payload (NewGamePacket _ _ _ resp))) with (sdata resp) in Hpl3. rewrite Hresp in Hpl3.
  destruct (BuildDNSResponse_carries port data (localKey t) (Dns t)) as (pkt & Hpkt & H28 & H12 & H16 & H22).
  destruct (packetRecv_dns wr' now' (serverAddr t) (sdata rdata) t' g3 q3 pkt) as (t'' & Hrecv);
    [exact Hp3|done|by rewrite Hpl3, Hk, Hd|].
  exists (sdata wire), (mkWorker g' buf), t', (sdata rdata), t'', pkt. split_and!; done.
Qed.
End dns.

(** The first client asks for the name of the second, [i] (byte 105). *)
Definition ex_question : gslice :=
  Slice 951 ([0x45; 0; 0; 33; 0; 0; 0; 0; 64; 17; 0; 0] ++ [10; 0; 6; 2] ++ [10; 0; 6; 1] ++
    [200; 33; 0; 53; 0; 13; 0; 0] ++ [105] ++ string_bytes ".et.") [].
Definition ex_answer : bytes := [0; 105] ++ string_bytes ".et. 60 IN A 10.0.6.3".

Lemma dns_lookup_witness :
  ∃ wire w' t' reply t'' pkt,
    packetSend_one (λ _, true) false false 5 ex_question ex_worker ex_tA = Next ([(wire, serverAddr ex_tA)], w', t') ∧
    (writeUdpPacket_step (listenUdp_datagram false (Some ex_addrA) zeroPacket wire ex_two)).1 = [(reply, ex_addrA)] ∧
    packetRecv_datagram (λ _, true) false 6 (serverAddr ex_tA) reply t' = Next (mkEffects [] [pkt], t'') ∧
    drop 28 pkt = ex_answer.
Proof.
  destruct (@dns_lookup toy_dns _ _ _ (λ _, true) false 5 ex_question ex_worker ex_tA ex_two ex_addrA zeroPacket
    ([[105] ++ string_bytes ".et."], 0, []) ([105] ++ string_bytes ".et.") [] [105] (10, 0, 6, 3)
    ([105] ++ string_bytes ".et. 60 IN A 10.0.6.3") ex_answer (λ _, true) 6)
    as (wire & w' & t' & reply & t'' & pkt & H1 & H2 & H3 & H4 & _);
    [ev|ev|ev|ev|ev|ev|ev|set_solver|ev|ev|ev|ev|ev|].
  exists wire, w', t', reply, t'', pkt. split; [exact H1|]. split; [exact H2|]. split; [exact H3|exact H4].
Defined.
