(* ===== verification/FirstContact.v ===== *)
(** First contact: from the first packet for an unknown peer to a finished Noise
    session on both sides.

    The packet makes the client ask the server for the peer's key; the answer
    starts the handshake; its two messages cross the relay as data packets; the
    packet that started it all comes back into the sending queue. *)

From stdpp Require Import base numbers list gmap option tactics.
From S2P Require Import Prelude Cipher Packet PacketFacts Stun Util Noise NoiseFacts Hub HubWs HubUdp HubFrame Lease HubLoops P2PFacts RelayFacts.
From S2P Require Import Client ClientUdp ClientFacts ControlPath DnsPath.

Local Open Scope Z_scope.

Section contact.
Context `{DnsLib, AEAD, LZ4, NoiseLaws}.

(** ** Single stages *)

(** [encodeOnce] writes what the packet says, and changes only the pool. *)
Lemma encodeOnce_says control gp t :
  flag_ok (PType gp) → slen (Payload gp) <= MaxPayloadSize →
  ∃ data p, encodeOnce control gp t = (data, set_ct_pool p t) ∧ says data (view gp).
Proof.
  intros Hf Hs. unfold encodeOnce. destruct (EncodePacket_total (ct_pool t) gp control false None) as (data & g' & p' & c' & He); [done|].
  rewrite He. eexists _, _. split; [done|]. by eapply encoded_says.
Qed.

(** The question for the peer's key, with the packet. *)
Lemma contact_asks wr comp now p w t dst :
  to_ip4 (sub (sdata p) 16 20) = dst → isDNS (sdata p) (Dns t) = false → lastByte dst ≠ 255 →
  slen p <= MaxPayloadSize → GetSession (noiseMgr t) dst = None → ControlSendChan t = [] →
  ∃ t1 q pl,
    packetSend_one wr false comp now p w t = Next ([], w, t1) ∧ controlSend_step true t1 = Next (CtlBinary q, set_ct_pool pl t) ∧
    says q (localKey t, dst, TypeNoiseHandshake, sdata p).
Proof.
  intros Hdst Hdns Hlast Hs Hses Hch. unfold packetSend_one. rewrite Hdns, Hdst, Hses.
  rewrite (proj2 (Z.eqb_neq _ _)) by done. cbn [negb]. rewrite Hch. simpl.
  set (query := NewGamePacket (localKey t) dst TypeNoiseHandshake p). 
  set (t1 := set_ControlSend [query] t). exists t1. unfold controlSend_step. change (ControlSendChan t1) with [query].
  cbn beta iota. change (PType query =? TypePing) with false. cbn beta iota zeta.
  destruct (encodeOnce_says true query (set_ControlSend [] t1)) as (q & pl & -> & Hq); [by left|done|].
  exists q, pl. split; [done|]. split; [|exact Hq]. destruct t. simpl in Hch. by subst.
Qed.

(** The server's answer: the key of the peer, and the packet back. *)
Lemma contact_answered c d g g3 msg h L clA clB :
  book h L → ParseControl g msg = (None, g3) → PType g3 = TypeNoiseHandshake →
  hub_clients h !! c = Some clA → is_Some (virtualIp clA) → controlChan clA = [] →
  clientMap h !! gp_dst g3 = Some d → hub_clients h !! d = Some clB →
  ∃ h1, readPump_message false c g msg h = (Running, g3, h1) ∧
    queue h1 c = Some [(gp_dst g3, vipKey clA, TypeNoiseResponse, noisePublicKey clB ++ sdata (Payload g3))].
Proof.
  intros B Hp Ht Hc [v Hv] Hq Hm Hd. unfold readPump_message. rewrite Hp, Hc, Ht.
  rewrite bool_decide_false by (by rewrite Hv). change (TypeNoiseHandshake =? TypeHandshake) with false. cbn [negb andb].
  unfold HandleWSMessage. rewrite Ht, (book_handlers _ _ B).
  change (registerDefaultWSHandlers ∅ !! TypeNoiseHandshake) with (Some HNoiseHandshake). cbn beta iota.
  unfold handleNoiseHandshake, Destination. rewrite Hm, Hc, Hd. destruct (Get (bufPool h)) as [b0 p0].
  destruct (append (reslice 0 b0) (noisePublicKey clB) p0) as [b1 p1] eqn:E1.
  destruct (append b1 (sdata (Payload g3)) p1) as [b2 p2] eqn:E2.
  assert (sdata b2 = noisePublicKey clB ++ sdata (Payload g3)) as Hb.
  { replace b2 with (append b1 (sdata (Payload g3)) p1).1 by (by rewrite E2). rewrite append_data.
    replace b1 with (append (reslice 0 b0) (noisePublicKey clB) p0).1 by (by rewrite E1). by rewrite append_data. }
  unfold selectSend, sendControl. cbn [hub_clients set_pool]. rewrite Hc, Hq. simpl. eexists. split; [done|].
  unfold queue. simpl. rewrite lookup_insert_eq. simpl. unfold view. simpl. by rewrite Hb.
Qed.

(** The answer starts the handshake. *)
Lemma contact_starts wr now g msg g3 t peer pub pl x1 m1 :
  ParseControl g msg = (None, g3) → PType g3 = TypeNoiseResponse → gp_src g3 = peer → sdata (Payload g3) = pub ++ pl →
  length pub = 32%nat → HandshakeInit now peer pub (slice_from 32 (Payload g3)) (noiseMgr t) = (Some x1, m1) → len x1 = 96 →
  wr (serverAddr t) = true →
  ∃ data t', controlRecv_message wr now g msg t = (g3, [(data, serverAddr t)], t') ∧ noiseMgr t' = m1 ∧
    says data (localKey t, peer, TypeData, x1).
Proof.
  intros Hp Ht Hsrc Hpl Hk Hi Hl Hw. unfold controlRecv_message. rewrite Hp, Ht. change (TypeNoiseResponse =? TypeNoiseResponse) with true.
  cbn beta iota. unfold slen at 1. rewrite Hpl. rewrite (proj2 (Z.ltb_ge _ _)) by (rewrite len_app; unfold len; lia).
  rewrite take_app_length' by done. unfold initiateNoise, SourceVirtualIp.
  change (noiseMgr (overwritePeers msg t)) with (noiseMgr t). rewrite Hsrc, Hi. unfold alloc.
  set (s := Slice _ x1 []). set (t1 := set_ct_pool _ _).
  destruct (encodeOnce_says true (NewGamePacket (localKey (set_noise m1 (overwritePeers msg t))) peer TypeData s) t1) as (data & p & He & Hs);
    [by left|unfold slen; simpl; rewrite Hl; done|].
  rewrite He. simpl. rewrite Hw. eexists _, _. split; [done|]. split; [done|exact Hs].
Qed.

(** A server that relays from [A] to [B] at [b]. *)
Record relays (h : Hub) (A B : ip4) (b : addrPort) : Prop := {
  rl_transfer : transferChan h = [];
  rl_packets : packetChan h = [];
  rl_routes : routes_exist h;
  rl_ends : ∃ s d client, clientMap h !! A = Some s ∧ clientMap h !! B = Some d ∧ s ≠ d ∧
    hub_clients h !! d = Some client ∧ dataAddr client = Some b;
  rl_unicast : subnetContains B = true ∧ lastByte B ≠ 255;
}.

Lemma relays_says h A B b data x from g :
  relays h A B b → says data (A, B, TypeData, x) →
  (writeUdpPacket_step (transfer_step false (listenUdp_datagram false from g data h))).1 = [(data, b)].
Proof.
  intros [Ht Hp Hr (s & d & client & Hs & Hd & Hne & Hc & Hb) [Hsub Hl]] [_ Hsays].
  destruct (Hsays (bufPool h) g) as (g2 & p2 & Hpar & Hs2 & Hd2 & Ht2 & _ & Hraw). cbn [fst snd] in *.
  eapply relay_parsed; try done; rewrite ?Ht2, ?Hs2, ?Hd2; done.
Qed.

(** A data packet that carries a handshake message. *)
Lemma contact_received wr now from data t A B x r m :
  says data (A, B, TypeData, x) → HandleNoisePacket now A x (noiseMgr t) = (r, m) →
  (∀ s w, r = NRet (Some s) (Some w) → wr from = true → len w = 48 →
    ∃ reply t', packetRecv_datagram wr false now from data t = Next (mkEffects [(reply, from)] [], t') ∧ noiseMgr t' = m ∧
      says reply (localKey t, A, TypeData, w)) ∧
  (r = NRet None None → ∃ t', packetRecv_datagram wr false now from data t = Next (mkEffects [] [], t') ∧ noiseMgr t' = m).
Proof.
  intros [_ Hsays] Hh. unfold packetRecv_datagram. set (t0 := set_counts _ _ _ _ t).
  destruct (Hsays (ct_pool t0) zeroPacket) as (g2 & p2 & Hp & Hs & _ & Ht & Hx & _). cbn [fst snd] in *.
  rewrite Hp, Ht. change (bitclear TypeData FlagCompress =? TypeData) with true. cbn beta iota.
  unfold recvData, SourceVirtualIp. rewrite Hs, Hx. change (noiseMgr (set_ct_pool p2 t0)) with (noiseMgr t). rewrite Hh. split.
  - intros s w -> Hw Hl. unfold alloc. set (sl := Slice _ w []). set (t1 := set_ct_pool _ (set_noise m _)).
    destruct (encodeOnce_says false (NewGamePacket (localKey (set_noise m (set_ct_pool p2 t0))) A TypeData sl) t1) as (reply & p & He & Hr);
      [by left|unfold slen; simpl; rewrite Hl; done|].
    rewrite He. simpl. rewrite Hw. eexists _, _. split; [done|]. split; [done|exact Hr].
  - intros ->. eexists. done.
Qed.

(** ** All stages *)

(** C4: first contact, end to end.  A packet for an online peer without a session
    makes the client ask the server for the peer's key; the server's answer
    makes it start a handshake; the server relays the first message to the peer,
    which answers with a finished session; the server relays the answer back, and
    it finishes the session of the first client.  What either end now seals the
    other opens, and the packet that started it is back in the sending queue. *)
Theorem first_contact tr h c d clA clB wr wr' comp now p w tA tB vA vB a b hr hr' from from' gs rb rb' now2 now3 srv srv' :
  (* the first client *)
  own_keys (noiseMgr tA) → localKey tA = vA → GetSession (noiseMgr tA) vB = None → ControlSendChan tA = [] →
  to_ip4 (sub (sdata p) 16 20) = vB → isDNS (sdata p) (Dns tA) = false → 32 + slen p <= MaxPayloadSize →
  wr (serverAddr tA) = true →
  (* the server, when it is asked and when it relays *)
  orderly_run NewHub tr h → hub_clients h !! c = Some clA → virtualIp clA = Some vA → controlChan clA = [] →
  clientMap h !! vB = Some d → hub_clients h !! d = Some clB → noisePublicKey clB = staticPub (noiseMgr tB) →
  relays hr vA vB b → relays hr' vB vA a →
  (* the peer *)
  own_keys (noiseMgr tB) → localKey tB = vB → GetSession (noiseMgr tB) vA = None →
  length (staticPub (noiseMgr tB)) = 32%nat → wr' srv = true →
  ∃ tA1 tA2 question g1 h1 h2 answer g2 tA3 first tB' second tA4 sA sB back,
    packetSend_one wr false comp now p w tA = Next ([], w, tA1) ∧
    controlSend_step true tA1 = Next (CtlBinary question, tA2) ∧
    readPump_message false c gs (Slice rb question []) h = (Running, g1, h1) ∧
    writePump_step true true c h1 = Some (Running, [WsBinary answer], h2) ∧
    controlRecv_message wr now gs (Slice rb' answer []) tA2 = (g2, [(first, serverAddr tA)], tA3) ∧
    (writeUdpPacket_step (transfer_step false (listenUdp_datagram false from gs first hr))).1 = [(first, b)] ∧
    packetRecv_datagram wr' false now2 srv first tB = Next (mkEffects [(second, srv)] [], tB') ∧
    (writeUdpPacket_step (transfer_step false (listenUdp_datagram false from' gs second hr'))).1 = [(second, a)] ∧
    packetRecv_datagram wr false now3 srv' second tA3 = Next (mkEffects [] [], tA4) ∧
    GetSession (noiseMgr tA4) vB = Some sA ∧ GetSession (noiseMgr tB') vA = Some sB ∧ keys_agree sA sB ∧
    FromTun tA4 = FromTun tA ++ [back] ∧ sdata back = sdata p.
Proof.
  intros KA LA GA QA Hdst Hdns Hsz HwA Hrun Hc Hv Qc Hm Hd Hkey R1 R2 KB LB GB Hk HwB.
  assert (lastByte vB ≠ 255) as Hlast by apply R1.
  destruct (orderly_run_simulated _ _ _ _ Hrun book_init) as (L & _ & B).
  destruct (contact_asks wr comp now p w tA vB) as (tA1 & q & pl & H1' & H2' & [Hq _]); [done..|lia|done|done|].
  destruct (Hq gs (Slice rb q []) eq_refl) as (g3 & Hp3 & _ & Hd3 & Ht3 & Hl3). cbn [fst snd] in *.
  destruct (contact_answered c d gs g3 (Slice rb q []) h L clA clB) as (h1 & H3' & Hqueue); [done..|by eexists|done|by rewrite Hd3|done|].
  rewrite Hd3, Hl3, Hkey in Hqueue. assert (vipKey clA = vA) as EvA by (unfold vipKey; by rewrite Hv). rewrite EvA in Hqueue.
  destruct (queue_sends _ _ _ _ _ _ Hqueue) as (answer & h2 & H4' & _ & _ & _ & [Hans _]);
    [done|by left|rewrite len_app; unfold slen, len in *; lia|].
  destruct (Hans gs (Slice rb' answer []) eq_refl) as (g4 & Hp4 & Hs4 & _ & Ht4 & Hl4). cbn [fst snd] in *.
  destruct (handshake_exchange (noiseMgr tA) (noiseMgr tB) vA vB now now2 now3 (slice_from 32 (Payload g4)) [])
    as (x1 & mA1 & sB & x2 & mB1 & sA & mA2 & Hinit & Hx1 & Hx2 & HB1 & HgB & HA2 & HgA & Hagree & Htun); [done..|simpl; unfold pendingCap; lia|].
  destruct (contact_starts wr now gs (Slice rb' answer []) g4 (set_ct_pool pl tA) vB (staticPub (noiseMgr tB)) (sdata p) x1 mA1)
    as (first & tA3 & H5' & Hm3 & Hfirst); [done..|]. change (localKey (set_ct_pool pl tA)) with (localKey tA) in Hfirst. rewrite LA in Hfirst.
  destruct (contact_received wr' now2 srv first tB vA vB x1 _ mB1 Hfirst HB1) as [Hresp _].
  destruct (Hresp sB x2 eq_refl HwB Hx2) as (second & tB' & H7' & HmB & Hsecond). rewrite LB in Hsecond.
  assert (HandleNoisePacket now3 vB x2 (noiseMgr tA3) = (NRet None None, mA2)) as HA2' by (rewrite Hm3; exact HA2).
  destruct (contact_received wr now3 srv' second tA3 vB vA x2 _ mA2 Hsecond HA2') as [_ Hfin].
  destruct (Hfin eq_refl) as (tA4 & H9' & Hm4).
  exists tA1, (set_ct_pool pl tA), q, g3, h1, h2, answer, g4, tA3, first, tB', second, tA4, sA, sB, (slice_from 32 (Payload g4)).
  unfold FromTun. rewrite Hm4, HmB. split_and!; try done.
  - by eapply relays_says.
  - by eapply relays_says.
  - unfold slice_from. simpl. rewrite Hl4, drop_app_length' by done. done.
Qed.
End contact.

(** ** Example *)

(** Two clients, whose public keys are the ones the toy protocol derives, shake
    hands with a new server. *)
Definition ex_key : bytes := replicate 31 9.
Definition ex_keyed (vip : ip4) : ClientTransport :=
  set_noise (SetVirtualIp vip (NewNoiseManager ex_key 100)) (ex_base vip).
Definition ex_hello (cid name : Z) : GamePacket :=
  NewGamePacket ip4_zero ip4_zero TypeHandshake (Slice 900 (3 :: noise_public ex_key ++ replicate 16 cid ++ [name]) []).

(** A new connection that shakes hands and reads the reply. *)
Definition ex_joins (c : nat) (gp : GamePacket) (h : Hub) : Hub :=
  let h := (HandleWSMessage false c gp (newClient c None None h)).2 in
  match writePump_step true true c h with Some (_, _, h) => h | None => h end.

Definition ex_first_hub : Hub := ex_joins 0 (ex_hello 7 104) NewHub.
Definition ex_meet_hub : Hub := ex_joins 1 (ex_hello 8 105) ex_first_hub.

Lemma offline_check cid h :
  bool_decide (map_Forall (λ _ c, clientID <$> hub_clients h !! c ≠ Some cid) (clientMap h)) = true → id_offline cid h.
Proof.
  intros Hall%bool_decide_eq_true v c client Hm Hc Hid. apply (Hall v c Hm). rewrite Hc. simpl. by rewrite Hid.
Qed.

Lemma ex_joins_run c gp h :
  hub_clients h !! c = None → PType gp = TypeHandshake → 49 <= len (sdata (Payload gp)) → id_offline (handshakeID gp) (newClient c None None h) →
  ∃ tr, orderly_run h tr (ex_joins c gp h).
Proof.
  intros Hc Ht Hl Hoff. unfold ex_joins. set (h1 := newClient c None None h). set (h2 := (HandleWSMessage false c gp h1).2).
  assert (∃ tr, orderly_run h tr h2) as [tr Hr].
  { eexists. eapply orderly_run_cons; [by apply step_connect|]. eapply orderly_run_one.
    eapply (step_handshake h1 c false gp); [done|apply lookup_insert_eq|done..]. }
  destruct (writePump_step true true c h2) as [[[r out] h3]|] eqn:Ew; [|by eexists].
  eexists. eapply orderly_run_app; [exact Hr|]. eapply orderly_run_one. by eapply step_write.
Qed.

Lemma ex_meeting_run : ∃ tr, orderly_run NewHub tr ex_meet_hub.
Proof.
  destruct (ex_joins_run 0 (ex_hello 7 104) NewHub) as [tr1 Hr1]; [done|done|vm_compute; discriminate|apply offline_check; vm_compute; reflexivity|].
  destruct (ex_joins_run 1 (ex_hello 8 105) ex_first_hub) as [tr2 Hr2];
    [vm_compute; reflexivity|done|vm_compute; discriminate|apply offline_check; vm_compute; reflexivity|].
  exists (tr1 ++ tr2). by eapply orderly_run_app.
Qed.

(** A reachable server with empty queues relays to a client once it has sent a
    datagram. *)
Lemma heard_relays h tr A B s d a cl :
  orderly_run NewHub tr h → transferChan h = [] → packetChan h = [] →
  clientMap h !! A = Some s → clientMap h !! B = Some d → s ≠ d →
  hub_clients h !! d = Some cl → dataAddr cl = None → subnetContains B = true → lastByte B ≠ 255 →
  relays (updateAddrCheck d (Some a) h) A B a.
Proof.
  intros Hr Ht Hp Hs Hd Hne Hcl Hda Hsub Hl. pose proof (same_book_updateAddr d (Some a) h) as Hsame.
  destruct (orderly_run_simulated _ _ _ _ Hr book_init) as (L & _ & Bk). pose proof Hsame as (_ & _ & _ & Hmap & _).
  assert (updateAddrCheck d (Some a) h = set_clients (insert d (set_dataAddr (Some a) cl)) h) as Eh
    by (unfold updateAddrCheck; rewrite Hcl, Hda; done).
  split; [by rewrite Eh..| | |done].
  - eapply routes_exist_same; [exact Hsame|]. by eapply routes_exist_book.
  - exists s, d, (set_dataAddr (Some a) cl). rewrite Hmap, Eh. split_and!; try done. simpl. by rewrite lookup_insert_eq.
Qed.

Lemma first_contact_witness :
  ∃ tA1 tA2 question g1 h1 tA4 sA sB tB' back,
    packetSend_one (λ _, true) false false 5 ex_ip ex_worker (ex_keyed P2PFacts.ex_A) = Next ([], ex_worker, tA1) ∧
    controlSend_step true tA1 = Next (CtlBinary question, tA2) ∧
    readPump_message false 0 zeroPacket (Slice 5 question []) ex_meet_hub = (Running, g1, h1) ∧
    GetSession (noiseMgr tA4) ex_B = Some sA ∧ GetSession (noiseMgr tB') P2PFacts.ex_A = Some sB ∧ keys_agree sA sB ∧
    FromTun tA4 = FromTun (ex_keyed P2PFacts.ex_A) ++ [back] ∧ sdata back = sdata ex_ip.
Proof.
  destruct ex_meeting_run as [tr Hr].
  destruct (first_contact tr ex_meet_hub 0 1 (default ex_src (hub_clients ex_meet_hub !! 0%nat)) (default ex_src (hub_clients ex_meet_hub !! 1%nat))
    (λ _, true) (λ _, true) false 5 ex_ip ex_worker (ex_keyed P2PFacts.ex_A) (ex_keyed ex_B) P2PFacts.ex_A ex_B
    ex_addrA (V4 (5, 6, 7, 8), 5000) (updateAddrCheck 1 (Some (V4 (5, 6, 7, 8), 5000)) ex_meet_hub) (updateAddrCheck 0 (Some ex_addrA) ex_meet_hub) None None zeroPacket 5 6 7 8 ex_addrA ex_addrA)
    as (tA1 & tA2 & q & g1 & h1 & h2 & ans & g2 & tA3 & first & tB' & second & tA4 & sA & sB & back &
        E1 & E2 & E3 & _ & _ & _ & _ & _ & _ & GA & GB & Hk & Hb & Hd).
  - reflexivity.
  - reflexivity.
  - reflexivity.
  - reflexivity.
  - reflexivity.
  - reflexivity.
  - vm_compute. discriminate.
  - reflexivity.
  - exact Hr.
  - ev.
  - ev.
  - ev.
  - ev.
  - ev.
  - ev.
  - apply (heard_relays _ tr _ _ 0 1 _ (default ex_src (hub_clients ex_meet_hub !! 1%nat))); [exact Hr|ev..].
  - apply (heard_relays _ tr _ _ 1 0 _ (default ex_src (hub_clients ex_meet_hub !! 0%nat))); [exact Hr|ev..].
  - reflexivity.
  - reflexivity.
  - reflexivity.
  - reflexivity.
  - reflexivity.
  - exists tA1, tA2, q, g1, h1, tA4, sA, sB, tB', back. split; [exact E1|]. split; [exact E2|]. split; [exact E3|].
    split; [exact GA|]. split; [exact GB|]. split; [exact Hk|]. split; [exact Hb|exact Hd].
Defined.
