(* ===== verification/Board.v ===== *)
(** The status board of the client: [internal/ui/performance.go] and the
    entries [client_ui.go] puts on it.

    The board reads the counters and the status word of the transport; they
    are inputs of a tick.  Colours, boxes, charts and panels are drawn by the
    pterm library, which is the class [Pterm].  The result is that the two
    charts always show the last five differences of the counters, that drawing
    never reads outside the histories, and that the board's loop ends with the
    first tick that sees the closing status. *)

From stdpp Require Import base numbers list gmap strings option tactics.
From S2P Require Import Prelude GoStd Config Util Client ClientUdp.

Local Open Scope Z_scope.

(** The parts of pterm the source calls; drawing is a function of its input. *)
Class Pterm := {
  LightCyan : bytes → bytes;
  LightGreen : bytes → bytes;
  LightRed : bytes → bytes;
  LightYellow : bytes → bytes;
  Box : bytes → bytes → bytes;                    (** title, content *)
  BarChart : bool → list (bytes * Z) → bytes;     (** green bars?, labelled values *)
  Panels : list (list bytes) → bytes;             (** rows of panels *)
  BoxedTable : list (list bytes) → bytes;
}.

(** [STAT]: the names of the status values; other values have none. *)
Definition STAT (status : Z) : bytes :=
  if status =? INIT then string_bytes "Init"
  else if status =? TESTNAT then string_bytes "Test Nat"
  else if status =? CONNECT then string_bytes "Connecting Server"
  else if status =? INTINETWORK then string_bytes "Init Virtual Work"
  else if status =? RUNNING then string_bytes "Running"
  else if status =? RECONNECTING then string_bytes "Reconnecting"
  else if status =? CLOSING then string_bytes "Closing"
  else [].

Record Info := mkInfo {
  info_key : bytes;
  info_val : bytes;
  info_colorFunc : option (bytes → bytes);
}.

(** The fields the board owns. *)
Record Board := mkBoard {
  b_hostname : bytes;
  b_localIp : ip4;
  b_infos : list Info;                            (** the current snapshot *)
}.

Definition NewBoard : Board := mkBoard [] ip4_zero [].

Definition InitLocalIp (localIp : ip4) (b : Board) : Board := mkBoard (b_hostname b) localIp (b_infos b).

Definition InitHostName (hostname : bytes) (b : Board) : Board := mkBoard hostname (b_localIp b) (b_infos b).

(** A new snapshot replaces the old one, which stays as it was. *)
Definition AddInfo (key val : bytes) (colorFunc : option (bytes → bytes)) (b : Board) : Board :=
  mkBoard (b_hostname b) (b_localIp b) (b_infos b ++ [mkInfo key val colorFunc]).

(** What a tick reads: the packet counters, the byte counters and the status. *)
Record reading := mkReading {
  r_send : Z;
  r_recv : Z;
  r_sendBytes : Z;
  r_recvBytes : Z;
  r_status : Z;
}.

(** The variables of the loop. *)
Record display := mkDisplay {
  sendHistory : list Z;
  recvHistory : list Z;
  lastSend : Z;
  lastRecv : Z;
}.

Definition newDisplay : display := mkDisplay (replicate 5 0) (replicate 5 0) 0 0.

Section board.
Context `{Pterm}.

(** The label of the bar [i]. *)
Definition barLabel (i : nat) : bytes :=
  if bool_decide (i = 4%nat) then string_bytes "NOW"
  else string_bytes "  -" ++ Itoa (4 - i) ++ string_bytes "s  ".

(** [history[i]] for the five bars; [None] is the index out of range. *)
Definition bars (history : list Z) : option (list (bytes * Z)) :=
  mapM (λ i, v ← history !! i; Some (barLabel i, v)) (seq 0 5).

Definition generateBar (sendH recvH : list Z) : option (bytes * bytes) :=
  s ← bars sendH; r ← bars recvH; Some (BarChart false s, BarChart true r).

(** [%v] of a [[4]byte]. *)
Definition sprintIp (ip : ip4) : bytes :=
  let '(a, b, c, d) := ip in
  [91] ++ Itoa (Z.to_nat a) ++ [32] ++ Itoa (Z.to_nat b) ++ [32] ++ Itoa (Z.to_nat c) ++ [32] ++ Itoa (Z.to_nat d) ++ [93].

Definition infoLine (i : Info) : bytes :=
  let key := LightCyan (info_key i ++ string_bytes ": ") in
  let val := info_val i ++ [10] in
  match info_colorFunc i with Some f => key ++ f val | None => key ++ val end.

(** [None]: [FormatBytes] indexed its suffixes out of range. *)
Definition generateInfo (sendB recvB : Z) (b : Board) : option bytes :=
  s ← FormatBytes sendB; r ← FormatBytes recvB;
  Some (Box (string_bytes "System Info")
    (LightCyan (string_bytes "Virtual Ip: ") ++ sprintIp (b_localIp b) ++ [10] ++
     LightCyan (string_bytes "Host Name: ") ++ b_hostname b ++ [10] ++
     (b_infos b ≫= infoLine) ++
     LightCyan (string_bytes "Send Bytes: " ++ s ++ [10]) ++
     LightCyan (string_bytes "Recv Bytes: " ++ r ++ [10]))).

(** [append(h[1:], int(cur-last))] *)
Definition pushHistory (h : list Z) (cur last : Z) : list Z := drop 1 h ++ [i64 (u64 (cur - last))].

(** One tick of [PerformanceUi]: what is drawn, the loop's variables, and
    whether it goes on.  The panels' titles carry a symbol in UTF-8. *)
Definition chartSign : bytes := [240; 159; 147; 138; 32].

Definition PerformanceUi_tick (b : Board) (r : reading) (d : display) : option (bytes * display * bool) :=
  versionInfo ← generateInfo (r_sendBytes r) (r_recvBytes r) b;
  let d := mkDisplay (pushHistory (sendHistory d) (r_send r) (lastSend d))
                     (pushHistory (recvHistory d) (r_recv r) (lastRecv d)) (r_send r) (r_recv r) in
  charts ← generateBar (sendHistory d) (recvHistory d);
  let '(sendBar, recvBar) := charts in
  let leftPanel := Panels [[LightCyan (chartSign ++ string_bytes "SEND PPS MONITOR")]; [sendBar]; [[]];
                           [LightGreen (chartSign ++ string_bytes "RECV PPS MONITOR")]; [recvBar]] in
  let statusBox := Box (string_bytes "Status") (LightCyan (string_bytes "Status: ") ++ LightYellow (STAT (r_status r))) in
  let rightTable := BoxedTable [[versionInfo]; [statusBox]] in
  Some (Panels [[leftPanel; rightTable]], d, negb (r_status r =? CLOSING)).

(** The loop: the contents drawn, the last variables, and whether it ended. *)
Fixpoint PerformanceUi (b : Board) (ticks : list reading) (d : display) : option (list bytes * display * bool) :=
  match ticks with
  | [] => Some ([], d, false)
  | r :: rest =>
      step ← PerformanceUi_tick b r d;
      let '(out, d, running) := step in
      if running : bool then
        next ← PerformanceUi b rest d;
        let '(outs, d, ended) := next in Some (out :: outs, d, ended)
      else Some ([out], d, true)
  end.

(** ** client_ui.go *)

Definition initUi (v : Vars) (b : Board) : Board :=
  let enabled k (on : bool) b :=
    if on then AddInfo k (string_bytes "Enable") (Some LightGreen) b
    else AddInfo k (string_bytes "Disable") (Some LightRed) b in
  let b := AddInfo (string_bytes "Receiver Count") (Itoa (Z.to_nat (RecvWorkers v))) (Some LightCyan) b in
  let b := AddInfo (string_bytes "Sender Count") (Itoa (Z.to_nat (SendWorkers v))) (Some LightCyan) b in
  let b := enabled (string_bytes "P2P status") (EnableP2P v) b in
  enabled (string_bytes "Compress") (EnableCompress v) b.
End board.

(** * Facts *)

(** [FormatBytes] never indexes its suffixes out of range. *)
Lemma FormatBytes_total b : 0 <= b < 2 ^ 64 → is_Some (FormatBytes b).
Proof.
  intros Hb. unfold FormatBytes. destruct (decide (b < 1024)) as [Hs|Hs].
  - unfold FormatBytes_unit. rewrite (proj2 (Z.ltb_lt _ _)) by done. by eexists.
  - destruct (FormatBytes_unit_in_range b) as (div & exp & -> & He & _); [lia|].
    destruct (format_suffixes !! exp) as [s|] eqn:E; [by eexists|]. apply lookup_ge_None in E. lia.
Qed.

(** The readings a tick can see. *)
Definition reading_ok (r : reading) : Prop :=
  Forall (λ z, 0 <= z < 2 ^ 64) [r_send r; r_recv r; r_sendBytes r; r_recvBytes r].

Section facts.
Context `{Pterm}.

Lemma bars_total h : length h = 5%nat → bars h = Some (zip (barLabel <$> seq 0 5) h).
Proof. by intros Hl; destruct h as [|? [|? [|? [|? [|? [|]]]]]]. Qed.

(** What the chart shows after the counter was read as [l], oldest first: the
    differences of the last six readings, padded with zeros. *)
Fixpoint differences (last : Z) (l : list Z) : list Z :=
  match l with
  | [] => []
  | x :: r => i64 (u64 (x - last)) :: differences x r
  end.

Definition lastFive (l : list Z) : list Z := drop (length l - 5) l.

(** Sliding the window and then appending is appending and then cutting. *)
Lemma lastFive_slide h x k : length h = 5%nat → lastFive ((drop 1 h ++ [x]) ++ k) = lastFive (h ++ x :: k).
Proof.
  intros Hl. unfold lastFive. destruct h as [|a h]; [done|]. cbn [drop]. rewrite drop_0, <- app_assoc.
  change ([x] ++ k) with (x :: k). rewrite !length_app. simpl in *. injection Hl as Hl. rewrite Hl. simpl.
  by rewrite Nat.sub_0_r.
Qed.

(** The ticks up to the first that sees the closing status. *)
Fixpoint untilClosing (ticks : list reading) : list reading :=
  match ticks with
  | [] => []
  | r :: rest => r :: if r_status r =? CLOSING then [] else untilClosing rest
  end.

Lemma tick_total b r d :
  reading_ok r → length (sendHistory d) = 5%nat → length (recvHistory d) = 5%nat →
  ∃ out, PerformanceUi_tick b r d =
    Some (out, mkDisplay (pushHistory (sendHistory d) (r_send r) (lastSend d))
                         (pushHistory (recvHistory d) (r_recv r) (lastRecv d)) (r_send r) (r_recv r),
          negb (r_status r =? CLOSING)).
Proof.
  intros Hr Hs Hc. unfold reading_ok in Hr. rewrite !list.Forall_cons in Hr. destruct Hr as (_ & _ & Hsb & Hrb & _).
  unfold PerformanceUi_tick, generateInfo. destruct (FormatBytes_total _ Hsb) as [s ->], (FormatBytes_total _ Hrb) as [q ->].
  cbn [mbind option_bind]. unfold generateBar.
  rewrite !bars_total by (unfold pushHistory; simpl; rewrite length_app, length_drop; simpl; lia). by eexists.
Qed.

Lemma PerformanceUi_spec b ticks d :
  Forall reading_ok ticks → length (sendHistory d) = 5%nat → length (recvHistory d) = 5%nat →
  ∃ outs d', PerformanceUi b ticks d = Some (outs, d', existsb (λ r, r_status r =? CLOSING) ticks) ∧
    length outs = length (untilClosing ticks) ∧
    sendHistory d' = lastFive (sendHistory d ++ differences (lastSend d) (r_send <$> untilClosing ticks)) ∧
    recvHistory d' = lastFive (recvHistory d ++ differences (lastRecv d) (r_recv <$> untilClosing ticks)).
Proof.
  intros Ht. revert d. induction Ht as [|r rest Hr Ht IH]; intros d Hs Hc.
  { exists [], d. simpl. unfold lastFive. by rewrite !app_nil_r, Hs, Hc. }
  cbn [PerformanceUi]. destruct (tick_total b r d Hr Hs Hc) as [out ->]. cbn [mbind option_bind existsb untilClosing].
  assert (∀ h c l, length h = 5%nat → length (pushHistory h c l) = 5%nat) as Hpush
    by (intros h c l Hl; unfold pushHistory; rewrite length_app, length_drop; simpl; lia).
  destruct (r_status r =? CLOSING); cbn [negb orb].
  - exists [out]. eexists. split; [done|]. simpl. unfold pushHistory.
    rewrite <- !lastFive_slide by done. rewrite !app_nil_r. unfold lastFive.
    rewrite !length_app, !length_drop, Hs, Hc. done.
  - destruct (IH (mkDisplay (pushHistory (sendHistory d) (r_send r) (lastSend d))
      (pushHistory (recvHistory d) (r_recv r) (lastRecv d)) (r_send r) (r_recv r))) as (outs & d' & -> & Hl & HS & HR);
      [by apply Hpush|by apply Hpush|]. cbn [mbind option_bind].
    exists (out :: outs), d'. split; [done|]. simpl in *. rewrite HS, HR, Hl. unfold pushHistory.
    by rewrite !lastFive_slide by done.
Qed.

(** The board never reads outside its histories or the unit names, draws once per
    tick, ends exactly with the first tick that sees the closing status, and
    its charts then show the last five differences of the packet counters. *)
Theorem board_window b ticks :
  Forall reading_ok ticks →
  ∃ outs d, PerformanceUi b ticks newDisplay = Some (outs, d, existsb (λ r, r_status r =? CLOSING) ticks) ∧
    length outs = length (untilClosing ticks) ∧
    sendHistory d = lastFive (replicate 5 0 ++ differences 0 (r_send <$> untilClosing ticks)) ∧
    recvHistory d = lastFive (replicate 5 0 ++ differences 0 (r_recv <$> untilClosing ticks)).
Proof. intros Ht. by apply PerformanceUi_spec. Qed.

(** The entries a client starts with, in the order they are shown. *)
Lemma initUi_entries v :
  info_key <$> b_infos (initUi v NewBoard) = string_bytes <$> ["Receiver Count"; "Sender Count"; "P2P status"; "Compress"]%string ∧
  info_val <$> b_infos (initUi v NewBoard) =
    [Itoa (Z.to_nat (RecvWorkers v)); Itoa (Z.to_nat (SendWorkers v));
     string_bytes (if EnableP2P v then "Enable" else "Disable"); string_bytes (if EnableCompress v then "Enable" else "Disable")].
Proof. unfold initUi. destruct (EnableP2P v), (EnableCompress v); done. Qed.
End facts.

(** A terminal without colours or frames. *)
#[export] Instance plain_pterm : Pterm := {
  LightCyan := id; LightGreen := id; LightRed := id; LightYellow := id;
  Box := λ title body, title ++ [10] ++ body;
  BarChart := λ _ l, l ≫= λ e, e.1 ++ Itoa (Z.to_nat e.2) ++ [10];
  Panels := λ l, mjoin (mjoin l);
  BoxedTable := λ l, mjoin (mjoin l);
}.

Definition ex_reading (n status : Z) : reading := mkReading n (2 * n) (1500 * n) 0 status.
Definition ex_ticks : list reading :=
  [ex_reading 10 RUNNING; ex_reading 30 RUNNING; ex_reading 60 RUNNING; ex_reading 100 RUNNING; ex_reading 150 RUNNING;
   ex_reading 210 RUNNING; ex_reading 280 CLOSING; ex_reading 999 CLOSING].

Lemma board_window_witness :
  ∃ outs d, PerformanceUi NewBoard ex_ticks newDisplay = Some (outs, d, true) ∧ length outs = 7%nat ∧
    sendHistory d = [30; 40; 50; 60; 70].
Proof.
  destruct (board_window NewBoard ex_ticks) as (outs & d & Hr & Hl & Hs & _).
  { repeat constructor; vm_compute; try discriminate; reflexivity. }
  exists outs, d. split; [exact Hr|]. split; [exact Hl|]. exact Hs.
Defined.
