(* ===== verification/Session.v ===== *)
(** The life of a client: the reconnection loop of [ListenAndServe] with its
    sockets, devices and board, and the goroutines of one session.

    [serve_round] is one iteration of the loop on the whole state.  A session
    runs as an [errgroup]: its goroutines are places in their loops, the step
    relation says how they move, fail, and leave when the context is
    cancelled; the hand-back of packets that waited for a handshake is one step
    for each.  The results are an exact account of the connections left open,
    that a cancelled session ends, except for one way in which it hangs, and
    what signals do to the program. *)

From stdpp Require Import base numbers relations list gmap option strings tactics.
From S2P Require Import Prelude GoStd Config Cipher Packet PacketFacts Stun Util Noise NoiseFacts Hub HubWs HubUdp.
From S2P Require Import Client ClientUdp Tun TunFacts Board.

Local Open Scope Z_scope.

(** ** Sockets *)

(** Connections are numbered in the order they are opened. *)
Record Sockets := mkSockets {
  so_next : nat;
  so_open : list nat;
  so_control : option nat;
  so_data : option nat;
}.

Definition noSockets : Sockets := mkSockets 0 [] None None.

Definition openControl (s : Sockets) : Sockets :=
  mkSockets (S (so_next s)) (so_next s :: so_open s) (Some (so_next s)) (so_data s).
Definition openData (s : Sockets) : Sockets :=
  mkSockets (S (so_next s)) (so_next s :: so_open s) (so_control s) (Some (so_next s)).

(** [conn.Close()]: closing again is harmless. *)
Definition closeConn (c : option nat) (s : Sockets) : Sockets :=
  mkSockets (so_next s) (filter (λ x, Some x ≠ c) (so_open s)) (so_control s) (so_data s).

Definition closeBoth (s : Sockets) : Sockets := closeConn (so_control s) (closeConn (so_data s) s).

(** ** The reconnection loop *)

Section serve.
Context `{AEAD, LZ4, Noise}.

Record Serve := mkServe {
  sv_t : ClientTransport;
  sv_sockets : Sockets;
  sv_retry : Z;
  sv_board : Board;
  sv_devices : list bool;         (** the senders of the devices opened so far *)
}.

(** What the outside does in one iteration: the NAT probe, whether dialling and
    listening succeed and what the addresses resolve to, the message that
    answers the handshake ([None] when the socket fails), whether the device can
    be made, what the session makes of the transport, how it ends, and whether
    the program is being stopped. *)
Record round := mkRound {
  rd_nat : res Z;
  rd_dial : bool;
  rd_listen : bool;
  rd_serverAddr : addrPort;
  rd_checkAddr : addrPort;
  rd_reply : option bytes;
  rd_device : bool;
  rd_session : ClientTransport → ClientTransport;
  rd_sessionErr : bool;
  rd_cancelled : bool;
}.

(** How an iteration ends: after a wait (for a failure), at the end of a
    session, by returning, or by a panic of [NewTun]. *)
Inductive ending : Type := Again (wait : option Z) | Returns | ServePanics.

Definition set_addrs (server check : addrPort) (t : ClientTransport) : ClientTransport :=
  mkTransport (ct_natType t) (sendPacketCount t) (recvPacketCount t) (ct_status t) (sendBytes t) (recvBytes t)
    (FromNet t) (ControlSendChan t) server check (p2pRouter t) (localIp t) (ct_pool t) (noiseMgr t) (deviceIp t).

(** client_control.go: [connectServer]. *)
Definition connectServer (r : round) (t : ClientTransport) (s : Sockets) : bool * ClientTransport * Sockets :=
  if rd_dial r then
    let s := openControl s in
    let t := set_addrs (rd_serverAddr r) (rd_checkAddr r) t in
    if rd_listen r then (true, t, openData s) else (false, t, s)
  else (false, t, s).

(** [backoffWait] and the [continue] or [return] behind it. *)
Definition retryLater (r : round) (t : ClientTransport) (s : Sockets) (sv : Serve) : ending * Serve :=
  let '(d, retry, t) := backoffWait (sv_retry sv) t in
  (if rd_cancelled r then Returns else Again (Some d), mkServe t s retry (sv_board sv) (sv_devices sv)).

(** Step C with the board and the device. *)
Definition syncDevice (reply : GamePacket) (t : ClientTransport) (b : Board) (devices : list bool)
    : Board * list bool :=
  let newVip := Destination reply in
  if bool_decide (localIp t = Some newVip) then (b, devices)
  else (InitHostName (sdata (Payload reply) ++ string_bytes ".et") (InitLocalIp newVip b), replaceDevice devices).

(** A panic of [NewTun] ends the process. *)
Definition serve_round (v : Vars) (r : round) (sv : Serve) : ending * Serve :=
  let t := set_status CONNECT (probeNat (EnableP2P v) (rd_nat r) (sv_t sv)) in
  match connectServer r t (sv_sockets sv) with
  | (false, t, s) => retryLater r t s sv
  | (true, t, s) =>
      let '(_, shaken, t) := handshake (ClientID v) (DeviceName v) (rd_reply r) (set_status INTINETWORK t) in
      match shaken with
      | Err _ => retryLater r t (closeConn (so_data s) s) sv
      | Ok reply =>
          if negb (rd_device r) && negb (bool_decide (localIp t = Some (Destination reply)))
          then (ServePanics, mkServe t s (sv_retry sv) (sv_board sv) (sv_devices sv))
          else
            let '(b, devices) := syncDevice reply t (sv_board sv) (sv_devices sv) in
            let t := rd_session r (set_status RUNNING (syncVirtualIp reply t)) in
            let t := if rd_sessionErr r then session_lost t else t in
            (if rd_cancelled r then Returns else Again None, mkServe t (closeBoth s) 0 b devices)
      end
  end.

Definition serve_start (v : Vars) (pt : Pterm) (t : ClientTransport) : Serve :=
  mkServe t noSockets 0 (initUi v NewBoard) [].

(** The fields of the library's IPv4 header that the broadcast test sets. *)
Record ipv4Header := mkHeader {
  h_Version : Z; h_Len : Z; h_TOS : Z; h_TotalLen : Z; h_TTL : Z; h_Protocol : Z; h_Dst : ip4; h_Src : option ip4;
}.

(** cmd/client/main.go: the arguments of [ListenAndServe], from the flags [-t]
    and [-i]; the second is a pointer. *)
Definition testArgs (isTest : bool) (interval : Z) : bool * option Z :=
  if isTest then (isTest, Some interval) else (isTest, None).

(** client_ui.go: [testBroadCast] up to its loop: the ticker's period and the
    packet.  [marshal] is the library's [Header.Marshal]. *)
Definition broadCastHeader (t : ClientTransport) : ipv4Header :=
  mkHeader 4 20 0 20 64 17 (255, 255, 255, 255) (localIp t).
Definition testBroadCast_start (marshal : ipv4Header → option bytes) (second : Z) (t : ClientTransport)
    : flow (Z * bytes) :=
  match NewTicker (i64 (1000000 * second)) with
  | None => Panics
  | Some period => match marshal (broadCastHeader t) with None => Stops | Some bch => Next (period, bch) end
  end.

(** How [ListenAndServe] starts it: [*testSecond] is read only with the flag. *)
Definition startTest (marshal : ipv4Header → option bytes) (args : bool * option Z) (t : ClientTransport)
    : flow (option (Z * bytes)) :=
  if args.1 then
    match args.2 with
    | None => Panics
    | Some second =>
        match testBroadCast_start marshal second t with
        | Next b => Next (Some b) | Blocks => Blocks | Stops => Stops | Panics => Panics
        end
    end
  else Next None.

(** A tick of the test sends the same header every time.  The send has no other
    way out. *)
Definition testBroadCast_tick (bch : gslice) (t : ClientTransport) : flow ClientTransport :=
  if bool_decide (length (FromTun t) < fromTunCap)%nat then Next (set_FromTun (FromTun t ++ [bch]) t) else Blocks.

(** Iterations until the loop returns or panics. *)
Fixpoint serve (v : Vars) (rounds : list round) (sv : Serve) : list ending * Serve :=
  match rounds with
  | [] => ([], sv)
  | r :: rest =>
      match serve_round v r sv with
      | (Again w, sv) => let '(l, sv) := serve v rest sv in (Again w :: l, sv)
      | (e, sv) => ([e], sv)
      end
  end.

(** ** cmd/client/main.go: signals *)

Inductive signal : Type := SIGINT | SIGTERM | OtherSignal.

(** The channel with room for one, and whether the context is cancelled; the
    goroutine that waits takes one signal and returns. *)
Record Main := mkMain { m_sigChan : list signal; m_waiting : bool; m_cancelled : bool }.

Definition main_start : Main := mkMain [] true false.

(** [signal.Notify]: the runtime passes a signal on without blocking. *)
Definition Notify (s : signal) (m : Main) : Main :=
  match s with
  | SIGINT | SIGTERM =>
      if bool_decide (length (m_sigChan m) < 1)%nat
      then mkMain (m_sigChan m ++ [s]) (m_waiting m) (m_cancelled m) else m
  | OtherSignal => m
  end.

Definition waiter_step (m : Main) : Main :=
  match m_sigChan m with
  | s :: rest => if m_waiting m then mkMain rest false true else m
  | [] => m
  end.

(** ** Facts: sockets *)

(** Connections have numbers below the counter, each once. *)
Definition sockets_wf (s : Sockets) : Prop := NoDup (so_open s) ∧ Forall (λ x, x < so_next s)%nat (so_open s).

(** A message the handshake takes: one whose header is in order. *)
Definition accepted (reply : option bytes) : bool :=
  match reply with
  | Some content => match parseHeader content (parse_mode content None) with Ok _ => true | Err _ => false end
  | None => false
  end.

Lemma handshake_accepted id name reply t :
  match (handshake id name reply t).1.2 with Ok _ => true | Err _ => false end = accepted reply.
Proof.
  unfold handshake. destruct (alloc _ _) as [payload p]. destruct (EncodePacket _ _ _ _ _) as [[[d g] p1] c].
  destruct reply as [content|]; [|done]. simpl. destruct (decide (len content <= MaxPacketSize)) as [Hl|Hl].
  - destruct (ParsePacket_unfold (Put (reslice 0 (default nil_slice d)) p1) g content true None Hl) as (b & p2 & Hb & _ & ->).
    unfold parse. rewrite Hb. by destruct (parseHeader _ _) as [[[[]]]|].
  - unfold ParsePacket, parseHeader. rewrite (proj2 (Z.ltb_lt MaxPacketSize _)) by lia. simpl.
    by destruct (len content <? _).
Qed.

(** A round that leaves a connection behind: listening failed after dialling,
    or the handshake failed. *)
Definition leaks (r : round) : bool :=
  rd_dial r && (negb (rd_listen r) || negb (accepted (rd_reply r))).

Lemma filter_fresh n l : Forall (λ x, x < n)%nat l → filter (λ x, Some x ≠ Some n) l = l.
Proof.
  induction 1 as [|x l Hx _ IH]; [done|]. rewrite filter_cons, decide_True by (intros [= ->]; lia). by rewrite IH.
Qed.

Lemma round_sockets v r sv e sv' :
  serve_round v r sv = (e, sv') → e ≠ ServePanics → sockets_wf (sv_sockets sv) →
  sockets_wf (sv_sockets sv') ∧
  so_open (sv_sockets sv') = (if leaks r then [so_next (sv_sockets sv)] else []) ++ so_open (sv_sockets sv).
Proof.
  intros Hr He [Hnd Hlt]. unfold serve_round, connectServer, retryLater, leaks, sockets_wf in *.
  set (t0 := set_status _ _) in Hr. destruct (sv_sockets sv) as [n o c d]. simpl in *.
  pose proof (filter_fresh n o Hlt) as Hn.
  assert (filter (λ x, Some x ≠ Some (S n)) o = o) as Hn1
    by (apply filter_fresh; eapply list.Forall_impl; [exact Hlt|]; simpl; lia).
  assert (n ∉ o) as Hno by (intros Hin; rewrite list.Forall_forall in Hlt; specialize (Hlt _ Hin); lia).
  assert (Forall (λ x, x < S n)%nat o ∧ Forall (λ x, x < S (S n))%nat o) as [Hl1 Hl2]
    by (split; eapply list.Forall_impl; [exact Hlt| |exact Hlt|]; simpl; lia).
  destruct (rd_dial r); [|simplify_eq; simpl; done].
  destruct (rd_listen r); [|simplify_eq; simpl;
    split; [split; [by constructor|constructor; [lia|done]]|done]].
  pose proof (handshake_accepted (ClientID v) (DeviceName v) (rd_reply r)
    (set_status INTINETWORK (set_addrs (rd_serverAddr r) (rd_checkAddr r) t0))) as Ha.
  destruct (handshake _ _ _ _) as [[w [reply|err]] t1]; simpl in Ha; rewrite <- Ha.
  - destruct (negb _ && negb _); [simplify_eq; done|]. destruct (syncDevice _ _ _ _) as [b devs]. simplify_eq. simpl.
    rewrite !filter_cons. rewrite (decide_False (P := Some (S n) ≠ Some (S n))) by naive_solver.
    rewrite (decide_True (P := Some n ≠ Some (S n))) by (intros [=]; lia).
    rewrite filter_cons, (decide_False (P := Some n ≠ Some n)) by naive_solver. rewrite Hn1, Hn. done.
  - simplify_eq. simpl.
    rewrite !filter_cons. rewrite (decide_False (P := Some (S n) ≠ Some (S n))) by naive_solver.
    rewrite (decide_True (P := Some n ≠ Some (S n))) by (intros [=]; lia). rewrite Hn1.
    split; [split; [by constructor|constructor; [lia|done]]|done].
Qed.

(** C25: an exact account of the client's connections: a session, however it ends,
    leaves none behind, and the connections still open are one for every
    iteration so far in which the data socket could not be opened or the
    handshake failed. *)
Theorem connections_left_open v rounds sv endings sv' :
  serve v rounds sv = (endings, sv') → ServePanics ∉ endings → sockets_wf (sv_sockets sv) →
  length (so_open (sv_sockets sv')) =
    (length (filter (λ r, leaks r = true) (take (length endings) rounds)) + length (so_open (sv_sockets sv)))%nat.
Proof.
  revert sv endings. induction rounds as [|r rest IH]; intros sv endings; cbn [serve]; [by intros [= <- <-]|].
  destruct (serve_round v r sv) as [e sv1] eqn:Er. intros Hs Hp Hwf.
  assert (e ≠ ServePanics → length (so_open (sv_sockets sv1)) =
    ((if leaks r then 1 else 0) + length (so_open (sv_sockets sv)))%nat ∧ sockets_wf (sv_sockets sv1)) as H1'.
  { intros He. destruct (round_sockets _ _ _ _ _ Er He Hwf) as [Hw ->]. rewrite length_app. by destruct (leaks r). }
  destruct e as [w| |]; [|simplify_eq; simpl; rewrite filter_cons, take_0; destruct H1' as [-> _]; [done|];
    by destruct (leaks r)|by simplify_eq; set_solver].
  destruct (serve v rest sv1) as [l sv2] eqn:El. simplify_eq. destruct H1' as [Hl Hw]; [done|].
  rewrite (IH sv1 l El) by (set_solver || done). rewrite Hl. simpl. rewrite filter_cons. destruct (leaks r); simpl; lia.
Qed.

(** The test's header is recycled with the first packet, while the test keeps it
    for the next. *)
Lemma broadcast_header_shared wr comp now bch w t out w' t' :
  sid bch ≠ 0%nat → lastByte (to_ip4 (sub (sdata bch) 16 20)) = 255 → isDNS (sdata bch) (Dns t) = false →
  packetSend_one wr false comp now bch w t = Next (out, w', t') → ¬ owned [bch] (ct_pool t').
Proof.
  intros Hsid Hlast Hdns. unfold packetSend_one. rewrite Hdns, Hlast. cbn [negb Z.eqb Pos.eqb].
  destruct (EncodePacket _ _ _ _ _) as [[[data gp] pl] cs] eqn:Ee. apply EncodePacket_payload in Ee. simpl in Ee.
  destruct (sendData _ _ _ _ _) as [o t1] eqn:Es. intros [= <- <- <-].
  assert (ct_pool t1 = Put (reslice 0 (default nil_slice data)) (Put (reslice 0 (Payload gp)) pl)) as ->
    by (unfold sendData in Es; repeat case_match; simplify_eq; done).
  rewrite Ee. intros (Hn & _). unfold Put in Hn. simpl in Hn. rewrite !ids_cons in Hn. simpl in Hn.
  rewrite (decide_False (P := sid bch = 0%nat)) in Hn by done. simpl in Hn. apply list.NoDup_cons in Hn as [Hn _].
  apply Hn. rewrite elem_of_app. right. by left.
Qed.

(** Signals in any order with the steps of the goroutine, [None]: the first
    interrupt or termination cancels the program; all later ones do nothing. *)
Definition main_run (l : list (option signal)) (m : Main) : Main :=
  foldl (λ m e, match e with Some s => Notify s m | None => waiter_step m end) m l.

Lemma main_step_waits e m :
  (m_cancelled m = false ↔ m_waiting m = true) →
  let m' := match e with Some s => Notify s m | None => waiter_step m end in
  (m_cancelled m' = false ↔ m_waiting m' = true) ∧ (m_cancelled m = true → m_cancelled m' = true).
Proof.
  destruct m as [c w b]. simpl. intros Hm. destruct e as [[]|]; simpl; try case_bool_decide; try done.
  unfold waiter_step. simpl. destruct c; [done|]. destruct w; simpl; [|done]. split; [done|done].
Qed.

Lemma main_run_waits l : m_cancelled (main_run l main_start) = false ↔ m_waiting (main_run l main_start) = true.
Proof.
  induction l as [|e l IH] using rev_ind; [done|]. unfold main_run in *. rewrite foldl_app. by apply main_step_waits.
Qed.

Lemma signals_once l k : m_cancelled (main_run l main_start) = true → m_cancelled (main_run (l ++ k) main_start) = true.
Proof.
  intros Hc. induction k as [|e k IH] using rev_ind; [by rewrite app_nil_r|]. rewrite app_assoc.
  pose proof (main_run_waits (l ++ k)) as Hw. unfold main_run in *. rewrite foldl_app. by apply main_step_waits.
Qed.

Lemma signal_cancels l s : s ≠ OtherSignal → m_cancelled (main_run (l ++ [Some s; None]) main_start) = true.
Proof.
  intros Hs. destruct (m_cancelled (main_run l main_start)) eqn:Hc; [by apply signals_once|].
  apply main_run_waits in Hc. unfold main_run in *. rewrite foldl_app. destruct (foldl _ main_start l) as [c w b]. simpl in *.
  subst w. destruct s; [| |done]; simpl; case_bool_decide; destruct c; simpl in *; done || lia.
Qed.
End serve.

(** ** The goroutines of a session *)

(** What [ListenAndServe] starts in a session's group. *)
Inductive kind : Type :=
  ControlRecv | ControlSend | Heartbeat | PacketRecv | PacketSend | HandleP2P | TestBroadCast | Closer.

#[export] Instance kind_eq_dec : EqDecision kind.
Proof. solve_decision. Defined.

(** Where a goroutine is: in a [select] that also waits for the context; in a
    call on its socket; in a send on [FromTun] that waits for nothing else, with
    the number of packets it has still to send there; waiting for the mutex of a
    Noise session that another goroutine holds while it hands back the session's
    packets; or returned. *)
Inductive place : Type := AtSelect | AtSocket | AtQueue (todo : nat) | AtLock (holder : nat) | Returned.

#[export] Instance place_eq_dec : EqDecision place.
Proof. solve_decision. Defined.

(** The place a goroutine's loop comes back to. *)
Definition home (k : kind) : place :=
  match k with ControlRecv | PacketRecv => AtSocket | _ => AtSelect end.

(** The goroutines started with a configuration; [test] is the broadcast test. *)
Definition sessionWorkers (v : Vars) (test : bool) : list kind :=
  [ControlRecv; ControlSend; Heartbeat] ++ replicate (Z.to_nat (RecvWorkers v)) PacketRecv ++
  replicate (Z.to_nat (SendWorkers v)) PacketSend ++ (if EnableP2P v then [HandleP2P] else []) ++
  (if test then [TestBroadCast] else []) ++ [Closer].

(** [s_room]: free places in [FromTun]. *)
Record session := mkSession' {
  s_workers : list (kind * place);
  s_cancelled : bool;
  s_controlClosed : bool;
  s_dataClosed : bool;
  s_room : nat;
}.

Definition session_start (v : Vars) (test : bool) (room : nat) : session :=
  mkSession' ((λ k, (k, home k)) <$> sessionWorkers v test) false false false room.

Definition moveTo (i : nat) (k : kind) (p : place) (s : session) : session :=
  mkSession' (<[i := (k, p)]> (s_workers s)) (s_cancelled s) (s_controlClosed s) (s_dataClosed s) (s_room s).
Definition set_room (n : nat) (s : session) : session :=
  mkSession' (s_workers s) (s_cancelled s) (s_controlClosed s) (s_dataClosed s) n.
Definition cancel (s : session) : session :=
  mkSession' (s_workers s) true (s_controlClosed s) (s_dataClosed s) (s_room s).
Definition close_control (s : session) : session :=
  mkSession' (s_workers s) (s_cancelled s) true (s_dataClosed s) (s_room s).
Definition close_all (s : session) : session :=
  mkSession' (s_workers s) (s_cancelled s) true true (s_room s).

(** [controlRecv] closes the control connection when it returns. *)
Definition leave (i : nat) (k : kind) (s : session) : session :=
  let s := moveTo i k Returned s in
  match k with ControlRecv => close_control s | Closer => close_all s | _ => s end.

(** Whether the socket a goroutine works on is closed. *)
Definition socketClosed (k : kind) (s : session) : bool :=
  match k with ControlRecv | ControlSend => s_controlClosed s | _ => s_dataClosed s end.

(** Goroutines that can return an error of their own. *)
Definition canFail (k : kind) : bool :=
  match k with ControlRecv | ControlSend | Heartbeat | PacketRecv => true | _ => false end.

(** Whether goroutine [j] is in a send on [FromTun]. *)
Definition at_queue (p : place) : bool := match p with AtQueue _ => true | _ => false end.
Definition held (s : session) (j : nat) : bool := from_option (λ w, at_queue w.2) false (s_workers s !! j).

(** Where a goroutine goes after one of its sends. *)
Definition sent (k : kind) (todo : nat) : place := match todo with S (S n) => AtQueue (S n) | _ => home k end.

(** Steps on the way out of a cancelled session. *)
Inductive shutdown_step : session → session → Prop :=
  | sd_done s i k :
      s_workers s !! i = Some (k, AtSelect) → s_cancelled s = true → shutdown_step s (leave i k s)
  | sd_closed s i k :
      s_workers s !! i = Some (k, AtSocket) → s_cancelled s = true → socketClosed k s = true →
      shutdown_step s (leave i k s)
  | sd_enqueue s i k todo room :
      s_workers s !! i = Some (k, AtQueue todo) → s_room s = S room →
      shutdown_step s (set_room room (moveTo i k (sent k todo) s))
  | sd_unlock s i k j :
      s_workers s !! i = Some (k, AtLock j) → held s j = false → shutdown_step s (moveTo i k (home k) s).

(** All steps.  A goroutine that fails cancels the group; [packetRecv] sends the
    packets that waited for a handshake, 24 at most, to [FromTun] when it ends,
    and holds the mutex of the session while it does, the broadcast test sends
    one packet at a time; [packetSend] takes packets out, the device puts them
    in. *)
Inductive session_step : session → session → Prop :=
  | st_shutdown s s' : shutdown_step s s' → session_step s s'
  | st_cancel s : session_step s (cancel s)
  | st_fail s i k p :
      s_workers s !! i = Some (k, p) → p = AtSelect ∨ p = AtSocket → canFail k = true →
      session_step s (cancel (leave i k s))
  | st_observe s i k :
      s_workers s !! i = Some (k, AtSocket) → k = ControlRecv ∨ k = PacketRecv → s_cancelled s = true →
      session_step s (leave i k s)
  | st_write s i : s_workers s !! i = Some (ControlSend, AtSelect) → session_step s (moveTo i ControlSend AtSocket s)
  | st_written s i : s_workers s !! i = Some (ControlSend, AtSocket) → session_step s (moveTo i ControlSend AtSelect s)
  | st_deliver s i todo :
      s_workers s !! i = Some (PacketRecv, AtSocket) → (1 <= todo <= pendingCap)%nat →
      session_step s (moveTo i PacketRecv (AtQueue todo) s)
  | st_lock s i j todo :
      s_workers s !! i = Some (PacketRecv, AtSocket) → s_workers s !! j = Some (PacketRecv, AtQueue todo) →
      session_step s (moveTo i PacketRecv (AtLock j) s)
  | st_broadcast s i :
      s_workers s !! i = Some (TestBroadCast, AtSelect) → session_step s (moveTo i TestBroadCast (AtQueue 1) s)
  | st_drain s i :
      s_workers s !! i = Some (PacketSend, AtSelect) → (s_room s < fromTunCap)%nat → session_step s (set_room (S (s_room s)) s)
  | st_fill s room : s_room s = S room → session_step s (set_room room s).

Abbreviation session_run := (rtc session_step).

(** The group's [Wait] returns. *)
Definition all_returned (s : session) : Prop := Forall (λ w, w.2 = Returned) (s_workers s).

(** A goroutine that waits: a receiver or the broadcast test for room in
    [FromTun], or a receiver for the mutex of a session whose holder does. *)
Definition waits (s : session) (w : kind * place) : bool :=
  match w with
  | (PacketRecv, AtQueue _) | (TestBroadCast, AtQueue _) => true
  | (PacketRecv, AtLock j) => held s j
  | _ => false
  end.

(** The group waits for ever: everyone has returned but some that wait, and there
    is no room in [FromTun]. *)
Definition hung (s : session) : Prop :=
  s_room s = 0%nat ∧ Forall (λ w, w.2 = Returned ∨ waits s w = true) (s_workers s) ∧
  Exists (λ w, at_queue w.2 = true) (s_workers s).

(** ** Facts: the session *)

Definition placeOk (k : kind) (p : place) : Prop :=
  match p with
  | AtSocket => k = ControlRecv ∨ k = ControlSend ∨ k = PacketRecv
  | AtQueue todo => (k = PacketRecv ∨ k = TestBroadCast) ∧ (1 <= todo <= pendingCap)%nat
  | AtLock _ => k = PacketRecv
  | AtSelect | Returned => True
  end.

(** The goroutine that closes the sockets is waiting, or they are closed. *)
Definition session_inv (s : session) : Prop :=
  ((∃ i, s_workers s !! i = Some (Closer, AtSelect)) ∨ (s_controlClosed s = true ∧ s_dataClosed s = true)) ∧
  ∀ i k p, s_workers s !! i = Some (k, p) → placeOk k p.

Lemma inv_move s i k p p' :
  session_inv s → s_workers s !! i = Some (k, p) → k ≠ Closer → placeOk k p' → session_inv (moveTo i k p' s).
Proof.
  intros [Hc Hp] Hi Hk Hok. split; simpl.
  - destruct Hc as [[j Hj]|]; [left|by right]. exists j.
    destruct (decide (i = j)) as [->|]; [congruence|]. by rewrite list_lookup_insert_ne.
  - intros j k' q Hj. destruct (decide (i = j)) as [->|Hne].
    + rewrite list_lookup_insert_eq in Hj by (by eapply lookup_lt_Some). by simplify_eq.
    + rewrite list_lookup_insert_ne in Hj by done. by eapply Hp.
Qed.

(** Closing sockets, cancelling and the queue do not matter to it. *)
Lemma inv_weaken s s' :
  session_inv s → s_workers s' = s_workers s →
  (s_controlClosed s = true → s_controlClosed s' = true) → (s_dataClosed s = true → s_dataClosed s' = true) → session_inv s'.
Proof. intros [[Hc|[H1 H2]] Hp] Hw Ha Hb; (split; [|by rewrite Hw]); rewrite ?Hw; auto. Qed.

Lemma inv_leave s i k p : session_inv s → s_workers s !! i = Some (k, p) → session_inv (leave i k s).
Proof.
  intros Hinv Hi. destruct (decide (k = Closer)) as [->|Hk].
  - split; [by right|]. simpl. intros j k' q Hj. destruct (decide (i = j)) as [->|Hne].
    + rewrite list_lookup_insert_eq in Hj by (by eapply lookup_lt_Some). by simplify_eq.
    + rewrite list_lookup_insert_ne in Hj by done. by eapply Hinv.
  - pose proof (inv_move s i k p Returned Hinv Hi Hk I) as Hm. destruct k; try done. by eapply inv_weaken.
Qed.

Lemma placeOk_home k : placeOk k (home k).
Proof. destruct k; simpl; auto. Qed.

Lemma placeOk_sent k todo : placeOk k (AtQueue todo) → placeOk k (sent k todo).
Proof. intros [Hk Hl]. destruct todo as [|[|n]]; [apply placeOk_home..|]. simpl in *. split; [done|lia]. Qed.

Lemma inv_step s s' : session_step s s' → session_inv s → session_inv s'.
Proof.
  destruct 1 as [s s' Hs|s|s i k p Hi Hp Hf|s i k Hi Hk Hc|s i Hi|s i Hi|s i todo Hi Hl|s i j todo Hi Hj|s i Hi|s i Hi Hr|s room Hr]; intros Hinv.
  - destruct Hs as [s i k Hi Hc|s i k Hi Hc Hcl|s i k todo room Hi Hr|s i k j Hi Hf]; [by eapply inv_leave|by eapply inv_leave| |].
    + pose proof (proj2 Hinv _ _ _ Hi) as Hq.
      eapply inv_weaken; [eapply (inv_move s i k (AtQueue todo) (sent k todo)); [done|done| |by apply placeOk_sent]|done..].
      intros ->. by destruct Hq as [[|] _].
    + eapply (inv_move s i k (AtLock j) (home k)); [done|done| |apply placeOk_home].
      intros ->. pose proof (proj2 Hinv _ _ _ Hi). done.
  - by eapply inv_weaken.
  - eapply inv_weaken; [by eapply inv_leave|done..].
  - by eapply inv_leave.
  - eapply inv_move; [done|done|done|simpl; auto].
  - eapply inv_move; [done|done|done|done].
  - eapply inv_move; [done|done|done|simpl; auto].
  - eapply inv_move; [done|done|done|done].
  - eapply inv_move; [done|done|done|simpl; unfold pendingCap; auto with lia].
  - by eapply inv_weaken.
  - by eapply inv_weaken.
Qed.

Lemma inv_start v test room : session_inv (session_start v test room).
Proof.
  split; unfold session_start; cbn [s_workers].
  - left. apply list_elem_of_lookup, list_elem_of_fmap. exists Closer. split; [done|].
    unfold sessionWorkers. rewrite !elem_of_app. do 5 right. by constructor.
  - intros i k p Hi. apply list_lookup_fmap_Some in Hi as (k' & [= -> ->] & _). apply placeOk_home.
Qed.

(** *** Shutting down ends *)

(** The steps a goroutine needs from a place. *)
Definition weight (p : place) : nat :=
  match p with AtQueue todo => S todo | AtLock _ => 2 | AtSelect | AtSocket => 1 | Returned => 0 end.
Definition remaining (s : session) : nat := sum_list_with (λ w, weight w.2) (s_workers s).

Lemma remaining_move l i (k : kind) p p' :
  l !! i = Some (k, p) →
  (sum_list_with (λ w, weight w.2) (<[i := (k, p')]> l) + weight p = sum_list_with (λ w, weight w.2) l + weight p')%nat.
Proof.
  revert i. induction l as [|[k0 p0] l IH]; intros [|i] Hi; simpl in *; simplify_eq; [lia|]. specialize (IH _ Hi). lia.
Qed.

Lemma remaining_leave s i k p :
  s_workers s !! i = Some (k, p) → (remaining (leave i k s) + weight p = remaining s)%nat.
Proof.
  intros Hi. pose proof (remaining_move _ _ _ _ Returned Hi) as Hm. unfold remaining, leave. destruct k; simpl in *; lia.
Qed.

Lemma weight_home k : weight (home k) = 1%nat.
Proof. by destruct k. Qed.

Lemma shutdown_decreases s s' : session_inv s → shutdown_step s s' → (remaining s' < remaining s)%nat.
Proof.
  intros Hinv. destruct 1 as [s i k Hi Hc|s i k Hi Hc Hcl|s i k todo room Hi Hr|s i k j Hi Hf].
  - pose proof (remaining_leave _ _ _ _ Hi). simpl in *. lia.
  - pose proof (remaining_leave _ _ _ _ Hi). simpl in *. lia.
  - pose proof (remaining_move _ _ _ _ (sent k todo) Hi) as Hm. destruct (proj2 Hinv _ _ _ Hi) as [_ Hl].
    unfold remaining. simpl in *. destruct todo as [|[|n]]; simpl in *; rewrite ?weight_home in Hm; lia.
  - pose proof (remaining_move _ _ _ _ (home k) Hi) as Hm. rewrite weight_home in Hm. unfold remaining. simpl in *. lia.
Qed.

Lemma shutdown_keeps s s' : shutdown_step s s' → s_cancelled s' = s_cancelled s.
Proof. destruct 1 as [s i k|s i k| |]; [by destruct k|by destruct k|done|done]. Qed.

(** Somebody can always leave, unless the group hangs. *)
Lemma shutdown_progress s :
  session_inv s → s_cancelled s = true → all_returned s ∨ hung s ∨ ∃ s', shutdown_step s s'.
Proof.
  intros [Hc Hp] Hcan.
  destruct (decide (Exists (λ w, w.2 = AtSelect) (s_workers s))) as [Hs|Hs].
  { right; right. apply list.Exists_exists in Hs as ([k p] & Hin & Heq). simpl in Heq. subst p.
    apply list_elem_of_lookup in Hin as [i Hi]. eexists. by eapply sd_done. }
  assert (s_controlClosed s = true ∧ s_dataClosed s = true) as [Hcl1 Hcl2].
  { destruct Hc as [[i Hi]|]; [|done]. exfalso. apply Hs, list.Exists_exists. exists (Closer, AtSelect). split; [|done].
    by eapply list_elem_of_lookup_2. }
  destruct (decide (Exists (λ w, w.2 = AtSocket) (s_workers s))) as [Ht|Ht].
  { right; right. apply list.Exists_exists in Ht as ([k p] & Hin & Heq). simpl in Heq. subst p.
    apply list_elem_of_lookup in Hin as [i Hi]. eexists. eapply sd_closed; [done|done|]. by destruct k. }
  destruct (decide (Exists (λ w, match w.2 with AtLock j => negb (held s j) | _ => false end = true) (s_workers s))) as [Hk|Hk].
  { right; right. apply list.Exists_exists in Hk as ([k []] & Hin & Heq); try done. simpl in Heq. apply negb_true_iff in Heq.
    apply list_elem_of_lookup in Hin as [i Hi]. eexists. by eapply sd_unlock. }
  assert (Forall (λ w, w.2 = Returned ∨ waits s w = true) (s_workers s)) as Hall.
  { apply list.Forall_forall. intros [k p] Hin. rewrite list.Exists_exists in Hs, Ht, Hk.
    pose proof Hin as [i Hi]%list_elem_of_lookup. pose proof (Hp _ _ _ Hi) as Hok.
    destruct p as [| |todo|j|]; simpl; auto; try (exfalso; by eauto); right.
    - by destruct Hok as [[-> | ->] _].
    - simpl in Hok. subst k. apply not_false_iff_true. intros Hf. apply Hk. exists (PacketRecv, AtLock j). simpl. by rewrite Hf. }
  destruct (decide (Exists (λ w, at_queue w.2 = true) (s_workers s))) as [Hq|Hq].
  - right. destruct (s_room s) as [|room] eqn:Er; [by left|]. right.
    apply list.Exists_exists in Hq as ([k []] & Hin & Heq); try done.
    apply list_elem_of_lookup in Hin as [i Hi]. eexists. by eapply sd_enqueue.
  - left. apply list.Forall_forall. intros w Hin. rewrite list.Forall_forall in Hall.
    destruct (Hall w Hin) as [|Hw]; [done|]. exfalso. rewrite list.Exists_exists in Hq. apply Hq.
    destruct w as [[] [| |todo|j|]]; try done; try (by eexists). simpl in Hw. unfold held in Hw.
    destruct (s_workers s !! j) as [w'|] eqn:Ej; [|done]. exists w'. split; [by eapply list_elem_of_lookup_2|done].
Qed.

(** A hung session stays hung. *)
Lemma hung_stuck s s' : s_cancelled s = true → hung s → session_step s s' → s' = s.
Proof.
  intros Hcan (Hroom & Hall & _) Hst.
  assert (∀ i k p, s_workers s !! i = Some (k, p) → p = Returned ∨ waits s (k, p) = true) as Hno
    by (intros i k p Hi; exact (proj1 (Forall_lookup _ _) Hall _ _ Hi)).
  assert (∀ i k p, s_workers s !! i = Some (k, p) → p = AtSelect ∨ p = AtSocket → False) as Hno'
    by (intros i k p Hi [-> | ->]; destruct (Hno _ _ _ Hi); by destruct k).
  destruct Hst as [s s' Hs|s|s i k p Hi Hp Hf|s i k Hi Hk Hc|s i Hi|s i Hi|s i todo Hi Hl|s i j todo Hi Hj|s i Hi|s i Hi Hr|s room Hr];
    try (exfalso; eapply Hno'; [exact Hi|by auto]).
  - destruct Hs as [s i k Hi Hc|s i k Hi Hc Hcl|s i k todo room Hi Hr|s i k j Hi Hf]; try (exfalso; eapply Hno'; [exact Hi|by auto]); [congruence|].
    exfalso. destruct (Hno _ _ _ Hi) as [|Hw]; [done|]. destruct k; simpl in Hw; congruence.
  - destruct s; simpl in *; by subst.
  - congruence.
Qed.

Lemma inv_run s s' : session_run s s' → session_inv s → session_inv s'.
Proof. induction 1; eauto using inv_step. Qed.

Lemma shutdown_inv s s' : rtc shutdown_step s s' → session_inv s → s_cancelled s = true → session_inv s' ∧ s_cancelled s' = true.
Proof.
  induction 1 as [|s s1 s2 Hs _ IH]; [done|]. intros Hi Hc. apply IH; [by eapply inv_step; [by apply st_shutdown|]|].
  by rewrite (shutdown_keeps _ _ Hs).
Qed.

Lemma shutdown_ends s : session_inv s → s_cancelled s = true → ∃ s', rtc shutdown_step s s' ∧ (all_returned s' ∨ hung s').
Proof.
  induction (Nat.lt_wf_0_projected remaining s) as [s _ IH]. intros Hi Hc.
  destruct (shutdown_progress s Hi Hc) as [Ha|[Hh|[s1 Hs]]]; [exists s; split; [done|auto]..|].
  destruct (IH s1) as (s' & Hr & He); [by apply shutdown_decreases|by eapply inv_step; [by apply st_shutdown|]|
    by rewrite (shutdown_keeps _ _ Hs)|]. exists s'. split; [by eapply rtc_l|done].
Qed.

Lemma shutdown_bounded n s s' : nsteps shutdown_step n s s' → session_inv s → (n + remaining s' <= remaining s)%nat.
Proof.
  induction 1 as [|n s s1 s2 Hs _ IH]; [done|]. intros Hi.
  pose proof (shutdown_decreases _ _ Hi Hs). pose proof (IH (inv_step _ _ (st_shutdown _ _ Hs) Hi)). lia.
Qed.

Lemma remaining_bound s : session_inv s → (remaining s <= (pendingCap + 1) * length (s_workers s))%nat.
Proof.
  intros [_ Hp]. unfold remaining. assert (Forall (λ w, placeOk w.1 w.2) (s_workers s)) as Hall
    by (apply Forall_lookup_2; intros i [k p] Hi; by eapply Hp).
  clear Hp. induction Hall as [|[k p] l Hok _ IH]; [by rewrite Nat.mul_0_r|].
  cbn [sum_list_with length fst snd] in *. destruct p; cbn [weight placeOk] in *; unfold pendingCap in *; lia.
Qed.

(** C14: a session that is cancelled, by an error of one of its goroutines or from
    outside, ends.  Its goroutines need at most 25 steps each to leave, the 24
    packets that can wait for a handshake and one more, and when no more can, all
    have returned, with the one exception that receiving goroutines and the
    broadcast test may wait for room in the queue of packets from the TUN device,
    and other receivers for the mutex such a receiver holds, when that queue is
    full and its consumers have left. *)
Theorem session_shutdown v test room s :
  session_run (session_start v test room) s → s_cancelled s = true →
  (∀ n s', nsteps shutdown_step n s s' → (n <= (pendingCap + 1) * length (s_workers s))%nat) ∧
  (∀ s', rtc shutdown_step s s' → (∀ s'', ¬ shutdown_step s' s'') → all_returned s' ∨ hung s') ∧
  (∃ s', rtc shutdown_step s s' ∧ (all_returned s' ∨ hung s')).
Proof.
  intros Hr Hc. pose proof (inv_run _ _ Hr (inv_start v test room)) as Hi. split_and!.
  - intros n s' Hn. apply shutdown_bounded in Hn; [|done]. pose proof (remaining_bound s Hi). lia.
  - intros s' Hs Hno. destruct (shutdown_inv _ _ Hs Hi Hc) as [Hi' Hc'].
    destruct (shutdown_progress s' Hi' Hc') as [|[|[s'' Hs'']]]; [by left|by right|by destruct (Hno s'')].
  - by apply shutdown_ends.
Qed.

(** *** The exception *)

Lemma shutdown_queue s s' i k todo :
  rtc shutdown_step s s' → s_room s = 0%nat → s_workers s !! i = Some (k, AtQueue todo) →
  s_workers s' !! i = Some (k, AtQueue todo).
Proof.
  induction 1 as [|s s1 s2 Hs _ IH]; [done|]. intros Hr Hi.
  destruct Hs as [s j k' Hj Hc|s j k' Hj Hc Hcl|s j k' l room Hj Hr'|s j k' l Hj Hf]; [| |congruence|].
  all: apply IH; [by destruct k'|]; destruct (decide (i = j)) as [->|Hne]; [congruence|].
  1,2: assert (s_workers (leave j k' s) = <[j := (k', Returned)]> (s_workers s)) as -> by (by destruct k').
  all: simpl; by rewrite list_lookup_insert_ne.
Qed.

Lemma fill_queue s : session_run s (set_room 0 s).
Proof.
  destruct s as [w c a b n]. induction n as [|n IH]; [done|]. eapply rtc_l; [by apply st_fill|]. exact IH.
Qed.

Lemma shutdown_run s s' : rtc shutdown_step s s' → session_run s s'.
Proof. induction 1; [done|]. eapply rtc_l; [by apply st_shutdown|done]. Qed.

Lemma hung_forever s s' : s_cancelled s = true → hung s → session_run s s' → s' = s.
Proof.
  intros Hc Hh Hr. induction Hr as [|s s1 s2 Hs _ IH]; [done|].
  pose proof (hung_stuck _ _ Hc Hh Hs) as ->. by apply IH.
Qed.

(** C35: the exception happens: with any loaded configuration, a session in which a
    handshake ends while the device fills the queue, and which then loses its
    connection, reaches a state in which it waits for ever, so that the client
    does not reconnect. *)
Theorem shutdown_can_hang v room :
  config_wf v → ∃ s, session_run (session_start v false room) s ∧ s_cancelled s = true ∧ hung s ∧
    ∀ s', session_run s s' → s' = s.
Proof.
  intros (_ & _ & _ & Hw & _). set (s0 := session_start v false room).
  assert (s_workers s0 !! 3%nat = Some (PacketRecv, AtSocket)) as H3.
  { subst s0. unfold session_start, sessionWorkers. simpl. replace (Z.to_nat (RecvWorkers v)) with (S (Z.to_nat (RecvWorkers v) - 1)) by lia. done. }
  set (s1 := moveTo 3 PacketRecv (AtQueue 1) s0). set (s2 := cancel (leave 0 ControlRecv (set_room 0 s1))).
  assert (session_run s0 s2) as Hr2.
  { eapply rtc_l; [apply (st_deliver s0 3 1); [done|unfold pendingCap; lia]|]. etrans; [apply fill_queue|]. eapply rtc_l; [|done].
    eapply (st_fail _ 0 ControlRecv AtSocket); [|by right|done]. reflexivity. }
  assert (s_workers s2 !! 3%nat = Some (PacketRecv, AtQueue 1)) as H32
    by (change (s_workers s2) with (<[0%nat := (ControlRecv, Returned)]> (<[3%nat := (PacketRecv, AtQueue 1)]> (s_workers s0)));
        rewrite list_lookup_insert_ne by done; apply list_lookup_insert_eq; by eapply lookup_lt_Some).
  pose proof (inv_run _ _ Hr2 (inv_start v false room)) as Hi.
  destruct (shutdown_ends s2 Hi eq_refl) as (s3 & Hs & He).
  pose proof (shutdown_queue _ _ _ _ _ Hs eq_refl H32) as H33.
  assert (hung s3) as Hh.
  { destruct He as [Ha|]; [|done]. exfalso. pose proof (proj1 (Forall_lookup _ _) Ha _ _ H33). done. }
  destruct (shutdown_inv _ _ Hs Hi eq_refl) as [_ Hc3].
  exists s3. split_and!; [|done|done|by intros s' ?; apply hung_forever].
  etrans; [exact Hr2|by apply shutdown_run].
Qed.

(** Three iterations: no data socket, a failed handshake, and a session. *)
Definition ex_round (listen : bool) (reply : option bytes) (cancelled : bool) : round :=
  mkRound (Ok TypeCone) true listen (V4 (192, 0, 2, 1), 10011) (V4 (192, 0, 2, 1), 10012) reply true id true cancelled.
Definition ex_reply' : bytes := encodeControl (NewGamePacket ip4_zero (10, 0, 6, 2) TypeHandshake (Slice 3 [104] [])).
Definition ex_rounds : list round :=
  [ex_round false None false; ex_round true None false; ex_round true (Some ex_reply') true].
Definition ex_serve : list ending * Serve :=
  serve ex_loaded.1.2 ex_rounds (serve_start ex_loaded.1.2 plain_pterm (NewTransport [1] 100)).

Lemma connections_left_open_witness : length (so_open (sv_sockets ex_serve.2)) = 2%nat.
Proof.
  refine (eq_trans (connections_left_open ex_loaded.1.2 ex_rounds (serve_start ex_loaded.1.2 plain_pterm (NewTransport [1] 100))
    ex_serve.1 ex_serve.2 _ _ _) _).
  - rewrite <- surjective_pairing. unfold ex_serve. reflexivity.
  - vm_compute. intros He. repeat (apply elem_of_cons in He as [He|He]; [discriminate|]). by apply not_elem_of_nil in He.
  - split; constructor.
  - vm_compute. reflexivity.
Defined.

(** A session that is cancelled at once. *)
Lemma session_shutdown_witness :
  ∃ s', rtc shutdown_step (cancel (session_start ex_loaded.1.2 false 256)) s' ∧ (all_returned s' ∨ hung s').
Proof.
  refine (proj2 (proj2 (session_shutdown ex_loaded.1.2 false 256 (cancel (session_start ex_loaded.1.2 false 256)) _ _)));
    [apply rtc_once, st_cancel|reflexivity].
Defined.

Definition ex_config : Vars :=
  mkVars [49] 10011 [104] (replicate 16 7) (10 * second) (300 * second) second 4 4 10012 false true true.

Lemma shutdown_can_hang_witness : ∃ s, session_run (session_start ex_config false 256) s ∧ hung s.
Proof.
  destruct (shutdown_can_hang ex_config 256) as (s & Hr & _ & Hh & _).
  - unfold config_wf, ex_config, second, len. simpl. split_and!; try lia. repeat constructor; lia.
  - exists s. split; [exact Hr|exact Hh].
Defined.
