(* ===== verification/ClientRun.v ===== *)
(** The goroutines of a client together.

    [client_step] is one iteration of any goroutine: the TUN loops, the sending
    and receiving workers, the control connection, the timers, and the
    reconnection loop between sessions.  A sending worker takes a batch and
    sends its packets one by one, so that other goroutines run in between, also
    between the test and the send of [AddPendingData].  [client_crash] has the
    ways in which the process ends by a panic: the device cannot be made, a
    ticker is started with a period that is not positive, a packet is sent to a
    queue that was closed after the test.  The results hold in every state that
    any interleaving reaches: the invariant [node_ok], which excludes the other
    bad accesses of the goroutines, and where a packet for a peer can go. *)

From stdpp Require Import base numbers relations list gmap option strings tactics.
From S2P Require Import Prelude GoStd Config Cipher Packet PacketFacts Stun Util Noise NoiseFacts Hub HubWs HubUdp.
From S2P Require Import Client ClientUdp ClientFacts Tun TunFacts Board Session.

Local Open Scope Z_scope.

(** Lemmas of the form "this update keeps the transport in order". *)
Create HintDb client.

(** ** State and steps *)

Section run.
Context `{AEAD, LZ4, Noise}.
Context (D : Device) (marshal : ipv4Header → option bytes).

(** A sending worker: its buffers, the packets of its batch still to send, the
    length of the batch, which is counted when all are sent, and whether it is
    inside [AddPendingData] with the first of them, behind the test. *)
Record sender := mkSender { sd_worker : worker; sd_batch : list gslice; sd_count : Z; sd_tested : bool }.

(** [nd_running]: a session is up, its goroutines run.  [nd_ctl] is the packet
    object of [controlRecv]. *)
Record node := mkNode {
  nd_t : ClientTransport;
  nd_running : bool;
  nd_senders : list sender;
  nd_ctl : GamePacket;
}.

(** What the outside sees of a step. *)
Inductive event : Type :=
  | Silent
  | SentUdp (l : list datagram)
  | SentWs (o : ctlOut)
  | WroteTun (l : list bytes).

(** A sending worker when it starts: [make([]byte, 0, 64)] and an empty packet. *)
Definition newSender (id : nat) : sender := mkSender (mkWorker zeroPacket (Slice id [] (replicate 64 0))) [] 0 false.

(** The destination [packetSend] reads in a packet. *)
Definition packetDst (p : gslice) : ip4 := to_ip4 (sub (sdata p) 16 20).

(** The goroutines of a session that work on the state of the transport.  A
    worker that has tested the queue of a session holds a pointer: it sends to
    the session the manager has for the peer, or to one that has been replaced
    meanwhile and is lost with its queue. *)
Inductive session_iter (v : Vars) (args : bool * option Z) : node → event → node → Prop :=
  (* packetSend *)
  | it_skip t ss g pr r :
      FromTun t = pr :: r → slen pr < 20 →
      session_iter v args (mkNode t true ss g) Silent (mkNode (set_FromTun r t) true ss g)
  | it_take i w pr r batch rest t ss g :
      ss !! i = Some (mkSender w [] 0 false) → FromTun t = pr :: r → 20 <= slen pr →
      drain (sendBatchSize - 1) r = (batch, rest) →
      session_iter v args (mkNode t true ss g) Silent
        (mkNode (set_FromTun rest t) true (<[i := mkSender w (pr :: batch) (len (pr :: batch)) false]> ss) g)
  | it_send i wr now w p batch n out w' t t' ss g :
      ss !! i = Some (mkSender w (p :: batch) n false) →
      packetSend_one wr false (EnableCompress v) now p w t = Next (out, w', t') →
      session_iter v args (mkNode t true ss g) (SentUdp out) (mkNode t' true (<[i := mkSender w' batch n false]> ss) g)
  | it_test i w p batch n s t ss g :
      ss !! i = Some (mkSender w (p :: batch) n false) → isDNS (sdata p) (Dns t) = false → lastByte (packetDst p) ≠ 255 →
      GetSession (noiseMgr t) (packetDst p) = Some s → IsReady (s_cipher s) = false → pendingClosed s = false →
      session_iter v args (mkNode t true ss g) Silent (mkNode t true (<[i := mkSender w (p :: batch) n true]> ss) g)
  | it_pend i w p batch n s s' t ss g :
      ss !! i = Some (mkSender w (p :: batch) n true) → GetSession (noiseMgr t) (packetDst p) = Some s →
      pendingSend p s = Some s' →
      session_iter v args (mkNode t true ss g) Silent
        (mkNode (updateSession (packetDst p) (λ _, s') t) true (<[i := mkSender w batch n false]> ss) g)
  | it_lost i w p batch n t ss g :
      ss !! i = Some (mkSender w (p :: batch) n true) →
      session_iter v args (mkNode t true ss g) Silent (mkNode t true (<[i := mkSender w batch n false]> ss) g)
  | it_count i w n t ss g :
      ss !! i = Some (mkSender w [] n false) →
      session_iter v args (mkNode t true ss g) Silent
        (mkNode (set_counts (u64 (sendPacketCount t + n)) (recvPacketCount t) (sendBytes t) (recvBytes t) t) true
           (<[i := mkSender w [] 0 false]> ss) g)
  (* packetRecv *)
  | it_recv wr done now addr content e t t' ss g :
      packetRecv_datagram wr done now addr content t = Next (e, t') →
      session_iter v args (mkNode t true ss g) (SentUdp (e_udp e)) (mkNode t' true ss g)
  (* controlRecv, controlSend *)
  | it_control wr now msg g' out t t' ss g :
      controlRecv_message wr now g msg t = (g', out, t') →
      session_iter v args (mkNode t true ss g) (SentUdp out) (mkNode t' true ss g')
  | it_broken msg t ss g :
      session_iter v args (mkNode t true ss g) Silent (mkNode (overwritePeers msg t) true ss g)
  | it_report o t t' ss g :
      controlSend_step true t = Next (o, t') →
      session_iter v args (mkNode t true ss g) (SentWs o) (mkNode t' true ss g)
  (* the timers *)
  | it_heartbeat wr out t t' ss g :
      heartbeat_tick wr false t = Next (out, t') →
      session_iter v args (mkNode t true ss g) (SentUdp out) (mkNode t' true ss g)
  | it_p2p wr now out t t' ss g :
      EnableP2P v = true →
      handleP2P_tick wr now t = (out, t') →
      session_iter v args (mkNode t true ss g) (SentUdp out) (mkNode t' true ss g)
  | it_broadcast period bch t t' ss g :
      startTest marshal args t = Next (Some (period, sdata bch)) → testBroadCast_tick bch t = Next t' →
      session_iter v args (mkNode t true ss g) Silent (mkNode t' true ss g).

(** Whether taking the answer of the server makes a device and fails: every
    failure in [NewTun] is a panic.  [os] says which calls succeed. *)
Definition deviceFails (os : oscall → bool) (gp : GamePacket) (t : ClientTransport) : bool :=
  negb (bool_decide (localIp t = Some (Destination gp))) &&
  match (dev_NewTun (sdata (Payload gp)) (string_bytes ".et") (Destination gp) os).1 with Some _ => false | None => true end.

(** All steps of a client; [v] is its configuration, [args] the arguments of
    [ListenAndServe]. *)
Inductive client_step (v : Vars) (args : bool * option Z) : node → event → node → Prop :=
  | step_session n e n' : session_iter v args n e n' → client_step v args n e n'
  (* the goroutines of the device and of the Noise manager, which outlive sessions *)
  | step_tun_read done r t t' b ss g :
      dev_tunRecv false done r t = Next t' → client_step v args (mkNode t b ss g) Silent (mkNode t' b ss g)
  | step_tun_write ok out t t' b ss g :
      dev_tunSend false ok t = Next (out, t') → client_step v args (mkNode t b ss g) (WroteTun out) (mkNode t' b ss g)
  | step_check now t b ss g :
      client_step v args (mkNode t b ss g) Silent (mkNode (set_noise (CheckSession_tick now (noiseMgr t)) t) b ss g)
  (* the reconnection loop *)
  | step_dial nat server check t ss g :
      client_step v args (mkNode t false ss g) Silent
        (mkNode (set_addrs server check (set_status CONNECT (probeNat (EnableP2P v) nat t))) false ss g)
  | step_refused reply w e d c c' t t' t'' ss g :
      handshake (ClientID v) (DeviceName v) reply (set_status INTINETWORK t) = (w, Err e, t') →
      backoffWait c t' = (d, c', t'') →
      client_step v args (mkNode t false ss g) (SentWs (CtlBinary w)) (mkNode t'' false ss g)
  | step_up reply os w gp t t' ids g :
      handshake (ClientID v) (DeviceName v) reply (set_status INTINETWORK t) = (w, Ok gp, t') →
      deviceFails os gp t' = false →
      length ids = Z.to_nat (SendWorkers v) →
      client_step v args (mkNode t false [] g) (SentWs (CtlBinary w))
        (mkNode (set_status RUNNING (syncVirtualIp gp t')) true (newSender <$> ids) zeroPacket)
  | step_down lost t ss g :
      client_step v args (mkNode t true ss g) Silent
        (mkNode (if lost : bool then session_lost t else t) false [] g).

(** The ways in which a step ends the process instead: by a failure in [NewTun],
    by the ticker of [heartbeat] or of the broadcast test, or by sending to a
    queue that was closed after the worker's test. *)
Inductive client_crash (v : Vars) (args : bool * option Z) : node → Prop :=
  | crash_device reply os w gp t t' ss g :
      handshake (ClientID v) (DeviceName v) reply (set_status INTINETWORK t) = (w, Ok gp, t') →
      deviceFails os gp t' = true → client_crash v args (mkNode t false ss g)
  | crash_heartbeat t ss g : heartbeat_ticker v = None → client_crash v args (mkNode t true ss g)
  | crash_test t ss g : startTest marshal args t = Panics → client_crash v args (mkNode t true ss g)
  | crash_pending i w p batch n s t ss g :
      ss !! i = Some (mkSender w (p :: batch) n true) → GetSession (noiseMgr t) (packetDst p) = Some s →
      pendingSend p s = None → client_crash v args (mkNode t true ss g).

Inductive client_run (v : Vars) (args : bool * option Z) : node → list event → node → Prop :=
  | run_nil n : client_run v args n [] n
  | run_snoc n tr n1 e n2 : client_run v args n tr n1 → client_step v args n1 e n2 → client_run v args n (tr ++ [e]) n2.

Definition client_start (priv : bytes) (random : Z) : node :=
  mkNode (NewTransport priv random) false [] zeroPacket.

(** A batch sent packet by packet is a round of [packetSend] on an otherwise
    idle client. *)
Lemma send_batch_run comp wr now v args i w batch n t ss g out w' t' :
  EnableCompress v = comp → ss !! i = Some (mkSender w batch n false) →
  packetSend_all wr false comp now batch w t = Next (out, w', t') →
  ∃ tr, client_run v args (mkNode t true ss g) tr (mkNode t' true (<[i := mkSender w' [] n false]> ss) g) ∧
    (tr ≫= λ e, match e with SentUdp l => l | _ => [] end) = out.
Proof.
  intros Hv. revert w t ss out. cut (∀ tr0 n0 w t ss out,
    client_run v args n0 tr0 (mkNode t true ss g) → ss !! i = Some (mkSender w batch n false) →
    packetSend_all wr false comp now batch w t = Next (out, w', t') →
    ∃ tr, client_run v args n0 (tr0 ++ tr) (mkNode t' true (<[i := mkSender w' [] n false]> ss) g) ∧
      (tr ≫= λ e, match e with SentUdp l => l | _ => [] end) = out).
  { intros Hgo w t ss out Hi Hs. exact (Hgo [] _ w t ss out (run_nil v args _) Hi Hs). }
  induction batch as [|p batch IH]; intros tr0 n0 w t ss out Hr Hi Hs; simpl in Hs.
  - simplify_eq. exists []. rewrite app_nil_r, list_insert_id by done. done.
  - destruct (packetSend_one wr false comp now p w t) as [[[o1 w1] t1]| | |] eqn:E1; try done.
    destruct (packetSend_all wr false comp now batch w1 t1) as [[[o2 w2] t2]| | |] eqn:E2; try done. simplify_eq.
    destruct (IH (tr0 ++ [SentUdp o1]) n0 w1 t1 (<[i := mkSender w1 batch n false]> ss) o2) as (tr & Hrun & Ho).
    + eapply run_snoc; [exact Hr|]. apply step_session. by eapply it_send.
    + apply list_lookup_insert_eq. by eapply lookup_lt_Some.
    + done.
    + exists (SentUdp o1 :: tr). rewrite <- app_assoc in Hrun. simpl in Hrun. rewrite list_insert_insert_eq in Hrun.
      split; [exact Hrun|]. by rewrite bind_cons, Ho.
Qed.

(** ** The invariant *)

(** A transport in order: every Noise session is in order; every peer has an
    address; the queues keep their capacity and the counters their width; the
    device, the transport and the Noise manager agree on the address. *)
Record transport_ok (t : ClientTransport) : Prop := {
  ok_noise : manager_ok (noiseMgr t);
  ok_peers : map_Forall (λ _ s, is_Some (dstAddr s)) (p2pRouter t);
  ok_control : (length (ControlSendChan t) <= controlSendCap)%nat;
  ok_fromNet : (length (FromNet t) <= fromNetCap)%nat;
  ok_counts : Forall (λ z, 0 <= z < 2 ^ 64) [sendPacketCount t; recvPacketCount t; sendBytes t; recvBytes t];
  ok_device : deviceIp t = localIp t;
  ok_vip : from_option (λ ip, myVip (noiseMgr t) = ip) True (localIp t);
}.

(** An iteration that would follow a nil pointer or slice out of range: the
    session's goroutines convert [localIp] to an array; [packetSend] slices the
    destination out of a packet and seals with the key of a finished session;
    [punch] follows the address of a symmetric peer; [packetRecv] follows a
    handshake or a key. *)
Inductive bad_access : node → Prop :=
  | bad_localIp t ss g : localIp t = None → bad_access (mkNode t true ss g)
  | bad_slice i sd p t ss g : ss !! i = Some sd → p ∈ sd_batch sd → slen p < 20 → bad_access (mkNode t true ss g)
  | bad_seal vip s t ss g :
      GetSession (noiseMgr t) vip = Some s → IsReady (s_cipher s) = true → Sender (s_cipher s) = None →
      bad_access (mkNode t true ss g)
  | bad_punch vip s t ss g :
      p2pRouter t !! vip = Some s → GetDstAddr s = None → bad_access (mkNode t true ss g)
  | bad_recv wr done now addr content t ss g :
      packetRecv_datagram wr done now addr content t = Panics → bad_access (mkNode t true ss g).

End run.

Section facts.
Context `{AEAD, LZ4, NoiseLaws}.
Context (D : Device) (marshal : ipv4Header → option bytes).
(** The program is built for one of two systems. *)
Hypothesis HD : D = linuxDevice ∨ ∃ luid, D = windowsDevice luid.

Implicit Types (t : ClientTransport) (n : node).

(** *** Field updates *)

Lemma ok_set_pool p t : transport_ok t → transport_ok (set_ct_pool p t).
Proof. by destruct 1; split. Qed.

Lemma ok_set_status s t : transport_ok t → transport_ok (set_status s t).
Proof. by destruct 1; split. Qed.

Lemma ok_set_natType x t : transport_ok t → transport_ok (set_natType x t).
Proof. by destruct 1; split. Qed.

Lemma ok_set_addrs a b t : transport_ok t → transport_ok (set_addrs a b t).
Proof. by destruct 1; split. Qed.

Lemma ok_set_counts a b c d t :
  Forall (λ z, 0 <= z < 2 ^ 64) [a; b; c; d] → transport_ok t → transport_ok (set_counts a b c d t).
Proof. by destruct 2; split. Qed.

Lemma ok_set_FromNet l t : (length l <= fromNetCap)%nat → transport_ok t → transport_ok (set_FromNet l t).
Proof. by destruct 2; split. Qed.

Lemma ok_set_control l t : (length l <= controlSendCap)%nat → transport_ok t → transport_ok (set_ControlSend l t).
Proof. by destruct 2; split. Qed.

Lemma ok_set_p2p f t :
  map_Forall (λ _ s, is_Some (dstAddr s)) (f (p2pRouter t)) → transport_ok t → transport_ok (set_p2p f t).
Proof. by destruct 2; split. Qed.

Lemma ok_set_noise m t :
  manager_ok m → myVip m = myVip (noiseMgr t) → transport_ok t → transport_ok (set_noise m t).
Proof. intros Hm Hv []; split; try done. unfold set_noise. simpl. by rewrite Hv. Qed.

Lemma ok_set_FromTun l t : transport_ok t → transport_ok (set_FromTun l t).
Proof. intros Ht. apply ok_set_noise; [apply Ht|done|done]. Qed.

#[local] Hint Resolve ok_set_pool ok_set_status ok_set_natType ok_set_addrs ok_set_FromTun : client.

(** A session changed through its pointer. *)
Lemma ok_updateSession vip f s t :
  GetSession (noiseMgr t) vip = Some s → session_ok vip (f s) → transport_ok t → transport_ok (updateSession vip f t).
Proof.
  intros Hs Hf Ht. apply ok_set_noise; [|done|done]. intros k x. simpl. rewrite lookup_alter.
  case_decide as Hk; [subst k|by apply Ht]. unfold GetSession in Hs. rewrite Hs. simpl. by intros [= <-].
Qed.

Lemma get_session_ok t vip s : transport_ok t → GetSession (noiseMgr t) vip = Some s → session_ok vip s.
Proof. intros Ht Hs. by apply (ok_noise _ Ht vip). Qed.

Lemma ok_encodeOnce control gp t data t' : encodeOnce control gp t = (data, t') → transport_ok t → transport_ok t'.
Proof. unfold encodeOnce. destruct (EncodePacket _ _ _ _ _) as [[[d g] p] c]. intros [= <- <-]. apply ok_set_pool. Qed.

Lemma ok_tryControl gp t : transport_ok t → transport_ok (tryControl gp t).
Proof.
  intros Ht. unfold tryControl. case_bool_decide; [|done]. apply ok_set_control; [|done].
  rewrite length_app. simpl. lia.
Qed.

Lemma ok_count t (x y : Z) :
  transport_ok t → Forall (λ z, 0 <= z < 2 ^ 64)
    [u64 (sendPacketCount t + x); recvPacketCount t; sendBytes t; recvBytes t] ∧
  Forall (λ z, 0 <= z < 2 ^ 64) [sendPacketCount t; recvPacketCount t; u64 (sendBytes t + x); recvBytes t] ∧
  Forall (λ z, 0 <= z < 2 ^ 64) [sendPacketCount t; u64 (recvPacketCount t + x); sendBytes t; u64 (recvBytes t + y)].
Proof.
  intros Ht. pose proof (ok_counts _ Ht) as Hc. rewrite !list.Forall_cons in Hc.
  destruct Hc as (H1' & H2' & H3' & H4' & _).
  split_and!; repeat (constructor; [first [apply u64_range|assumption]|]); constructor.
Qed.

Lemma ok_sendData wr dst gp data t out t' : sendData wr dst gp data t = (out, t') → transport_ok t → transport_ok t'.
Proof.
  unfold sendData. intros Hs Ht. repeat case_match; simplify_eq; [|by apply ok_set_pool..].
  apply ok_set_counts; [|by apply ok_set_pool]. by apply (ok_count t _ 0).
Qed.

(** *** Sending *)

(** A sender's cipher stays one through [EncodePacket]. *)
Lemma EncodePacket_cipher p g control comp cs data g' p' c' :
  EncodePacket p g control comp (Some cs) = (data, g', p', c') → is_Some c'.
Proof.
  unfold EncodePacket, encode. intros He.
  repeat (case_match; simplify_eq; try done); eauto.
Qed.

Lemma session_ok_sent vip s now cs :
  session_ok vip s → IsReady (s_cipher s) = true → is_Some cs →
  session_ok vip (set_sender cs (session_UpdateLastSeen now s)).
Proof. intros Hs Hr [[k c] ->]. destruct Hs; [done|]. constructor. Qed.

Lemma ok_packetSend wr done comp now p w t out w' t' :
  packetSend_one wr done comp now p w t = Next (out, w', t') → transport_ok t → transport_ok t'.
Proof.
  unfold packetSend_one. intros Hs Ht. destruct (isDNS _ _).
  { repeat case_match; simplify_eq. eapply ok_sendData; [done|]. by apply ok_set_pool. }
  destruct (negb _).
  - destruct (GetSession _ _) as [s|] eqn:Eg.
    + pose proof (get_session_ok _ _ _ Ht Eg) as Hok. destruct (IsReady (s_cipher s)) eqn:Er; cbn [negb] in Hs.
      * destruct (session_ok_ready _ _ Hok Er) as (_ & [cs Hcs] & _). rewrite Hcs in Hs.
        destruct (EncodePacket _ _ _ _ _) as [[[d g] pl] c] eqn:Ee. apply EncodePacket_cipher in Ee.
        destruct (sendData _ _ _ _ _) as [o t1] eqn:Esd. simplify_eq. eapply ok_sendData; [done|].
        eapply ok_updateSession; [exact Eg|by apply session_ok_sent|by apply ok_set_pool].
      * simplify_eq. eapply ok_updateSession; [exact Eg|by apply session_ok_pending|done].
    + destruct done; [done|]. case_bool_decide; [|done]. simplify_eq.
      apply ok_set_control; [|done]. rewrite length_app. simpl. lia.
  - repeat case_match; simplify_eq. eapply ok_sendData; [done|]. by apply ok_set_pool.
Qed.

(** *** Receiving *)

Lemma ok_handleNoise now vip data t r m :
  HandleNoisePacket now vip data (noiseMgr t) = (r, m) → transport_ok t →
  transport_ok (set_noise m t) ∧ r ≠ NPanic ∧
  ∀ s resp, r = NRet (Some s) resp → IsReady (s_cipher s) = true ∧ GetSession m vip = Some s.
Proof.
  intros Hh Ht. destruct (HandleNoisePacket_ok _ _ _ _ _ _ (ok_noise _ Ht) Hh) as (Hm & Hp & Hs & _).
  split; [|split; [done|]].
  - apply ok_set_noise; [done| |done]. unfold HandleNoisePacket, handleResponderFirst, draw in Hh.
    repeat (case_match; simplify_eq; try done).
  - intros s resp ->. destruct (Hs s resp eq_refl) as [_ Hr]. split; [done|].
    unfold HandleNoisePacket, handleResponderFirst, draw in Hh.
    repeat (case_match; simplify_eq; try done); by apply lookup_insert_eq.
Qed.

Lemma ok_recvData wr done now addr gp t e t' :
  recvData wr done now addr gp t = Next (e, t') → transport_ok t → transport_ok t'.
Proof.
  unfold recvData. destruct (HandleNoisePacket _ _ _ _) as [r m] eqn:Eh. intros Hs Ht.
  destruct (ok_handleNoise _ _ _ _ _ _ Eh Ht) as (Hm & _ & Hready).
  destruct r as [err| |[s|] [resp|]]; try (simplify_eq; by apply ok_set_pool).
  - destruct (alloc _ _) as [b p]. destruct (encodeOnce _ _ _) as [d t1] eqn:Ee. simplify_eq.
    apply ok_set_pool. eapply ok_encodeOnce; [exact Ee|]. by apply ok_set_pool.
  - destruct (DecryptParse _ _ _) as [[err g2] p]. destruct err; [simplify_eq; by repeat apply ok_set_pool|].
    destruct (Hready s None eq_refl) as [Hr Hg].
    assert (transport_ok (updateSession (SourceVirtualIp gp) (session_UpdateLastSeen now) (set_ct_pool p (set_noise m t)))) as Hu.
    { eapply ok_updateSession; [exact Hg| |by apply ok_set_pool]. apply session_ok_touch.
      eapply get_session_ok; [exact Hm|exact Hg]. }
    destruct done; [done|]. case_bool_decide as Hl; simplify_eq; [|by apply ok_set_pool].
    apply ok_set_FromNet; [|done]. rewrite length_app, Nat.add_1_r. exact Hl.
  - destruct (alloc _ _) as [b p]. destruct (encodeOnce _ _ _) as [d t1] eqn:Ee. simplify_eq.
    apply ok_set_pool. eapply ok_encodeOnce; [exact Ee|]. by apply ok_set_pool.
Qed.

Lemma peers_alter (f : P2PStatus → P2PStatus) (v : ip4) (m : gmap ip4 P2PStatus) :
  (∀ s, is_Some (dstAddr s) → is_Some (dstAddr (f s))) →
  map_Forall (λ _ s, is_Some (dstAddr s)) m → map_Forall (λ _ s, is_Some (dstAddr s)) (alter f v m).
Proof.
  intros Hf Hm k s. rewrite lookup_alter. case_decide; [|apply Hm].
  subst k. intros (s0 & Hs & ->)%fmap_Some. by apply Hf, (Hm v).
Qed.

Lemma ok_packetRecv wr done now addr content t e t' :
  packetRecv_datagram wr done now addr content t = Next (e, t') → transport_ok t → transport_ok t'.
Proof.
  unfold packetRecv_datagram. set (t0 := set_counts _ _ _ _ t). intros Hs Ht.
  assert (transport_ok t0) as Hok by (apply ok_set_counts; [by apply (ok_count t 1)|done]). clearbody t0.
  destruct (ParsePacket _ _ _ _ _) as [[err gp] p]. apply (ok_set_pool p) in Hok.
  destruct err; [by simplify_eq|]. cbn zeta in Hs.
  destruct (_ =? TypeData); [by eapply ok_recvData|].
  destruct (_ =? TypePing); [simplify_eq; apply ok_set_pool, ok_set_p2p; [|done]; by apply peers_alter; [|apply Hok]|].
  destruct (_ =? TypePong).
  - destruct (p2pRouter _ !! _); [|simplify_eq; by apply ok_set_pool]. destruct done; [done|]. simplify_eq.
    apply ok_tryControl, ok_set_pool, ok_set_p2p; [|done]. by apply peers_alter; [|apply Hok].
  - destruct (_ =? TypeDnsResponse); [|by simplify_eq]. destruct (BuildDNSResponse _ _ _); simplify_eq; by apply ok_set_pool.
Qed.

(** *** The control connection and the timers *)

Lemma ok_initiateNoise wr now vip pub pl t out t' :
  initiateNoise wr now vip pub pl t = (out, t') → transport_ok t → transport_ok t'.
Proof.
  unfold initiateNoise. destruct (HandshakeInit _ _ _ _ _) as [o m] eqn:Eh. intros Hs Ht.
  assert (transport_ok (set_noise m t)) as Hm.
  { apply ok_set_noise; [|unfold HandshakeInit, draw in Eh; by repeat case_match; simplify_eq|done].
    eapply noise_step_ok; [by eapply step_init|apply Ht]. }
  destruct o; [|by simplify_eq]. destruct (alloc _ _) as [b p]. destruct (encodeOnce _ _ _) as [d t1] eqn:Ee.
  simplify_eq. eapply ok_encodeOnce; [exact Ee|]. by apply ok_set_pool.
Qed.

Lemma ok_overwrite msg t : transport_ok t → transport_ok (overwritePeers msg t).
Proof.
  intros Ht. apply ok_set_p2p; [|done]. intros v s. rewrite lookup_fmap. intros (s0 & Hs & ->)%fmap_Some.
  simpl. rewrite fmap_is_Some. by apply (ok_peers _ Ht v).
Qed.

Lemma ok_controlRecv wr now g msg t g' out t' :
  controlRecv_message wr now g msg t = (g', out, t') → transport_ok t → transport_ok t'.
Proof.
  unfold controlRecv_message. intros Hs Ht%(ok_overwrite msg). revert Hs. generalize dependent (overwritePeers msg t). clear t. intros t Ht.
  destruct (ParseControl _ _) as [[err|] g1]; [by intros [= <- <- <-]|].
  destruct (_ =? TypeNoiseResponse).
  { destruct (_ <? 32); [by intros [= <- <- <-]|]. destruct (initiateNoise _ _ _ _ _ _) as [o t1] eqn:Ei.
    intros [= <- <- <-]. by eapply ok_initiateNoise. }
  destruct (_ =? TypeP2PCheck).
  { destruct (checkP2P _ _ _) as [o t1] eqn:Ec. intros [= <- <- <-]. unfold checkP2P in Ec.
    destruct (encodeOnce _ _ _) as [d t2] eqn:Ee. simplify_eq. by eapply ok_encodeOnce. }
  destruct (_ =? TypeP2PCommand); [|by intros [= <- <- <-]]. destruct (_ <? 7); [by intros [= <- <- <-]|].
  intros [= <- <- <-]. apply ok_set_p2p; [|done]. apply map_Forall_insert_2; [by eexists|apply Ht].
Qed.

Lemma ok_controlSend ok t o t' : controlSend_step ok t = Next (o, t') → transport_ok t → transport_ok t'.
Proof.
  unfold controlSend_step. destruct (ControlSendChan t) as [|gp rest] eqn:E; [done|]. intros Hs Ht.
  assert (transport_ok (set_ControlSend rest t)) as Hok.
  { apply ok_set_control; [|done]. pose proof (ok_control _ Ht) as Hl. rewrite E in Hl. simpl in Hl. lia. }
  destruct (_ =? TypePing); [by destruct ok; simplify_eq|].
  destruct (encodeOnce _ _ _) as [d t1] eqn:Ee. destruct ok; simplify_eq. by eapply ok_encodeOnce.
Qed.

Lemma ok_heartbeat wr done t out t' : heartbeat_tick wr done t = Next (out, t') → transport_ok t → transport_ok t'.
Proof.
  unfold heartbeat_tick. destruct done; [done|]. case_bool_decide; [|done]. destruct (wr _); [|done].
  intros [= <- <-] Ht. apply ok_set_control; [|done]. rewrite length_app. simpl. lia.
Qed.

Lemma ok_handleP2P wr now t : transport_ok t → transport_ok (handleP2P_tick wr now t).2.
Proof.
  intros Ht. apply (handleP2P_ind transport_ok); [done|]. intros v t1 H1'.
  apply ok_tryControl, ok_set_p2p; [|done]. apply map_Forall_delete, H1'.
Qed.

(** *** The device, and between sessions *)

Lemma ok_tunRecv ended done r t t' : dev_tunRecv ended done r t = Next t' → transport_ok t → transport_ok t'.
Proof.
  destruct HD as [->|[luid ->]]; simpl; [unfold tunRecv_linux, tunRecv_packet|unfold tunRecv_windows]; intros Hs Ht;
    repeat (case_match; simplify_eq; try done); auto with client.
Qed.

Lemma tunDrain_le room l : (length (tunDrain room l).2 <= length l)%nat.
Proof.
  revert room. induction l as [|p l IH]; intros [|room]; simpl; try lia. destruct (longEnough p).
  - specialize (IH room). destruct (tunDrain room l). simpl in *. lia.
  - specialize (IH (S room)). lia.
Qed.

Lemma ok_tunSend ended ok t out t' : dev_tunSend ended ok t = Next (out, t') → transport_ok t → transport_ok t'.
Proof.
  assert (∀ r, (length r <= length (FromNet t))%nat → transport_ok t → transport_ok (set_FromNet r t)) as Hok
    by (intros r Hr Ht; apply ok_set_FromNet; [|done]; pose proof (ok_fromNet _ Ht); lia).
  destruct HD as [->|[luid ->]]; simpl.
  - unfold tunSend_linux, tunSend_step. destruct ended; [done|]. destruct (FromNet t) as [|b r] eqn:E; [done|].
    intros Hs Ht. case_match; simplify_eq; apply ok_set_pool, Hok; simpl; auto with lia.
  - unfold tunSend_windows. destruct ended; [done|]. destruct (FromNet t) as [|b r] eqn:E; [done|]. intros Hs Ht.
    destruct (longEnough b); [|simplify_eq; apply Hok; simpl; auto with lia].
    pose proof (tunDrain_le (tunBatchSize - 1) r) as Hd. destruct (tunDrain _ r) as [batch rest].
    destruct (tunWriteAll _ _ _) as [o p]. simplify_eq. apply ok_set_pool, Hok; simpl in *; auto with lia.
Qed.

(** The device's loops leave the address alone. *)
Lemma tun_address ended done r ok t t' out :
  dev_tunRecv ended done r t = Next t' ∨ dev_tunSend ended ok t = Next (out, t') → localIp t' = localIp t.
Proof.
  destruct HD as [->|[luid ->]]; simpl;
    [unfold tunRecv_linux, tunSend_linux, tunRecv_packet, tunSend_step|unfold tunRecv_windows, tunSend_windows];
    intros [Hs|Hs]; repeat (case_match; simplify_eq; try done).
Qed.

Lemma ok_handshake id name reply t w r t' : handshake id name reply t = (w, r, t') → transport_ok t → transport_ok t'.
Proof. unfold handshake. intros Hs Ht. repeat (case_match; simplify_eq); by apply ok_set_pool. Qed.

Lemma ok_sync gp t : transport_ok t → transport_ok (syncVirtualIp gp t) ∧ localIp (syncVirtualIp gp t) = Some (Destination gp).
Proof.
  intros Ht. unfold syncVirtualIp. case_bool_decide as Hl; [split; [by apply ok_set_pool|done]|].
  split; [|done]. destruct Ht. by split.
Qed.

(** *** All goroutines *)

(** Batches hold packets with a whole IPv4 header, at most 32. *)
Definition sender_ok (s : sender) : Prop :=
  Forall (λ p, 20 <= slen p) (sd_batch s) ∧ (length (sd_batch s) <= sendBatchSize)%nat.

Record node_ok (n : node) : Prop := {
  ok_transport : transport_ok (nd_t n);
  ok_senders : Forall sender_ok (nd_senders n);
  ok_address : nd_running n = true → is_Some (localIp (nd_t n));
}.

Lemma drain_ok room l batch rest :
  drain room l = (batch, rest) → Forall (λ p, 20 <= slen p) batch ∧ (length batch <= room)%nat.
Proof.
  revert room batch. induction l as [|p l IH]; intros [|room] batch Hd; simpl in Hd; simplify_eq; try (split; [constructor|simpl; lia]).
  destruct (slen p <? 20) eqn:E; [by apply (IH (S room))|].
  destruct (drain room l) as [b r] eqn:Ed. simplify_eq. apply IH in Ed as [Hf Hl].
  bool_cases. split; [by constructor|simpl; lia].
Qed.

(** No iteration of a session's goroutines changes the address. *)
Lemma session_address v args n e n' : session_iter marshal v args n e n' → localIp (nd_t n') = localIp (nd_t n).
Proof.
  destruct 1 as [| |? ? ? ? ? ? ? ? ? ? ? ? ? Hi Hs| | | | |? ? ? ? ? ? ? ? ? ? Hs|? ? ? ? ? ? ? ? ? Hs| |? ? ? ? ? Hs|? ? ? ? ? ? Hs|? ? ? ? ? ? ? Hen Hs|? ? ? ? ? ? Hst Hs];
    simpl; try done.
  - unfold packetSend_one, sendData in Hs. repeat (case_match; simplify_eq; try done).
  - unfold packetRecv_datagram, recvData, encodeOnce, tryControl in Hs. repeat (case_match; simplify_eq; try done).
  - unfold controlRecv_message, initiateNoise, checkP2P, encodeOnce in Hs. repeat (case_match; simplify_eq; try done).
  - unfold controlSend_step, encodeOnce in Hs. repeat (case_match; simplify_eq; try done).
  - unfold heartbeat_tick in Hs. repeat (case_match; simplify_eq; try done).
  - replace t' with (handleP2P_tick wr now t).2 by (by rewrite Hs).
    apply (handleP2P_ind (λ t1, localIp t1 = localIp t)); [done|]. intros vip t1 <-.
    unfold removeP2P, tryControl. by case_bool_decide.
  - unfold testBroadCast_tick in Hs. by repeat (case_match; simplify_eq).
Qed.

Lemma sender_ok_next ss i w p batch c b w' b' :
  Forall sender_ok ss → ss !! i = Some (mkSender w (p :: batch) c b) → sender_ok (mkSender w' batch c b').
Proof.
  intros Hss Hi. pose proof (Forall_lookup_1 _ _ _ _ Hss Hi) as [Hb Hn]. simpl in *.
  apply Forall_cons_1 in Hb as [_ Hb]. split; [done|]. simpl. lia.
Qed.

Lemma session_ok_pended vip p s s' : pendingSend p s = Some s' → session_ok vip s → session_ok vip s'.
Proof.
  intros Hs Hok. apply (session_ok_pending vip s p) in Hok. unfold AddPendingData in Hok. rewrite Hs in Hok.
  unfold pendingSend in Hs. by destruct (pendingClosed s).
Qed.

Lemma session_iter_ok v args n e n' : session_iter marshal v args n e n' → node_ok n → node_ok n'.
Proof.
  intros Hst Hn. pose proof (session_address _ _ _ _ _ Hst) as Ha. destruct Hn as [Ht Hss Hr].
  assert (∀ i s, sender_ok s → Forall sender_ok (<[i := s]> (nd_senders n))) as Hins
    by (intros i s Hs; by apply Forall_insert).
  destruct Hst as [t ss g pr r Hf Hl|i w pr r batch rest t ss g Hi Hf Hl Hd|i wr now w p batch c out w' t t' ss g Hi Hs
    |i w p batch c s t ss g Hi _ _ _ _ _|i w p batch c s s' t ss g Hi Hg Hs|i w p batch c t ss g Hi
    |i w c t ss g Hi|wr done now addr content e t t' ss g Hs|wr now msg g' out t t' ss g Hs|msg t ss g|o t t' ss g Hs|wr out t t' ss g Hs
    |wr now out t t' ss g Hen Hs|period bch t t' ss g Hst Hs]; cbn [nd_t nd_senders nd_running] in *;
    (split; cbn [nd_t nd_senders nd_running]; [| |intros _; destruct (Hr eq_refl) as [ip Hip]; exists ip; congruence]); try exact Hss.
  - by apply ok_set_FromTun.
  - by apply ok_set_FromTun.
  - apply Hins. apply drain_ok in Hd as [Hb Hn]. split; [by constructor|]. simpl. unfold sendBatchSize in *. lia.
  - by eapply ok_packetSend.
  - apply Hins. eapply sender_ok_next; [exact Hss|exact Hi].
  - done.
  - apply Hins. by destruct (Forall_lookup_1 _ _ _ _ Hss Hi).
  - eapply ok_updateSession; [exact Hg| |done]. eapply session_ok_pended; [exact Hs|]. by eapply get_session_ok.
  - apply Hins. eapply sender_ok_next; [exact Hss|exact Hi].
  - done.
  - apply Hins. eapply sender_ok_next; [exact Hss|exact Hi].
  - apply ok_set_counts; [by apply (ok_count t c 0)|done].
  - apply Hins. by split; [constructor|simpl; lia].
  - by eapply ok_packetRecv.
  - by eapply ok_controlRecv.
  - by apply ok_overwrite.
  - by eapply ok_controlSend.
  - by eapply ok_heartbeat.
  - pose proof (ok_handleP2P wr now t Ht) as Hp. by rewrite Hs in Hp.
  - unfold testBroadCast_tick in Hs. case_bool_decide; [|done]. simplify_eq. by apply ok_set_FromTun.
Qed.

Lemma client_step_ok v args n e n' : client_step D marshal v args n e n' → node_ok n → node_ok n'.
Proof.
  destruct 1 as [n e n' Hs|done r t t' b ss g Hs|ok out t t' b ss g Hs|now t b ss g|nat server check t ss g
    |reply w e d c c' t t' t'' ss g Hh Hb|reply os w gp t t' ids g Hh _ Hl|lost t ss g]; intros Hn.
  - by eapply session_iter_ok.
  - destruct Hn as [Ht Hss Hr]. split; cbn [nd_t nd_senders nd_running] in *; [by eapply ok_tunRecv|done|].
    rewrite (tun_address false done r (λ _, true) t t' []) by (by left). exact Hr.
  - destruct Hn as [Ht Hss Hr]. split; cbn [nd_t nd_senders nd_running] in *; [by eapply ok_tunSend|done|].
    rewrite (tun_address false false ReadError ok t t' out) by (by right). exact Hr.
  - destruct Hn as [Ht Hss Hr]. split; cbn [nd_t nd_senders nd_running] in *; [|done|done].
    apply ok_set_noise; [|done|done]. eapply noise_step_ok; [by apply step_sweep|apply Ht].
  - destruct Hn as [Ht Hss Hr]. split; cbn [nd_t nd_senders nd_running] in *; [|done|done]. apply ok_set_addrs, ok_set_status.
    unfold probeNat. repeat case_match; auto using ok_set_status, ok_set_natType.
  - destruct Hn as [Ht Hss Hr]. split; cbn [nd_t nd_senders nd_running] in *; [|done|done]. unfold backoffWait in Hb. simplify_eq.
    apply ok_set_status. eapply ok_handshake; [exact Hh|]. by apply ok_set_status.
  - destruct Hn as [Ht Hss Hr]. apply ok_handshake in Hh; [|by apply ok_set_status].
    destruct (ok_sync gp t' Hh) as [Hs Hip]. split; cbn [nd_t nd_senders nd_running]; [by apply ok_set_status| |intros _; by eexists].
    apply Forall_fmap, Forall_true. intros id. split; [constructor|simpl; lia].
  - destruct Hn as [Ht Hss Hr]. split; cbn [nd_t nd_senders nd_running] in *; [|constructor|done]. destruct lost; [by apply ok_set_status|done].
Qed.

Lemma client_run_ok v args priv random tr n : client_run D marshal v args (client_start priv random) tr n → node_ok n.
Proof.
  intros Hr. remember (client_start priv random) as n0 eqn:E. induction Hr as [n|n tr n1 e n2 _ IH Hst].
  - subst n. split; [split|constructor|done]; try done; simpl; try lia; repeat (constructor; [lia|]); constructor.
  - eapply client_step_ok; [exact Hst|]. by apply IH.
Qed.

Lemma packetRecv_no_panic wr done now addr content t :
  transport_ok t → packetRecv_datagram wr done now addr content t ≠ Panics.
Proof.
  unfold packetRecv_datagram. set (t0 := set_counts _ _ _ _ t). intros Ht Hs.
  assert (transport_ok t0) as Hok by (apply ok_set_counts; [by apply (ok_count t 1)|done]). clearbody t0.
  destruct (ParsePacket _ _ _ _ _) as [[err gp] p]. apply (ok_set_pool p) in Hok.
  destruct err; [done|]. cbn zeta in Hs.
  destruct (_ =? TypeData); [|by repeat (case_match; simplify_eq)].
  unfold recvData in Hs. destruct (HandleNoisePacket _ _ _ _) as [r m] eqn:Eh.
  destruct (ok_handleNoise _ _ _ _ _ _ Eh Hok) as (_ & Hp & _).
  destruct r as [er| |[s|] [resp|]]; by repeat (case_match; simplify_eq).
Qed.

(** What the tickers panic on. *)
Lemma NewTicker_panics d : NewTicker d = None ↔ d <= 0.
Proof. unfold NewTicker. destruct (d <=? 0) eqn:E; bool_cases; split; (done || lia). Qed.

Lemma startTest_panics isTest interval t :
  startTest marshal (testArgs isTest interval) t = Panics ↔ isTest = true ∧ i64 (1000000 * interval) <= 0.
Proof.
  rewrite <- NewTicker_panics. unfold startTest, testArgs, testBroadCast_start. destruct isTest; simpl; [|naive_solver].
  destruct (NewTicker _); [destruct (marshal _)|]; naive_solver.
Qed.

(** C6: no bad access.  In every state the goroutines of a client can reach, in any
    interleaving, over any number of sessions and whatever the network, the
    device and the server deliver: while a session runs the client has an
    address, the same in the transport, the device and the Noise manager; every
    packet in the batch of a sending worker has a whole IPv4 header; every peer
    in the table has an endpoint; every Noise session is waiting with its
    handshake or finished with both keys; and no datagram, however made, leads
    [packetRecv] to a handshake or a key that is not there.  ([client_crash] has
    the panics of the client that are not of this kind.) *)
Theorem client_accesses_safe v args priv random tr n :
  client_run D marshal v args (client_start priv random) tr n → node_ok n ∧ ¬ bad_access n.
Proof.
  intros Hr. pose proof (client_run_ok _ _ _ _ _ _ Hr) as Hn. split; [done|]. destruct Hn as [Ht Hss Ha].
  inversion 1 as [? ? ? Hl|i sd p ? ? ? Hi Hp Hl|vip s ? ? ? Hs Hr' Hc|vip s ? ? ? Hs Hg|wr done now addr content ? ? ? Hp];
    subst; cbn [nd_t nd_senders nd_running] in *.
  - by destruct (Ha eq_refl) as [ip Hip]; rewrite Hl in Hip.
  - pose proof (Forall_lookup_1 _ _ _ _ Hss Hi) as [Hb _]. rewrite list.Forall_forall in Hb. specialize (Hb _ Hp). simpl in Hb. lia.
  - destruct (session_ok_ready _ _ (get_session_ok _ _ _ Ht Hs) Hr') as (_ & [cs Hcs] & _). congruence.
  - destruct (ok_peers _ Ht vip s Hs) as [a Ea]. unfold GetDstAddr in Hg. congruence.
  - by destruct (packetRecv_no_panic wr done now addr content t Ht).
Qed.

(** ** Data leaves sealed *)

(** The bytes on the wire of a packet [g] sealed under [cs]. *)
Definition sealed_wire (cs : CipherState) (g : GamePacket) : bytes :=
  let v := (GetNonce cs).1 in
  let header := header_bytes (with_length g) v in
  header ++ aead_seal (cs_key cs) (ip4_bytes (gp_src g) ++ PutUint64 v) (sdata (Payload g))
              (take (HeaderLength - NonceLength) header).

Lemma encoded_nonempty comp g g1 : encoded_as comp g g1 → sdata (Payload g) ≠ [] → sdata (Payload g1) ≠ [].
Proof.
  destruct comp; simpl; [|by intros ->]. intros [->|(g0 & (dst & m & out & _ & Hl & _ & ->) & ->)] Hne; [done|].
  simpl. intros E. subst. unfold len in Hl. simpl in Hl. lia.
Qed.

Lemma encode_sealed p g comp cs data g' p' c' :
  EncodePacket p g false comp (Some cs) = (Some data, g', p', c') → sdata (Payload g) ≠ [] →
  ∃ g1, encoded_as comp g g1 ∧ sdata data = sealed_wire cs g1.
Proof.
  intros He Hne. apply EncodePacket_inv in He as (_ & g1 & Henc & _ & -> & _ & ->).
  exists g1. split; [done|]. unfold sealed_wire, wire_body, next_nonce. destruct (GetNonce cs) as [v cs'] eqn:Eg.
  cbn [fst orb]. rewrite bool_decide_eq_false_2; [done|]. exact (encoded_nonempty comp g g1 Henc Hne).
Qed.

(** C7: where a packet for a single peer can go.  In every state a client can
    reach, a sending worker that handles an IP packet for one peer, not a DNS
    request, does one of three things.  With a finished session, what it writes
    to the UDP socket is sealed under the sending key of that session with its
    next nonce, or empty (when the packet does not fit the length field).  With
    an unfinished session it writes nothing.  Without a session it writes nothing
    to the UDP socket either, but puts the packet, as it is, into a question to
    the server: the control connection carries it without the peer's seal.  In
    the first two cases nothing goes to the control connection. *)
Theorem peer_packet_sealed_or_asked v args priv random tr t ss g i w p batch c b wr now out w' t' :
  client_run D marshal v args (client_start priv random) tr (mkNode t true ss g) →
  ss !! i = Some (mkSender w (p :: batch) c b) →
  isDNS (sdata p) (Dns t) = false → lastByte (packetDst p) ≠ 255 →
  packetSend_one wr false (EnableCompress v) now p w t = Next (out, w', t') →
  match GetSession (noiseMgr t) (packetDst p) with
  | None => out = [] ∧
      ControlSendChan t' = ControlSendChan t ++ [NewGamePacket (localKey t) (packetDst p) TypeNoiseHandshake p]
  | Some session =>
      ControlSendChan t' = ControlSendChan t ∧
      if IsReady (s_cipher session) then
        ∃ cs, Sender (s_cipher session) = Some cs ∧
          Forall (λ d, d.1 = [] ∨ ∃ g1,
            encoded_as (EnableCompress v) (Reset (w_gp w) (localKey t) (packetDst p) TypeData p) g1 ∧
            d.1 = sealed_wire cs g1) out
      else out = []
  end.
Proof.
  intros Hr Hi Hdns Hlast Hs. pose proof (client_run_ok _ _ _ _ _ _ Hr) as [Ht Hss _]. simpl in *.
  pose proof (Forall_lookup_1 _ _ _ _ Hss Hi) as [Hb _]. apply Forall_cons_1 in Hb as [Hp _].
  unfold packetSend_one in Hs. fold (packetDst p) in Hs. rewrite Hdns, (proj2 (Z.eqb_neq _ _) Hlast) in Hs. cbn [negb] in Hs.
  destruct (GetSession (noiseMgr t) _) as [session|] eqn:Eg; [|case_bool_decide; by simplify_eq].
  pose proof (get_session_ok _ _ _ Ht Eg) as Hok.
  destruct (IsReady (s_cipher session)) eqn:Er; cbn [negb] in Hs; [|by simplify_eq].
  destruct (session_ok_ready _ _ Hok Er) as (_ & [cs Hcs] & _). rewrite Hcs in Hs.
  destruct (EncodePacket _ _ _ _ _) as [[[d g1] pl] cc] eqn:Ee.
  destruct (sendData _ _ _ _ _) as [o t1] eqn:Esd. simplify_eq.
  assert (ControlSendChan t' = ControlSendChan t ∧ Forall (λ x, x.1 = sdata (default nil_slice d)) out) as [Hq Hout]
    by (unfold sendData in Esd; repeat case_match; simplify_eq; split; try done; repeat constructor).
  split; [done|]. exists cs. split; [done|].
  eapply list.Forall_impl; [exact Hout|]. simpl. intros x ->. destruct d as [d|]; [right|by left].
  apply encode_sealed in Ee as (g2 & Henc & Hw); [exists g2; done|].
  simpl. intros E. unfold slen in Hp. rewrite E in Hp. unfold len in Hp. simpl in Hp. lia.
Qed.
End facts.

#[export] Hint Resolve ok_set_pool ok_set_status ok_set_natType ok_set_addrs ok_set_FromTun : client.

(** ** Examples *)

(** A client that shakes hands with the server and then with a peer, reads a
    packet for that peer from the device and takes it into a batch. *)
Definition ex_marshal (h : ipv4Header) : option bytes := Some (replicate 12 0 ++ ip4_bytes (default ip4_zero (h_Src h)) ++ ip4_bytes (h_Dst h)).
Definition ex_dialled : ClientTransport :=
  set_addrs (V4 (192, 0, 2, 1), 10011) (V4 (192, 0, 2, 1), 10012)
    (set_status CONNECT (probeNat (EnableP2P ex_config) (Ok TypeCone) (NewTransport [1] 100))).
Definition ex_shaken : bytes * res GamePacket * ClientTransport :=
  handshake (ClientID ex_config) (DeviceName ex_config) (Some ex_reply') (set_status INTINETWORK ex_dialled).
Definition ex_answer : GamePacket := match ex_shaken.1.2 with Ok g => g | Err _ => zeroPacket end.

Lemma ex_answer_spec : ex_shaken = (ex_shaken.1.1, Ok ex_answer, ex_shaken.2).
Proof.
  unfold ex_answer. assert (match ex_shaken.1.2 with Ok _ => true | Err _ => false end = true) as Hs by (vm_compute; reflexivity).
  destruct ex_shaken as [[w [g|e]] t]; [reflexivity|discriminate Hs].
Qed.

Definition ex_up : node :=
  mkNode (set_status RUNNING (syncVirtualIp ex_answer ex_shaken.2)) true (newSender <$> [900; 901; 902; 903]%nat) zeroPacket.

Lemma ex_up_run args :
  client_run linuxDevice ex_marshal ex_config args (client_start [1] 100) [Silent; SentWs (CtlBinary ex_shaken.1.1)] ex_up.
Proof.
  apply (run_snoc _ _ _ _ _ [Silent] (mkNode ex_dialled false [] zeroPacket)).
  - apply (run_snoc _ _ _ _ _ [] (client_start [1] 100)); [apply run_nil|]. apply step_dial.
  - apply (step_up _ _ _ _ (Some ex_reply') (λ _, true) ex_shaken.1.1 ex_answer ex_dialled ex_shaken.2 [900; 901; 902; 903]%nat);
      [exact ex_answer_spec|vm_compute; reflexivity|reflexivity].
Qed.

(** The node after an iteration that does not stop. *)
Definition next {A} (f : flow A) (a : A) : A := match f with Next x => x | _ => a end.

Lemma next_spec {A} (f : flow A) a : match f with Next _ => true | _ => false end = true → f = Next (next f a).
Proof. by destruct f. Qed.

Definition ex_hello : bytes :=
  encodeControl (NewGamePacket (10, 0, 6, 3) (10, 0, 6, 2) TypeData (Slice 5 (default [] ex_initB.1) [])).
Definition ex_greeted : effects * ClientTransport :=
  next (packetRecv_datagram (λ _, true) false 6 (V4 (192, 0, 2, 1), 10011) ex_hello (nd_t ex_up)) (mkEffects [] [], nd_t ex_up).
Definition ex_payload : bytes :=
  [0x45; 0; 0; 22; 0; 0; 0; 0; 64; 1; 0; 0] ++ [10; 0; 6; 2] ++ [10; 0; 6; 3] ++ [8; 0].
Definition ex_filled : ClientTransport := next (tunRecv_linux false false (ReadPacket ex_payload) ex_greeted.2) ex_greeted.2.
Definition ex_packet : gslice := default nil_slice (head (FromTun ex_filled)).
Definition ex_taken : list sender :=
  <[1%nat := mkSender (sd_worker (newSender 901)) [ex_packet] 1 false]> (nd_senders ex_up).

Lemma ex_taken_run : ∃ tr,
  client_run linuxDevice ex_marshal ex_config (false, None) (client_start [1] 100) tr (mkNode (set_FromTun [] ex_filled) true ex_taken zeroPacket).
Proof.
  eexists. eapply (run_snoc _ _ _ _ _ _ (mkNode ex_filled true (nd_senders ex_up) zeroPacket)).
  - eapply (run_snoc _ _ _ _ _ _ (mkNode ex_greeted.2 true (nd_senders ex_up) zeroPacket)).
    + eapply run_snoc; [apply ex_up_run|]. apply step_session.
      apply (it_recv _ _ _ (λ _, true) false 6 (V4 (192, 0, 2, 1), 10011) ex_hello ex_greeted.1).
      rewrite <- surjective_pairing. apply next_spec. vm_compute. reflexivity.
    + apply (step_tun_read linuxDevice _ _ _ false (ReadPacket ex_payload)). apply next_spec. vm_compute. reflexivity.
  - apply step_session, (it_take _ _ _ 1 _ ex_packet []); vm_compute; done.
Qed.

(** The client with a packet in the second worker's batch. *)
Lemma client_accesses_safe_witness :
  let n := mkNode (set_FromTun [] ex_filled) true ex_taken zeroPacket in
  ¬ bad_access n ∧ localIp (nd_t n) = Some (10, 0, 6, 2) ∧ sum_list_with (λ s, length (sd_batch s)) (nd_senders n) = 1%nat.
Proof.
  destruct ex_taken_run as [tr Hr].
  destruct (client_accesses_safe linuxDevice ex_marshal (or_introl eq_refl) ex_config (false, None) [1] 100 tr _ Hr) as [_ Hb].
  split; [exact Hb|]. split; vm_compute; reflexivity.
Defined.

(** A device that cannot be made ends the process. *)
Lemma refused_device_crashes : client_crash linuxDevice ex_marshal ex_config (false, None) (mkNode ex_dialled false [] zeroPacket).
Proof. eapply (crash_device _ _ _ _ (Some ex_reply') (λ _, false)); [exact ex_answer_spec|vm_compute; reflexivity]. Qed.

Definition ex_sent : list datagram * worker * ClientTransport :=
  next (packetSend_one (λ _, true) false (EnableCompress ex_config) 7 ex_packet (sd_worker (newSender 901)) (set_FromTun [] ex_filled))
    ([], sd_worker (newSender 901), ex_filled).

Lemma peer_packet_sealed_or_asked_witness :
  length (filter (λ d, bool_decide (d.1 = []) = false) ex_sent.1.1) = 1%nat ∧
  ∃ cs, Forall (λ d, d.1 = [] ∨ ∃ g1, d.1 = sealed_wire cs g1) ex_sent.1.1.
Proof.
  split; [vm_compute; reflexivity|]. destruct ex_taken_run as [tr Hr].
  assert (packetSend_one (λ _, true) false (EnableCompress ex_config) 7 ex_packet (sd_worker (newSender 901)) (set_FromTun [] ex_filled) =
    Next (ex_sent.1.1, ex_sent.1.2, ex_sent.2)) as Hsent
    by (rewrite <- !surjective_pairing; apply next_spec; vm_compute; reflexivity).
  pose proof (peer_packet_sealed_or_asked linuxDevice ex_marshal (or_introl eq_refl) ex_config (false, None) [1] 100 tr
    (set_FromTun [] ex_filled) ex_taken zeroPacket 1 (sd_worker (newSender 901)) ex_packet [] 1 false (λ _, true) 7
    ex_sent.1.1 ex_sent.1.2 ex_sent.2 Hr eq_refl ltac:(vm_compute; reflexivity) ltac:(vm_compute; discriminate) Hsent) as Hm.
  assert (match GetSession (noiseMgr (set_FromTun [] ex_filled)) (packetDst ex_packet) with
    Some s => IsReady (s_cipher s) | None => false end = true) as Hx by (vm_compute; reflexivity).
  revert Hm Hx. generalize (GetSession (noiseMgr (set_FromTun [] ex_filled)) (packetDst ex_packet)) as os.
  intros [s|] Hm Hx; [|discriminate Hx]. rewrite Hx in Hm. destruct Hm as (_ & cs & _ & Hf). exists cs.
  eapply list.Forall_impl; [exact Hf|]. intros d [Hd|(g1 & _ & Hd)]; [left; exact Hd|right; exists g1; exact Hd].
Defined.
